(** * Federated-LSTM-DSTGCRN: the normalization helpers and the LSTM-DSTGCRN model

    A shallow embedding of [MODELS/HELPERS/normalization.py] and
    [MODELS/LSTM_DSTGCRN/LSTM_DSTGCRN.py].

    Conventions of the embedding.
    - Floating-point numbers are idealised as real numbers ([R]); rounding is
      not modelled, except that the cast to [float32] is an arbitrary function
      [round_float32 : R -> R].
    - A numpy array or torch tensor is a shape with an indexing function
      ([ndarray]); operations check shapes the way numpy and torch do and
      raise otherwise ([result]).
    - Mutation of [self] is explicit state passing: a method that assigns to
      an attribute returns the new object next to its result.
    - Layers of the torch library that the source only instantiates
      ([nn.GRU], [nn.LSTM], [MultiheadAttention]) are function parameters of
      the modules that hold them; [nn.Linear] and [nn.Conv2d] are written
      out. *)

From Stdlib Require Import String Ascii.
From Stdlib Require Import Reals Lra Lia List ZArith Bool Arith PeanoNat.
Import ListNotations.

(** ** Python: exceptions and results *)

Module Py.

Inductive exn : Set :=
| IndexError
| TypeError
| ValueError
| RuntimeError
| AttributeError
| UnboundLocalError
| AssertionError
| ZeroDivisionError.

Inductive result (A : Type) : Type :=
| Ok (a : A)
| Raise (e : exn).

Arguments Ok {A} a.
Arguments Raise {A} e.

Definition bind {A B : Type} (m : result A) (k : A -> result B) : result B :=
  match m with
  | Ok a => k a
  | Raise e => Raise e
  end.

Definition assert (b : bool) : result unit :=
  if b then Ok tt else Raise AssertionError.

(** [for x in xs: state = body(state, x)] *)
Fixpoint for_each {A S : Type} (xs : list A) (body : S -> A -> result S) (s : S)
  : result S :=
  match xs with
  | [] => Ok s
  | x :: xs' =>
      match body s x with
      | Ok s' => for_each xs' body s'
      | Raise e => Raise e
      end
  end.

(** [range(n)] *)
Definition range (n : nat) : list nat := seq 0 n.

Definition returns {A : Type} (m : result A) : Prop := exists a, m = Ok a.

Definition raises {A : Type} (m : result A) : Prop := exists e, m = Raise e.

End Py.

Import Py.

Declare Scope py_scope.
Delimit Scope py_scope with py.
Notation "x <- m ;; k" := (bind m (fun x => k))
  (at level 61, m at next level, right associativity) : py_scope.
Notation "' p <- m ;; k" := (bind m (fun p => k))
  (at level 61, p pattern, m at next level, right associativity) : py_scope.
Open Scope py_scope.

(** ** Arrays: shape, indexing, broadcasting *)

Module Tensor.

Open Scope R_scope.

(** [shape] is [a.shape]; [item a [i; j; ...]] is [a[i, j, ...]]. *)
Record ndarray : Type := mkarr { shape : list nat; item : list nat -> R }.

Definition ndim (a : ndarray) : nat := length (shape a).

(** [idx] is a valid index of an array of shape [shp]. *)
Definition in_bounds (idx shp : list nat) : Prop := Forall2 lt idx shp.

Fixpoint in_boundsb (idx shp : list nat) : bool :=
  match idx, shp with
  | [], [] => true
  | i :: idx', d :: shp' => (i <? d)%nat && in_boundsb idx' shp'
  | _, _ => false
  end.

(** Two arrays are equal when they have the same shape and the same entries. *)
Definition arr_eq (a b : ndarray) : Prop :=
  shape a = shape b /\ forall idx, in_bounds idx (shape a) -> item a idx = item b idx.

(** All indices of a shape, in row-major order. *)
Fixpoint indices (shp : list nat) : list (list nat) :=
  match shp with
  | [] => [[]]
  | d :: shp' => flat_map (fun k => map (cons k) (indices shp')) (seq 0 d)
  end.

Definition rsum (n : nat) (f : nat -> R) : R :=
  fold_right (fun k acc => f k + acc) 0 (seq 0 n).

Arguments rsum n f : simpl never.

(** *** Broadcasting (numpy and torch share the rule): shapes are aligned at
    their last axis; two sizes are compatible when equal or one of them is 1. *)

Definition bdim (x y : nat) : option nat :=
  if (x =? y)%nat then Some x
  else if (x =? 1)%nat then Some y
  else if (y =? 1)%nat then Some x
  else None.

Fixpoint broadcast_rev (a b : list nat) : option (list nat) :=
  match a, b with
  | [], _ => Some b
  | _, [] => Some a
  | x :: a', y :: b' =>
      match bdim x y, broadcast_rev a' b' with
      | Some d, Some r => Some (d :: r)
      | _, _ => None
      end
  end.

Definition broadcast_shapes (a b : list nat) : option (list nat) :=
  option_map (@rev nat) (broadcast_rev (rev a) (rev b)).

(** The index of the operand of shape [shp] that the result index [idx] reads. *)
Fixpoint bindex_rev (shp idx : list nat) : list nat :=
  match shp, idx with
  | d :: shp', k :: idx' => (if (d =? 1)%nat then 0%nat else k) :: bindex_rev shp' idx'
  | _, _ => []
  end.

Definition bindex (shp idx : list nat) : list nat :=
  rev (bindex_rev (rev shp) (rev idx)).

Definition map1 (f : R -> R) (a : ndarray) : ndarray :=
  mkarr (shape a) (fun i => f (item a i)).

Definition broadcast2 (e : exn) (f : R -> R -> R) (a b : ndarray) : result ndarray :=
  match broadcast_shapes (shape a) (shape b) with
  | Some s =>
      Ok (mkarr s (fun i => f (item a (bindex (shape a) i)) (item b (bindex (shape b) i))))
  | None => Raise e
  end.

(** [a.shape[-1]] *)
Definition last_dim (a : ndarray) : result nat :=
  match rev (shape a) with
  | d :: _ => Ok d
  | [] => Raise IndexError
  end.

(** [a[..., :k]] for [k >= 0]. *)
Definition slice_last (k : nat) (a : ndarray) : result ndarray :=
  match rev (shape a) with
  | d :: s => Ok (mkarr (rev (Nat.min k d :: s)) (item a))
  | [] => Raise IndexError
  end.

(** [a[mask] = v] where [mask] is [a == c]. *)
Definition set_where_eq (c v : R) (a : ndarray) : ndarray :=
  mkarr (shape a) (fun i => if Req_dec_T (item a i) c then v else item a i).

(** [np.sum(a == c)]: the number of entries equal to [c]. *)
Definition count_eq (c : R) (a : ndarray) : nat :=
  length (filter (fun i => if Req_dec_T (item a i) c then true else false)
                 (indices (shape a))).

End Tensor.

Import Tensor.

(** ** MODELS/HELPERS/normalization.py *)

Module Normalization.

Open Scope R_scope.

Inductive device : Set := CPU | CUDA (n : nat).

Inductive dtype : Set := Float32 | Float64.

(** The values the scalers are given: a Python (or numpy) float, a numpy array
    of rank at least 1, a torch tensor. *)
Inductive value : Type :=
| PyFloat (r : R)
| NpArray (a : ndarray)
| TorchTensor (dev : device) (dt : dtype) (a : ndarray).

(** What the source leaves to numpy and torch: the cast to [float32],
    arithmetic between a torch tensor and a numpy array, and [np.sum] of a
    torch tensor. *)
Class Interop : Type := {
  round_float32 : R -> R;
  mixed_binop : (R -> R -> R) -> value -> value -> result value;
  np_sum_torch : device -> ndarray -> result nat
}.

Definition device_eqb (d1 d2 : device) : bool :=
  match d1, d2 with
  | CPU, CPU => true
  | CUDA n, CUDA m => (n =? m)%nat
  | _, _ => false
  end.

Definition promote (t1 t2 : dtype) : dtype :=
  match t1, t2 with
  | Float32, Float32 => Float32
  | _, _ => Float64
  end.

Definition scalar (r : R) : ndarray := mkarr [] (fun _ => r).

(** A numpy operation whose result is 0-dimensional returns a numpy float. *)
Definition np_value (a : ndarray) : value :=
  match shape a with
  | [] => PyFloat (item a [])
  | _ => NpArray a
  end.

(** torch operands are on one device, but a 0-dimensional CPU tensor combines
    with any. *)
Definition result_device (d1 : device) (a : ndarray) (d2 : device) (b : ndarray)
  : option device :=
  if device_eqb d1 d2 then Some d1
  else match d1, shape a, d2, shape b with
       | CPU, [], _, _ => Some d2
       | _, _, CPU, [] => Some d1
       | _, _, _, _ => None
       end.

Section Values.

Context {interop : Interop}.

(** [x op y] for the element-wise arithmetic operators. *)
Definition binop (f : R -> R -> R) (x y : value) : result value :=
  match x, y with
  | PyFloat a, PyFloat b => Ok (PyFloat (f a b))
  | NpArray a, NpArray b => r <- broadcast2 ValueError f a b ;; Ok (np_value r)
  | NpArray a, PyFloat b => r <- broadcast2 ValueError f a (scalar b) ;; Ok (np_value r)
  | PyFloat a, NpArray b => r <- broadcast2 ValueError f (scalar a) b ;; Ok (np_value r)
  | TorchTensor d1 t1 a, TorchTensor d2 t2 b =>
      match result_device d1 a d2 b with
      | Some d => r <- broadcast2 RuntimeError f a b ;; Ok (TorchTensor d (promote t1 t2) r)
      | None => Raise RuntimeError
      end
  | TorchTensor d t a, PyFloat b => Ok (TorchTensor d t (map1 (fun v => f v b) a))
  | PyFloat a, TorchTensor d t b => Ok (TorchTensor d t (map1 (fun v => f a v) b))
  | _, _ => mixed_binop f x y
  end.

(** [v[..., :k]] *)
Definition slice_value (k : nat) (v : value) : result value :=
  match v with
  | PyFloat _ => Raise TypeError
  | NpArray a => r <- slice_last k a ;; Ok (NpArray r)
  | TorchTensor d t a => r <- slice_last k a ;; Ok (TorchTensor d t r)
  end.

(** [torch.from_numpy(v).to(dev).type(torch.float32)] *)
Definition from_numpy_float32 (dev : device) (v : value) : result value :=
  match v with
  | NpArray a => Ok (TorchTensor dev Float32 (map1 round_float32 a))
  | _ => Raise TypeError
  end.

(** [np.sum(v == 0)] *)
Definition np_sum_eq0 (v : value) : result nat :=
  match v with
  | PyFloat r => Ok (if Req_dec_T r 0 then 1%nat else 0%nat)
  | NpArray a => Ok (count_eq 0 a)
  | TorchTensor d _ a => np_sum_torch d a
  end.

End Values.

Module NScaler.

Definition transform (data : value) : value := data.

Definition inverse_transform (data : value) : value := data.

End NScaler.

Module StandardScaler.

Section Methods.

Context {interop : Interop}.

Record t : Type := mk { mean : value; std : value }.

Definition init (mean std : value) : t := mk mean std.

Definition transform (self : t) (data : value) : result value :=
  d <- binop Rminus data (mean self) ;;
  binop Rdiv d (std self).

(** [(data * self.std) + self.mean] *)
Definition rescale (self : t) (data : value) : result value :=
  d <- binop Rmult data (std self) ;;
  binop Rplus d (mean self).

(** Returns [self] as the call leaves it, and the value returned or the
    exception raised. *)
Definition inverse_transform (self : t) (data : value) : t * result value :=
  match data, mean self with
  | NpArray d, NpArray m =>
      match last_dim d, last_dim m with
      | Ok kd, Ok km =>
          if negb (kd =? km)%nat then
            match slice_last kd m with
            | Ok m' =>
                let self1 := mk (NpArray m') (std self) in
                match slice_value kd (std self) with
                | Ok s' =>
                    let self2 := mk (NpArray m') s' in
                    (self2, rescale self2 data)
                | Raise e => (self1, Raise e)
                end
            | Raise e => (self, Raise e)
            end
          else (self, rescale self data)
      | Raise e, _ => (self, Raise e)
      | _, Raise e => (self, Raise e)
      end
  | TorchTensor dev _ _, NpArray _ =>
      match from_numpy_float32 dev (std self) with
      | Ok s' =>
          let self1 := mk (mean self) s' in
          match from_numpy_float32 dev (mean self1) with
          | Ok m' =>
              let self2 := mk m' s' in
              (self2, rescale self2 data)
          | Raise e => (self1, Raise e)
          end
      | Raise e => (self, Raise e)
      end
  | _, _ => (self, rescale self data)
  end.

End Methods.

End StandardScaler.

Module MinMax01Scaler.

Section Methods.

Context {interop : Interop}.

Record t : Type := mk { min : value; max : value }.

Definition init (min max : value) : t := mk min max.

Definition transform (self : t) (data : value) : result value :=
  n <- np_sum_eq0 (max self) ;;
  if (0 <? n)%nat then
    d <- binop Rminus data (min self) ;;
    w <- binop Rminus (max self) (min self) ;;
    binop Rdiv d w
  else
    d <- binop Rminus data (min self) ;;
    w <- binop Rminus (max self) (min self) ;;
    binop Rdiv d w.

(** [type(data) == torch.Tensor and type(self.min) == np.ndarray] *)
Definition torch_data_numpy_min (data min : value) : option device :=
  match data, min with
  | TorchTensor dev _ _, NpArray _ => Some dev
  | _, _ => None
  end.

(** The two assignments under [if type(data) == torch.Tensor and ...]. *)
Definition to_torch (self : t) (dev : device) : t * result unit :=
  match from_numpy_float32 dev (min self) with
  | Ok mn =>
      let self1 := mk mn (max self) in
      match from_numpy_float32 dev (max self1) with
      | Ok mx => (mk mn mx, Ok tt)
      | Raise e => (self1, Raise e)
      end
  | Raise e => (self, Raise e)
  end.

Definition inverse_transform (self : t) (data : value) : t * result value :=
  let '(self', r) :=
    match torch_data_numpy_min data (min self) with
    | Some dev => to_torch self dev
    | None => (self, Ok tt)
    end in
  (self', _ <- r ;;
          w <- binop Rminus (max self') (min self') ;;
          d <- binop Rmult data w ;;
          binop Rplus d (min self')).

End Methods.

End MinMax01Scaler.

Module MinMax11Scaler.

Section Methods.

Context {interop : Interop}.

Record t : Type := mk { min : value; max : value }.

Definition init (min max : value) : t := mk min max.

Definition transform (self : t) (data : value) : result value :=
  d <- binop Rminus data (min self) ;;
  w <- binop Rminus (max self) (min self) ;;
  q <- binop Rdiv d w ;;
  p <- binop Rmult q (PyFloat 2) ;;
  binop Rminus p (PyFloat 1).

Definition to_torch (self : t) (dev : device) : t * result unit :=
  match from_numpy_float32 dev (min self) with
  | Ok mn =>
      let self1 := mk mn (max self) in
      match from_numpy_float32 dev (max self1) with
      | Ok mx => (mk mn mx, Ok tt)
      | Raise e => (self1, Raise e)
      end
  | Raise e => (self, Raise e)
  end.

Definition inverse_transform (self : t) (data : value) : t * result value :=
  let '(self', r) :=
    match MinMax01Scaler.torch_data_numpy_min data (min self) with
    | Some dev => to_torch self dev
    | None => (self, Ok tt)
    end in
  (self', _ <- r ;;
          p <- binop Rplus data (PyFloat 1) ;;
          q <- binop Rdiv p (PyFloat 2) ;;
          w <- binop Rminus (max self') (min self') ;;
          d <- binop Rmult q w ;;
          binop Rplus d (min self')).

End Methods.

End MinMax11Scaler.

Module ColumnMinMaxScaler.

Section Methods.

Context {interop : Interop}.

Record t : Type := mk { min : value; min_max : value }.

(** [self.min_max[self.min_max == 0] = 1]: an in-place masked assignment,
    which a float does not support. *)
Definition set_zeros_to_one (v : value) : result value :=
  match v with
  | PyFloat _ => Raise TypeError
  | NpArray a => Ok (NpArray (set_where_eq 0 1 a))
  | TorchTensor d t a => Ok (TorchTensor d t (set_where_eq 0 1 a))
  end.

Definition init (min max : value) : result t :=
  w <- binop Rminus max min ;;
  w' <- set_zeros_to_one w ;;
  Ok (mk min w').

(** [v.shape] *)
Definition shape_of (v : value) : result (list nat) :=
  match v with
  | PyFloat _ => Raise AttributeError
  | NpArray a => Ok (shape a)
  | TorchTensor _ _ a => Ok (shape a)
  end.

Definition transform (self : t) (data : value) : result value :=
  _ <- shape_of data ;;
  _ <- shape_of (min_max self) ;;
  d <- binop Rminus data (min self) ;;
  binop Rdiv d (min_max self).

Definition inverse_transform (self : t) (data : value) : t * result value :=
  let '(self', r) :=
    match MinMax01Scaler.torch_data_numpy_min data (min self) with
    | Some dev =>
        match from_numpy_float32 dev (min_max self) with
        | Ok w =>
            let self1 := mk (min self) w in
            match from_numpy_float32 dev (min self1) with
            | Ok mn => (mk mn w, Ok tt)
            | Raise e => (self1, Raise e)
            end
        | Raise e => (self, Raise e)
        end
    | None => (self, Ok tt)
    end in
  (self', _ <- r ;;
          d <- binop Rmult data (min_max self') ;;
          binop Rplus d (min self')).

End Methods.

End ColumnMinMaxScaler.

(** *** What a call of [StandardScaler.inverse_transform] does to the stored
    statistics, in the specification's words. *)

Inductive call_kind : Set :=
| Shrinks (k : nat)        (* numpy data whose last dimension [k] is smaller *)
| Converts (dev : device)  (* torch data on [dev], numpy statistics *)
| Leaves.                  (* the remaining cases *)

Definition classify (mean data : value) : call_kind :=
  match data, mean with
  | NpArray d, NpArray m =>
      match last_dim d, last_dim m with
      | Ok kd, Ok km => if (kd <? km)%nat then Shrinks kd else Leaves
      | _, _ => Leaves
      end
  | TorchTensor dev _ _, NpArray _ => Converts dev
  | _, _ => Leaves
  end.

(** The array [a] with its last dimension cut down to [k]. *)
Definition shrunk (k : nat) (a : ndarray) : ndarray :=
  mkarr (removelast (shape a) ++ [k]) (item a).

Definition shrunk_value (k : nat) (v : value) : value :=
  match v with
  | NpArray a => NpArray (shrunk k a)
  | _ => v
  end.

Definition float32_tensor {interop : Interop} (dev : device) (v : value) : value :=
  match v with
  | NpArray a => TorchTensor dev Float32 (map1 round_float32 a)
  | _ => v
  end.

Definition statistics_after {interop : Interop} (self : StandardScaler.t) (data : value)
  : StandardScaler.t :=
  match classify (StandardScaler.mean self) data with
  | Shrinks k =>
      StandardScaler.mk (shrunk_value k (StandardScaler.mean self))
                        (shrunk_value k (StandardScaler.std self))
  | Converts dev =>
      StandardScaler.mk (float32_tensor dev (StandardScaler.mean self))
                        (float32_tensor dev (StandardScaler.std self))
  | Leaves => self
  end.

(** The stored statistics belong together: when the mean is a numpy array,
    the std is a numpy array of the same shape. *)
Definition coherent (self : StandardScaler.t) : Prop :=
  match StandardScaler.mean self, StandardScaler.std self with
  | NpArray m, NpArray s => shape s = shape m
  | NpArray _, _ => False
  | _, _ => True
  end.

(** [inverse_transform] applied to the result of [transform] on the array [x]
    returns an array equal to [x]. *)
Definition undoes {T : Type} (transform : T -> value -> result value)
    (inverse_transform : T -> value -> T * result value) (self : T) (x : ndarray) : Prop :=
  exists y z self',
    transform self (NpArray x) = Ok y /\
    inverse_transform self y = (self', Ok (NpArray z)) /\
    arr_eq z x.

(** Every entry of [v] is nonzero. *)
Definition nonzero_entries (v : value) : Prop :=
  match v with
  | PyFloat r => r <> 0
  | NpArray a => forall idx, item a idx <> 0
  | TorchTensor _ _ a => forall idx, item a idx <> 0
  end.

(** An instance for running the scalers on examples: the cast keeps the value,
    and the operations between numpy and torch that the source does not
    determine raise. *)
Definition example_interop : Interop :=
  {| round_float32 := fun r => r;
     mixed_binop := fun _ _ _ => Raise TypeError;
     np_sum_torch := fun _ _ => Raise TypeError |}.

(** The integer dtypes of numpy. *)
Inductive int_dtype : Set :=
| Int8 | Int16 | Int32 | Int64
| UInt8 | UInt16 | UInt32 | UInt64.

Definition bits (t : int_dtype) : Z :=
  match t with
  | Int8 | UInt8 => 8
  | Int16 | UInt16 => 16
  | Int32 | UInt32 => 32
  | Int64 | UInt64 => 64
  end%Z.

Definition is_signed (t : int_dtype) : bool :=
  match t with
  | Int8 | Int16 | Int32 | Int64 => true
  | UInt8 | UInt16 | UInt32 | UInt64 => false
  end.

(** The smallest and the largest value of a dtype. *)
Definition dtype_min (t : int_dtype) : Z :=
  if is_signed t then (- 2 ^ (bits t - 1))%Z else 0%Z.

Definition dtype_max (t : int_dtype) : Z :=
  if is_signed t then (2 ^ (bits t - 1) - 1)%Z else (2 ^ bits t - 1)%Z.

(** Integer arithmetic of numpy stays in the dtype of its operands and
    wraps around: [wrap t z] is the value of dtype [t] that is stored when
    the exact result is [z]. The Python integer [1] of [max - min + 1] takes
    the dtype of the numpy scalar it is added to (the promotion rule of
    numpy 2; where the width is a value of the dtype, older versions compute
    the same number). *)
Definition wrap (t : int_dtype) (z : Z) : Z :=
  (dtype_min t + (z - dtype_min t) mod 2 ^ bits t)%Z.

(** A 2D integer array of dtype [elem_dtype]: [entry data j i] is
    [data[j, i]]. *)
Record int_matrix : Type :=
  mkmat { elem_dtype : int_dtype; nrows : nat; ncols : nat; entry : nat -> nat -> Z }.

(** Every entry of the array is a value of its dtype. *)
Definition in_dtype (data : int_matrix) : Prop :=
  forall j i, (j < nrows data)%nat -> (i < ncols data)%nat ->
    (dtype_min (elem_dtype data) <= entry data j i <= dtype_max (elem_dtype data))%Z.

(** [column.max()] and [column.min()] of a column of [len] entries; numpy
    raises on an empty column. *)
Definition column_max (len : nat) (column : nat -> Z) : result Z :=
  match len with
  | O => Raise ValueError
  | S n => Ok (fold_left Z.max (map column (seq 1 n)) (column 0%nat))
  end.

Definition column_min (len : nat) (column : nat -> Z) : result Z :=
  match len with
  | O => Raise ValueError
  | S n => Ok (fold_left Z.min (map column (seq 1 n)) (column 0%nat))
  end.

(** [np.zeros(shp)] *)
Definition zeros (shp : list nat) : ndarray := mkarr shp (fun _ => 0).

(** [np.zeros((len, width))] for an integer [width]: numpy refuses a
    negative dimension. Memory is not bounded here. *)
Definition zeros_2d (len : nat) (width : Z) : result ndarray :=
  if (width <? 0)%Z then Raise ValueError
  else Ok (zeros [len; Z.to_nat width]).

(** The position an index [p] denotes on an axis of [size] entries: a
    negative index counts from the end, and an index outside
    [[-size, size)] is out of bounds. *)
Definition axis_position (size : nat) (p : Z) : option nat :=
  if (0 <=? p)%Z && (p <? Z.of_nat size)%Z then Some (Z.to_nat p)
  else if (- Z.of_nat size <=? p)%Z && (p <? 0)%Z then Some (Z.to_nat (p + Z.of_nat size))
  else None.

Definition on_axis (size : nat) (p : Z) : bool :=
  match axis_position size p with
  | Some _ => true
  | None => false
  end.

Definition at_position (size : nat) (p : Z) (k : nat) : bool :=
  match axis_position size p with
  | Some k' => (k =? k')%nat
  | None => false
  end.

(** [m[np.arange(len), pos] = 1] for a 2D array [m]: numpy checks every
    index before it writes, and raises when one is out of bounds. *)
Definition set_ones (len : nat) (pos : nat -> Z) (m : ndarray) : result ndarray :=
  match shape m with
  | [rows; size] =>
      if (len <=? rows)%nat && forallb (fun j => on_axis size (pos j)) (seq 0 len)
      then Ok (mkarr (shape m)
                     (fun idx =>
                        match idx with
                        | [j; k] => if (j <? len)%nat && at_position size (pos j) k
                                    then 1 else item m idx
                        | _ => item m idx
                        end))
      else Raise IndexError
  | _ => Raise IndexError
  end.

(** [np.hstack((a, b))] of two 2D arrays. *)
Definition hstack (a b : ndarray) : result ndarray :=
  match shape a, shape b with
  | [la; wa], [lb; wb] =>
      if (la =? lb)%nat then
        Ok (mkarr [la; (wa + wb)%nat]
                  (fun idx =>
                     match idx with
                     | [j; k] => if (k <? wa)%nat then item a [j; k]
                                 else item b [j; (k - wa)%nat]
                     | _ => 0
                     end))
      else Raise ValueError
  | _, _ => Raise ValueError
  end.

(** The body of the loop of [one_hot_by_column]; [encoded] is [None] while the
    variable is unbound. [max - min] is a difference of two numpy scalars of
    the dtype of [data], [column - min] a difference of an array and such a
    scalar. *)
Definition one_hot_column (data : int_matrix) (encoded : option ndarray) (i : nat)
  : result (option ndarray) :=
  let len := nrows data in
  let t := elem_dtype data in
  let column := fun j => entry data j i in
  max <- column_max len column ;;
  min <- column_min len column ;;
  zero_matrix <- zeros_2d len (wrap t (wrap t (max - min) + 1)) ;;
  zero_matrix <- set_ones len (fun j => wrap t (column j - min)) zero_matrix ;;
  if (i =? 0)%nat then Ok (Some zero_matrix)
  else match encoded with
       | Some e => r <- hstack e zero_matrix ;; Ok (Some r)
       | None => Raise UnboundLocalError
       end.

Definition one_hot_by_column (data : int_matrix) : result ndarray :=
  encoded <- for_each (range (ncols data)) (one_hot_column data) None ;;
  match encoded with
  | Some e => Ok e
  | None => Raise UnboundLocalError
  end.

(** *** The layout of the encoding, in the specification's words. *)

(** [m] is the largest (smallest) of the first [len] entries of [column]. *)
Definition is_max (len : nat) (column : nat -> Z) (m : Z) : Prop :=
  (exists j, (j < len)%nat /\ column j = m) /\
  forall j, (j < len)%nat -> (column j <= m)%Z.

Definition is_min (len : nat) (column : nat -> Z) (m : Z) : Prop :=
  (exists j, (j < len)%nat /\ column j = m) /\
  forall j, (j < len)%nat -> (m <= column j)%Z.

(** The number of output columns allocated to an input column. *)
Definition block_width (min max : Z) : nat := Z.to_nat (max - min + 1).

(** The first output column of the block of input column [i]: the sum of the
    widths of the blocks before it. *)
Fixpoint block_offset (width : nat -> nat) (i : nat) : nat :=
  match i with
  | O => O
  | S i' => (block_offset width i' + width i')%nat
  end.

(** The minimum and maximum the loop of [one_hot_by_column] computes for
    column [i]. *)
Definition min_of (data : int_matrix) (i : nat) : Z :=
  match column_min (nrows data) (fun j => entry data j i) with
  | Ok m => m
  | Raise _ => 0%Z
  end.

Definition max_of (data : int_matrix) (i : nat) : Z :=
  match column_max (nrows data) (fun j => entry data j i) with
  | Ok m => m
  | Raise _ => 0%Z
  end.

Definition width_of (data : int_matrix) (i : nat) : nat :=
  block_width (min_of data i) (max_of data i).

(** The width [max_i - min_i + 1] of the block of column [i] is a value of
    the dtype of the array. *)
Definition column_fits (data : int_matrix) (i : nat) : Prop :=
  (max_of data i - min_of data i + 1 <= dtype_max (elem_dtype data))%Z.

(** A 3 x 2 array of 64-bit integers with columns [5, 7, 6] and [0, 0, 1]. *)
Definition example_matrix : int_matrix :=
  mkmat Int64 3 2 (fun j i =>
    match i, j with
    | O, O => 5 | O, 1%nat => 7 | O, _ => 6
    | _, 2%nat => 1 | _, _ => 0
    end)%Z.

(** A 2 x 1 array of 8-bit integers with the column [-100, 100], whose width
    201 is no 8-bit integer. *)
Definition example_int8_matrix : int_matrix :=
  mkmat Int8 2 1 (fun j _ => match j with O => -100 | _ => 100 end)%Z.

(** A 2 x 1 array of 64-bit integers with the column [-2^63, 2^63 - 1]. *)
Definition example_int64_matrix : int_matrix :=
  mkmat Int64 2 1 (fun j _ => match j with O => - 2 ^ 63 | _ => 2 ^ 63 - 1 end)%Z.

(** *** [minmax_by_column] *)

(** A 2D array of floats: [rentry data j i] is [data[j, i]]. *)
Record real_matrix : Type := mkrmat { rrows : nat; rcols : nat; rentry : nat -> nat -> R }.

Definition real_column_max (len : nat) (column : nat -> R) : result R :=
  match len with
  | O => Raise ValueError
  | S n => Ok (fold_left Rmax (map column (seq 1 n)) (column 0%nat))
  end.

Definition real_column_min (len : nat) (column : nat -> R) : result R :=
  match len with
  | O => Raise ValueError
  | S n => Ok (fold_left Rmin (map column (seq 1 n)) (column 0%nat))
  end.

(** [column[:, np.newaxis]] of a column of [len] entries. *)
Definition as_column (len : nat) (column : nat -> R) : ndarray :=
  mkarr [len; 1%nat] (fun idx => match idx with
                                 | [j; _] => column j
                                 | _ => 0
                                 end).

(** The body of the loop of [minmax_by_column]; [normalized] is [None] while
    [_normalized] is unbound. Dividing an array by zero does not raise. *)
Definition minmax_column (data : real_matrix) (normalized : option ndarray) (i : nat)
  : result (option ndarray) :=
  let len := rrows data in
  let column := fun j => rentry data j i in
  max <- real_column_max len column ;;
  min <- real_column_min len column ;;
  let column := fun j => (column j - min) / (max - min) in
  let column := as_column len column in
  if (i =? 0)%nat then Ok (Some column)
  else match normalized with
       | Some e => r <- hstack e column ;; Ok (Some r)
       | None => Raise UnboundLocalError
       end.

Definition minmax_by_column (data : real_matrix) : result ndarray :=
  normalized <- for_each (range (rcols data)) (minmax_column data) None ;;
  match normalized with
  | Some e => Ok e
  | None => Raise UnboundLocalError
  end.

(** [m] is the largest (smallest) of the first [len] entries of [column]. *)
Definition is_largest (len : nat) (column : nat -> R) (m : R) : Prop :=
  (exists j, (j < len)%nat /\ column j = m) /\
  forall j, (j < len)%nat -> column j <= m.

Definition is_smallest (len : nat) (column : nat -> R) (m : R) : Prop :=
  (exists j, (j < len)%nat /\ column j = m) /\
  forall j, (j < len)%nat -> m <= column j.

(** The minimum and maximum the loop of [minmax_by_column] computes for
    column [i]. *)
Definition real_min_of (data : real_matrix) (i : nat) : R :=
  match real_column_min (rrows data) (fun j => rentry data j i) with
  | Ok m => m
  | Raise _ => 0
  end.

Definition real_max_of (data : real_matrix) (i : nat) : R :=
  match real_column_max (rrows data) (fun j => rentry data j i) with
  | Ok m => m
  | Raise _ => 0
  end.

(** A 2 x 2 array with columns [1, 3] and [4, 2]. *)
Definition example_real_matrix : real_matrix :=
  mkrmat 2 2 (fun j i =>
    match i, j with
    | O, O => 1 | O, _ => 3
    | _, O => 4 | _, _ => 2
    end).

(** *** Round trips of the scalers, the other way round *)

(** [transform] applied to the result of [inverse_transform] on the array [y],
    on the scaler as [inverse_transform] left it, returns an array equal to
    [y]. *)
Definition redoes {T : Type} (transform : T -> value -> result value)
    (inverse_transform : T -> value -> T * result value) (self : T) (y : ndarray) : Prop :=
  exists self' x z,
    inverse_transform self (NpArray y) = (self', Ok x) /\
    transform self' x = Ok (NpArray z) /\
    arr_eq z y.

End Normalization.

(** ** The torch operations the model uses *)

Module Torch.

Open Scope R_scope.

Fixpoint insert_at {A : Type} (n : nat) (x : A) (l : list A) : list A :=
  match n, l with
  | O, _ => x :: l
  | S n', y :: l' => y :: insert_at n' x l'
  | S _, [] => [x]
  end.

Fixpoint remove_at {A : Type} (n : nat) (l : list A) : list A :=
  match n, l with
  | _, [] => []
  | O, _ :: l' => l'
  | S n', y :: l' => y :: remove_at n' l'
  end.

Fixpoint list_eqb (l1 l2 : list nat) : bool :=
  match l1, l2 with
  | [], [] => true
  | x :: l1', y :: l2' => (x =? y)%nat && list_eqb l1' l2'
  | _, _ => false
  end.

Definition numel (shp : list nat) : nat := fold_right Nat.mul 1%nat shp.

Definition sigmoid (x : R) : R := 1 / (1 + exp (- x)).

Definition relu (x : R) : R := Rmax 0 x.

(** [torch.eye(n)] *)
Definition eye (n : nat) : ndarray :=
  mkarr [n; n]
        (fun idx => match idx with
                    | [i; j] => if (i =? j)%nat then 1 else 0
                    | _ => 0
                    end).

(** [torch.zeros(shp...)] *)
Definition zeros (shp : list nat) : ndarray := mkarr shp (fun _ => 0).

(** [a.unsqueeze(dim)] for [0 <= dim <= a.dim()]. *)
Definition unsqueeze (dim : nat) (a : ndarray) : result ndarray :=
  if (dim <=? ndim a)%nat then
    Ok (mkarr (insert_at dim 1%nat (shape a)) (fun idx => item a (remove_at dim idx)))
  else Raise IndexError.

(** [a.repeat(reps...)] *)
Definition repeat_ (reps : list nat) (a : ndarray) : result ndarray :=
  if (ndim a <=? length reps)%nat then
    let lead := (length reps - ndim a)%nat in
    let padded := List.repeat 1%nat lead ++ shape a in
    Ok (mkarr (map (fun '(r, d) => (r * d)%nat) (combine reps padded))
              (fun idx =>
                 item a (skipn lead (map (fun '(i, d) => (i mod d)%nat)
                                         (combine idx padded)))))
  else Raise RuntimeError.

(** One size of [a.expand(sizes...)]: [None] is [-1]. *)
Definition expand_dim (size : option nat) (d : nat) : option nat :=
  match size with
  | None => Some d
  | Some s => if (d =? s)%nat then Some s else if (d =? 1)%nat then Some s else None
  end.

Fixpoint expand_shape (sizes : list (option nat)) (shp : list nat) : option (list nat) :=
  match sizes, shp with
  | [], [] => Some []
  | s :: sizes', d :: shp' =>
      match expand_dim s d, expand_shape sizes' shp' with
      | Some d', Some r => Some (d' :: r)
      | _, _ => None
      end
  | _, _ => None
  end.

(** [a.expand(sizes...)] with as many sizes as [a] has dimensions, or more, the
    new leading ones being given. *)
Definition expand (sizes : list (option nat)) (a : ndarray) : result ndarray :=
  if (ndim a <=? length sizes)%nat then
    let lead := (length sizes - ndim a)%nat in
    if forallb (fun s => match s with Some _ => true | None => false end)
               (firstn lead sizes) then
      match expand_shape sizes (List.repeat 1%nat lead ++ shape a) with
      | Some s =>
          Ok (mkarr s (fun idx =>
                         item a (map (fun '(i, d) => if (d =? 1)%nat then 0%nat else i)
                                     (combine (skipn lead idx) (shape a)))))
      | None => Raise RuntimeError
      end
    else Raise RuntimeError
  else Raise RuntimeError.

(** The index of [a] that an index of [a.squeeze()] reads. *)
Fixpoint unsqueezed_index (shp idx : list nat) : list nat :=
  match shp with
  | [] => []
  | d :: shp' =>
      if (d =? 1)%nat then 0%nat :: unsqueezed_index shp' idx
      else match idx with
           | i :: idx' => i :: unsqueezed_index shp' idx'
           | [] => 0%nat :: unsqueezed_index shp' []
           end
  end.

(** [a.squeeze()]: every dimension of size 1 is removed. *)
Definition squeeze (a : ndarray) : ndarray :=
  mkarr (filter (fun d => negb (d =? 1)%nat) (shape a))
        (fun idx => item a (unsqueezed_index (shape a) idx)).

(** [a.squeeze(-1)] *)
Definition squeeze_last (a : ndarray) : ndarray :=
  match rev (shape a) with
  | 1%nat :: s => mkarr (rev s) (fun idx => item a (idx ++ [0%nat]))
  | _ => a
  end.

(** [dims] lists each of [0 .. n-1]. *)
Definition is_permutation (n : nat) (dims : list nat) : bool :=
  (length dims =? n)%nat &&
  forallb (fun j => existsb (Nat.eqb j) dims) (seq 0 n).

(** The position of [j] in [dims]. *)
Fixpoint position (j : nat) (dims : list nat) : nat :=
  match dims with
  | [] => 0%nat
  | d :: dims' => if (d =? j)%nat then 0%nat else S (position j dims')
  end.

(** [a.permute(dims...)] *)
Definition permute (dims : list nat) (a : ndarray) : result ndarray :=
  if is_permutation (ndim a) dims then
    Ok (mkarr (map (fun p => nth p (shape a) 0%nat) dims)
              (fun idx => item a (map (fun j => nth (position j dims) idx 0%nat)
                                      (seq 0 (ndim a)))))
  else Raise RuntimeError.

(** The list [0 .. n-1] with [d0] and [d1] exchanged. *)
Definition swap_dims (n d0 d1 : nat) : list nat :=
  map (fun j => if (j =? d0)%nat then d1 else if (j =? d1)%nat then d0 else j) (seq 0 n).

(** [a.transpose(d0, d1)] *)
Definition transpose (d0 d1 : nat) (a : ndarray) : result ndarray :=
  if (d0 <? ndim a)%nat && (d1 <? ndim a)%nat then permute (swap_dims (ndim a) d0 d1) a
  else Raise IndexError.

(** [torch.matmul(a, b)]: the last two dimensions are multiplied, the others
    broadcast; a 1-dimensional operand is a row (left) or a column (right). *)
Definition matmul (a b : ndarray) : result ndarray :=
  match rev (shape a), rev (shape b) with
  | [], _ => Raise RuntimeError
  | _, [] => Raise RuntimeError
  | [m], [m'] =>
      if (m =? m')%nat then
        Ok (mkarr [] (fun _ => rsum m (fun k => item a [k] * item b [k])))
      else Raise RuntimeError
  | [m], p :: m' :: bb =>
      if (m =? m')%nat then
        Ok (mkarr (rev bb ++ [p])
                  (fun idx =>
                     match rev idx with
                     | j :: bi => rsum m (fun k => item a [k] * item b (rev bi ++ [k; j]))
                     | _ => 0
                     end))
      else Raise RuntimeError
  | m :: n :: ba, [m'] =>
      if (m =? m')%nat then
        Ok (mkarr (rev ba ++ [n])
                  (fun idx =>
                     match rev idx with
                     | i :: bi => rsum m (fun k => item a (rev bi ++ [i; k]) * item b [k])
                     | _ => 0
                     end))
      else Raise RuntimeError
  | m :: n :: ba, p :: m' :: bb =>
      if (m =? m')%nat then
        match broadcast_rev ba bb with
        | Some bs =>
            Ok (mkarr (rev bs ++ [n; p])
                      (fun idx =>
                         match rev idx with
                         | j :: i :: bi =>
                             rsum m (fun k =>
                                       item a (rev (bindex_rev ba bi) ++ [i; k]) *
                                       item b (rev (bindex_rev bb bi) ++ [k; j]))
                         | _ => 0
                         end))
        | None => Raise RuntimeError
        end
      else Raise RuntimeError
  end.

(** [torch.sum(a, dim=-1)] *)
Definition sum_last (a : ndarray) : ndarray :=
  match rev (shape a) with
  | d :: s => mkarr (rev s) (fun idx => rsum d (fun k => item a (idx ++ [k])))
  | [] => a
  end.

(** [torch.diag_embed(a)] *)
Definition diag_embed (a : ndarray) : result ndarray :=
  match rev (shape a) with
  | d :: s =>
      Ok (mkarr (rev s ++ [d; d])
                (fun idx =>
                   match rev idx with
                   | j :: i :: bi => if (i =? j)%nat then item a (rev bi ++ [i]) else 0
                   | _ => 0
                   end))
  | [] => Raise RuntimeError
  end.

(** [a + b], [a - b], [a * b] with broadcasting. *)
Definition add (a b : ndarray) : result ndarray := broadcast2 RuntimeError Rplus a b.

Definition sub (a b : ndarray) : result ndarray := broadcast2 RuntimeError Rminus a b.

Definition mul (a b : ndarray) : result ndarray := broadcast2 RuntimeError Rmult a b.

(** [c * a], [c - a] and [a ** p] for a Python number [c] or [p]. *)
Definition scale (c : R) (a : ndarray) : ndarray := map1 (fun v => c * v) a.

Definition rsub (c : R) (a : ndarray) : ndarray := map1 (fun v => c - v) a.

Definition pow (a : ndarray) (p : R) : ndarray := map1 (fun v => Rpower v p) a.

(** [torch.stack(ts, dim)] *)
Definition stack (ts : list ndarray) (dim : nat) : result ndarray :=
  match ts with
  | [] => Raise RuntimeError
  | t0 :: _ =>
      if forallb (fun t => list_eqb (shape t) (shape t0)) ts then
        if (dim <=? ndim t0)%nat then
          Ok (mkarr (insert_at dim (length ts) (shape t0))
                    (fun idx => item (nth (nth dim idx 0%nat) ts t0) (remove_at dim idx)))
        else Raise IndexError
      else Raise RuntimeError
  end.

(** [torch.cat((a, b), dim=-1)] *)
Definition cat_last (a b : ndarray) : result ndarray :=
  match rev (shape a), rev (shape b) with
  | da :: sa, db :: sb =>
      if list_eqb sa sb then
        Ok (mkarr (rev sa ++ [(da + db)%nat])
                  (fun idx =>
                     match rev idx with
                     | k :: bi => if (k <? da)%nat then item a idx
                                  else item b (rev bi ++ [(k - da)%nat])
                     | [] => 0
                     end))
      else Raise RuntimeError
  | _, _ => Raise RuntimeError
  end.

(** [a.narrow(-1, start, len)] *)
Definition narrow_last (start len : nat) (a : ndarray) : ndarray :=
  mkarr (removelast (shape a) ++ [len])
        (fun idx => match rev idx with
                    | k :: bi => item a (rev bi ++ [(start + k)%nat])
                    | [] => 0
                    end).

(** [torch.split(a, size, dim=-1)]: chunks of [size] entries, the last one
    possibly shorter. *)
Definition split_last (a : ndarray) (size : nat) : result (list ndarray) :=
  match rev (shape a) with
  | d :: _ =>
      if (size =? 0)%nat then
        if (d =? 0)%nat then Ok [a] else Raise RuntimeError
      else
        Ok (map (fun c => narrow_last (c * size) (Nat.min size (d - c * size)) a)
                (seq 0 (Nat.max 1 ((d + size - 1) / size))))
  | [] => Raise RuntimeError
  end.

(** [a.select(dim, k)], which indexing with an integer at position [dim] and
    [:] elsewhere amounts to. *)
Definition select (dim k : nat) (a : ndarray) : result ndarray :=
  if (dim <? ndim a)%nat then
    if (k <? nth dim (shape a) 0%nat)%nat then
      Ok (mkarr (remove_at dim (shape a)) (fun idx => item a (insert_at dim k idx)))
    else Raise IndexError
  else Raise IndexError.

Fixpoint replace_at {A : Type} (n : nat) (x : A) (l : list A) : list A :=
  match n, l with
  | _, [] => []
  | O, _ :: l' => x :: l'
  | S n', y :: l' => y :: replace_at n' x l'
  end.

(** [a[:, -1:]]: the last entry along dimension 1, kept as a dimension. *)
Definition last_along_1 (a : ndarray) : result ndarray :=
  match shape a with
  | _ :: t :: _ =>
      let start := (t - 1)%nat in
      Ok (mkarr (replace_at 1 (t - start)%nat (shape a))
                (fun idx => item a (replace_at 1 (start + nth 1 idx 0)%nat idx)))
  | _ => Raise IndexError
  end.

(** Row-major position of an index, and back. *)
Definition ravel (shp idx : list nat) : nat :=
  fold_left (fun acc '(d, i) => (acc * d + i)%nat) (combine shp idx) 0%nat.

Fixpoint unravel_rev (rshp : list nat) (n : nat) : list nat :=
  match rshp with
  | [] => []
  | d :: s => (n mod d)%nat :: unravel_rev s (n / d)%nat
  end.

Definition unravel (shp : list nat) (n : nat) : list nat :=
  rev (unravel_rev (rev shp) n).

(** The shape [a.reshape(sizes...)] asks for, [None] being the one [-1]. *)
Definition infer_shape (n : nat) (sizes : list (option nat)) : option (list nat) :=
  let known := fold_right (fun s acc => match s with Some d => (d * acc)%nat | None => acc end)
                          1%nat sizes in
  let unknowns := length (filter (fun s => match s with None => true | _ => false end) sizes) in
  match unknowns with
  | O => if (known =? n)%nat
         then Some (map (fun s => match s with Some d => d | None => 0%nat end) sizes)
         else None
  | 1%nat =>
      if (known =? 0)%nat then None
      else if (n mod known =? 0)%nat
           then Some (map (fun s => match s with Some d => d | None => (n / known)%nat end) sizes)
           else None
  | _ => None
  end.

(** [a.reshape(sizes...)] *)
Definition reshape (sizes : list (option nat)) (a : ndarray) : result ndarray :=
  match infer_shape (numel (shape a)) sizes with
  | Some s => Ok (mkarr s (fun idx => item a (unravel (shape a) (ravel s idx))))
  | None => Raise RuntimeError
  end.

(** *** [torch.einsum] with two operands *)

Definition labels := list ascii.

(** An assignment of sizes, or of index values, to subscript letters. *)
Definition env := list (ascii * nat).

Fixpoint lookup (e : env) (l : ascii) : option nat :=
  match e with
  | [] => None
  | (l', v) :: e' => if Ascii.eqb l l' then Some v else lookup e' l
  end.

Definition value_of (e : env) (l : ascii) : nat :=
  match lookup e l with
  | Some v => v
  | None => 0%nat
  end.

(** Splits ["ab,cd->ef"] into its three lists of letters. *)
Fixpoint until_comma (s : list ascii) : option (labels * list ascii) :=
  match s with
  | [] => None
  | c :: s' =>
      if Ascii.eqb c ","%char then Some ([], s')
      else match until_comma s' with
           | Some (l, r) => Some (c :: l, r)
           | None => None
           end
  end.

Fixpoint until_arrow (s : list ascii) : option (labels * list ascii) :=
  match s with
  | [] => None
  | c :: s' =>
      if Ascii.eqb c "-"%char then
        match s' with
        | c' :: s'' => if Ascii.eqb c' ">"%char then Some ([], s'') else None
        | [] => None
        end
      else match until_arrow s' with
           | Some (l, r) => Some (c :: l, r)
           | None => None
           end
  end.

Definition parse_equation (eq : string) : option (labels * labels * labels) :=
  match until_comma (list_ascii_of_string eq) with
  | Some (la, rest) =>
      match until_arrow rest with
      | Some (lb, lo) => Some (la, lb, lo)
      | None => None
      end
  | None => None
  end.

(** The sizes of the letters of one operand; a letter met before must have a
    size that broadcasts with the new one. *)
Fixpoint bind_sizes (ls : labels) (shp : list nat) (e : env) : option env :=
  match ls, shp with
  | [], [] => Some e
  | l :: ls', d :: shp' =>
      match lookup e l with
      | None => bind_sizes ls' shp' ((l, d) :: e)
      | Some d0 =>
          match bdim d0 d with
          | Some d' => bind_sizes ls' shp' ((l, d') :: e)
          | None => None
          end
      end
  | _, _ => None
  end.

Definition mem (l : ascii) (ls : labels) : bool := existsb (Ascii.eqb l) ls.

Fixpoint dedup (ls : labels) : labels :=
  match ls with
  | [] => []
  | l :: ls' => if mem l ls' then dedup ls' else l :: dedup ls'
  end.

(** The index at which an operand is read under the assignment [ie]. *)
Definition read_index (ls : labels) (shp : list nat) (ie : env) : list nat :=
  map (fun '(l, d) => if (d =? 1)%nat then 0%nat else value_of ie l) (combine ls shp).

(** The sum over all values of the letters [ls]. *)
Fixpoint sum_over (ls : labels) (sizes ie : env) (body : env -> R) : R :=
  match ls with
  | [] => body ie
  | l :: ls' => rsum (value_of sizes l) (fun k => sum_over ls' sizes ((l, k) :: ie) body)
  end.

Definition einsum (eq : string) (a b : ndarray) : result ndarray :=
  match parse_equation eq with
  | Some (la, lb, lo) =>
      match bind_sizes la (shape a) [] with
      | Some e1 =>
          match bind_sizes lb (shape b) e1 with
          | Some sizes =>
              if forallb (fun l => mem l (la ++ lb)) lo then
                let summed := dedup (filter (fun l => negb (mem l lo)) (la ++ lb)) in
                Ok (mkarr (map (value_of sizes) lo)
                          (fun idx =>
                             sum_over summed sizes (combine lo idx)
                               (fun ie => item a (read_index la (shape a) ie) *
                                          item b (read_index lb (shape b) ie))))
              else Raise RuntimeError
          | None => Raise RuntimeError
          end
      | None => Raise RuntimeError
      end
  | None => Raise ValueError
  end.

(** *** [torch.nn.Linear] *)

(** [weight] has shape [(out_features, in_features)], [bias] has shape
    [(out_features,)]. *)
Record Linear : Type := mkLinear { weight : ndarray; bias : ndarray }.

(** [F.linear(x, weight, bias)]: [x @ weight.T + bias] over the last
    dimension of [x]. *)
Definition linear (l : Linear) (x : ndarray) : result ndarray :=
  match shape (weight l), rev (shape x) with
  | [o; i], d :: s =>
      if (d =? i)%nat && list_eqb (shape (bias l)) [o] then
        Ok (mkarr (rev s ++ [o])
                  (fun idx =>
                     match rev idx with
                     | k :: bi =>
                         rsum i (fun j => item x (rev bi ++ [j]) * item (weight l) [k; j])
                         + item (bias l) [k]
                     | [] => 0
                     end))
      else Raise RuntimeError
  | _, _ => Raise RuntimeError
  end.

(** [torch.nn.Conv2d(1, out_channels, kernel_size=(1, k), bias=True)] on an
    input of shape [(B, 1, H, W)]: [weight] has shape [(out_channels, 1, 1, k)]
    and [bias] has shape [(out_channels,)]. *)
Record Conv2d : Type := mkConv2d { conv_weight : ndarray; conv_bias : ndarray }.

Definition conv2d (c : Conv2d) (x : ndarray) : result ndarray :=
  match shape (conv_weight c), shape x with
  | [o; 1%nat; 1%nat; k], [b; 1%nat; h; w] =>
      if (k <=? w)%nat && list_eqb (shape (conv_bias c)) [o] then
        Ok (mkarr [b; o; h; (w - k + 1)%nat]
                  (fun idx =>
                     match idx with
                     | [ib; io; ih; iw] =>
                         rsum k (fun j => item x [ib; 0%nat; ih; (iw + j)%nat] *
                                          item (conv_weight c) [io; 0%nat; 0%nat; j])
                         + item (conv_bias c) [io]
                     | _ => 0
                     end))
      else Raise RuntimeError
  | _, _ => Raise RuntimeError
  end.

End Torch.

(** ** MODELS/LSTM_DSTGCRN/LSTM_DSTGCRN.py *)

Module Model.

Import Torch.

Open Scope R_scope.

(** The layers that the source takes from torch as they are: applying a GRU or
    an LSTM built for [(input_size, hidden_size, num_layers)] with
    [batch_first=True], applying a multi-head attention built for
    [(embed_dim, num_heads)] to query, key and value, and the initial value of
    a parameter, which depends on where it is created ([key]). *)
Class TorchNN : Type := {
  nn_GRU : nat -> nat -> nat -> ndarray -> result (ndarray * ndarray);
  nn_LSTM : nat -> nat -> nat -> ndarray -> result (ndarray * ndarray);
  nn_MultiheadAttention :
    nat -> nat -> ndarray -> ndarray -> ndarray -> result (ndarray * ndarray);
  new_parameter : list nat -> list nat -> ndarray;
  new_parameter_shape : forall key shp, shape (new_parameter key shp) = shp;
  nn_GRU_shape : forall i h l x m t,
    (1 <= h)%nat -> (1 <= l)%nat -> shape x = [m; t; i] ->
    exists out hn, nn_GRU i h l x = Ok (out, hn) /\ shape out = [m; t; h];
  nn_LSTM_shape : forall i h l x m t,
    (1 <= h)%nat -> (1 <= l)%nat -> shape x = [m; t; i] ->
    exists out hc, nn_LSTM i h l x = Ok (out, hc) /\ shape out = [m; t; h];
  nn_MultiheadAttention_shape : forall e heads q t m,
    (1 <= heads)%nat -> (e mod heads = 0)%nat -> shape q = [t; m; e] ->
    exists out w, nn_MultiheadAttention e heads q q q = Ok (out, w) /\
                  shape out = [t; m; e]
}.

(** [a.shape[k]] *)
Definition dim_at (a : ndarray) (k : nat) : result nat :=
  match nth_error (shape a) k with
  | Some d => Ok d
  | None => Raise IndexError
  end.

(** Reading an attribute that [__init__] may not have set. *)
Definition attr {A : Type} (field : option A) : result A :=
  match field with
  | Some v => Ok v
  | None => Raise AttributeError
  end.

(** [nn.Linear(i, o)] *)
Definition new_linear {nn : TorchNN} (key : list nat) (i o : nat) : Linear :=
  mkLinear (new_parameter (0%nat :: key) [o; i]) (new_parameter (1%nat :: key) [o]).

Module AVWGCN.

Record t : Type := mk {
  cheb_k : nat;
  weights_pool : ndarray;
  bias_pool : ndarray;
  hyperGNN_dim1 : nat;
  hyperGNN_dim2 : nat;
  embed_dim : nat;
  fc1 : Linear;
  fc2 : Linear;
  fc3 : Linear;
  cached_identity : option ndarray
}.

Definition init {nn : TorchNN} (key : list nat)
    (dim_in dim_out cheb_k embed_dim hyperGNN_dim1 hyperGNN_dim2 : nat) : t :=
  mk cheb_k
     (new_parameter (0%nat :: key) [embed_dim; cheb_k; dim_in; dim_out])
     (new_parameter (1%nat :: key) [embed_dim; dim_out])
     hyperGNN_dim1 hyperGNN_dim2 embed_dim
     (new_linear (2%nat :: key) dim_in hyperGNN_dim1)
     (new_linear (3%nat :: key) hyperGNN_dim1 hyperGNN_dim2)
     (new_linear (4%nat :: key) hyperGNN_dim2 embed_dim)
     None.

Definition set_cached_identity (self : t) (c : ndarray) : t :=
  mk (cheb_k self) (weights_pool self) (bias_pool self)
     (hyperGNN_dim1 self) (hyperGNN_dim2 self) (embed_dim self)
     (fc1 self) (fc2 self) (fc3 self) (Some c).

(** [self.fc]: fc1, sigmoid, fc2, sigmoid, fc3. *)
Definition fc (self : t) (x : ndarray) : result ndarray :=
  h1 <- linear (fc1 self) x ;;
  h2 <- linear (fc2 self) (map1 sigmoid h1) ;;
  linear (fc3 self) (map1 sigmoid h2).

(** [L] is assigned only under [if normalize]. *)
Definition get_laplacian (graph I : ndarray) (normalize : bool) : result ndarray :=
  L <- (if normalize then
          graph <- add graph I ;;
          D <- diag_embed (pow (sum_last graph) (-1 / 2)) ;;
          DG <- matmul D graph ;;
          L <- matmul DG D ;;
          Ok (Some L)
        else Ok None) ;;
  match L with
  | Some L => Ok L
  | None => Raise UnboundLocalError
  end.

(** [F.relu(torch.matmul(nodevec, nodevec.transpose(2, 1)))] *)
Definition similarity (nodevec : ndarray) : result ndarray :=
  nvT <- transpose 2 1 nodevec ;;
  g <- matmul nodevec nvT ;;
  Ok (map1 relu g).

(** One turn of [for k in range(2, self.cheb_k)]:
    [support_set.append(2 * matmul(supports, support_set[-1]) - support_set[-2])]. *)
Definition append_support (supports : ndarray) (support_set : list ndarray) (k : nat)
  : result (list ndarray) :=
  let n := length support_set in
  match nth_error support_set (n - 1), nth_error support_set (n - 2) with
  | Some last, Some before =>
      p <- matmul supports last ;;
      t <- sub (scale 2 p) before ;;
      Ok (support_set ++ [t])
  | _, _ => Raise IndexError
  end.

(** The branch [if dynamic_embed:] of [forward]. *)
Definition forward_dynamic (self : t) (x node_embeddings : ndarray)
  : result (t * (ndarray * ndarray)) :=
  B <- dim_at node_embeddings 0 ;;
  N <- dim_at node_embeddings 1 ;;
  cached <- (match cached_identity self with
             | None => unsqueeze 0 (eye N)
             | Some c => Ok c
             end) ;;
  let self := set_cached_identity self cached in
  supports1 <- repeat_ [B; 1%nat; 1%nat] cached ;;
  filter <- fc self x ;;
  p <- mul node_embeddings filter ;;
  let nodevec := map1 tanh p in
  g <- similarity nodevec ;;
  supports <- get_laplacian g supports1 true ;;
  support_set <- for_each (seq 2 (cheb_k self - 2)) (append_support supports)
                          [supports1; supports] ;;
  supports <- stack support_set 1 ;;
  x_g <- einsum "bknm,bmc->bknc" supports x ;;
  weights <- einsum "bnd,dkio->bnkio" node_embeddings (weights_pool self) ;;
  bias <- matmul node_embeddings (bias_pool self) ;;
  x_g <- permute [0; 2; 1; 3]%nat x_g ;;
  y <- einsum "bnki,bnkio->bno" x_g weights ;;
  x_gconv <- add y bias ;;
  adj <- select 1 1 supports ;;
  Ok (self, (x_gconv, adj)).

(** The branch [else:] of [forward]. *)
Definition forward_static (self : t) (x node_embeddings : ndarray)
  : result (t * (ndarray * ndarray)) :=
  batch_size <- dim_at x 0 ;;
  let node_embeddings := squeeze node_embeddings in
  node_num <- dim_at node_embeddings 0 ;;
  let supports1 := eye node_num in
  filter <- fc self x ;;
  e1 <- unsqueeze 0 node_embeddings ;;
  node_embeddings_expanded <- expand [Some batch_size; None; None] e1 ;;
  p <- mul node_embeddings_expanded filter ;;
  let nodevec := map1 tanh p in
  g <- similarity nodevec ;;
  supports2 <- get_laplacian g supports1 true ;;
  g' <- similarity nodevec ;;
  supports3 <- get_laplacian g' supports2 true ;;
  x_g1 <- einsum "nm,bmc->bnc" supports1 x ;;
  x_g2 <- einsum "bnm,bmc->bnc" supports2 x ;;
  x_g3 <- einsum "bnm,bmc->bnc" supports3 x ;;
  x_g <- stack [x_g1; x_g2; x_g3] 1 ;;
  weights <- einsum "nd,dkio->nkio" node_embeddings (weights_pool self) ;;
  bias <- matmul node_embeddings (bias_pool self) ;;
  x_g <- permute [0; 2; 1; 3]%nat x_g ;;
  y <- einsum "bnki,nkio->bno" x_g weights ;;
  x_gconv <- add y bias ;;
  let supports := x_g in
  adj <- select 1 1 supports ;;
  Ok (self, (x_gconv, adj)).

(** [dynamic_embed] is the module's global variable; the module object comes
    back with its cache filled. *)
Definition forward (dynamic_embed : bool) (self : t) (x node_embeddings : ndarray)
  : result (t * (ndarray * ndarray)) :=
  if dynamic_embed then forward_dynamic self x node_embeddings
  else forward_static self x node_embeddings.

End AVWGCN.

Module AGCRNCell.

Record t : Type := mk {
  node_num : nat;
  hidden_dim : nat;
  gate : AVWGCN.t;
  update : AVWGCN.t
}.

Definition init {nn : TorchNN} (key : list nat)
    (node_num dim_in dim_out cheb_k embed_dim hyperGNN_dim1 hyperGNN_dim2 : nat) : t :=
  mk node_num dim_out
     (AVWGCN.init (0%nat :: key) (dim_in + dim_out) (2 * dim_out) cheb_k embed_dim
                  hyperGNN_dim1 hyperGNN_dim2)
     (AVWGCN.init (1%nat :: key) (dim_in + dim_out) dim_out cheb_k embed_dim
                  hyperGNN_dim1 hyperGNN_dim2).

Definition forward (dynamic_embed : bool) (self : t) (x state node_embeddings : ndarray)
  : result (t * (ndarray * ndarray)) :=
  input_and_state <- cat_last x state ;;
  '(gate', (z_r, adjmatrix)) <-
    AVWGCN.forward dynamic_embed (gate self) input_and_state node_embeddings ;;
  let z_r := map1 sigmoid z_r in
  parts <- split_last z_r (hidden_dim self) ;;
  match parts with
  | [z; r] =>
      zs <- mul z state ;;
      candidate <- cat_last x zs ;;
      '(update', (hc, _)) <-
        AVWGCN.forward dynamic_embed (update self) candidate node_embeddings ;;
      let hc := map1 tanh hc in
      rs <- mul r state ;;
      rh <- mul (rsub 1 r) hc ;;
      h <- add rs rh ;;
      Ok (mk (node_num self) (hidden_dim self) gate' update', (h, adjmatrix))
  | _ => Raise ValueError
  end.

Definition init_hidden_state (self : t) (batch_size : nat) : ndarray :=
  zeros [batch_size; node_num self; hidden_dim self].

End AGCRNCell.

Module AVWDCRNN.

Record t : Type := mk {
  node_num : nat;
  input_dim : nat;
  num_layers : nat;
  dcrnn_cells : list AGCRNCell.t
}.

(** [self.dcrnn_cells.append(AGCRNCell(node_num, dim_out, dim_out, ...))] for
    [_ in range(1, num_layers)]. *)
Definition append_cell {nn : TorchNN} (key : list nat)
    (node_num dim_out cheb_k embed_dim hyperGNN_dim1 hyperGNN_dim2 : nat)
    (cells : list AGCRNCell.t) (i : nat) : result (list AGCRNCell.t) :=
  Ok (cells ++ [AGCRNCell.init (i :: key) node_num dim_out dim_out cheb_k embed_dim
                               hyperGNN_dim1 hyperGNN_dim2]).

Definition init {nn : TorchNN} (key : list nat)
    (node_num dim_in dim_out cheb_k embed_dim hyperGNN_dim1 hyperGNN_dim2 num_layers : nat)
  : result t :=
  _ <- assert (1 <=? num_layers)%nat ;;
  let cells := [AGCRNCell.init (0%nat :: key) node_num dim_in dim_out cheb_k embed_dim
                               hyperGNN_dim1 hyperGNN_dim2] in
  cells <- for_each (seq 1 (num_layers - 1))
                    (append_cell key node_num dim_out cheb_k embed_dim
                                 hyperGNN_dim1 hyperGNN_dim2)
                    cells ;;
  Ok (mk node_num dim_in num_layers cells).

(** [self.dcrnn_cells[i] = cell] *)
Fixpoint set_cell (cells : list AGCRNCell.t) (i : nat) (cell : AGCRNCell.t)
  : list AGCRNCell.t :=
  match cells, i with
  | [], _ => []
  | _ :: cells', O => cell :: cells'
  | c :: cells', S i' => c :: set_cell cells' i' cell
  end.

(** [self.dcrnn_cells[i]] *)
Definition get_cell (cells : list AGCRNCell.t) (i : nat) : result AGCRNCell.t :=
  match nth_error cells i with
  | Some c => Ok c
  | None => Raise IndexError
  end.

(** What layer [i] carries from one timestep to the next: the cells, the
    hidden state, [inner_states] and [adjmatrices]. *)
Definition layer_state : Type :=
  (list AGCRNCell.t * ndarray * list ndarray * list ndarray)%type.

(** The body of [for t in range(seq_length)]. *)
Definition time_step (dynamic_embed : bool) (i : nat)
    (current_inputs node_embeddings : ndarray) (s : layer_state) (t : nat)
  : result layer_state :=
  let '(cells, state, inner_states, adjmatrices) := s in
  cell <- get_cell cells i ;;
  x_t <- select 1 t current_inputs ;;
  e_t <- (if dynamic_embed then select 1 t node_embeddings else Ok node_embeddings) ;;
  '(cell, (state, adjmatrix)) <- AGCRNCell.forward dynamic_embed cell x_t state e_t ;;
  Ok (set_cell cells i cell, state, inner_states ++ [state], adjmatrices ++ [adjmatrix]).

(** What the loop over the layers carries: the cells, [current_inputs],
    [output_hidden], and [adjmatrices], unbound before the first layer. *)
Definition encoder_state : Type :=
  (list AGCRNCell.t * ndarray * list ndarray * option (list ndarray))%type.

(** The body of [for i in range(self.num_layers)]. *)
Definition layer_step (dynamic_embed : bool) (seq_length : nat)
    (init_state node_embeddings : ndarray) (s : encoder_state) (i : nat)
  : result encoder_state :=
  let '(cells, current_inputs, output_hidden, _) := s in
  state <- select 0 i init_state ;;
  '(cells, state, inner_states, adjmatrices) <-
    for_each (range seq_length)
             (time_step dynamic_embed i current_inputs node_embeddings)
             (cells, state, [], []) ;;
  current_inputs <- stack inner_states 1 ;;
  Ok (cells, current_inputs, output_hidden ++ [state], Some adjmatrices).

Definition forward (dynamic_embed : bool) (self : t) (x init_state node_embeddings : ndarray)
  : result (t * (ndarray * list ndarray * list ndarray)) :=
  d2 <- dim_at x 2 ;;
  _ <- (if (d2 =? node_num self)%nat
        then d3 <- dim_at x 3 ;; assert (d3 =? input_dim self)%nat
        else Raise AssertionError) ;;
  seq_length <- dim_at x 1 ;;
  '(cells, current_inputs, output_hidden, adjmatrices) <-
    for_each (range (num_layers self))
             (layer_step dynamic_embed seq_length init_state node_embeddings)
             (dcrnn_cells self, x, [], None) ;;
  match adjmatrices with
  | Some adjmatrices =>
      Ok (mk (node_num self) (input_dim self) (num_layers self) cells,
          (current_inputs, output_hidden, adjmatrices))
  | None => Raise UnboundLocalError
  end.

(** The body of the loop of [init_hidden]. *)
Definition append_hidden (cells : list AGCRNCell.t) (batch_size : nat)
    (init_states : list ndarray) (i : nat) : result (list ndarray) :=
  cell <- get_cell cells i ;;
  Ok (init_states ++ [AGCRNCell.init_hidden_state cell batch_size]).

Definition init_hidden (self : t) (batch_size : nat) : result ndarray :=
  init_states <- for_each (range (num_layers self))
                          (append_hidden (dcrnn_cells self) batch_size) [] ;;
  stack init_states 0.

End AVWDCRNN.

(** [args] of [DynamicEmbedding] and [LSTM_DSTGCRN]; [num_nodes] is [None]
    when the attribute is missing. *)
Record Args : Type := mkArgs {
  num_nodes : option nat;
  num_layers_node : nat;
  gru_layer : bool;
  lstm_layer : bool;
  attention_layer : bool;
  num_heads : nat;
  input_dim : nat;
  rnn_units : nat;
  hidden_dim_node : nat;
  output_dim : nat;
  lookahead : nat;
  lookback : nat;
  num_layers : nat;
  embed_dim : nat;
  TNE : bool;
  batch_size : nat;
  dynamic_embed : bool;
  cheb_k : nat;
  hyperGNN_dim1 : nat;
  hyperGNN_dim2 : nat
}.

Module DynamicEmbedding.

(** A sequence layer is the function that applies it; [kind] records which
    constructor built it. *)
Inductive kind : Set := GRU | LSTM.

Record t : Type := mk {
  num_nodes : nat;
  embed_dim : nat;
  num_layers : nat;
  gru_layer : bool;
  lstm_layer : bool;
  sequential_model : option (kind * (ndarray -> result (ndarray * ndarray)));
  fc : option Linear;
  fc1 : option Linear;
  fc2 : option Linear;
  attention_layer : bool;
  self_attn : option (ndarray -> ndarray -> ndarray -> result (ndarray * ndarray))
}.

(** [MultiheadAttention(embed_dim, num_heads)] asserts that [embed_dim] is a
    multiple of [num_heads]. *)
Definition new_attention {nn : TorchNN} (embed_dim num_heads : nat)
  : result (ndarray -> ndarray -> ndarray -> result (ndarray * ndarray)) :=
  _ <- assert ((1 <=? num_heads)%nat && (embed_dim mod num_heads =? 0)%nat) ;;
  Ok (nn_MultiheadAttention embed_dim num_heads).

Definition init {nn : TorchNN} (key : list nat) (args : Args)
    (input_dim embed_dim hidden_dim_node : nat) : result t :=
  num_nodes <- attr (Model.num_nodes args) ;;
  let num_layers := num_layers_node args in
  let '(sequential_model, fc, fc1, fc2) :=
    if Model.gru_layer args then
      (Some (GRU, nn_GRU input_dim hidden_dim_node num_layers),
       Some (new_linear (0%nat :: key) hidden_dim_node embed_dim), None, None)
    else if Model.lstm_layer args then
      (Some (LSTM, nn_LSTM input_dim hidden_dim_node num_layers),
       Some (new_linear (0%nat :: key) hidden_dim_node embed_dim), None, None)
    else
      (None, None,
       Some (new_linear (1%nat :: key) input_dim hidden_dim_node),
       Some (new_linear (2%nat :: key) hidden_dim_node embed_dim)) in
  self_attn <- (if Model.attention_layer args
                then a <- new_attention embed_dim (num_heads args) ;; Ok (Some a)
                else Ok None) ;;
  Ok (mk num_nodes embed_dim num_layers (Model.gru_layer args) (Model.lstm_layer args)
         sequential_model fc fc1 fc2 (Model.attention_layer args) self_attn).

(** [a // b] *)
Definition floordiv (a b : nat) : result nat :=
  if (b =? 0)%nat then Raise ZeroDivisionError else Ok (a / b)%nat.

Definition forward (self : t) (x : ndarray) : result ndarray :=
  x <- permute [0; 2; 1; 3]%nat x ;;
  d2 <- dim_at x 2 ;;
  d3 <- dim_at x 3 ;;
  x <- reshape [None; Some d2; Some d3] x ;;
  out <- (if gru_layer self || lstm_layer self then
            m <- attr (sequential_model self) ;;
            '(out, _) <- snd m x ;;
            l <- attr (fc self) ;;
            linear l out
          else
            l1 <- attr (fc1 self) ;;
            out <- linear l1 x ;;
            l2 <- attr (fc2 self) ;;
            linear l2 out) ;;
  if negb (attention_layer self) then
    let out := map1 relu out in
    d0 <- dim_at x 0 ;;
    q <- floordiv d0 (num_nodes self) ;;
    out <- reshape [Some q; Some (num_nodes self); None; Some (embed_dim self)] out ;;
    let attn_output := out in
    permute [0; 2; 1; 3]%nat attn_output
  else
    let out := map1 relu out in
    out <- permute [1; 0; 2]%nat out ;;
    attn <- attr (self_attn self) ;;
    '(attn_output, _) <- attn out out out ;;
    attn_output <- permute [1; 0; 2]%nat attn_output ;;
    d0 <- dim_at x 0 ;;
    q <- floordiv d0 (num_nodes self) ;;
    attn_output <-
      reshape [Some q; Some (num_nodes self); None; Some (embed_dim self)] attn_output ;;
    permute [0; 2; 1; 3]%nat attn_output.

End DynamicEmbedding.

(** A parameter of a module, as [named_parameters()] and [parameters()] yield
    it, and a numpy array with its dtype. *)
Record parameter : Type := mkparam {
  param_name : string;
  param_data : ndarray;
  requires_grad : bool;
  param_dtype : Normalization.dtype;
  param_device : Normalization.device
}.

Record np_array : Type := mknp { np_dtype : Normalization.dtype; np_data : ndarray }.

(** [param.data = d] *)
Definition set_data (p : parameter) (d : ndarray) : parameter :=
  mkparam (param_name p) d (requires_grad p) (param_dtype p) (param_device p).

(** [t.type(dtype)]: of the casts between float32 and float64, only the one
    from float64 to float32 rounds. *)
Definition cast {interop : Normalization.Interop} (from to : Normalization.dtype)
    (a : ndarray) : ndarray :=
  match from, to with
  | Normalization.Float64, Normalization.Float32 =>
      map1 Normalization.round_float32 a
  | _, _ => a
  end.

Module LSTM_DSTGCRN.

Record t : Type := mk {
  num_nodes : nat;
  input_dim : nat;
  hidden_dim : nat;
  hidden_dim_node : nat;
  output_dim : nat;
  lookahead : nat;
  num_layers : nat;
  embed_dim : nat;
  TNE : bool;
  batch : nat;
  node_embeddings : option ndarray;
  dynamic_embedding : option DynamicEmbedding.t;
  encoder : AVWDCRNN.t;
  end_conv : Conv2d
}.

(** [__init__] returns the module and the value it gives the global
    [dynamic_embed]. *)
Definition init {nn : TorchNN} (args : Args) : result (t * bool) :=
  let num_nodes := match Model.num_nodes args with
                   | Some n => n
                   | None => 1%nat
                   end in
  let args := mkArgs (Some num_nodes) (num_layers_node args) (gru_layer args)
                     (lstm_layer args) (attention_layer args) (num_heads args)
                     (Model.input_dim args) (rnn_units args) (Model.hidden_dim_node args)
                     (Model.output_dim args) (Model.lookahead args) (lookback args)
                     (Model.num_layers args) (Model.embed_dim args) (Model.TNE args)
                     (batch_size args) (Model.dynamic_embed args) (cheb_k args)
                     (hyperGNN_dim1 args) (hyperGNN_dim2 args) in
  let dynamic_embed := Model.dynamic_embed args in
  '(node_embeddings, dynamic_embedding) <-
    (if Model.TNE args then
       Ok (Some (new_parameter [0%nat]
                   [batch_size args; lookback args; num_nodes; Model.embed_dim args]),
           None)
     else if dynamic_embed then
       d <- DynamicEmbedding.init [1%nat] args (Model.input_dim args) (Model.embed_dim args)
                                  (Model.hidden_dim_node args) ;;
       Ok (None, Some d)
     else
       Ok (Some (new_parameter [0%nat] [1%nat; num_nodes; Model.embed_dim args]), None)) ;;
  encoder <- AVWDCRNN.init [2%nat] num_nodes (Model.input_dim args) (rnn_units args)
                           (cheb_k args) (Model.embed_dim args) (hyperGNN_dim1 args)
                           (hyperGNN_dim2 args) (Model.num_layers args) ;;
  let end_conv :=
    mkConv2d (new_parameter [3%nat; 0%nat]
                [(Model.lookahead args * Model.output_dim args)%nat; 1%nat; 1%nat;
                 rnn_units args])
             (new_parameter [3%nat; 1%nat]
                [(Model.lookahead args * Model.output_dim args)%nat]) in
  Ok (mk num_nodes (Model.input_dim args) (rnn_units args) (Model.hidden_dim_node args)
         (Model.output_dim args) (Model.lookahead args) (Model.num_layers args)
         (Model.embed_dim args) (Model.TNE args) (batch_size args)
         node_embeddings dynamic_embedding encoder end_conv,
      dynamic_embed).

Definition set_encoder (self : t) (e : AVWDCRNN.t) : t :=
  mk (num_nodes self) (input_dim self) (hidden_dim self) (hidden_dim_node self)
     (output_dim self) (lookahead self) (num_layers self) (embed_dim self) (TNE self)
     (batch self) (node_embeddings self) (dynamic_embedding self) e (end_conv self).

(** [dynamic_embed] is the current value of the global variable. *)
Definition forward (dynamic_embed : bool) (self : t) (source : ndarray)
  : result (t * (ndarray * ndarray)) :=
  node_embeddings <-
    (if TNE self then attr (node_embeddings self)
     else if dynamic_embed then
       d <- attr (dynamic_embedding self) ;;
       DynamicEmbedding.forward d source
     else attr (node_embeddings self)) ;;
  b <- dim_at source 0 ;;
  init_state <- AVWDCRNN.init_hidden (encoder self) b ;;
  '(encoder, (output, _, adjmatrices)) <-
    AVWDCRNN.forward dynamic_embed (encoder self) source init_state node_embeddings ;;
  output <- last_along_1 output ;;
  output <- conv2d (end_conv self) output ;;
  output <- reshape [None; Some (lookahead self); Some (output_dim self);
                     Some (num_nodes self)]
                    (squeeze_last output) ;;
  output <- permute [0; 1; 3; 2]%nat output ;;
  adjmatrices <- stack adjmatrices 1 ;;
  Ok (set_encoder self encoder, (output, adjmatrices)).

(** [get_weights] and [set_weights] go through the parameters of the module
    and of its submodules in the order torch registered them; [params] is
    that list, and [set_weights] returns it as the assignments leave it. *)
Definition get_weights (params : list parameter) : list np_array * list string :=
  fold_left (fun '(weights, names) param =>
               if requires_grad param
               then (weights ++ [mknp (param_dtype param) (param_data param)],
                     names ++ [param_name param])
               else (weights, names))
            params ([], []).

(** [zip] stops at the shorter of the two lists. *)
Fixpoint set_weights {interop : Normalization.Interop} (params : list parameter)
    (weights : list np_array) : list parameter :=
  match params, weights with
  | param :: params', weight :: weights' =>
      set_data param (cast (np_dtype weight) (param_dtype param) (np_data weight))
      :: set_weights params' weights'
  | _, _ => params
  end.

End LSTM_DSTGCRN.

(** *** The graph convolution in the specification's words *)

(** The Chebyshev polynomial [T_k] of [L]: [T_0 = I], [T_1 = L],
    [T_k = 2 L T_(k-1) - T_(k-2)]. *)
Fixpoint chebyshev (I L : ndarray) (k : nat) : result ndarray :=
  match k with
  | O => Ok I
  | S k' =>
      match k' with
      | O => Ok L
      | S k'' =>
          t1 <- chebyshev I L k' ;;
          t2 <- chebyshev I L k'' ;;
          p <- matmul L t1 ;;
          sub (scale 2 p) t2
      end
  end.

(** The entry [(b, i, j)] of the data-dependent adjacency:
    [relu(nodevec . nodevec^T)] with [nodevec = tanh(E * filter)]. *)
Definition adjacency_entry (D : nat) (E : nat -> nat -> nat -> R)
    (filter : list nat -> R) (b i j : nat) : R :=
  relu (rsum D (fun d => tanh (E b i d * filter [b; i; d]) *
                         tanh (E b j d * filter [b; j; d]))).

(** The identity matrix, in every batch. *)
Definition identity_entry (idx : list nat) : R :=
  match idx with
  | [_; i; j] => if (i =? j)%nat then 1 else 0
  | _ => 0
  end.

(** The entry [(b, n, o)] of the output: [K] supports [T k] of size [N],
    applied to [x] (with [C] input channels), mixed by the weights that the
    embedding of node [n] draws from [weights_pool], plus the bias it draws
    from [bias_pool]. [E b n d] is the embedding of node [n] in batch [b]. *)
Definition mixed (K N C D : nat) (T : nat -> list nat -> R)
    (x : list nat -> R) (E : nat -> nat -> nat -> R) (weights_pool bias_pool : list nat -> R)
    (b n o : nat) : R :=
  rsum K (fun k => rsum C (fun i =>
    rsum N (fun m => T k [b; n; m] * x [b; m; i]) *
    rsum D (fun d => E b n d * weights_pool [d; k; i; o])))
  + rsum D (fun d => E b n d * bias_pool [d; o]).

(** The three supports of the static branch. *)
Definition static_support (L L' : ndarray) (k : nat) : list nat -> R :=
  match k with
  | O => identity_entry
  | 1%nat => item L
  | _ => item L'
  end.

(** The parameters of the module have the shapes [__init__] gives them. *)
Definition well_formed (self : AVWGCN.t) (dim_in dim_out : nat) : Prop :=
  shape (AVWGCN.weights_pool self) =
    [AVWGCN.embed_dim self; AVWGCN.cheb_k self; dim_in; dim_out] /\
  shape (AVWGCN.bias_pool self) = [AVWGCN.embed_dim self; dim_out] /\
  shape (weight (AVWGCN.fc1 self)) = [AVWGCN.hyperGNN_dim1 self; dim_in] /\
  shape (bias (AVWGCN.fc1 self)) = [AVWGCN.hyperGNN_dim1 self] /\
  shape (weight (AVWGCN.fc2 self)) = [AVWGCN.hyperGNN_dim2 self; AVWGCN.hyperGNN_dim1 self] /\
  shape (bias (AVWGCN.fc2 self)) = [AVWGCN.hyperGNN_dim2 self] /\
  shape (weight (AVWGCN.fc3 self)) = [AVWGCN.embed_dim self; AVWGCN.hyperGNN_dim2 self] /\
  shape (bias (AVWGCN.fc3 self)) = [AVWGCN.embed_dim self].

(** [c] is the identity of size [N] with a leading dimension of size 1. *)
Definition identity_of (N : nat) (c : ndarray) : Prop :=
  shape c = [1; N; N]%nat /\
  forall i j, (i < N)%nat -> (j < N)%nat ->
    item c [0; i; j]%nat = if (i =? j)%nat then 1 else 0.

(** The cache is empty, or holds the identity of the size in use. *)
Definition cache_ok (N : nat) (self : AVWGCN.t) : Prop :=
  match AVWGCN.cached_identity self with
  | None => True
  | Some c => identity_of N c
  end.

(** The entry [(b, i, j)] of [D^(-1/2) G D^(-1/2)] for a batch [G] of
    [n x n] matrices, [D] being the diagonal matrix of the row sums. *)
Definition normalized_entry (G : list nat -> R) (n b i j : nat) : R :=
  Rpower (rsum n (fun k => G [b; i; k])) (-1 / 2) * G [b; i; j] *
  Rpower (rsum n (fun k => G [b; j; k])) (-1 / 2).

(** *** When the modules run *)

(** The module can run on [N] nodes: in the dynamic case the cache is empty
    or fits and there are at least two supports to select from; the static
    case has its three supports and selects node 1. *)
Definition module_ready (dynamic_embed : bool) (N : nat) (self : AVWGCN.t) : Prop :=
  if dynamic_embed then cache_ok N self /\ (2 <= AVWGCN.cheb_k self)%nat
  else AVWGCN.cheb_k self = 3%nat /\ (2 <= N)%nat.

(** The node embeddings fit: [(B, N, D)] in the dynamic case, [(N, D)] once
    squeezed in the static case. *)
Definition embeddings_ready (dynamic_embed : bool) (D : nat) (E : ndarray) (B N : nat)
  : Prop :=
  if dynamic_embed then shape E = [B; N; D] else shape (squeeze E) = [N; D].

(** The shape of the second value [AVWGCN.forward] returns. *)
Definition adjacency_shape (dynamic_embed : bool) (B N C : nat) : list nat :=
  if dynamic_embed then [B; N; N] else [B; 3%nat; C].

(** [self'] is [self], possibly with the identity of size [N] in its cache. *)
Definition cache_filled (N : nat) (self self' : AVWGCN.t) : Prop :=
  self' = self \/
  exists c, identity_of N c /\ self' = AVWGCN.set_cached_identity self c.

(** The two modules of a cell have the shapes [__init__] gives them. *)
Definition cell_well_formed (self : AGCRNCell.t) (dim_in : nat) : Prop :=
  let H := AGCRNCell.hidden_dim self in
  well_formed (AGCRNCell.gate self) (dim_in + H) (2 * H) /\
  well_formed (AGCRNCell.update self) (dim_in + H) H /\
  AVWGCN.embed_dim (AGCRNCell.update self) = AVWGCN.embed_dim (AGCRNCell.gate self) /\
  (1 <= H)%nat.

Definition cell_ready (dynamic_embed : bool) (N : nat) (self : AGCRNCell.t) : Prop :=
  module_ready dynamic_embed N (AGCRNCell.gate self) /\
  module_ready dynamic_embed N (AGCRNCell.update self).

(** The GRU-style step of the cell, entry by entry: [z_r] is what the gate
    returns on [(x; state)], [hc] what the update returns on
    [(x; z * state)]. *)
Definition gru_step (H : nat) (z_r hc state : list nat -> R) (b n j : nat) : R :=
  let r := sigmoid (z_r [b; n; (H + j)%nat]) in
  r * state [b; n; j] + (1 - r) * tanh (hc [b; n; j]).

(** [c] is [(a; b)] along the last dimension, [a] having [Ca] channels. *)
Definition concatenation (Ca Cb : nat) (a b : list nat -> R) (c : ndarray) (B N : nat)
  : Prop :=
  shape c = [B; N; (Ca + Cb)%nat] /\
  (forall ib n k, (ib < B)%nat -> (n < N)%nat -> (k < Ca)%nat ->
     item c [ib; n; k] = a [ib; n; k]) /\
  (forall ib n k, (ib < B)%nat -> (n < N)%nat -> (k < Cb)%nat ->
     item c [ib; n; (Ca + k)%nat] = b [ib; n; k]).

(** *** The stacked encoder in the specification's words *)

(** The cell applied along the timesteps [ts] of [inputs], each step starting
    from the state the previous one returned: the cell as the steps leave it,
    the final state, the state after each step and the adjacency of each
    step. *)
Fixpoint scan_cell (dynamic_embed : bool) (inputs node_embeddings : ndarray)
    (ts : list nat) (cell : AGCRNCell.t) (state : ndarray)
  : result (AGCRNCell.t * ndarray * list ndarray * list ndarray) :=
  match ts with
  | [] => Ok (cell, state, [], [])
  | t :: ts' =>
      x_t <- select 1 t inputs ;;
      e_t <- (if dynamic_embed then select 1 t node_embeddings else Ok node_embeddings) ;;
      '(cell, (h, a)) <- AGCRNCell.forward dynamic_embed cell x_t state e_t ;;
      '(cell, final, hs, adjs) <- scan_cell dynamic_embed inputs node_embeddings ts' cell h ;;
      Ok (cell, final, h :: hs, a :: adjs)
  end.

(** The layers [cells], numbered from [i], stacked: each layer scans its
    input sequence from [init_state[i]] and its full output sequence is the
    input sequence of the next; the results are the cells as left, the output
    sequence of the last layer, the final state of each layer, and the
    adjacencies of the last layer. *)
Fixpoint stack_layers (dynamic_embed : bool) (seq_length : nat)
    (init_state node_embeddings : ndarray) (i : nat) (cells : list AGCRNCell.t)
    (inputs : ndarray) (adjs : option (list ndarray))
  : result (list AGCRNCell.t * ndarray * list ndarray * option (list ndarray)) :=
  match cells with
  | [] => Ok ([], inputs, [], adjs)
  | cell :: cells' =>
      state <- select 0 i init_state ;;
      '(cell, final, hs, adjs) <-
        scan_cell dynamic_embed inputs node_embeddings (range seq_length) cell state ;;
      outputs <- stack hs 1 ;;
      '(cells', outputs, finals, adjs) <-
        stack_layers dynamic_embed seq_length init_state node_embeddings (S i) cells'
                     outputs (Some adjs) ;;
      Ok (cell :: cells', outputs, final :: finals, adjs)
  end.

(** The cells of the encoder have the shapes [__init__] gives them: the first
    takes [input_dim] channels, the others [H]; all have [H] hidden units and
    embeddings of dimension [D]. *)
Fixpoint layers_well_formed (H D first_dim : nat) (cells : list AGCRNCell.t) : Prop :=
  match cells with
  | [] => True
  | cell :: cells' =>
      AGCRNCell.hidden_dim cell = H /\
      AVWGCN.embed_dim (AGCRNCell.gate cell) = D /\
      cell_well_formed cell first_dim /\
      layers_well_formed H D H cells'
  end.

Definition encoder_well_formed (H D : nat) (self : AVWDCRNN.t) : Prop :=
  length (AVWDCRNN.dcrnn_cells self) = AVWDCRNN.num_layers self /\
  (1 <= AVWDCRNN.num_layers self)%nat /\
  layers_well_formed H D (AVWDCRNN.input_dim self) (AVWDCRNN.dcrnn_cells self).

Definition layers_ready (dynamic_embed : bool) (N : nat) (cells : list AGCRNCell.t)
  : Prop :=
  Forall (cell_ready dynamic_embed N) cells.

(** The number of input channels of the last of [cells]: that of the first
    when it is alone, and the number of hidden units otherwise. *)
Definition last_input_dim (C H : nat) (cells : list AGCRNCell.t) : nat :=
  match cells with
  | [] => C
  | [_] => C
  | _ => H
  end.

(** The node embeddings fit a sequence of [T] steps: [(B, T', N, D)] with
    [T <= T'] in the dynamic case. *)
Definition sequence_embeddings_ready (dynamic_embed : bool) (D : nat) (E : ndarray)
    (B T N : nat) : Prop :=
  if dynamic_embed
  then exists T', shape E = [B; T'; N; D] /\ (T <= T')%nat
  else shape (squeeze E) = [N; D].

(** *** The dynamic embedding in the specification's words *)

(** [l] maps [i] features to [o]. *)
Definition linear_shape (l : Linear) (i o : nat) : Prop :=
  shape (weight l) = [o; i] /\ shape (bias l) = [o].

(** The module holds the layers [__init__] builds for its flags: a GRU with a
    linear layer when [gru_layer] is set, else an LSTM with a linear layer
    when [lstm_layer] is set, else two linear layers; and an attention layer
    when [attention_layer] is set. *)
Definition embedding_well_formed {nn : TorchNN} (self : DynamicEmbedding.t)
    (input_dim hidden heads : nat) : Prop :=
  (if DynamicEmbedding.gru_layer self then
     DynamicEmbedding.sequential_model self =
       Some (DynamicEmbedding.GRU,
             nn_GRU input_dim hidden (DynamicEmbedding.num_layers self)) /\
     exists l, DynamicEmbedding.fc self = Some l /\
               linear_shape l hidden (DynamicEmbedding.embed_dim self)
   else if DynamicEmbedding.lstm_layer self then
     DynamicEmbedding.sequential_model self =
       Some (DynamicEmbedding.LSTM,
             nn_LSTM input_dim hidden (DynamicEmbedding.num_layers self)) /\
     exists l, DynamicEmbedding.fc self = Some l /\
               linear_shape l hidden (DynamicEmbedding.embed_dim self)
   else
     exists l1 l2,
       DynamicEmbedding.fc1 self = Some l1 /\ DynamicEmbedding.fc2 self = Some l2 /\
       linear_shape l1 input_dim hidden /\
       linear_shape l2 hidden (DynamicEmbedding.embed_dim self)) /\
  (if DynamicEmbedding.attention_layer self then
     DynamicEmbedding.self_attn self =
       Some (nn_MultiheadAttention (DynamicEmbedding.embed_dim self) heads) /\
     (1 <= heads)%nat /\ (DynamicEmbedding.embed_dim self mod heads = 0)%nat
   else True).

(** The features of the sequences [xs], one sequence per node and batch
    entry: a GRU when [gru_layer] is set, an LSTM when [lstm_layer] is set,
    and otherwise two linear layers, one after the other. *)
Definition sequence_features {nn : TorchNN} (self : DynamicEmbedding.t)
    (input_dim hidden : nat) (xs : ndarray) : result ndarray :=
  if DynamicEmbedding.gru_layer self then
    '(out, _) <- nn_GRU input_dim hidden (DynamicEmbedding.num_layers self) xs ;;
    l <- attr (DynamicEmbedding.fc self) ;;
    linear l out
  else if DynamicEmbedding.lstm_layer self then
    '(out, _) <- nn_LSTM input_dim hidden (DynamicEmbedding.num_layers self) xs ;;
    l <- attr (DynamicEmbedding.fc self) ;;
    linear l out
  else
    l1 <- attr (DynamicEmbedding.fc1 self) ;;
    h <- linear l1 xs ;;
    l2 <- attr (DynamicEmbedding.fc2 self) ;;
    linear l2 h.

(** [xs] holds the sequence of node [n] of batch entry [b] of [x] at
    position [b * N + n]. *)
Definition node_sequences (x xs : ndarray) (B T N C : nat) : Prop :=
  shape xs = [(B * N)%nat; T; C] /\
  forall b n t c, (b < B)%nat -> (n < N)%nat -> (t < T)%nat -> (c < C)%nat ->
    item xs [(b * N + n)%nat; t; c] = item x [b; t; n; c].

(** What the embedding is made of, with and without attention: with it, the
    features after ReLU go through self-attention with the time dimension
    first; without it, they are the embedding. *)
Definition embedding_entries {nn : TorchNN} (self : DynamicEmbedding.t) (heads : nat)
    (features out : ndarray) (B T N : nat) : Prop :=
  let E := DynamicEmbedding.embed_dim self in
  if DynamicEmbedding.attention_layer self then
    exists q attended w,
      shape q = [T; (B * N)%nat; E] /\
      (forall t m e, item q [t; m; e] = relu (item features [m; t; e])) /\
      nn_MultiheadAttention E heads q q q = Ok (attended, w) /\
      forall b t n e, (b < B)%nat -> (t < T)%nat -> (n < N)%nat -> (e < E)%nat ->
        item out [b; t; n; e] = item attended [t; (b * N + n)%nat; e]
  else
    forall b t n e, (b < B)%nat -> (t < T)%nat -> (n < N)%nat -> (e < E)%nat ->
      item out [b; t; n; e] = relu (item features [(b * N + n)%nat; t; e]).

(** *** The whole model in the specification's words *)

(** The node embeddings [forward] hands to the encoder: the learned ones, or
    the ones generated from the source. *)
Definition node_embeddings_of (dynamic_embed : bool) (self : LSTM_DSTGCRN.t)
    (source : ndarray) : result ndarray :=
  if LSTM_DSTGCRN.TNE self then attr (LSTM_DSTGCRN.node_embeddings self)
  else if dynamic_embed then
    d <- attr (LSTM_DSTGCRN.dynamic_embedding self) ;;
    DynamicEmbedding.forward d source
  else attr (LSTM_DSTGCRN.node_embeddings self).

(** The node embeddings are there and fit [B] sequences of [T] steps. *)
Definition embeddings_available {nn : TorchNN} (dynamic_embed : bool)
    (self : LSTM_DSTGCRN.t) (B T heads : nat) : Prop :=
  let N := LSTM_DSTGCRN.num_nodes self in
  let D := LSTM_DSTGCRN.embed_dim self in
  if LSTM_DSTGCRN.TNE self then
    exists E, LSTM_DSTGCRN.node_embeddings self = Some E /\
              sequence_embeddings_ready dynamic_embed D E B T N
  else if dynamic_embed then
    exists d, LSTM_DSTGCRN.dynamic_embedding self = Some d /\
              embedding_well_formed d (LSTM_DSTGCRN.input_dim self)
                                    (LSTM_DSTGCRN.hidden_dim_node self) heads /\
              DynamicEmbedding.num_nodes d = N /\
              DynamicEmbedding.embed_dim d = D /\
              (1 <= LSTM_DSTGCRN.input_dim self)%nat /\ (1 <= D)%nat /\
              (1 <= LSTM_DSTGCRN.hidden_dim_node self)%nat /\
              (1 <= DynamicEmbedding.num_layers d)%nat /\ (1 <= B)%nat
  else
    exists E, LSTM_DSTGCRN.node_embeddings self = Some E /\
              sequence_embeddings_ready false D E B T N.

(** The encoder and the head have the shapes [__init__] gives them, and the
    cells are ready. *)
Definition model_well_formed (dynamic_embed : bool) (self : LSTM_DSTGCRN.t) : Prop :=
  let N := LSTM_DSTGCRN.num_nodes self in
  let H := LSTM_DSTGCRN.hidden_dim self in
  let enc := LSTM_DSTGCRN.encoder self in
  let out_channels := (LSTM_DSTGCRN.lookahead self * LSTM_DSTGCRN.output_dim self)%nat in
  encoder_well_formed H (LSTM_DSTGCRN.embed_dim self) enc /\
  layers_ready dynamic_embed N (AVWDCRNN.dcrnn_cells enc) /\
  Forall (fun c => AGCRNCell.node_num c = N) (AVWDCRNN.dcrnn_cells enc) /\
  AVWDCRNN.node_num enc = N /\
  AVWDCRNN.input_dim enc = LSTM_DSTGCRN.input_dim self /\
  shape (conv_weight (LSTM_DSTGCRN.end_conv self)) = [out_channels; 1; 1; H]%nat /\
  shape (conv_bias (LSTM_DSTGCRN.end_conv self)) = [out_channels] /\
  (1 <= N)%nat /\ (1 <= LSTM_DSTGCRN.lookahead self)%nat /\
  (1 <= LSTM_DSTGCRN.output_dim self)%nat.

(** The entry [(b, l, n, o)] of the prediction: the head applied to the
    hidden state of node [n] at the last of the [T] timesteps. *)
Definition prediction_entry (H O T : nat) (outputs w bias : list nat -> R)
    (b l n o : nat) : R :=
  rsum H (fun h => outputs [b; (T - 1)%nat; n; h] * w [(l * O + o)%nat; 0%nat; 0%nat; h])
  + bias [(l * O + o)%nat].

(** The shape of the stacked second values of the [T] steps of a layer. *)
Definition stacked_adjacency_shape (dynamic_embed : bool) (B T N C : nat) : list nat :=
  if dynamic_embed then [B; T; N; N] else [B; T; 3%nat; C].

(** [adj] holds one [N x N] adjacency for every layer and timestep of every
    batch entry. *)
Definition adjacency_per_layer_and_timestep (L T B N : nat) (adj : ndarray) : Prop :=
  numel (shape adj) = (L * T * (B * (N * N)))%nat.

(** A module and an input of the static case: two nodes, one input and one
    output channel, embeddings of dimension 2, three supports. The weights
    pick the third support; the hypernetwork [fc] returns 1 everywhere. *)
Definition constant (shp : list nat) (v : R) : ndarray := mkarr shp (fun _ => v).

Definition example_gcn : AVWGCN.t :=
  AVWGCN.mk 3
    (mkarr [2; 3; 1; 1]%nat
           (fun idx => match idx with
                       | [O; 2%nat; _; _] => 1
                       | _ => 0
                       end))
    (constant [2; 1]%nat 0)
    1 1 2
    (mkLinear (constant [1; 1]%nat 0) (constant [1]%nat 0))
    (mkLinear (constant [1; 1]%nat 0) (constant [1]%nat 0))
    (mkLinear (constant [2; 1]%nat 0) (constant [2]%nat 1))
    None.

Definition example_x : ndarray :=
  mkarr [1; 2; 1]%nat (fun idx => match idx with
                                  | [_; 1%nat; _] => 1
                                  | _ => 0
                                  end).

Definition example_E : ndarray :=
  mkarr [2; 2]%nat (fun idx => match idx with
                               | [_; O] => 1
                               | _ => 0
                               end).

(** The same embeddings for a batch of one, for the dynamic case. *)
Definition example_E_batch : ndarray :=
  mkarr [1; 2; 2]%nat (fun idx => match idx with
                                  | [_; _; O] => 1
                                  | _ => 0
                                  end).

(** Library layers for running the model on examples: the sequence layers
    and the attention return zeros of the documented shape, and parameters
    start at zero. *)
Definition example_sequence (h : nat) (x : ndarray) : result (ndarray * ndarray) :=
  match shape x with
  | [m; t; _] => Ok (zeros [m; t; h], zeros [])
  | _ => Raise RuntimeError
  end.

Definition example_attention (q k v : ndarray) : result (ndarray * ndarray) :=
  match shape q with
  | [t; m; e] => Ok (zeros [t; m; e], zeros [])
  | _ => Raise RuntimeError
  end.

#[export] Instance example_nn : TorchNN.
Proof.
  refine {| nn_GRU := fun _ h _ => example_sequence h;
            nn_LSTM := fun _ h _ => example_sequence h;
            nn_MultiheadAttention := fun _ _ => example_attention;
            new_parameter := fun _ shp => zeros shp |}.
  - reflexivity.
  - intros i h l x m t _ _ Hx. unfold example_sequence. rewrite Hx.
    eexists. eexists. split; reflexivity.
  - intros i h l x m t _ _ Hx. unfold example_sequence. rewrite Hx.
    eexists. eexists. split; reflexivity.
  - intros e heads q t m _ _ Hq. unfold example_attention. rewrite Hq.
    eexists. eexists. split; reflexivity.
Defined.

(** A cell of the dynamic case: two nodes, one input channel, one hidden
    unit, embeddings of dimension 2, two supports. *)
Definition example_cell : AGCRNCell.t := AGCRNCell.init [] 2 1 1 2 2 1 1.

(** Arguments of a small model: two nodes, one input feature, one hidden
    unit per node, embeddings of dimension 2, a GRU for the embeddings, no
    attention, two encoder layers with two supports, three steps ahead. *)
Definition example_args : Args :=
  {| num_nodes := Some 2%nat; num_layers_node := 1; gru_layer := true;
     lstm_layer := false; attention_layer := false; num_heads := 1;
     input_dim := 1; rnn_units := 1; hidden_dim_node := 1; output_dim := 1;
     lookahead := 3; lookback := 2; num_layers := 2; embed_dim := 2;
     TNE := false; batch_size := 1; dynamic_embed := true; cheb_k := 2;
     hyperGNN_dim1 := 1; hyperGNN_dim2 := 1 |}.

(** [out] is the Chebyshev graph convolution of [x] by [self]: with
    [filter = fc(x)], the adjacency [A = relu(nodevec . nodevec^T)] for
    [nodevec = tanh(E * filter)], the identity [I] and [L = get_laplacian(A, I)],
    the [K] polynomials [T_0 .. T_(K-1)] of [L] are mixed by the per-node
    weights and the per-node bias is added. *)
Definition chebyshev_convolution (K : nat) (E : nat -> nat -> nat -> R)
    (self : AVWGCN.t) (x out : ndarray) (B N C O : nat) : Prop :=
  exists filter A I L (T : nat -> ndarray),
    AVWGCN.fc self x = Ok filter /\
    shape A = [B; N; N] /\
    (forall b i j, (b < B)%nat -> (i < N)%nat -> (j < N)%nat ->
       item A [b; i; j] =
       adjacency_entry (AVWGCN.embed_dim self) E (item filter) b i j) /\
    shape I = [B; N; N] /\
    (forall b i j, (i < N)%nat -> (j < N)%nat -> item I [b; i; j] = identity_entry [b; i; j]) /\
    AVWGCN.get_laplacian A I true = Ok L /\
    (forall k, (k < K)%nat -> chebyshev I L k = Ok (T k) /\ shape (T k) = [B; N; N]) /\
    shape out = [B; N; O] /\
    (forall b n o, (b < B)%nat -> (n < N)%nat -> (o < O)%nat ->
       item out [b; n; o] =
       mixed K N C (AVWGCN.embed_dim self) (fun k => item (T k)) (item x) E
             (item (AVWGCN.weights_pool self)) (item (AVWGCN.bias_pool self)) b n o).

(** [out] is what the static branch computes instead: the three supports are
    the identity, [L = get_laplacian(A, I)] and [get_laplacian(A, L)]. *)
Definition static_convolution (E : nat -> nat -> nat -> R)
    (self : AVWGCN.t) (x out : ndarray) (B N C O : nat) : Prop :=
  exists filter A L L',
    AVWGCN.fc self x = Ok filter /\
    shape A = [B; N; N] /\
    (forall b i j, (b < B)%nat -> (i < N)%nat -> (j < N)%nat ->
       item A [b; i; j] =
       adjacency_entry (AVWGCN.embed_dim self) E (item filter) b i j) /\
    AVWGCN.get_laplacian A (eye N) true = Ok L /\ shape L = [B; N; N] /\
    AVWGCN.get_laplacian A L true = Ok L' /\ shape L' = [B; N; N] /\
    shape out = [B; N; O] /\
    (forall b n o, (b < B)%nat -> (n < N)%nat -> (o < O)%nat ->
       item out [b; n; o] =
       mixed 3 N C (AVWGCN.embed_dim self) (static_support L L') (item x) E
             (item (AVWGCN.weights_pool self)) (item (AVWGCN.bias_pool self)) b n o).

(** *** States and caches *)

(** Every entry of a state of shape [(B, N, H)] lies in [[-1, 1]]. *)
Definition within_unit (B N H : nat) (a : ndarray) : Prop :=
  forall b n j, (b < B)%nat -> (n < N)%nat -> (j < H)%nat ->
    -1 <= item a [b; n; j] <= 1.

(** [example_gcn] after a call on three nodes: its cache holds the identity
    of size 3. *)
Definition example_stale_gcn : AVWGCN.t :=
  AVWGCN.set_cached_identity example_gcn
    (mkarr [1; 3; 3]%nat (fun idx => match idx with
                                     | [_; i; j] => if (i =? j)%nat then 1 else 0
                                     | _ => 0
                                     end)).

End Model.

(** * Properties *)

(** ** Facts about arrays and broadcasting *)

Module TensorFacts.

Open Scope R_scope.

Lemma for_each_app {A S : Type} (xs ys : list A) (body : S -> A -> result S) (s : S) :
  for_each (xs ++ ys) body s =
  match for_each xs body s with
  | Ok s' => for_each ys body s'
  | Raise e => Raise e
  end.
Proof.
  revert s. induction xs as [|x xs IH]; intros s; simpl; [reflexivity|].
  destruct (body s x); [apply IH | reflexivity].
Qed.


Lemma in_bounds_rev (idx shp : list nat) :
  in_bounds idx shp -> in_bounds (rev idx) (rev shp).
Proof.
  unfold in_bounds. induction 1 as [|i d idx' shp' Hid _ IH]; simpl.
  - constructor.
  - apply Forall2_app; [exact IH | repeat constructor; exact Hid].
Qed.

Lemma in_bounds_length (idx shp : list nat) :
  in_bounds idx shp -> length idx = length shp.
Proof. apply Forall2_length. Qed.

Lemma in_boundsb_spec (idx shp : list nat) :
  in_boundsb idx shp = true <-> in_bounds idx shp.
Proof.
  unfold in_bounds. revert shp.
  induction idx as [|i idx IH]; intros [|d shp]; simpl; split; intros H;
    try discriminate; try (now constructor); try (now inversion H).
  - apply andb_true_iff in H. destruct H as [Hi Hr].
    constructor; [now apply Nat.ltb_lt | now apply IH].
  - inversion H; subst. apply andb_true_iff. split;
      [now apply Nat.ltb_lt | now apply IH].
Qed.

Lemma bdim_refl (x : nat) : bdim x x = Some x.
Proof. unfold bdim. now rewrite Nat.eqb_refl. Qed.

Lemma broadcast_rev_refl (s : list nat) : broadcast_rev s s = Some s.
Proof.
  induction s as [|x s IH]; simpl; [reflexivity|].
  now rewrite bdim_refl, IH.
Qed.

Lemma broadcast_shapes_refl (s : list nat) : broadcast_shapes s s = Some s.
Proof.
  unfold broadcast_shapes. rewrite broadcast_rev_refl. simpl.
  now rewrite rev_involutive.
Qed.

Lemma broadcast_shapes_nil_r (s : list nat) : broadcast_shapes s [] = Some s.
Proof.
  unfold broadcast_shapes. change (rev []) with (@nil nat).
  destruct (rev s) eqn:E; cbn [broadcast_rev option_map].
  - apply (f_equal (@rev nat)) in E. rewrite rev_involutive in E. now subst.
  - rewrite <- E. now rewrite rev_involutive.
Qed.

Lemma broadcast_shapes_nil_l (s : list nat) : broadcast_shapes [] s = Some s.
Proof.
  unfold broadcast_shapes. simpl. now rewrite rev_involutive.
Qed.

Lemma bindex_rev_in_bounds (shp idx : list nat) :
  in_bounds idx shp -> bindex_rev shp idx = idx.
Proof.
  unfold in_bounds. induction 1 as [|i d idx' shp' Hid _ IH]; simpl; [reflexivity|].
  rewrite IH. destruct (Nat.eqb_spec d 1); [|reflexivity].
  f_equal. lia.
Qed.

(** Reading an operand whose shape is the result's shape is reading at the
    same index. *)
Lemma bindex_in_bounds (shp idx : list nat) :
  in_bounds idx shp -> bindex shp idx = idx.
Proof.
  intros H. unfold bindex.
  rewrite bindex_rev_in_bounds by now apply in_bounds_rev.
  apply rev_involutive.
Qed.

Lemma bindex_nil (idx : list nat) : bindex [] idx = [].
Proof. reflexivity. Qed.

Lemma broadcast2_same (e : exn) (f : R -> R -> R) (a b : ndarray) :
  shape b = shape a ->
  broadcast2 e f a b =
  Ok (mkarr (shape a)
            (fun i => f (item a (bindex (shape a) i)) (item b (bindex (shape a) i)))).
Proof.
  intros Hs. unfold broadcast2. rewrite Hs, broadcast_shapes_refl. reflexivity.
Qed.

Lemma bdim_idem (x y d : nat) : bdim x y = Some d -> bdim d y = Some d.
Proof.
  unfold bdim.
  destruct (Nat.eqb_spec x y) as [->|Hxy]; [intros [= ->]; now rewrite Nat.eqb_refl|].
  destruct (Nat.eqb_spec x 1) as [->|Hx]; [intros [= ->]; now rewrite Nat.eqb_refl|].
  destruct (Nat.eqb_spec y 1) as [->|Hy]; [|discriminate].
  intros [= ->]. destruct (Nat.eqb_spec d 1); [contradiction|]. reflexivity.
Qed.

Lemma broadcast_rev_idem (a b c : list nat) :
  broadcast_rev a b = Some c -> broadcast_rev c b = Some c.
Proof.
  revert b c. induction a as [|x a IH]; intros b c.
  - simpl. intros [= ->]. apply broadcast_rev_refl.
  - destruct b as [|y b]; simpl.
    + intros [= <-]. reflexivity.
    + destruct (bdim x y) as [d|] eqn:Ed; [|discriminate].
      destruct (broadcast_rev a b) as [r|] eqn:Er; [|discriminate].
      intros [= <-]. simpl. now rewrite (bdim_idem _ _ _ Ed), (IH _ _ Er).
Qed.

Lemma broadcast_shapes_idem (a b c : list nat) :
  broadcast_shapes a b = Some c -> broadcast_shapes c b = Some c.
Proof.
  unfold broadcast_shapes.
  destruct (broadcast_rev (rev a) (rev b)) as [r|] eqn:E; [|discriminate].
  intros [= <-]. rewrite rev_involutive, (broadcast_rev_idem _ _ _ E).
  reflexivity.
Qed.

Lemma broadcast_rev_nonempty_r (a b c : list nat) :
  broadcast_rev a b = Some c -> b <> [] -> c <> [].
Proof.
  destruct a as [|x a]; simpl; [congruence|].
  destruct b as [|y b]; [congruence|].
  destruct (bdim x y); [|discriminate].
  destruct (broadcast_rev a b); [|discriminate]. congruence.
Qed.

Lemma rev_nonempty (A : Type) (l : list A) : l <> [] -> rev l <> [].
Proof.
  intros H E. apply H. apply (f_equal (@rev A)) in E.
  now rewrite rev_involutive in E.
Qed.

Lemma broadcast_shapes_nonempty_r (a b c : list nat) :
  broadcast_shapes a b = Some c -> b <> [] -> c <> [].
Proof.
  unfold broadcast_shapes.
  destruct (broadcast_rev (rev a) (rev b)) as [r|] eqn:E; [|discriminate].
  intros [= <-] Hb. apply rev_nonempty.
  apply (broadcast_rev_nonempty_r _ _ _ E). now apply rev_nonempty.
Qed.

(** The index an operand is read at lies within the operand. *)
Lemma bindex_rev_bounds_r (a b c idx : list nat) :
  broadcast_rev a b = Some c -> in_bounds idx c ->
  in_bounds (bindex_rev b idx) b.
Proof.
  unfold in_bounds. revert b c idx. induction a as [|x a IH]; intros b c idx.
  - simpl. intros [= ->] H. induction H as [|i d idx' c' Hid _ IH']; simpl.
    + constructor.
    + constructor; [|exact IH']. destruct (Nat.eqb_spec d 1); lia.
  - destruct b as [|y b]; simpl.
    + intros _ _. destruct idx; constructor.
    + destruct (bdim x y) as [d|] eqn:Ed; [|discriminate].
      destruct (broadcast_rev a b) as [r|] eqn:Er; [|discriminate].
      intros [= <-] H. inversion H as [|i d' idx' c' Hid Hrest]; subst.
      constructor; [|now apply (IH _ _ _ Er)].
      unfold bdim in Ed.
      destruct (Nat.eqb_spec y 1) as [->|Hy]; [lia|].
      destruct (Nat.eqb_spec x y) as [->|Hxy]; [injection Ed as <-; lia|].
      destruct (Nat.eqb_spec x 1); [injection Ed as <-; lia | discriminate].
Qed.

Lemma bindex_bounds_r (a b c idx : list nat) :
  broadcast_shapes a b = Some c -> in_bounds idx c ->
  in_bounds (bindex b idx) b.
Proof.
  unfold broadcast_shapes, bindex.
  destruct (broadcast_rev (rev a) (rev b)) as [r|] eqn:E; [|discriminate].
  intros [= <-] H. apply in_bounds_rev in H. rewrite rev_involutive in H.
  rewrite <- (rev_involutive b) at 2. apply in_bounds_rev.
  now apply (bindex_rev_bounds_r _ _ _ _ E).
Qed.

Lemma rsum_ext (n : nat) (f g : nat -> R) :
  (forall k, (k < n)%nat -> f k = g k) -> rsum n f = rsum n g.
Proof.
  unfold rsum. intros H.
  assert (G : forall l, (forall k, In k l -> f k = g k) ->
              fold_right (fun k acc => f k + acc) 0 l =
              fold_right (fun k acc => g k + acc) 0 l).
  { induction l as [|k l IH]; simpl; intros Hl; [reflexivity|].
    rewrite Hl by now left. rewrite IH; [reflexivity|].
    intros k' Hk'. apply Hl. now right. }
  apply G. intros k Hk. apply H. apply in_seq in Hk. lia.
Qed.

End TensorFacts.

Import TensorFacts.

(** ** Facts about the scalers *)

Module NormalizationFacts.

Import Normalization.

Open Scope R_scope.

Section Scalers.

Context {interop : Interop}.

Lemma np_value_array (a : ndarray) : shape a <> [] -> np_value a = NpArray a.
Proof. unfold np_value. destruct (shape a); congruence. Qed.

Lemma binop_np_np (f : R -> R -> R) (a b : ndarray) :
  shape b = shape a -> shape a <> [] ->
  binop f (NpArray a) (NpArray b) =
  Ok (NpArray (mkarr (shape a)
                 (fun i => f (item a (bindex (shape a) i)) (item b (bindex (shape a) i))))).
Proof.
  intros Hs Hne. unfold binop. rewrite broadcast2_same by exact Hs.
  cbn [bind]. now rewrite np_value_array.
Qed.

Lemma binop_np_float (f : R -> R -> R) (a : ndarray) (c : R) :
  shape a <> [] ->
  binop f (NpArray a) (PyFloat c) =
  Ok (NpArray (mkarr (shape a) (fun i => f (item a (bindex (shape a) i)) c))).
Proof.
  intros Hne. unfold binop, broadcast2, scalar. cbn [shape item].
  rewrite broadcast_shapes_nil_r. cbn [bind]. now rewrite np_value_array.
Qed.

Lemma last_dim_same (a b : ndarray) :
  shape b = shape a -> shape a <> [] ->
  exists k, last_dim a = Ok k /\ last_dim b = Ok k.
Proof.
  intros Hs Hne. unfold last_dim. rewrite Hs.
  destruct (rev (shape a)) as [|d s] eqn:E.
  - apply (f_equal (@rev nat)) in E. rewrite rev_involutive in E. contradiction.
  - now exists d.
Qed.

Lemma StandardScaler_roundtrip (x mean std : ndarray) :
  shape x <> [] -> shape mean = shape x -> shape std = shape x ->
  (forall idx, in_bounds idx (shape x) -> item std idx <> 0) ->
  undoes StandardScaler.transform StandardScaler.inverse_transform
         (StandardScaler.init (NpArray mean) (NpArray std)) x.
Proof.
  intros Hne Hm Hs Hnz. unfold undoes, StandardScaler.init.
  unfold StandardScaler.transform. cbn [StandardScaler.mean StandardScaler.std].
  rewrite binop_np_np by assumption. cbn [bind].
  rewrite binop_np_np by (cbn [shape]; assumption). cbn [shape item].
  eexists _, _, _. split; [reflexivity|].
  unfold StandardScaler.inverse_transform. cbn [StandardScaler.mean StandardScaler.std].
  match goal with |- context [last_dim ?y] =>
    destruct (last_dim_same y mean) as (k & -> & ->); [cbn [shape]; assumption..|] end.
  rewrite Nat.eqb_refl. cbn [negb].
  unfold StandardScaler.rescale. cbn [StandardScaler.mean StandardScaler.std].
  rewrite binop_np_np by (cbn [shape]; assumption). cbn [bind].
  rewrite binop_np_np by (cbn [shape]; assumption). cbn [shape item].
  split; [reflexivity|].
  split; [reflexivity|]. cbn [shape item]. intros idx Hidx.
  rewrite !(bindex_in_bounds _ _ Hidx).
  specialize (Hnz idx Hidx). field. exact Hnz.
Qed.

Lemma MinMax01Scaler_roundtrip (x min max : ndarray) :
  shape x <> [] -> shape min = shape x -> shape max = shape x ->
  (forall idx, in_bounds idx (shape x) -> item max idx <> item min idx) ->
  undoes MinMax01Scaler.transform MinMax01Scaler.inverse_transform
         (MinMax01Scaler.init (NpArray min) (NpArray max)) x.
Proof.
  intros Hne Hm Hs Hnz. unfold undoes, MinMax01Scaler.init.
  assert (Hne' : shape max <> []) by congruence.
  assert (Hmm : shape min = shape max) by congruence.
  unfold MinMax01Scaler.transform.
  cbn [MinMax01Scaler.min MinMax01Scaler.max np_sum_eq0 bind].
  rewrite !binop_np_np by assumption. cbn [bind].
  rewrite binop_np_np by (cbn [shape]; congruence). cbn [shape item].
  eexists _, _, _. split; [destruct (0 <? count_eq 0 max)%nat; reflexivity|].
  unfold MinMax01Scaler.inverse_transform.
  cbn [MinMax01Scaler.min MinMax01Scaler.max MinMax01Scaler.torch_data_numpy_min bind].
  rewrite binop_np_np by assumption. cbn [bind].
  rewrite binop_np_np by (cbn [shape]; congruence). cbn [bind].
  rewrite binop_np_np by (cbn [shape]; congruence). cbn [shape item].
  split; [reflexivity|].
  split; [reflexivity|]. cbn [shape item]. intros idx Hidx.
  rewrite Hs, !(bindex_in_bounds _ _ Hidx).
  specialize (Hnz idx Hidx). field. lra.
Qed.

Lemma MinMax11Scaler_roundtrip (x min max : ndarray) :
  shape x <> [] -> shape min = shape x -> shape max = shape x ->
  (forall idx, in_bounds idx (shape x) -> item max idx <> item min idx) ->
  undoes MinMax11Scaler.transform MinMax11Scaler.inverse_transform
         (MinMax11Scaler.init (NpArray min) (NpArray max)) x.
Proof.
  intros Hne Hm Hs Hnz. unfold undoes, MinMax11Scaler.init.
  assert (Hne' : shape max <> []) by congruence.
  assert (Hmm : shape min = shape max) by congruence.
  unfold MinMax11Scaler.transform.
  cbn [MinMax11Scaler.min MinMax11Scaler.max bind].
  rewrite !binop_np_np by assumption. cbn [bind].
  rewrite binop_np_np by (cbn [shape]; congruence). cbn [bind].
  rewrite !binop_np_float by (cbn [shape]; assumption). cbn [bind shape item].
  rewrite !binop_np_float by (cbn [shape]; assumption). cbn [shape item].
  eexists _, _, _. split; [reflexivity|].
  unfold MinMax11Scaler.inverse_transform.
  cbn [MinMax11Scaler.min MinMax11Scaler.max MinMax01Scaler.torch_data_numpy_min bind].
  rewrite !binop_np_float by (cbn [shape]; assumption). cbn [bind shape item].
  rewrite !binop_np_float by (cbn [shape]; assumption). cbn [bind shape item].
  rewrite binop_np_np by assumption. cbn [bind].
  rewrite binop_np_np by (cbn [shape]; congruence). cbn [bind].
  rewrite binop_np_np by (cbn [shape]; congruence). cbn [shape item].
  split; [reflexivity|].
  split; [reflexivity|]. cbn [shape item]. intros idx Hidx.
  rewrite Hs, !(bindex_in_bounds _ _ Hidx).
  specialize (Hnz idx Hidx). field. lra.
Qed.

(** C6. For numpy arrays [x], [mean], [std], [min], [max] of one shape, with
    [std] nonzero everywhere and [max] different from [min] everywhere: for
    each of StandardScaler, MinMax01Scaler and MinMax11Scaler,
    [inverse_transform (transform x)] returns an array equal to [x]. *)
Theorem inverse_transform_undoes_transform (x mean std min max : ndarray) :
  shape x <> [] ->
  shape mean = shape x -> shape std = shape x ->
  shape min = shape x -> shape max = shape x ->
  (forall idx, in_bounds idx (shape x) -> item std idx <> 0) ->
  (forall idx, in_bounds idx (shape x) -> item max idx <> item min idx) ->
  undoes StandardScaler.transform StandardScaler.inverse_transform
         (StandardScaler.init (NpArray mean) (NpArray std)) x /\
  undoes MinMax01Scaler.transform MinMax01Scaler.inverse_transform
         (MinMax01Scaler.init (NpArray min) (NpArray max)) x /\
  undoes MinMax11Scaler.transform MinMax11Scaler.inverse_transform
         (MinMax11Scaler.init (NpArray min) (NpArray max)) x.
Proof.
  intros Hne Hmean Hstd Hmin Hmax Hs Hd. repeat split.
  - now apply StandardScaler_roundtrip.
  - now apply MinMax01Scaler_roundtrip.
  - now apply MinMax11Scaler_roundtrip.
Qed.

Lemma last_dim_inv (a : ndarray) (k : nat) :
  last_dim a = Ok k -> exists s, shape a = s ++ [k].
Proof.
  unfold last_dim. destruct (rev (shape a)) as [|d s] eqn:E; [discriminate|].
  intros [= ->]. exists (rev s).
  apply (f_equal (@rev nat)) in E. now rewrite rev_involutive in E.
Qed.

Lemma last_dim_app (a : ndarray) (s : list nat) (k : nat) :
  shape a = s ++ [k] -> last_dim a = Ok k.
Proof.
  intros H. unfold last_dim. now rewrite H, rev_app_distr.
Qed.

Lemma slice_last_app (a : ndarray) (s : list nat) (k d : nat) :
  shape a = s ++ [d] ->
  slice_last k a = Ok (mkarr (s ++ [Nat.min k d]) (item a)).
Proof.
  intros H. unfold slice_last. rewrite H, rev_app_distr. cbn [rev app].
  now rewrite rev_involutive.
Qed.

Lemma shrunk_app (a : ndarray) (s : list nat) (k d : nat) :
  shape a = s ++ [d] -> shrunk k a = mkarr (s ++ [k]) (item a).
Proof.
  intros H. unfold shrunk. now rewrite H, removelast_last.
Qed.

Lemma mkarr_eta (a : ndarray) : mkarr (shape a) (item a) = a.
Proof. now destruct a. Qed.

Lemma StandardScaler_state_after (self : StandardScaler.t) (data : value) :
  coherent self ->
  fst (StandardScaler.inverse_transform self data) = statistics_after self data.
Proof.
  destruct self as [mean std]. unfold coherent, statistics_after, classify.
  cbn [StandardScaler.mean StandardScaler.std]. intros Hc.
  unfold StandardScaler.inverse_transform.
  cbn [StandardScaler.mean StandardScaler.std].
  destruct data as [r|d|dev dt d]; destruct mean as [rm|m|devm dtm m];
    try reflexivity.
  - (* numpy data, numpy mean *)
    destruct std as [rs|sd|devs dts sd]; try contradiction.
    destruct (last_dim d) as [kd|e] eqn:Ed; [|reflexivity].
    destruct (last_dim m) as [km|e] eqn:Em; [|reflexivity].
    destruct (last_dim_inv _ _ Em) as [s Hm].
    assert (Hsd : shape sd = s ++ [km]) by congruence.
    destruct (Nat.eqb_spec kd km) as [->|Hne]; cbn [negb].
    + rewrite Nat.ltb_irrefl. reflexivity.
    + rewrite (slice_last_app _ _ kd _ Hm). unfold slice_value.
      rewrite (slice_last_app _ _ kd _ Hsd). cbn [bind fst].
      destruct (Nat.ltb_spec kd km) as [Hlt|Hge].
      * cbn [shrunk_value]. rewrite (shrunk_app _ _ kd _ Hm), (shrunk_app _ _ kd _ Hsd).
        now rewrite Nat.min_l by lia.
      * rewrite Nat.min_r by lia. rewrite <- Hm at 1. rewrite <- Hsd.
        now rewrite !mkarr_eta.
  - (* torch data, numpy mean *)
    destruct std as [rs|sd|devs dts sd]; try contradiction.
    reflexivity.
Qed.

Lemma StandardScaler_unchanged_iff (self : StandardScaler.t) (data : value) :
  coherent self ->
  statistics_after self data = self <->
  classify (StandardScaler.mean self) data = Leaves.
Proof.
  intros Hc. unfold statistics_after.
  destruct (classify (StandardScaler.mean self) data) as [k|dev|] eqn:Ec.
  - split; [|discriminate]. intros H. exfalso.
    destruct self as [mean std]. cbn [StandardScaler.mean StandardScaler.std] in *.
    unfold classify in Ec.
    destruct data as [r|d|dev dt d]; destruct mean as [rm|m|devm dtm m];
      try discriminate.
    destruct (last_dim d) as [kd|e]; [|discriminate].
    destruct (last_dim m) as [km|e] eqn:Em; [|discriminate].
    destruct (Nat.ltb_spec kd km) as [Hlt|Hge]; [|discriminate].
    injection Ec as ->.
    destruct (last_dim_inv _ _ Em) as [s Hm].
    cbn [shrunk_value] in H. injection H as H _.
    apply (f_equal shape) in H. rewrite (shrunk_app _ _ k _ Hm) in H.
    cbn [shape] in H. rewrite Hm in H.
    apply app_inj_tail in H. lia.
  - split; [|discriminate]. intros H. exfalso.
    destruct self as [mean std]. cbn [StandardScaler.mean StandardScaler.std] in *.
    unfold classify in Ec.
    destruct data as [r|d|dev' dt d]; destruct mean as [rm|m|devm dtm m];
      discriminate.
  - tauto.
Qed.

(** C9. With coherent statistics, the scaler [inverse_transform] leaves behind
    is the one the specification describes: numpy data with a smaller last
    dimension [k] cuts mean and std down to [k]; torch data with numpy
    statistics replaces them with float32 tensors on the data's device; the
    scaler is the same as before exactly in the remaining cases; and every
    later [transform] or [inverse_transform] runs on the scaler left behind. *)
Theorem inverse_transform_mutates_statistics (self : StandardScaler.t) (data : value) :
  coherent self ->
  let self' := fst (StandardScaler.inverse_transform self data) in
  self' = statistics_after self data /\
  (self' = self <-> classify (StandardScaler.mean self) data = Leaves) /\
  (forall later,
      StandardScaler.transform self' later =
      StandardScaler.transform (statistics_after self data) later /\
      StandardScaler.inverse_transform self' later =
      StandardScaler.inverse_transform (statistics_after self data) later).
Proof.
  intros Hc self'. subst self'.
  rewrite (StandardScaler_state_after _ _ Hc).
  split; [reflexivity|]. split; [now apply StandardScaler_unchanged_iff|].
  intros later. split; reflexivity.
Qed.

Lemma binop_np_broadcast (f : R -> R -> R) (a b : ndarray) (so : list nat) :
  broadcast_shapes (shape a) (shape b) = Some so -> so <> [] ->
  binop f (NpArray a) (NpArray b) =
  Ok (NpArray (mkarr so
                 (fun i => f (item a (bindex (shape a) i)) (item b (bindex (shape b) i))))).
Proof.
  intros Hb Hne. unfold binop, broadcast2. rewrite Hb. cbn [bind].
  now rewrite np_value_array.
Qed.

Lemma set_zeros_to_one_nonzero (v w : value) :
  ColumnMinMaxScaler.set_zeros_to_one v = Ok w -> nonzero_entries w.
Proof.
  destruct v as [r|a|dev dt a]; cbn; [discriminate| |];
    intros [= <-]; cbn; intros idx;
    destruct (Req_dec_T (item a idx) 0); lra.
Qed.

(** The constructor establishes the invariant, whatever it is given. *)
Lemma ColumnMinMaxScaler_init_nonzero (min max : value) (self : ColumnMinMaxScaler.t) :
  ColumnMinMaxScaler.init min max = Ok self ->
  nonzero_entries (ColumnMinMaxScaler.min_max self).
Proof.
  unfold ColumnMinMaxScaler.init.
  destruct (binop Rminus max min) as [w|e]; cbn [bind]; [|discriminate].
  destruct (ColumnMinMaxScaler.set_zeros_to_one w) as [w'|e] eqn:E; cbn [bind];
    [|discriminate].
  intros [= <-]. cbn. now apply (set_zeros_to_one_nonzero w).
Qed.

(** The float32 cast aside, [inverse_transform] keeps the invariant. *)
Lemma ColumnMinMaxScaler_inverse_transform_nonzero
    (self : ColumnMinMaxScaler.t) (data : value) :
  (forall r, r <> 0 -> round_float32 r <> 0) ->
  nonzero_entries (ColumnMinMaxScaler.min_max self) ->
  nonzero_entries
    (ColumnMinMaxScaler.min_max (fst (ColumnMinMaxScaler.inverse_transform self data))).
Proof.
  intros Hround Hnz. destruct self as [mn w].
  unfold ColumnMinMaxScaler.inverse_transform.
  cbn [ColumnMinMaxScaler.min ColumnMinMaxScaler.min_max] in *.
  destruct (MinMax01Scaler.torch_data_numpy_min data mn) as [dev|]; [|exact Hnz].
  destruct w as [r|a|dev' dt a]; cbn [from_numpy_float32]; try exact Hnz.
  destruct mn as [r|m|dev' dt m]; cbn; intros idx; apply Hround, Hnz.
Qed.

(** C10. Whatever the constructor is given, when it returns every entry of
    [min_max] is nonzero. When it is given numpy arrays [min] and [max] of one
    shape, [transform] of any numpy array [data] that broadcasts against them
    returns [(data - min) / min_max] with a nonzero divisor at every entry,
    and at the entries of a column with [max = min] it returns [data - min]. *)
Theorem ColumnMinMaxScaler_divisor_nonzero
    (mn mx : value) (self0 : ColumnMinMaxScaler.t)
    (min max data : ndarray) (so : list nat) :
  ColumnMinMaxScaler.init mn mx = Ok self0 ->
  shape min <> [] -> shape max = shape min ->
  broadcast_shapes (shape data) (shape min) = Some so ->
  nonzero_entries (ColumnMinMaxScaler.min_max self0) /\
  exists w r,
    let self := ColumnMinMaxScaler.mk (NpArray min) (NpArray w) in
    ColumnMinMaxScaler.init (NpArray min) (NpArray max) = Ok self /\
    shape w = shape min /\
    (forall idx, item w idx <> 0) /\
    ColumnMinMaxScaler.transform self (NpArray data) = Ok (NpArray r) /\
    shape r = so /\
    forall idx, in_bounds idx so ->
      let j := bindex (shape min) idx in
      let x := item data (bindex (shape data) idx) in
      item w j <> 0 /\
      item r idx = (x - item min j) / item w j /\
      (item max j = item min j -> item r idx = x - item min j).
Proof.
  intros Hinit Hne Hmax Hb.
  split; [now apply (ColumnMinMaxScaler_init_nonzero mn mx)|].
  assert (Hso : so <> []) by now apply (broadcast_shapes_nonempty_r _ _ _ Hb).
  assert (Hmax' : shape max <> []) by congruence.
  unfold ColumnMinMaxScaler.init.
  rewrite binop_np_np by congruence. cbn [bind ColumnMinMaxScaler.set_zeros_to_one].
  eexists _, _. cbn zeta.
  split; [reflexivity|]. unfold set_where_eq at 1. cbn [shape].
  split; [exact Hmax|].
  split.
  { intros idx. unfold set_where_eq. cbn [item]. destruct Req_dec_T; lra. }
  unfold ColumnMinMaxScaler.transform.
  cbn [ColumnMinMaxScaler.shape_of bind
       ColumnMinMaxScaler.min ColumnMinMaxScaler.min_max].
  rewrite (binop_np_broadcast _ _ _ _ Hb Hso). cbn [bind].
  unfold set_where_eq at 1.
  rewrite (binop_np_broadcast _ _ _ so) by
    (cbn [shape]; first [exact Hso | rewrite Hmax; now apply (broadcast_shapes_idem _ _ _ Hb)]).
  split; [reflexivity|]. cbn [shape item].
  split; [reflexivity|].
  intros idx Hidx. cbn zeta. unfold set_where_eq. cbn [item shape].
  assert (Hj : in_bounds (bindex (shape min) idx) (shape min))
    by now apply (bindex_bounds_r _ _ _ _ Hb).
  rewrite (bindex_in_bounds _ _ Hidx), Hmax, (bindex_in_bounds _ _ Hj).
  set (j := bindex (shape min) idx).
  destruct (Req_dec_T (item max j - item min j) 0) as [Hz|Hnz].
  - split; [lra|]. split; [reflexivity|]. intros _. field.
  - split; [exact Hnz|]. split; [reflexivity|]. intros Heq. lra.
Qed.

End Scalers.

#[local] Existing Instance example_interop.

Lemma inverse_transform_mutates_statistics_witness :
  let self :=
    StandardScaler.mk (NpArray (mkarr [2; 3]%nat (fun _ => 1)))
                      (NpArray (mkarr [2; 3]%nat (fun _ => 2))) in
  let data := NpArray (mkarr [2; 2]%nat (fun _ => 5)) in
  let self' :=
    fst (StandardScaler.inverse_transform (interop := example_interop) self data) in
  self' = statistics_after self data /\
  (self' = self <-> classify (StandardScaler.mean self) data = Leaves) /\
  (forall later,
      StandardScaler.transform self' later =
      StandardScaler.transform (statistics_after self data) later /\
      StandardScaler.inverse_transform self' later =
      StandardScaler.inverse_transform (statistics_after self data) later).
Proof.
  intros self data.
  apply (@inverse_transform_mutates_statistics example_interop self data).
  reflexivity.
Defined.

Lemma ColumnMinMaxScaler_divisor_nonzero_witness :
  let min := mkarr [2]%nat (fun idx => match idx with [O] => 1 | _ => 4 end) in
  let max := mkarr [2]%nat (fun idx => match idx with [O] => 3 | _ => 4 end) in
  let data := mkarr [3; 2]%nat (fun _ => 4) in
  exists self0,
    ColumnMinMaxScaler.init (interop := example_interop) (NpArray min) (NpArray max)
    = Ok self0 /\
    nonzero_entries (ColumnMinMaxScaler.min_max self0) /\
    exists w r,
      ColumnMinMaxScaler.transform (interop := example_interop)
        (ColumnMinMaxScaler.mk (NpArray min) (NpArray w)) (NpArray data)
      = Ok (NpArray r) /\
      item r [0; 1]%nat = 0.
Proof.
  intros min max data.
  eexists. split; [reflexivity|].
  destruct (@ColumnMinMaxScaler_divisor_nonzero example_interop
              (NpArray min) (NpArray max) _ min max data [3; 2]%nat
              eq_refl ltac:(discriminate) eq_refl eq_refl)
    as (Hnz & w & r & _ & _ & _ & Ht & _ & Hr).
  split; [exact Hnz|].
  exists w, r. split; [exact Ht|].
  destruct (Hr [0; 1]%nat) as (_ & _ & Hconst).
  { repeat constructor. }
  rewrite Hconst; cbn; lra.
Defined.

Lemma inverse_transform_undoes_transform_witness :
  let x := mkarr [2%nat] (fun idx => match idx with [O] => 3 | _ => 7 end) in
  let mean := mkarr [2%nat] (fun _ => 1) in
  let std := mkarr [2%nat] (fun _ => 2) in
  let min := mkarr [2%nat] (fun _ => 0) in
  let max := mkarr [2%nat] (fun _ => 10) in
  undoes (StandardScaler.transform (interop := example_interop))
         (StandardScaler.inverse_transform (interop := example_interop))
         (StandardScaler.init (NpArray mean) (NpArray std)) x /\
  undoes (MinMax01Scaler.transform (interop := example_interop))
         (MinMax01Scaler.inverse_transform (interop := example_interop))
         (MinMax01Scaler.init (NpArray min) (NpArray max)) x /\
  undoes (MinMax11Scaler.transform (interop := example_interop))
         (MinMax11Scaler.inverse_transform (interop := example_interop))
         (MinMax11Scaler.init (NpArray min) (NpArray max)) x.
Proof.
  intros x mean std min max.
  apply (@inverse_transform_undoes_transform example_interop x mean std min max);
    try reflexivity; try discriminate; intros idx _; cbn; lra.
Defined.

End NormalizationFacts.

(** ** Facts about [one_hot_by_column] *)

Module OneHotFacts.

Import Normalization.

Open Scope R_scope.

Lemma fold_left_max_spec (l : list Z) (a : Z) :
  let m := fold_left Z.max l a in
  (m = a \/ In m l) /\ (a <= m)%Z /\ forall x, In x l -> (x <= m)%Z.
Proof.
  revert a. induction l as [|y l IH]; intros a; simpl.
  - split; [now left|]. split; [lia|]. intros x [].
  - destruct (IH (Z.max a y)) as (Hin & Hle & Hall).
    split; [|split].
    + destruct Hin as [Hin|Hin]; [|now right; right].
      rewrite Hin. destruct (Z.max_spec a y) as [[_ ->]|[_ ->]]; [right; now left | now left].
    + lia.
    + intros x [<-|Hx]; [lia | now apply Hall].
Qed.

Lemma fold_left_min_spec (l : list Z) (a : Z) :
  let m := fold_left Z.min l a in
  (m = a \/ In m l) /\ (m <= a)%Z /\ forall x, In x l -> (m <= x)%Z.
Proof.
  revert a. induction l as [|y l IH]; intros a; simpl.
  - split; [now left|]. split; [lia|]. intros x [].
  - destruct (IH (Z.min a y)) as (Hin & Hle & Hall).
    split; [|split].
    + destruct Hin as [Hin|Hin]; [|now right; right].
      rewrite Hin. destruct (Z.min_spec a y) as [[_ ->]|[_ ->]]; [now left | right; now left].
    + lia.
    + intros x [<-|Hx]; [lia | now apply Hall].
Qed.

Lemma column_max_spec (len : nat) (column : nat -> Z) :
  (1 <= len)%nat -> exists m, column_max len column = Ok m /\ is_max len column m.
Proof.
  destruct len as [|n]; [lia|]. intros _. cbn [column_max].
  eexists. split; [reflexivity|].
  destruct (fold_left_max_spec (map column (seq 1 n)) (column 0%nat)) as (Hin & Hle & Hall).
  split.
  - destruct Hin as [Hin|Hin].
    + exists 0%nat. split; [lia | now rewrite Hin].
    + apply in_map_iff in Hin. destruct Hin as (j & Hj & Hjin).
      apply in_seq in Hjin. exists j. split; [lia | exact Hj].
  - intros j Hj. destruct j as [|j]; [exact Hle|].
    apply Hall. apply in_map. apply in_seq. lia.
Qed.

Lemma column_min_spec (len : nat) (column : nat -> Z) :
  (1 <= len)%nat -> exists m, column_min len column = Ok m /\ is_min len column m.
Proof.
  destruct len as [|n]; [lia|]. intros _. cbn [column_min].
  eexists. split; [reflexivity|].
  destruct (fold_left_min_spec (map column (seq 1 n)) (column 0%nat)) as (Hin & Hle & Hall).
  split.
  - destruct Hin as [Hin|Hin].
    + exists 0%nat. split; [lia | now rewrite Hin].
    + apply in_map_iff in Hin. destruct Hin as (j & Hj & Hjin).
      apply in_seq in Hjin. exists j. split; [lia | exact Hj].
  - intros j Hj. destruct j as [|j]; [exact Hle|].
    apply Hall. apply in_map. apply in_seq. lia.
Qed.

Lemma block_offset_mono (width : nat -> nat) (i n : nat) :
  (i < n)%nat -> (block_offset width i + width i <= block_offset width n)%nat.
Proof.
  induction n as [|n IH]; [lia|]. intros Hi. cbn [block_offset].
  destruct (Nat.eq_dec i n) as [->|Hne]; [lia|].
  assert (i < n)%nat by lia. specialize (IH H). lia.
Qed.

(** *** Arithmetic in a dtype *)

Lemma dtype_span (t : int_dtype) :
  (dtype_max t - dtype_min t + 1 = 2 ^ bits t)%Z.
Proof. destruct t; reflexivity. Qed.

Lemma dtype_min_nonpos (t : int_dtype) : (dtype_min t <= 0)%Z.
Proof. destruct t; vm_compute; discriminate. Qed.

Lemma dtype_max_pos (t : int_dtype) : (0 < dtype_max t)%Z.
Proof. destruct t; reflexivity. Qed.

(** A value of the dtype is stored as it is. *)
Lemma wrap_fits (t : int_dtype) (z : Z) :
  (dtype_min t <= z <= dtype_max t)%Z -> wrap t z = z.
Proof.
  intros Hz. unfold wrap. pose proof (dtype_span t) as Hspan.
  rewrite Z.mod_small by lia. lia.
Qed.

(** A value above the dtype by less than its span comes back from the other
    end. *)
Lemma wrap_over (t : int_dtype) (z : Z) :
  (dtype_max t < z <= dtype_max t + 2 ^ bits t)%Z -> wrap t z = (z - 2 ^ bits t)%Z.
Proof.
  intros Hz. unfold wrap. pose proof (dtype_span t) as Hspan.
  replace (z - dtype_min t)%Z with (z - dtype_min t - 2 ^ bits t + 1 * 2 ^ bits t)%Z by lia.
  rewrite Z.mod_add by lia. rewrite Z.mod_small by lia. lia.
Qed.

Lemma axis_position_inside (size : nat) (p : Z) :
  (0 <= p < Z.of_nat size)%Z -> axis_position size p = Some (Z.to_nat p).
Proof.
  intros Hp. unfold axis_position.
  destruct (Z.leb_spec 0 p); [|lia]. destruct (Z.ltb_spec p (Z.of_nat size)); [|lia].
  reflexivity.
Qed.

Lemma axis_position_empty (p : Z) : axis_position 0 p = None.
Proof.
  unfold axis_position. cbn [Z.of_nat Z.opp].
  destruct (Z.leb_spec 0 p); destruct (Z.ltb_spec p 0); cbn [andb]; try reflexivity; lia.
Qed.

Section Encoding.

Variable data : int_matrix.

Hypothesis rows_nonempty : (1 <= nrows data)%nat.

Lemma min_of_spec (i : nat) : is_min (nrows data) (fun j => entry data j i) (min_of data i).
Proof.
  unfold min_of.
  destruct (column_min_spec (nrows data) (fun j => entry data j i) rows_nonempty) as (m & -> & Hm).
  exact Hm.
Qed.

Lemma max_of_spec (i : nat) : is_max (nrows data) (fun j => entry data j i) (max_of data i).
Proof.
  unfold max_of.
  destruct (column_max_spec (nrows data) (fun j => entry data j i) rows_nonempty) as (m & -> & Hm).
  exact Hm.
Qed.

Lemma min_le_max (i : nat) : (min_of data i <= max_of data i)%Z.
Proof.
  destruct (min_of_spec i) as [_ Hmin]. destruct (max_of_spec i) as [_ Hmax].
  specialize (Hmin 0%nat rows_nonempty). specialize (Hmax 0%nat rows_nonempty).
  cbn beta in *. lia.
Qed.

(** The loop body up to the two statistics of the column. *)
Lemma one_hot_column_unfold (encoded : option ndarray) (i : nat) :
  one_hot_column data encoded i =
  (zero_matrix <- zeros_2d (nrows data)
                    (wrap (elem_dtype data)
                          (wrap (elem_dtype data) (max_of data i - min_of data i) + 1)) ;;
   zero_matrix <- set_ones (nrows data)
                    (fun j => wrap (elem_dtype data) (entry data j i - min_of data i))
                    zero_matrix ;;
   if (i =? 0)%nat then Ok (Some zero_matrix)
   else match encoded with
        | Some e => r <- hstack e zero_matrix ;; Ok (Some r)
        | None => Raise UnboundLocalError
        end).
Proof.
  unfold one_hot_column, min_of, max_of.
  destruct (column_max_spec (nrows data) (fun j => entry data j i) rows_nonempty) as (mx & -> & _).
  destruct (column_min_spec (nrows data) (fun j => entry data j i) rows_nonempty) as (mn & -> & _).
  reflexivity.
Qed.

(** On a column whose width is a value of the dtype, nothing wraps around:
    the loop body builds the block of the column. *)
Lemma one_hot_column_spec (encoded : option ndarray) (i : nat) :
  column_fits data i ->
  exists block,
    shape block = [nrows data; width_of data i] /\
    (forall j k, (j < nrows data)%nat ->
       item block [j; k] =
       if (Z.of_nat k =? entry data j i - min_of data i)%Z then 1 else 0) /\
    one_hot_column data encoded i =
    if (i =? 0)%nat then Ok (Some block)
    else match encoded with
         | Some e => r <- hstack e block ;; Ok (Some r)
         | None => Raise UnboundLocalError
         end.
Proof.
  intros Hfit. unfold column_fits in Hfit.
  set (t := elem_dtype data) in *.
  pose proof (min_le_max i) as Hle.
  pose proof (dtype_min_nonpos t) as Hlo.
  destruct (min_of_spec i) as [_ Hmin]. destruct (max_of_spec i) as [_ Hmax].
  assert (Hpos : forall j, (j < nrows data)%nat ->
            wrap t (entry data j i - min_of data i) = (entry data j i - min_of data i)%Z /\
            (0 <= entry data j i - min_of data i < max_of data i - min_of data i + 1)%Z).
  { intros j Hj. specialize (Hmin j Hj). specialize (Hmax j Hj). cbn beta in Hmin, Hmax.
    split; [apply wrap_fits|]; lia. }
  rewrite one_hot_column_unfold. fold t.
  rewrite (wrap_fits t (max_of data i - min_of data i)) by lia.
  rewrite (wrap_fits t (max_of data i - min_of data i + 1)) by lia.
  unfold zeros_2d.
  destruct (Z.ltb_spec (max_of data i - min_of data i + 1) 0); [lia|]. cbn [bind].
  unfold set_ones. cbn [shape zeros]. rewrite Nat.leb_refl. cbn [andb].
  assert (Hall : forallb (fun j => on_axis (Z.to_nat (max_of data i - min_of data i + 1))
                                     (wrap t (entry data j i - min_of data i)))
                         (seq 0 (nrows data)) = true).
  { apply forallb_forall. intros j Hj. apply in_seq in Hj.
    destruct (Hpos j) as [-> Hr]; [lia|].
    unfold on_axis. rewrite axis_position_inside by lia. reflexivity. }
  rewrite Hall. cbn [bind].
  eexists. split; [|split; [|reflexivity]].
  - reflexivity.
  - intros j k Hj. cbn [item zeros].
    apply Nat.ltb_lt in Hj as Hjb. rewrite Hjb. cbn [andb].
    destruct (Hpos j Hj) as [-> Hr].
    unfold at_position. rewrite axis_position_inside by lia.
    destruct (Nat.eqb_spec k (Z.to_nat (entry data j i - min_of data i)));
      destruct (Z.eqb_spec (Z.of_nat k) (entry data j i - min_of data i));
      try reflexivity; lia.
Qed.

(** After the first [n >= 1] columns, [encoded] holds their blocks side by
    side. *)
Lemma one_hot_loop (n : nat) :
  (1 <= n)%nat -> (forall i, (i < n)%nat -> column_fits data i) ->
  exists e,
    for_each (range n) (one_hot_column data) None = Ok (Some e) /\
    shape e = [(nrows data); block_offset (width_of data) n] /\
    forall j i k, (j < (nrows data))%nat -> (i < n)%nat -> (k < width_of data i)%nat ->
      item e [j; (block_offset (width_of data) i + k)%nat] =
      if (Z.of_nat k =? entry data j i - min_of data i)%Z then 1 else 0.
Proof.
  induction n as [|n IH]; [lia|]. intros _ Hfit.
  unfold range in *. rewrite seq_S, for_each_app. cbn [plus].
  destruct n as [|n].
  - cbn [seq for_each].
    destruct (one_hot_column_spec None 0) as (blk & Hbs & Hbi & ->); [apply Hfit; lia|].
    cbn [Nat.eqb].
    exists blk. split; [reflexivity|]. split; [exact Hbs|].
    intros j i k Hj Hi Hk. assert (i = 0%nat) as -> by lia.
    cbn [block_offset plus]. now apply Hbi.
  - destruct IH as (e & -> & Hshape & Hitems); [lia | intros i Hi; apply Hfit; lia |].
    cbn [for_each].
    destruct (one_hot_column_spec (Some e) (S n)) as (blk & Hbs & Hbi & ->);
      [apply Hfit; lia|].
    cbn [Nat.eqb].
    unfold hstack. rewrite Hshape, Hbs.
    rewrite Nat.eqb_refl. cbn [bind].
    eexists. split; [reflexivity|]. cbn [shape item]. split; [reflexivity|].
    intros j i k Hj Hi Hk.
    destruct (Nat.eq_dec i (S n)) as [->|Hne].
    + cbn [block_offset].
      destruct (Nat.ltb_spec (block_offset (width_of data) n + width_of data n + k)
                             (block_offset (width_of data) n + width_of data n)); [lia|].
      replace (block_offset (width_of data) n + width_of data n + k
               - (block_offset (width_of data) n + width_of data n))%nat with k by lia.
      now apply Hbi.
    + assert (Hi' : (i < S n)%nat) by lia.
      pose proof (block_offset_mono (width_of data) i (S n) Hi') as Hmono.
      destruct (Nat.ltb_spec (block_offset (width_of data) i + k)
                             (block_offset (width_of data) (S n))); [|lia].
      now apply Hitems.
Qed.

(** On a column whose width is no value of the dtype, the width computed is
    zero or negative: either [np.zeros] refuses it or the first index is out
    of bounds. *)
Lemma one_hot_column_overflow (encoded : option ndarray) (i : nat) :
  (forall j, (j < nrows data)%nat ->
     (dtype_min (elem_dtype data) <= entry data j i <= dtype_max (elem_dtype data))%Z) ->
  ~ column_fits data i ->
  one_hot_column data encoded i = Raise ValueError \/
  one_hot_column data encoded i = Raise IndexError.
Proof.
  intros Hin Hfit. unfold column_fits in Hfit.
  set (t := elem_dtype data) in *.
  pose proof (min_le_max i) as Hle.
  pose proof (dtype_min_nonpos t) as Hlo.
  pose proof (dtype_span t) as Hspan.
  pose proof (dtype_max_pos t) as Hhi.
  destruct (min_of_spec i) as [(jn & Hjn & Hmin) _].
  destruct (max_of_spec i) as [(jx & Hjx & Hmax) _].
  pose proof (Hin jn Hjn) as Hn. pose proof (Hin jx Hjx) as Hx.
  cbn beta in Hmin, Hmax. rewrite Hmin in Hn. rewrite Hmax in Hx.
  assert (Hwidth : (wrap t (wrap t (max_of data i - min_of data i) + 1) <= 0)%Z).
  { destruct (Z_le_gt_dec (max_of data i - min_of data i) (dtype_max t)) as [Hd|Hd].
    - rewrite (wrap_fits t (max_of data i - min_of data i)) by lia.
      rewrite wrap_over by lia. lia.
    - rewrite (wrap_over t (max_of data i - min_of data i)) by lia.
      rewrite wrap_fits by lia. lia. }
  rewrite one_hot_column_unfold. fold t.
  unfold zeros_2d.
  destruct (Z.ltb_spec (wrap t (wrap t (max_of data i - min_of data i) + 1)) 0) as [Hneg|Hzero].
  - left. reflexivity.
  - right. cbn [bind].
    replace (wrap t (wrap t (max_of data i - min_of data i) + 1)) with 0%Z by lia.
    unfold set_ones. cbn [shape zeros Z.to_nat]. rewrite Nat.leb_refl. cbn [andb].
    destruct (nrows data) as [|len]; [lia|].
    cbn [seq forallb]. unfold on_axis at 1. rewrite axis_position_empty.
    reflexivity.
Qed.

End Encoding.

(** C7, as amended. For a 2D integer array with at least one row and one
    column in which the width [max_i - min_i + 1] of every column [i] is a
    value of the dtype of the array, [one_hot_by_column] returns an array
    with as many rows and with [sum_i (max_i - min_i + 1)] columns, where
    [min_i] and [max_i] are the minimum and maximum of input column [i]; the
    blocks of the input columns follow each other in column order, and in the
    block of column [i] row [j] holds 1 at offset [data[j, i] - min_i] and 0
    at every other offset. *)
Theorem one_hot_by_column_layout (data : int_matrix) :
  (1 <= nrows data)%nat -> (1 <= ncols data)%nat ->
  (forall i, (i < ncols data)%nat -> column_fits data i) ->
  exists (min max : nat -> Z) (encoded : ndarray),
    let width := fun i => block_width (min i) (max i) in
    (forall i, (i < ncols data)%nat ->
       is_min (nrows data) (fun j => entry data j i) (min i) /\
       is_max (nrows data) (fun j => entry data j i) (max i)) /\
    one_hot_by_column data = Ok encoded /\
    shape encoded = [nrows data; block_offset width (ncols data)] /\
    forall j i k,
      (j < nrows data)%nat -> (i < ncols data)%nat -> (k < width i)%nat ->
      item encoded [j; (block_offset width i + k)%nat] =
      if (Z.of_nat k =? entry data j i - min i)%Z then 1 else 0.
Proof.
  intros Hrows Hcols Hfit.
  destruct (one_hot_loop data Hrows (ncols data) Hcols Hfit)
    as (e & Hloop & Hshape & Hitems).
  exists (min_of data), (max_of data), e. cbn zeta.
  split; [|split; [|split]].
  - intros i _. split; [now apply min_of_spec | now apply max_of_spec].
  - unfold one_hot_by_column. rewrite Hloop. reflexivity.
  - exact Hshape.
  - exact Hitems.
Qed.

Lemma example_matrix_fits (i : nat) : (i < 2)%nat -> column_fits example_matrix i.
Proof.
  intros Hi. destruct i as [|[|i]]; [| |lia]; vm_compute; discriminate.
Qed.

Lemma one_hot_by_column_layout_witness :
  exists encoded,
    one_hot_by_column example_matrix = Ok encoded /\
    shape encoded = [3; 5]%nat /\
    item encoded [1; 2]%nat = 1 /\ item encoded [1; 1]%nat = 0 /\
    item encoded [2; 4]%nat = 1.
Proof.
  destruct (one_hot_by_column_layout example_matrix)
    as (mn & mx & e & Hm & He & Hs & Hi);
    [cbn; lia | cbn; lia | exact example_matrix_fits |].
  exists e. split; [exact He|].
  assert (Hmn : forall i, (i < 2)%nat -> mn i = min_of example_matrix i /\
                                          mx i = max_of example_matrix i).
  { intros i Hlt. destruct (Hm i Hlt) as [[_ Hlo] [_ Hhi]].
    destruct (min_of_spec example_matrix ltac:(cbn; lia) i) as [[jn [Hjn Hn]] Hlo'].
    destruct (max_of_spec example_matrix ltac:(cbn; lia) i) as [[jx [Hjx Hx]] Hhi'].
    destruct (Hm i Hlt) as [[[jn' [Hjn' Hn']] _] [[jx' [Hjx' Hx']] _]].
    pose proof (Hlo jn Hjn). pose proof (Hlo' jn' Hjn').
    pose proof (Hhi jx Hjx). pose proof (Hhi' jx' Hjx').
    cbn beta in *. lia. }
  destruct (Hmn 0%nat) as [Hn0 Hx0]; [lia|]. destruct (Hmn 1%nat) as [Hn1 Hx1]; [lia|].
  assert (Hw0 : block_width (mn 0%nat) (mx 0%nat) = 3%nat) by (rewrite Hn0, Hx0; reflexivity).
  assert (Hw1 : block_width (mn 1%nat) (mx 1%nat) = 2%nat) by (rewrite Hn1, Hx1; reflexivity).
  cbn zeta in Hs, Hi. cbn [ncols nrows example_matrix block_offset] in Hs, Hi.
  rewrite Hw0, Hw1 in Hs. split; [exact Hs|].
  split; [|split].
  - specialize (Hi 1%nat 0%nat 2%nat). cbn [block_offset] in Hi.
    rewrite Hw0, Hn0 in Hi. apply Hi; lia.
  - specialize (Hi 1%nat 0%nat 1%nat). cbn [block_offset] in Hi.
    rewrite Hw0, Hn0 in Hi. apply Hi; lia.
  - specialize (Hi 2%nat 1%nat 1%nat). cbn [block_offset] in Hi.
    rewrite Hw0, Hw1, Hn1 in Hi. apply Hi; lia.
Defined.

(** C7 fails on an array of 8-bit integers with the column [-100, 100]: its
    entries are values of the dtype, but [max - min] wraps around to [-56],
    the width to [-55], and [np.zeros] raises. *)
Lemma one_hot_by_column_int8_overflow :
  in_dtype example_int8_matrix /\
  nrows example_int8_matrix = 2%nat /\ ncols example_int8_matrix = 1%nat /\
  one_hot_by_column example_int8_matrix = Raise ValueError /\
  ~ exists encoded,
      one_hot_by_column example_int8_matrix = Ok encoded /\
      shape encoded = [2; 201]%nat.
Proof.
  assert (Hrun : one_hot_by_column example_int8_matrix = Raise ValueError)
    by (vm_compute; reflexivity).
  split; [|split; [reflexivity|split; [reflexivity|split; [exact Hrun|]]]].
  - intros j i Hj Hi. cbn in Hj, Hi.
    destruct j as [|[|j]]; [| |lia]; vm_compute; split; discriminate.
  - intros (encoded & He & _). rewrite Hrun in He. discriminate.
Qed.

End OneHotFacts.

(** ** Facts about the torch operations *)

Module TorchFacts.

Import Torch.

Open Scope R_scope.

(** An in-range index is not affected by the size-1 rule of broadcasting. *)
Lemma if_one (d i : nat) :
  (i < d)%nat -> (if (d =? 1)%nat then 0%nat else i) = i.
Proof. intros H. destruct (Nat.eqb_spec d 1); lia. Qed.

Lemma rsum_0 (f : nat -> R) : rsum 0 f = 0.
Proof. reflexivity. Qed.

Lemma rsum_shift (n : nat) (f : nat -> R) (s : nat) :
  fold_right (fun k acc => f k + acc) 0 (seq s (S n)) =
  fold_right (fun k acc => f k + acc) 0 (seq s n) + f (s + n)%nat.
Proof.
  revert s. induction n as [|n IH]; intros s.
  - simpl. rewrite Nat.add_0_r. lra.
  - change (seq s (S (S n))) with (s :: seq (S s) (S n)).
    cbn [fold_right]. rewrite IH. cbn [seq fold_right].
    replace (S s + n)%nat with (s + S n)%nat by lia. lra.
Qed.

Lemma rsum_S (n : nat) (f : nat -> R) : rsum (S n) f = rsum n f + f n.
Proof. unfold rsum. now rewrite rsum_shift. Qed.

Lemma rsum_zero (n : nat) (f : nat -> R) :
  (forall k, (k < n)%nat -> f k = 0) -> rsum n f = 0.
Proof.
  induction n as [|n IH]; intros H; [reflexivity|].
  rewrite rsum_S, IH, H by auto. lra.
Qed.

(** A sum with a single nonzero term. *)
Lemma rsum_single (n i : nat) (f : nat -> R) :
  (i < n)%nat -> (forall k, (k < n)%nat -> k <> i -> f k = 0) -> rsum n f = f i.
Proof.
  induction n as [|n IH]; intros Hi H; [lia|].
  rewrite rsum_S. destruct (Nat.eq_dec i n) as [->|Hne].
  - rewrite rsum_zero; [lra|]. intros k Hk. apply H; lia.
  - rewrite IH; [|lia|intros k Hk Hki; apply H; lia].
    rewrite (H n) by lia. lra.
Qed.

(** *** Each operation on operands of the shapes the model gives it: it
    returns, with this shape and these entries. *)

Ltac known_shapes :=
  repeat match goal with
         | H : shape _ = _ |- _ => rewrite H
         end.

Ltac same_sizes := rewrite ?Nat.eqb_refl, ?bdim_refl.

Lemma add_same (a b : ndarray) :
  shape b = shape a ->
  exists c, add a b = Ok c /\ shape c = shape a /\
    forall idx, in_bounds idx (shape a) -> item c idx = item a idx + item b idx.
Proof.
  intros H. unfold add. rewrite broadcast2_same by exact H.
  eexists. split; [reflexivity|]. split; [reflexivity|].
  intros idx Hidx. cbn [item]. now rewrite (bindex_in_bounds _ _ Hidx).
Qed.

Lemma sub_same (a b : ndarray) :
  shape b = shape a ->
  exists c, sub a b = Ok c /\ shape c = shape a /\
    forall idx, in_bounds idx (shape a) -> item c idx = item a idx - item b idx.
Proof.
  intros H. unfold sub. rewrite broadcast2_same by exact H.
  eexists. split; [reflexivity|]. split; [reflexivity|].
  intros idx Hidx. cbn [item]. now rewrite (bindex_in_bounds _ _ Hidx).
Qed.

Lemma mul_same (a b : ndarray) :
  shape b = shape a ->
  exists c, mul a b = Ok c /\ shape c = shape a /\
    forall idx, in_bounds idx (shape a) -> item c idx = item a idx * item b idx.
Proof.
  intros H. unfold mul. rewrite broadcast2_same by exact H.
  eexists. split; [reflexivity|]. split; [reflexivity|].
  intros idx Hidx. cbn [item]. now rewrite (bindex_in_bounds _ _ Hidx).
Qed.

Lemma sum_last_3 (a : ndarray) (B N M : nat) :
  shape a = [B; N; M] ->
  shape (sum_last a) = [B; N] /\
  forall b i, item (sum_last a) [b; i] = rsum M (fun k => item a [b; i; k]).
Proof.
  intros H. unfold sum_last. rewrite H. cbn. split; reflexivity.
Qed.

Lemma diag_embed_2 (a : ndarray) (B N : nat) :
  shape a = [B; N] ->
  exists c, diag_embed a = Ok c /\ shape c = [B; N; N] /\
    forall b i j, item c [b; i; j] = if (i =? j)%nat then item a [b; i] else 0.
Proof.
  intros H. unfold diag_embed. rewrite H. cbn.
  eexists. split; [reflexivity|]. split; reflexivity.
Qed.

(** Batched matrix product: [(B, n, m) x (B, m, p)]. *)
Lemma matmul_batched (a b : ndarray) (B n m p : nat) :
  shape a = [B; n; m] -> shape b = [B; m; p] ->
  exists c, matmul a b = Ok c /\ shape c = [B; n; p] /\
    forall ib i j, (ib < B)%nat ->
      item c [ib; i; j] = rsum m (fun k => item a [ib; i; k] * item b [ib; k; j]).
Proof.
  intros Ha Hb. unfold matmul. rewrite Ha, Hb. cbn [rev app].
  same_sizes. cbn [broadcast_rev]. same_sizes. cbn [rev app].
  eexists. split; [reflexivity|]. split; [reflexivity|].
  intros ib i j Hib. cbn [item rev app bindex_rev]. now rewrite (if_one _ _ Hib).
Qed.

(** A batch of matrices times one matrix: [(B, n, m) x (m, p)]. *)
Lemma matmul_batch_matrix (a b : ndarray) (B n m p : nat) :
  shape a = [B; n; m] -> shape b = [m; p] ->
  exists c, matmul a b = Ok c /\ shape c = [B; n; p] /\
    forall ib i j, (ib < B)%nat ->
      item c [ib; i; j] = rsum m (fun k => item a [ib; i; k] * item b [k; j]).
Proof.
  intros Ha Hb. unfold matmul. rewrite Ha, Hb. cbn [rev app].
  same_sizes. cbn [broadcast_rev rev app].
  eexists. split; [reflexivity|]. split; [reflexivity|].
  intros ib i j Hib. cbn [item rev app bindex_rev]. now rewrite (if_one _ _ Hib).
Qed.

(** One matrix times another: [(n, m) x (m, p)]. *)
Lemma matmul_matrices (a b : ndarray) (n m p : nat) :
  shape a = [n; m] -> shape b = [m; p] ->
  exists c, matmul a b = Ok c /\ shape c = [n; p] /\
    forall i j, item c [i; j] = rsum m (fun k => item a [i; k] * item b [k; j]).
Proof.
  intros Ha Hb. unfold matmul. rewrite Ha, Hb. cbn [rev app].
  same_sizes. cbn [broadcast_rev rev app].
  eexists. split; [reflexivity|]. split; [reflexivity|].
  intros i j. reflexivity.
Qed.

Lemma linear_3 (l : Linear) (x : ndarray) (B N C O : nat) :
  shape (weight l) = [O; C] -> shape (bias l) = [O] -> shape x = [B; N; C] ->
  exists y, linear l x = Ok y /\ shape y = [B; N; O] /\
    forall b n o,
      item y [b; n; o] =
      rsum C (fun i => item x [b; n; i] * item (weight l) [o; i]) + item (bias l) [o].
Proof.
  intros Hw Hb Hx. unfold linear. rewrite Hw, Hx, Hb. cbn [rev app list_eqb].
  same_sizes. cbn [andb].
  eexists. split; [reflexivity|]. split; reflexivity.
Qed.

Lemma transpose_21 (a : ndarray) (B N D : nat) :
  shape a = [B; N; D] ->
  exists t, transpose 2 1 a = Ok t /\ shape t = [B; D; N] /\
    forall b d n, item t [b; d; n] = item a [b; n; d].
Proof.
  intros H. unfold transpose, permute, ndim. rewrite H. cbn.
  eexists. split; [reflexivity|]. split; reflexivity.
Qed.

Lemma permute_0213 (a : ndarray) (B K N C : nat) :
  shape a = [B; K; N; C] ->
  exists t, permute [0; 2; 1; 3]%nat a = Ok t /\ shape t = [B; N; K; C] /\
    forall b n k c, item t [b; n; k; c] = item a [b; k; n; c].
Proof.
  intros H. unfold permute, ndim. rewrite H. cbn.
  eexists. split; [reflexivity|]. split; reflexivity.
Qed.

Lemma permute_0132 (a : ndarray) (B K N C : nat) :
  shape a = [B; K; N; C] ->
  exists t, permute [0; 1; 3; 2]%nat a = Ok t /\ shape t = [B; K; C; N] /\
    forall b k c n, item t [b; k; c; n] = item a [b; k; n; c].
Proof.
  intros H. unfold permute, ndim. rewrite H. cbn.
  eexists. split; [reflexivity|]. split; reflexivity.
Qed.

Lemma permute_102 (a : ndarray) (M T E : nat) :
  shape a = [M; T; E] ->
  exists t, permute [1; 0; 2]%nat a = Ok t /\ shape t = [T; M; E] /\
    forall i m e, item t [i; m; e] = item a [m; i; e].
Proof.
  intros H. unfold permute, ndim. rewrite H. cbn.
  eexists. split; [reflexivity|]. split; reflexivity.
Qed.

(** [torch.eye(N).unsqueeze(0)] and its [repeat(B, 1, 1)]. *)
Lemma unsqueeze_eye (N : nat) :
  exists c, unsqueeze 0 (eye N) = Ok c /\ shape c = [1; N; N]%nat /\
    forall b i j, item c [b; i; j] = if (i =? j)%nat then 1 else 0.
Proof.
  unfold unsqueeze, eye, ndim. cbn.
  eexists. split; [reflexivity|]. split; reflexivity.
Qed.

Lemma repeat_batch (c : ndarray) (B N : nat) :
  shape c = [1; N; N]%nat ->
  exists I, repeat_ [B; 1; 1]%nat c = Ok I /\ shape I = [B; N; N] /\
    forall b i j, (i < N)%nat -> (j < N)%nat -> item I [b; i; j] = item c [0; i; j]%nat.
Proof.
  intros H. unfold repeat_, ndim. rewrite H.
  cbn [length Nat.leb Nat.sub List.repeat app combine map].
  rewrite Nat.mul_1_r, !Nat.mul_1_l.
  eexists. split; [reflexivity|]. split; [reflexivity|].
  intros b i j Hi Hj. cbn [item combine map skipn Nat.sub].
  rewrite Nat.mod_1_r, !Nat.mod_small by assumption. reflexivity.
Qed.

Lemma list_eqb_refl (l : list nat) : list_eqb l l = true.
Proof. induction l as [|x l IH]; cbn; [reflexivity|]. now rewrite Nat.eqb_refl. Qed.

Lemma list_eqb_eq (l1 l2 : list nat) : list_eqb l1 l2 = true <-> l1 = l2.
Proof.
  revert l2. induction l1 as [|x l1 IH]; intros [|y l2]; cbn; split; intros H;
    try discriminate; try reflexivity.
  - apply andb_true_iff in H. destruct H as [Hx Hl].
    apply Nat.eqb_eq in Hx. apply IH in Hl. now subst.
  - injection H as -> ->. now rewrite Nat.eqb_refl, list_eqb_refl.
Qed.

(** [torch.stack(ts, dim=1)] of tensors of one 3-dimensional shape. *)
Lemma stack_1 (ts : list ndarray) (B N M : nat) :
  ts <> [] -> (forall t, In t ts -> shape t = [B; N; M]) ->
  exists s, stack ts 1 = Ok s /\ shape s = [B; length ts; N; M] /\
    forall b k i j t0, item s [b; k; i; j] = item (nth k ts (hd t0 ts)) [b; i; j].
Proof.
  intros Hne Hall. unfold stack. destruct ts as [|t0 ts']; [contradiction|].
  assert (Hforall : forallb (fun t => list_eqb (shape t) (shape t0)) (t0 :: ts') = true).
  { apply forallb_forall. intros t Ht. apply list_eqb_eq.
    rewrite (Hall t Ht), (Hall t0); [reflexivity | now left]. }
  rewrite Hforall. unfold ndim. rewrite (Hall t0) by now left.
  cbn [length Nat.leb insert_at].
  eexists. split; [reflexivity|]. split; [reflexivity|].
  intros b k i j t1. reflexivity.
Qed.

(** [a[:, t]] of a 4-dimensional tensor. *)
Lemma select_1 (a : ndarray) (t B T N C : nat) :
  shape a = [B; T; N; C] -> (t < T)%nat ->
  exists s, select 1 t a = Ok s /\ shape s = [B; N; C] /\
    forall b i j, item s [b; i; j] = item a [b; t; i; j].
Proof.
  intros H Ht. unfold select, ndim. rewrite H. cbn [length nth].
  assert (H4 : (1 <? 4)%nat = true) by reflexivity. rewrite H4.
  apply Nat.ltb_lt in Ht. rewrite Ht.
  eexists. split; [reflexivity|]. split; reflexivity.
Qed.

Lemma select_11 (a : ndarray) (B K N M : nat) :
  shape a = [B; K; N; M] -> (2 <= K)%nat ->
  exists s, select 1 1 a = Ok s /\ shape s = [B; N; M] /\
    forall b i j, item s [b; i; j] = item a [b; 1%nat; i; j].
Proof.
  intros H HK. apply (select_1 a 1 B K N M H). lia.
Qed.

(** [a[i]] of a 4-dimensional tensor. *)
Lemma select_0 (a : ndarray) (i L B N C : nat) :
  shape a = [L; B; N; C] -> (i < L)%nat ->
  exists s, select 0 i a = Ok s /\ shape s = [B; N; C] /\
    forall b n c, item s [b; n; c] = item a [i; b; n; c].
Proof.
  intros H Hi. unfold select, ndim. rewrite H. cbn [length nth].
  assert (H4 : (0 <? 4)%nat = true) by reflexivity. rewrite H4.
  apply Nat.ltb_lt in Hi. rewrite Hi.
  eexists. split; [reflexivity|]. split; reflexivity.
Qed.

(** A batch plus one matrix: [(B, N, M) + (N, M)]. *)
Lemma add_batch_matrix (a b : ndarray) (B N M : nat) :
  shape a = [B; N; M] -> shape b = [N; M] ->
  exists c, add a b = Ok c /\ shape c = [B; N; M] /\
    forall ib i j, (ib < B)%nat -> (i < N)%nat -> (j < M)%nat ->
      item c [ib; i; j] = item a [ib; i; j] + item b [i; j].
Proof.
  intros Ha Hb. unfold add, broadcast2, broadcast_shapes. rewrite Ha, Hb.
  cbn [rev app broadcast_rev]. same_sizes. cbn [option_map rev app].
  eexists. split; [reflexivity|]. split; [reflexivity|].
  intros ib i j Hib Hi Hj. cbn [item]. unfold bindex. cbn [rev app bindex_rev].
  now rewrite !if_one by assumption.
Qed.

Lemma squeeze_2 (a : ndarray) (N D : nat) :
  shape a = [N; D] -> (2 <= N)%nat -> (2 <= D)%nat ->
  shape (squeeze a) = [N; D] /\
  forall n d, item (squeeze a) [n; d] = item a [n; d].
Proof.
  intros H HN HD. unfold squeeze. rewrite H. cbn [filter unsqueezed_index shape item].
  destruct (Nat.eqb_spec N 1) as [?|_]; [lia|].
  destruct (Nat.eqb_spec D 1) as [?|_]; [lia|].
  cbn [negb]. split; reflexivity.
Qed.

Lemma squeeze_3 (a : ndarray) (N D : nat) :
  shape a = [1; N; D]%nat -> (2 <= N)%nat -> (2 <= D)%nat ->
  shape (squeeze a) = [N; D] /\
  forall n d, item (squeeze a) [n; d] = item a [0; n; d]%nat.
Proof.
  intros H HN HD. unfold squeeze. rewrite H. cbn [filter unsqueezed_index shape item].
  destruct (Nat.eqb_spec N 1) as [?|_]; [lia|].
  destruct (Nat.eqb_spec D 1) as [?|_]; [lia|].
  cbn. split; reflexivity.
Qed.

(** [e.unsqueeze(0).expand(B, -1, -1)] of a matrix. *)
Lemma unsqueeze_expand (e : ndarray) (B N D : nat) :
  shape e = [N; D] ->
  exists e1 ex,
    unsqueeze 0 e = Ok e1 /\ expand [Some B; None; None] e1 = Ok ex /\
    shape ex = [B; N; D] /\
    forall b n d, (n < N)%nat -> (d < D)%nat -> item ex [b; n; d] = item e [n; d].
Proof.
  intros H. unfold unsqueeze, ndim. rewrite H. cbn [length Nat.leb insert_at].
  eexists. eexists. split; [reflexivity|].
  unfold expand, ndim. cbn [shape length Nat.leb Nat.sub firstn forallb List.repeat app].
  cbn [expand_shape expand_dim]. 
  replace (if (1 =? B)%nat then Some B else if (1 =? 1)%nat then Some B else None)
    with (Some B) by (destruct (1 =? B)%nat; reflexivity).
  split; [reflexivity|]. split; [reflexivity|].
  intros b n d Hn Hd. cbn [item skipn combine map remove_at].
  now rewrite !if_one by assumption.
Qed.

(** [torch.cat((a, b), dim=-1)] of two 3-dimensional tensors. *)
Lemma cat_last_3 (a b : ndarray) (B N C1 C2 : nat) :
  shape a = [B; N; C1] -> shape b = [B; N; C2] ->
  exists c, cat_last a b = Ok c /\ shape c = [B; N; (C1 + C2)%nat] /\
    (forall ib n k, (k < C1)%nat -> item c [ib; n; k] = item a [ib; n; k]) /\
    (forall ib n k, item c [ib; n; (C1 + k)%nat] = item b [ib; n; k]).
Proof.
  intros Ha Hb. unfold cat_last. rewrite Ha, Hb. cbn [rev app list_eqb].
  same_sizes. cbn [andb].
  eexists. split; [reflexivity|]. split; [reflexivity|]. split.
  - intros ib n k Hk. cbn [item rev app]. apply Nat.ltb_lt in Hk. now rewrite Hk.
  - intros ib n k. cbn [item rev app].
    destruct (Nat.ltb_spec (C1 + k) C1); [lia|].
    now replace (C1 + k - C1)%nat with k by lia.
Qed.

Lemma chunks_of_double (H : nat) :
  (1 <= H)%nat -> Nat.max 1 ((2 * H + H - 1) / H) = 2%nat.
Proof.
  intros HH. replace ((2 * H + H - 1) / H)%nat with 2%nat; [reflexivity|].
  apply (Nat.div_unique _ _ _ (H - 1)); lia.
Qed.

(** [torch.split(a, H, dim=-1)] of a tensor whose last dimension is [2 H]. *)
Lemma split_last_halves (a : ndarray) (B N H : nat) :
  shape a = [B; N; (2 * H)%nat] -> (1 <= H)%nat ->
  exists z r, split_last a H = Ok [z; r] /\
    shape z = [B; N; H] /\ shape r = [B; N; H] /\
    (forall ib n k, item z [ib; n; k] = item a [ib; n; k]) /\
    (forall ib n k, item r [ib; n; k] = item a [ib; n; (H + k)%nat]).
Proof.
  intros Ha HH. unfold split_last. rewrite Ha. cbn [rev app].
  destruct (Nat.eqb_spec H 0) as [?|_]; [lia|].
  rewrite (chunks_of_double H HH). cbn [seq map].
  eexists. eexists. split; [reflexivity|].
  unfold narrow_last. rewrite Ha. cbn [shape item removelast app].
  rewrite Nat.mul_0_l, Nat.sub_0_r, Nat.mul_1_l.
  rewrite !Nat.min_l by lia.
  split; [reflexivity|]. split; [reflexivity|]. split; intros ib n k; reflexivity.
Qed.

(** *** The [einsum] equations of the model *)

Ltac einsum_spec :=
  intros; unfold einsum; known_shapes; cbn; same_sizes; cbn; same_sizes; cbn;
  eexists; split; [reflexivity|]; split; [reflexivity|];
  intros; cbn;
  repeat (apply rsum_ext; intros);
  rewrite ?if_one by assumption; reflexivity.

Lemma einsum_bknm_bmc (a b : ndarray) (B K N M C : nat) :
  shape a = [B; K; N; M] -> shape b = [B; M; C] ->
  exists r, einsum "bknm,bmc->bknc" a b = Ok r /\ shape r = [B; K; N; C] /\
    forall ib k n c, (ib < B)%nat -> (k < K)%nat -> (n < N)%nat -> (c < C)%nat ->
      item r [ib; k; n; c] =
      rsum M (fun m => item a [ib; k; n; m] * item b [ib; m; c]).
Proof. einsum_spec. Qed.

Lemma einsum_bnd_dkio (e w : ndarray) (B N D K I O : nat) :
  shape e = [B; N; D] -> shape w = [D; K; I; O] ->
  exists r, einsum "bnd,dkio->bnkio" e w = Ok r /\ shape r = [B; N; K; I; O] /\
    forall ib n k i o,
      (ib < B)%nat -> (n < N)%nat -> (k < K)%nat -> (i < I)%nat -> (o < O)%nat ->
      item r [ib; n; k; i; o] =
      rsum D (fun d => item e [ib; n; d] * item w [d; k; i; o]).
Proof. einsum_spec. Qed.

Lemma einsum_bnki_bnkio (a w : ndarray) (B N K I O : nat) :
  shape a = [B; N; K; I] -> shape w = [B; N; K; I; O] ->
  exists r, einsum "bnki,bnkio->bno" a w = Ok r /\ shape r = [B; N; O] /\
    forall ib n o, (ib < B)%nat -> (n < N)%nat -> (o < O)%nat ->
      item r [ib; n; o] =
      rsum K (fun k => rsum I (fun i =>
        item a [ib; n; k; i] * item w [ib; n; k; i; o])).
Proof. einsum_spec. Qed.

Lemma einsum_nm_bmc (a b : ndarray) (B N M C : nat) :
  shape a = [N; M] -> shape b = [B; M; C] ->
  exists r, einsum "nm,bmc->bnc" a b = Ok r /\ shape r = [B; N; C] /\
    forall ib n c, (ib < B)%nat -> (n < N)%nat -> (c < C)%nat ->
      item r [ib; n; c] = rsum M (fun m => item a [n; m] * item b [ib; m; c]).
Proof. einsum_spec. Qed.

Lemma einsum_bnm_bmc (a b : ndarray) (B N M C : nat) :
  shape a = [B; N; M] -> shape b = [B; M; C] ->
  exists r, einsum "bnm,bmc->bnc" a b = Ok r /\ shape r = [B; N; C] /\
    forall ib n c, (ib < B)%nat -> (n < N)%nat -> (c < C)%nat ->
      item r [ib; n; c] = rsum M (fun m => item a [ib; n; m] * item b [ib; m; c]).
Proof. einsum_spec. Qed.

Lemma einsum_nd_dkio (e w : ndarray) (N D K I O : nat) :
  shape e = [N; D] -> shape w = [D; K; I; O] ->
  exists r, einsum "nd,dkio->nkio" e w = Ok r /\ shape r = [N; K; I; O] /\
    forall n k i o, (n < N)%nat -> (k < K)%nat -> (i < I)%nat -> (o < O)%nat ->
      item r [n; k; i; o] = rsum D (fun d => item e [n; d] * item w [d; k; i; o]).
Proof. einsum_spec. Qed.

Lemma einsum_bnki_nkio (a w : ndarray) (B N K I O : nat) :
  shape a = [B; N; K; I] -> shape w = [N; K; I; O] ->
  exists r, einsum "bnki,nkio->bno" a w = Ok r /\ shape r = [B; N; O] /\
    forall ib n o, (ib < B)%nat -> (n < N)%nat -> (o < O)%nat ->
      item r [ib; n; o] =
      rsum K (fun k => rsum I (fun i => item a [ib; n; k; i] * item w [n; k; i; o])).
Proof. einsum_spec. Qed.

End TorchFacts.

Import TorchFacts.

(** ** Facts about the graph convolution *)

Module AVWGCNFacts.

Import Torch Model.

Open Scope R_scope.

Lemma get_laplacian_unnormalized (graph I : ndarray) :
  AVWGCN.get_laplacian graph I false = Raise UnboundLocalError.
Proof. reflexivity. Qed.

Lemma get_laplacian_returns (graph I : ndarray) (normalize : bool) :
  returns (AVWGCN.get_laplacian graph I normalize) -> normalize = true.
Proof.
  destruct normalize; [reflexivity|]. intros [L H]. discriminate.
Qed.

Lemma in_bounds_3 (B N M b i j : nat) :
  (b < B)%nat -> (i < N)%nat -> (j < M)%nat -> in_bounds [b; i; j] [B; N; M].
Proof. intros. repeat constructor; assumption. Qed.

(** [get_laplacian] once [graph + I] is known to be the batch [G]. *)
Lemma get_laplacian_of_sum (graph I G : ndarray) (B N : nat) :
  add graph I = Ok G -> shape G = [B; N; N] ->
  exists L,
    AVWGCN.get_laplacian graph I true = Ok L /\
    shape L = [B; N; N] /\
    forall b i j, (b < B)%nat -> (i < N)%nat -> (j < N)%nat ->
      item L [b; i; j] = normalized_entry (item G) N b i j.
Proof.
  intros Hadd HGs. unfold AVWGCN.get_laplacian. rewrite Hadd. cbn [bind].
  destruct (sum_last_3 G B N N HGs) as (Hds & Hd).
  destruct (diag_embed_2 (pow (sum_last G) (-1 / 2)) B N Hds) as (D & -> & HDs & HD).
  cbn [bind].
  destruct (matmul_batched D G B N N N HDs HGs) as (DG & -> & HDGs & HDG).
  cbn [bind].
  destruct (matmul_batched DG D B N N N HDGs HDs) as (L & -> & HLs & HL).
  cbn [bind].
  exists L. split; [reflexivity|]. split; [exact HLs|].
  intros b i j Hb Hi Hj. rewrite (HL b i j Hb).
  rewrite (rsum_single N j) by
    (first [assumption | intros k Hk Hkj; rewrite HD;
                          destruct (Nat.eqb_spec k j); [contradiction | ring]]).
  rewrite (HDG b i j Hb), HD, Nat.eqb_refl.
  rewrite (rsum_single N i) by
    (first [assumption | intros k Hk Hki; rewrite HD;
                          destruct (Nat.eqb_spec i k); [congruence | ring]]).
  rewrite HD, Nat.eqb_refl. unfold pow. cbn [map1 item]. rewrite !Hd.
  reflexivity.
Qed.

Lemma normalized_entry_ext (G G' : list nat -> R) (n b i j : nat) :
  (i < n)%nat -> (j < n)%nat ->
  (forall r c, (r < n)%nat -> (c < n)%nat -> G [b; r; c] = G' [b; r; c]) ->
  normalized_entry G n b i j = normalized_entry G' n b i j.
Proof.
  intros Hi Hj H. unfold normalized_entry.
  rewrite (H i j Hi Hj).
  f_equal; [f_equal|]; f_equal; apply rsum_ext; intros k Hk; now apply H.
Qed.

Lemma get_laplacian_batched (graph I : ndarray) (B N : nat) :
  shape graph = [B; N; N] -> shape I = [B; N; N] ->
  exists L,
    AVWGCN.get_laplacian graph I true = Ok L /\
    shape L = [B; N; N] /\
    forall b i j, (b < B)%nat -> (i < N)%nat -> (j < N)%nat ->
      item L [b; i; j] =
      normalized_entry (fun idx => item graph idx + item I idx) N b i j.
Proof.
  intros Hg HI.
  destruct (add_same graph I) as (G & Hadd & HGs & HG); [congruence|].
  rewrite Hg in HGs, HG.
  destruct (get_laplacian_of_sum graph I G B N Hadd HGs) as (L & HL & HLs & HLi).
  exists L. split; [exact HL|]. split; [exact HLs|].
  intros b i j Hb Hi Hj. rewrite (HLi b i j Hb Hi Hj).
  apply normalized_entry_ext; try assumption.
  intros r c Hr Hc. apply HG. now apply in_bounds_3.
Qed.

(** The same with one identity matrix for the whole batch. *)
Lemma get_laplacian_matrix (graph I : ndarray) (B N : nat) :
  shape graph = [B; N; N] -> shape I = [N; N] ->
  exists L,
    AVWGCN.get_laplacian graph I true = Ok L /\
    shape L = [B; N; N] /\
    forall b i j, (b < B)%nat -> (i < N)%nat -> (j < N)%nat ->
      item L [b; i; j] =
      normalized_entry
        (fun idx => item graph idx + item I (tl idx)) N b i j.
Proof.
  intros Hg HI.
  destruct (add_batch_matrix graph I B N N Hg HI) as (G & Hadd & HGs & HG).
  destruct (get_laplacian_of_sum graph I G B N Hadd HGs) as (L & HL & HLs & HLi).
  exists L. split; [exact HL|]. split; [exact HLs|].
  intros b i j Hb Hi Hj. rewrite (HLi b i j Hb Hi Hj).
  apply normalized_entry_ext; try assumption.
  intros r c Hr Hc. cbn [tl]. now apply HG.
Qed.

Lemma fc_shape (self : AVWGCN.t) (x : ndarray) (B N C O : nat) :
  well_formed self C O -> shape x = [B; N; C] ->
  exists filter, AVWGCN.fc self x = Ok filter /\
                 shape filter = [B; N; AVWGCN.embed_dim self].
Proof.
  intros (_ & _ & Hw1 & Hb1 & Hw2 & Hb2 & Hw3 & Hb3) Hx. unfold AVWGCN.fc.
  destruct (linear_3 _ x B N _ _ Hw1 Hb1 Hx) as (h1 & -> & Hh1 & _). cbn [bind].
  destruct (linear_3 _ (map1 sigmoid h1) B N _ _ Hw2 Hb2 Hh1) as (h2 & -> & Hh2 & _).
  cbn [bind].
  destruct (linear_3 _ (map1 sigmoid h2) B N _ _ Hw3 Hb3 Hh2) as (h3 & -> & Hh3 & _).
  now exists h3.
Qed.

(** The adjacency of [similarity]. *)
Lemma similarity_spec (nodevec : ndarray) (B N D : nat) :
  shape nodevec = [B; N; D] ->
  exists A, AVWGCN.similarity nodevec = Ok A /\ shape A = [B; N; N] /\
    forall b i j, (b < B)%nat ->
      item A [b; i; j] =
      relu (rsum D (fun d => item nodevec [b; i; d] * item nodevec [b; j; d])).
Proof.
  intros H. unfold AVWGCN.similarity.
  destruct (transpose_21 nodevec B N D H) as (t & -> & Ht & Hti). cbn [bind].
  destruct (matmul_batched nodevec t B N D N H Ht) as (g & -> & Hg & Hgi). cbn [bind].
  eexists. split; [reflexivity|]. split; [exact Hg|].
  intros b i j Hb. cbn [map1 item]. rewrite (Hgi b i j Hb).
  f_equal. apply rsum_ext. intros d _. now rewrite Hti.
Qed.

(** The loop over [range(2, cheb_k)] extends [support_set] by the Chebyshev
    polynomials, in order. *)
Lemma support_loop (I L : ndarray) (B N m : nat) :
  shape I = [B; N; N] -> shape L = [B; N; N] ->
  exists ts,
    for_each (seq 2 m) (AVWGCN.append_support L) [I; L] = Ok ts /\
    length ts = (m + 2)%nat /\
    forall k, (k < m + 2)%nat ->
      exists t, nth_error ts k = Some t /\ chebyshev I L k = Ok t /\
                shape t = [B; N; N].
Proof.
  intros HI HL. induction m as [|m IH].
  - exists [I; L]. split; [reflexivity|]. split; [reflexivity|].
    intros k Hk. destruct k as [|[|k]]; [| |lia].
    + now exists I.
    + now exists L.
  - destruct IH as (ts & Hloop & Hlen & Hts).
    rewrite seq_S, for_each_app, Hloop. cbn [for_each].
    unfold AVWGCN.append_support. rewrite Hlen.
    replace (m + 2 - 1)%nat with (S m) by lia.
    replace (m + 2 - 2)%nat with m by lia.
    destruct (Hts (S m)) as (t1 & Hn1 & Hc1 & Hs1); [lia|].
    destruct (Hts m) as (t2 & Hn2 & Hc2 & Hs2); [lia|].
    rewrite Hn1, Hn2.
    destruct (matmul_batched L t1 B N N N HL Hs1) as (p & Hmat & Hp & _).
    destruct (sub_same (scale 2 p) t2) as (t & Hsub & Ht & _);
      [cbn [scale map1 shape]; congruence|].
    cbn [scale map1 shape] in Ht. rewrite Hmat. cbn [bind]. rewrite Hsub. cbn [bind].
    exists (ts ++ [t]). split; [reflexivity|].
    split; [rewrite length_app; cbn [length]; lia|].
    intros k Hk. destruct (Nat.eq_dec k (m + 2)) as [->|Hne].
    + exists t. split; [|split].
      * rewrite nth_error_app2 by lia. rewrite Hlen, Nat.sub_diag. reflexivity.
      * replace (m + 2)%nat with (S (S m)) by lia.
        cbn [chebyshev]. change (match m with
                                  | 0%nat => Ok L
                                  | S k'' => _
                                  end) with (chebyshev I L (S m)).
        rewrite Hc1. cbn [bind]. rewrite Hc2. cbn [bind].
        rewrite Hmat. cbn [bind]. exact Hsub.
      * congruence.
    + destruct (Hts k) as (t' & Hn & Hc & Hs); [lia|].
      exists t'. split; [|split]; try assumption.
      rewrite nth_error_app1 by lia. exact Hn.
Qed.

Lemma dim_at_0 (a : ndarray) (d : nat) (s : list nat) :
  shape a = d :: s -> dim_at a 0 = Ok d.
Proof. intros H. unfold dim_at. now rewrite H. Qed.

Lemma dim_at_1 (a : ndarray) (d0 d : nat) (s : list nat) :
  shape a = d0 :: d :: s -> dim_at a 1 = Ok d.
Proof. intros H. unfold dim_at. now rewrite H. Qed.

(** The dynamic branch of [forward], stage by stage. *)
Lemma forward_dynamic_spec (self : AVWGCN.t) (x E : ndarray) (B N C O : nat) :
  well_formed self C O -> cache_ok N self -> (2 <= AVWGCN.cheb_k self)%nat ->
  shape x = [B; N; C] -> shape E = [B; N; AVWGCN.embed_dim self] ->
  exists c out adj filter A I L (T : nat -> ndarray),
    AVWGCN.forward_dynamic self x E =
      Ok (AVWGCN.set_cached_identity self c, (out, adj)) /\
    identity_of N c /\
    AVWGCN.fc self x = Ok filter /\
    shape A = [B; N; N] /\
    (forall b i j, (b < B)%nat -> (i < N)%nat -> (j < N)%nat ->
       item A [b; i; j] =
       adjacency_entry (AVWGCN.embed_dim self) (fun b n d => item E [b; n; d])
                       (item filter) b i j) /\
    shape I = [B; N; N] /\
    (forall b i j, (i < N)%nat -> (j < N)%nat ->
       item I [b; i; j] = if (i =? j)%nat then 1 else 0) /\
    AVWGCN.get_laplacian A I true = Ok L /\
    (forall k, (k < AVWGCN.cheb_k self)%nat ->
       chebyshev I L k = Ok (T k) /\ shape (T k) = [B; N; N]) /\
    shape out = [B; N; O] /\
    (forall b n o, (b < B)%nat -> (n < N)%nat -> (o < O)%nat ->
       item out [b; n; o] =
       mixed (AVWGCN.cheb_k self) N C (AVWGCN.embed_dim self)
             (fun k => item (T k)) (item x) (fun b n d => item E [b; n; d])
             (item (AVWGCN.weights_pool self)) (item (AVWGCN.bias_pool self)) b n o) /\
    shape adj = [B; N; N] /\
    (forall b i j, item adj [b; i; j] = item L [b; i; j]).
Proof.
  intros Hwf Hcache HK Hx HE.
  pose proof Hwf as (Hpool & Hbpool & _).
  set (D := AVWGCN.embed_dim self) in *.
  set (K := AVWGCN.cheb_k self) in *.
  unfold AVWGCN.forward_dynamic.
  rewrite (dim_at_0 E B _ HE), (dim_at_1 E B N _ HE). cbn [bind].
  assert (Hc : exists c,
             match AVWGCN.cached_identity self with
             | Some c => Ok c
             | None => unsqueeze 0 (eye N)
             end = Ok c /\ identity_of N c).
  { unfold cache_ok in Hcache. destruct (AVWGCN.cached_identity self) as [c|].
    - now exists c.
    - destruct (unsqueeze_eye N) as (c & Hc & Hcs & Hci).
      exists c. split; [exact Hc|]. split; [exact Hcs|]. intros i j _ _. apply Hci. }
  destruct Hc as (c & -> & Hcid). cbn [bind].
  destruct Hcid as (Hcs & Hci).
  destruct (repeat_batch c B N Hcs) as (I & -> & HIs & HIi). cbn [bind].
  destruct (fc_shape self x B N C O Hwf Hx) as (filter & Hfc & Hfs).
  change (AVWGCN.fc (AVWGCN.set_cached_identity self c) x) with (AVWGCN.fc self x).
  rewrite Hfc. cbn [bind]. fold D in Hfs.
  destruct (mul_same E filter) as (p & -> & Hps & Hpi); [congruence|]. cbn [bind].
  rewrite HE in Hps, Hpi.
  destruct (similarity_spec (map1 tanh p) B N D Hps) as (A & -> & HAs & HAi).
  cbn [bind].
  destruct (get_laplacian_batched A I B N HAs HIs) as (L & HL & HLs & _).
  rewrite HL. cbn [bind].
  change (AVWGCN.cheb_k (AVWGCN.set_cached_identity self c)) with K.
  destruct (support_loop I L B N (K - 2) HIs HLs) as (ts & -> & Hlen & Hts).
  cbn [bind]. replace (K - 2 + 2)%nat with K in Hlen, Hts by lia.
  assert (Hne : ts <> []) by (intros ->; cbn in Hlen; lia).
  assert (Hall : forall t, In t ts -> shape t = [B; N; N]).
  { intros t Ht. apply In_nth_error in Ht. destruct Ht as [k Hk].
    assert (Hklt : (k < K)%nat).
    { rewrite <- Hlen. apply nth_error_Some. congruence. }
    destruct (Hts k Hklt) as (t' & Hn & _ & Hs). congruence. }
  destruct (stack_1 ts B N N Hne Hall) as (S & -> & HSs & HSi). cbn [bind].
  rewrite Hlen in HSs.
  destruct (einsum_bknm_bmc S x B K N N C HSs Hx) as (xg & -> & Hxgs & Hxgi).
  cbn [bind].
  change (AVWGCN.weights_pool (AVWGCN.set_cached_identity self c))
    with (AVWGCN.weights_pool self).
  change (AVWGCN.bias_pool (AVWGCN.set_cached_identity self c))
    with (AVWGCN.bias_pool self).
  destruct (einsum_bnd_dkio E (AVWGCN.weights_pool self) B N D K C O HE Hpool)
    as (w & -> & Hws & Hwi). cbn [bind].
  destruct (matmul_batch_matrix E (AVWGCN.bias_pool self) B N D O HE Hbpool)
    as (bs & -> & Hbs & Hbi). cbn [bind].
  destruct (permute_0213 xg B K N C Hxgs) as (xg' & -> & Hxgs' & Hxgi'). cbn [bind].
  destruct (einsum_bnki_bnkio xg' w B N K C O Hxgs' Hws) as (y & -> & Hys & Hyi).
  cbn [bind].
  destruct (add_same y bs) as (out & -> & Hos & Hoi); [congruence|]. cbn [bind].
  rewrite Hys in Hos, Hoi.
  destruct (select_11 S B K N N HSs HK) as (adj & -> & Hadjs & Hadji). cbn [bind].
  exists c, out, adj, filter, A, I, L, (fun k => nth k ts I).
  split; [reflexivity|].
  split; [now split|].
  split; [reflexivity|].
  split; [exact HAs|].
  split.
  { intros b i j Hb Hi Hj. rewrite (HAi b i j Hb). unfold adjacency_entry.
    f_equal. apply rsum_ext. intros d Hd. cbn [map1 item].
    rewrite !Hpi by (now apply in_bounds_3). reflexivity. }
  split; [exact HIs|].
  split.
  { intros b i j Hi Hj. rewrite (HIi b i j Hi Hj). now apply Hci. }
  split; [exact HL|].
  assert (HT : forall k, (k < K)%nat ->
                 chebyshev I L k = Ok (nth k ts I) /\ shape (nth k ts I) = [B; N; N]).
  { intros k Hk. destruct (Hts k Hk) as (t & Hn & Hc & Hs).
    rewrite (nth_error_nth _ _ _ Hn). now split. }
  split; [exact HT|].
  split; [exact Hos|].
  split.
  { intros b n o Hb Hn Ho. rewrite (Hoi [b; n; o]) by (now apply in_bounds_3).
    rewrite (Hyi b n o Hb Hn Ho), (Hbi b n o Hb). unfold mixed.
    f_equal. apply rsum_ext. intros k Hk. apply rsum_ext. intros i Hi.
    rewrite Hxgi', (Hxgi b k n i Hb Hk Hn Hi), (Hwi b n k i o Hb Hn Hk Hi Ho).
    f_equal. apply rsum_ext. intros m Hm. rewrite (HSi b k n m I).
    f_equal. f_equal. destruct ts; [contradiction|]. cbn [hd].
    apply nth_indep. rewrite Hlen. exact Hk. }
  split; [exact Hadjs|].
  intros b i j. rewrite Hadji, (HSi b 1%nat i j I).
  destruct (Hts 1%nat) as (t & Hn & Hc & _); [lia|].
  cbn [chebyshev] in Hc. injection Hc as <-.
  destruct ts as [|t0 ts']; [contradiction|]. cbn [hd].
  now rewrite (nth_error_nth _ _ _ Hn).
Qed.

(** The static branch of [forward], stage by stage. *)
Lemma forward_static_spec (self : AVWGCN.t) (x E : ndarray) (B N C O : nat) :
  well_formed self C O -> AVWGCN.cheb_k self = 3%nat -> (2 <= N)%nat ->
  shape x = [B; N; C] -> shape (squeeze E) = [N; AVWGCN.embed_dim self] ->
  exists out adj filter A L L',
    AVWGCN.forward_static self x E = Ok (self, (out, adj)) /\
    AVWGCN.fc self x = Ok filter /\
    shape A = [B; N; N] /\
    (forall b i j, (b < B)%nat -> (i < N)%nat -> (j < N)%nat ->
       item A [b; i; j] =
       adjacency_entry (AVWGCN.embed_dim self) (fun _ n d => item (squeeze E) [n; d])
                       (item filter) b i j) /\
    AVWGCN.get_laplacian A (eye N) true = Ok L /\ shape L = [B; N; N] /\
    AVWGCN.get_laplacian A L true = Ok L' /\ shape L' = [B; N; N] /\
    shape out = [B; N; O] /\
    (forall b n o, (b < B)%nat -> (n < N)%nat -> (o < O)%nat ->
       item out [b; n; o] =
       mixed 3 N C (AVWGCN.embed_dim self) (static_support L L') (item x)
             (fun _ n d => item (squeeze E) [n; d])
             (item (AVWGCN.weights_pool self)) (item (AVWGCN.bias_pool self)) b n o) /\
    shape adj = [B; 3%nat; C] /\
    (forall b k c, (b < B)%nat -> (k < 3)%nat -> (c < C)%nat ->
       item adj [b; k; c] =
       rsum N (fun m => static_support L L' k [b; 1%nat; m] * item x [b; m; c])).
Proof.
  intros Hwf HK HN Hx HE.
  pose proof Hwf as (Hpool & Hbpool & _).
  set (D := AVWGCN.embed_dim self) in *. rewrite HK in Hpool.
  set (E' := squeeze E) in *.
  unfold AVWGCN.forward_static. fold E'.
  rewrite (dim_at_0 x B _ Hx). cbn [bind].
  rewrite (dim_at_0 E' N _ HE). cbn [bind].
  destruct (fc_shape self x B N C O Hwf Hx) as (filter & Hfc & Hfs).
  rewrite Hfc. cbn [bind]. fold D in Hfs.
  destruct (unsqueeze_expand E' B N D HE) as (e1 & ex & He1 & Hex & Hexs & Hexi).
  rewrite He1. cbn [bind]. rewrite Hex. cbn [bind].
  destruct (mul_same ex filter) as (p & -> & Hps & Hpi); [congruence|]. cbn [bind].
  rewrite Hexs in Hps, Hpi.
  destruct (similarity_spec (map1 tanh p) B N D Hps) as (A & HA & HAs & HAi).
  rewrite HA. cbn [bind].
  assert (Heye : shape (eye N) = [N; N]) by reflexivity.
  destruct (get_laplacian_matrix A (eye N) B N HAs Heye) as (L & HL & HLs & _).
  rewrite HL. cbn [bind].
  destruct (get_laplacian_batched A L B N HAs HLs) as (L' & HL' & HLs' & _).
  rewrite HL'. cbn [bind].
  destruct (einsum_nm_bmc (eye N) x B N N C Heye Hx) as (g1 & -> & Hg1s & Hg1i).
  cbn [bind].
  destruct (einsum_bnm_bmc L x B N N C HLs Hx) as (g2 & -> & Hg2s & Hg2i).
  cbn [bind].
  destruct (einsum_bnm_bmc L' x B N N C HLs' Hx) as (g3 & -> & Hg3s & Hg3i).
  cbn [bind].
  destruct (stack_1 [g1; g2; g3] B N C) as (S & -> & HSs & HSi);
    [discriminate | intros t [<-|[<-|[<-|[]]]]; assumption |].
  cbn [bind length] in *.
  destruct (einsum_nd_dkio E' (AVWGCN.weights_pool self) N D 3 C O HE Hpool)
    as (w & -> & Hws & Hwi). cbn [bind].
  destruct (matmul_matrices E' (AVWGCN.bias_pool self) N D O HE Hbpool)
    as (bs & -> & Hbs & Hbi). cbn [bind].
  destruct (permute_0213 S B 3 N C HSs) as (xg & -> & Hxgs & Hxgi). cbn [bind].
  destruct (einsum_bnki_nkio xg w B N 3 C O Hxgs Hws) as (y & -> & Hys & Hyi).
  cbn [bind].
  destruct (add_batch_matrix y bs B N O Hys Hbs) as (out & -> & Hos & Hoi).
  cbn [bind].
  destruct (select_1 xg 1 B N 3 C Hxgs) as (adj & -> & Hadjs & Hadji); [lia|].
  cbn [bind].
  assert (Hg : forall b k n c, (b < B)%nat -> (k < 3)%nat -> (n < N)%nat -> (c < C)%nat ->
                 item S [b; k; n; c] =
                 rsum N (fun m => static_support L L' k [b; n; m] * item x [b; m; c])).
  { intros b k n c Hb Hk Hn Hc. rewrite (HSi b k n c g1). cbn [hd].
    destruct k as [|[|[|k]]]; [| | |lia]; cbn [nth static_support].
    - rewrite (Hg1i b n c Hb Hn Hc). reflexivity.
    - now rewrite (Hg2i b n c Hb Hn Hc).
    - now rewrite (Hg3i b n c Hb Hn Hc). }
  exists out, adj, filter, A, L, L'.
  split; [reflexivity|].
  split; [reflexivity|].
  split; [exact HAs|].
  split.
  { intros b i j Hb Hi Hj. rewrite (HAi b i j Hb). unfold adjacency_entry.
    f_equal. apply rsum_ext. intros d Hd. cbn [map1 item].
    rewrite !Hpi by (now apply in_bounds_3). now rewrite !Hexi by assumption. }
  split; [exact HL|]. split; [exact HLs|].
  split; [exact HL'|]. split; [exact HLs'|].
  split; [exact Hos|].
  split.
  { intros b n o Hb Hn Ho. rewrite (Hoi b n o Hb Hn Ho), (Hyi b n o Hb Hn Ho), Hbi.
    unfold mixed. f_equal. apply rsum_ext. intros k Hk. apply rsum_ext. intros i Hi.
    now rewrite Hxgi, (Hg b k n i Hb Hk Hn Hi), (Hwi n k i o Hn Hk Hi Ho). }
  split; [exact Hadjs|].
  intros b k c Hb Hk Hc. rewrite Hadji, Hxgi. apply Hg; assumption.
Qed.

(** The dynamic case: with the cache empty or holding the identity of size
    [N] and [cheb_k >= 2], [forward] returns the Chebyshev graph convolution
    of [x] with exactly [cheb_k] polynomial terms, for every number of nodes
    and every embedding dimension. *)
Lemma forward_dynamic_chebyshev
    (self : AVWGCN.t) (x E : ndarray) (B N C O : nat) :
  well_formed self C O -> cache_ok N self -> (2 <= AVWGCN.cheb_k self)%nat ->
  shape x = [B; N; C] ->
  shape E = [B; N; AVWGCN.embed_dim self] ->
  exists c out adj,
    AVWGCN.forward true self x E =
      Ok (AVWGCN.set_cached_identity self c, (out, adj)) /\
    identity_of N c /\
    chebyshev_convolution (AVWGCN.cheb_k self) (fun b n d => item E [b; n; d])
                          self x out B N C O.
Proof.
  intros Hwf Hcache HK Hx HE.
  destruct (forward_dynamic_spec self x E B N C O Hwf Hcache HK Hx HE)
    as (c & out & adj & filter & A & I & L & T & Hf & Hc & Hfc & HAs & HAi & HIs
        & HIi & HL & HT & Hos & Hoi & _).
  exists c, out, adj. split; [exact Hf|]. split; [exact Hc|].
  exists filter, A, I, L, T. repeat split; try assumption.
  - apply HT. assumption.
  - apply HT. assumption.
Qed.

(** The static case, for [N >= 2], [D >= 2] and [cheb_k = 3]: [forward]
    returns the mixing of the three supports [I], [L = get_laplacian(A, I)]
    and [get_laplacian(A, L)]. *)
Lemma forward_static_supports
    (self : AVWGCN.t) (x E : ndarray) (B N C O : nat) :
  well_formed self C O -> AVWGCN.cheb_k self = 3%nat ->
  (2 <= N)%nat -> (2 <= AVWGCN.embed_dim self)%nat ->
  shape x = [B; N; C] ->
  shape E = [N; AVWGCN.embed_dim self] ->
  exists out adj,
    AVWGCN.forward false self x E = Ok (self, (out, adj)) /\
    static_convolution (fun _ n d => item E [n; d]) self x out B N C O.
Proof.
  intros Hwf HK HN HD Hx HE.
  destruct (squeeze_2 E N _ HE HN HD) as (Hsq & Hsqi).
  destruct (forward_static_spec self x E B N C O Hwf HK HN Hx Hsq)
    as (out & adj & filter & A & L & L' & Hf & Hfc & HAs & HAi & HL & HLs & HL'
        & HLs' & Hos & Hoi & _).
  exists out, adj. split; [exact Hf|].
  exists filter, A, L, L'. repeat split; try assumption.
  - intros b i j Hb Hi Hj. rewrite (HAi b i j Hb Hi Hj).
    unfold adjacency_entry. f_equal. apply rsum_ext. intros d _.
    now rewrite !Hsqi.
  - intros b n o Hb Hn Ho. rewrite (Hoi b n o Hb Hn Ho).
    unfold mixed. f_equal.
    + apply rsum_ext. intros k _. apply rsum_ext. intros i _. f_equal.
      apply rsum_ext. intros d _. now rewrite Hsqi.
    + apply rsum_ext. intros d _. now rewrite Hsqi.
Qed.

(** Both cases on the example module, for a batch of one with two nodes. *)
Lemma forward_example_runs :
  (exists c out adj,
     AVWGCN.forward true example_gcn example_x example_E_batch =
       Ok (AVWGCN.set_cached_identity example_gcn c, (out, adj)) /\
     identity_of 2 c /\
     chebyshev_convolution 3 (fun b n d => item example_E_batch [b; n; d])
                           example_gcn example_x out 1 2 1 1) /\
  (exists out adj,
     AVWGCN.forward false example_gcn example_x example_E =
       Ok (example_gcn, (out, adj)) /\
     static_convolution (fun _ n d => item example_E [n; d])
                        example_gcn example_x out 1 2 1 1).
Proof.
  assert (Hwf : well_formed example_gcn 1 1) by (repeat split; reflexivity).
  split.
  - apply (forward_dynamic_chebyshev example_gcn example_x example_E_batch 1 2 1 1 Hwf I);
      [cbn; lia | reflexivity | reflexivity].
  - apply (forward_static_supports example_gcn example_x example_E 1 2 1 1 Hwf);
      [reflexivity | lia | cbn; lia | reflexivity | reflexivity].
Qed.

(** The output of the last layer of the hypernetwork. *)
Lemma fc_last_layer (self : AVWGCN.t) (x filter : ndarray) (B N C O : nat) :
  well_formed self C O -> shape x = [B; N; C] ->
  AVWGCN.fc self x = Ok filter ->
  exists h,
    forall b n o,
      item filter [b; n; o] =
      rsum (AVWGCN.hyperGNN_dim2 self)
           (fun i => sigmoid (item h [b; n; i]) * item (weight (AVWGCN.fc3 self)) [o; i])
      + item (bias (AVWGCN.fc3 self)) [o].
Proof.
  intros (_ & _ & Hw1 & Hb1 & Hw2 & Hb2 & Hw3 & Hb3) Hx. unfold AVWGCN.fc.
  destruct (linear_3 _ x B N _ _ Hw1 Hb1 Hx) as (h1 & -> & Hh1 & _). cbn [bind].
  destruct (linear_3 _ (map1 sigmoid h1) B N _ _ Hw2 Hb2 Hh1) as (h2 & -> & Hh2 & _).
  cbn [bind].
  destruct (linear_3 _ (map1 sigmoid h2) B N _ _ Hw3 Hb3 Hh2) as (h3 & -> & _ & Hh3).
  intros [= <-]. exists h2. exact Hh3.
Qed.

Lemma tanh_0 : tanh 0 = 0.
Proof. unfold tanh. rewrite sinh_0, cosh_0. lra. Qed.

Lemma tanh_1_pos : 0 < tanh 1.
Proof.
  unfold tanh. apply Rdiv_lt_0_compat.
  - rewrite <- sinh_0. apply sinh_lt. lra.
  - unfold cosh. pose proof (exp_pos 1). pose proof (exp_pos (Ropp 1)). lra.
Qed.

Lemma Rpower_neg_half_sq (s : R) :
  0 < s -> Rpower s (-1 / 2) * Rpower s (-1 / 2) = / s.
Proof.
  intros Hs. rewrite <- Rpower_plus.
  replace (-1 / 2 + -1 / 2) with (- (1)) by lra.
  now rewrite Rpower_Ropp, Rpower_1.
Qed.

Lemma rsum_1 (f : nat -> R) : rsum 1 f = f 0%nat.
Proof. unfold rsum. cbn. lra. Qed.

Lemma rsum_2 (f : nat -> R) : rsum 2 f = f 0%nat + f 1%nat.
Proof. unfold rsum. cbn. lra. Qed.

Lemma rsum_3 (f : nat -> R) : rsum 3 f = f 0%nat + f 1%nat + f 2%nat.
Proof. unfold rsum. cbn. lra. Qed.

(** The polynomial [T_2] entry by entry. *)
Lemma chebyshev_2 (I L T2 : ndarray) (B N : nat) :
  shape I = [B; N; N] -> shape L = [B; N; N] ->
  chebyshev I L 2 = Ok T2 ->
  forall b i j, (b < B)%nat -> (i < N)%nat -> (j < N)%nat ->
    item T2 [b; i; j] =
    2 * rsum N (fun m => item L [b; i; m] * item L [b; m; j]) - item I [b; i; j].
Proof.
  intros HI HL. cbn [chebyshev bind].
  destruct (matmul_batched L L B N N N HL HL) as (p & -> & Hp & Hpi). cbn [bind].
  destruct (sub_same (scale 2 p) I) as (t & -> & Ht & Hti);
    [cbn [scale map1 shape]; congruence|].
  intros [= <-] b i j Hb Hi Hj. cbn [scale map1 shape] in Hti.
  rewrite Hti by (rewrite Hp; now apply in_bounds_3).
  unfold scale, map1. cbn [item]. now rewrite (Hpi b i j Hb).
Qed.

(** C1. The static case does not do what C1 says and what the dynamic case
    does. On [example_gcn] ([cheb_k = 3], two nodes, one channel) with
    [x = [[0], [1]]] and static embeddings [[1, 0], [1, 0]], [forward]
    returns, but its output is not the mixing of the Chebyshev polynomials
    [T_0 = I], [T_1 = L], [T_2 = 2 L L - I] of the Laplacian: the third
    support it mixes is [get_laplacian(A, L)]. *)
Lemma static_forward_not_chebyshev :
  ~ exists self' out adj,
      AVWGCN.forward false example_gcn example_x example_E = Ok (self', (out, adj)) /\
      chebyshev_convolution (AVWGCN.cheb_k example_gcn)
                            (fun _ n d => item example_E [n; d])
                            example_gcn example_x out 1 2 1 1.
Proof.
  intros (self' & out & adj & Hf & Hcheb).
  assert (Hwf : well_formed example_gcn 1 1) by (repeat split; reflexivity).
  destruct (squeeze_2 example_E 2 2 eq_refl (le_n 2) (le_n 2)) as (Hsq & Hsqi).
  destruct (forward_static_spec example_gcn example_x example_E 1 2 1 1
              Hwf eq_refl (le_n 2) eq_refl Hsq)
    as (out' & adj' & filter & A & L & L' & Hf' & Hfc & HAs & HAi & HL & HLs & HL'
        & HLs' & _ & Hoi & _).
  unfold AVWGCN.forward in Hf. rewrite Hf' in Hf. injection Hf as <- <- <-.
  destruct Hcheb as (filter_c & Ac & Ic & Lc & T & Hfc_c & HAcs & HAci & HIs & HIi
                     & HLc & HT & _ & Hoci).
  rewrite Hfc in Hfc_c. injection Hfc_c as <-.
  destruct (fc_last_layer example_gcn example_x filter 1 2 1 1 Hwf eq_refl Hfc)
    as (h & Hfilter).
  assert (Hone : forall b n o, item filter [b; n; o] = 1).
  { intros b n o. rewrite Hfilter. cbn. rewrite rsum_1. cbn. lra. }
  set (a := tanh 1 * tanh 1).
  assert (Ha : 0 < a) by (pose proof tanh_1_pos; unfold a; nra).
  assert (Hadj : forall i j, (i < 2)%nat -> (j < 2)%nat ->
            adjacency_entry 2 (fun (_ n d : nat) => item example_E [n; d])
                            (item filter) 0 i j = a).
  { intros i j Hi Hj. unfold adjacency_entry. rewrite rsum_2, !Hone. cbn [item example_E].
    rewrite !Rmult_1_l, !Rmult_0_l, tanh_0. unfold relu, a.
    rewrite Rmax_right; nra. }
  set (s := 2 * a + 1).
  assert (Hs : 0 < s) by (unfold s; lra).
  (* the Laplacian of the static branch *)
  destruct (get_laplacian_matrix A (eye 2) 1 2 HAs eq_refl) as (L2 & HL2 & _ & HLi).
  rewrite HL in HL2. injection HL2 as <-.
  assert (HLv : forall i j, (i < 2)%nat -> (j < 2)%nat ->
            item L [0; i; j]%nat = (a + if (i =? j)%nat then 1 else 0) / s).
  { intros i j Hi Hj. rewrite (HLi 0%nat i j (le_n 1) Hi Hj).
    unfold normalized_entry. rewrite !rsum_2.
    rewrite !HAi, !Hadj by lia. cbn [tl eye item].
    replace (a + (if (i =? 0)%nat then 1 else 0) + (a + (if (i =? 1)%nat then 1 else 0)))
      with s by (unfold s; destruct i as [|[|i]]; cbn; [lra | lra | lia]).
    replace (a + (if (j =? 0)%nat then 1 else 0) + (a + (if (j =? 1)%nat then 1 else 0)))
      with s by (unfold s; destruct j as [|[|j]]; cbn; [lra | lra | lia]).
    rewrite Rmult_comm, <- Rmult_assoc, Rpower_neg_half_sq by exact Hs.
    field. lra. }
  (* the Laplacian of the claim *)
  destruct (get_laplacian_batched Ac Ic 1 2 HAcs HIs) as (L2 & HL2 & HLcs & HLci).
  rewrite HLc in HL2. injection HL2 as <-.
  assert (HLcv : forall i j, (i < 2)%nat -> (j < 2)%nat ->
            item Lc [0; i; j]%nat = (a + if (i =? j)%nat then 1 else 0) / s).
  { intros i j Hi Hj. rewrite (HLci 0%nat i j (le_n 1) Hi Hj).
    unfold normalized_entry. rewrite !rsum_2.
    rewrite !HAci, !Hadj, !HIi by lia. cbn [identity_entry].
    replace (a + (if (i =? 0)%nat then 1 else 0) + (a + (if (i =? 1)%nat then 1 else 0)))
      with s by (unfold s; destruct i as [|[|i]]; cbn; [lra | lra | lia]).
    replace (a + (if (j =? 0)%nat then 1 else 0) + (a + (if (j =? 1)%nat then 1 else 0)))
      with s by (unfold s; destruct j as [|[|j]]; cbn; [lra | lra | lia]).
    rewrite Rmult_comm, <- Rmult_assoc, Rpower_neg_half_sq by exact Hs.
    field. lra. }
  (* the third support of the static branch *)
  destruct (get_laplacian_batched A L 1 2 HAs HLs) as (L2 & HL2 & _ & HLi').
  rewrite HL' in HL2. injection HL2 as <-.
  assert (HLv' : item L' [0; 0; 1]%nat = (a + a / s) / s).
  { rewrite (HLi' 0%nat 0%nat 1%nat) by lia.
    unfold normalized_entry. rewrite !rsum_2.
    rewrite !HAi, !Hadj, !HLv by lia. cbn [Nat.eqb].
    replace (a + (a + 1) / s + (a + (a + 0) / s)) with s by (unfold s; field; lra).
    replace (a + (a + 0) / s + (a + (a + 1) / s)) with s by (unfold s; field; lra).
    rewrite Rmult_comm, <- Rmult_assoc, Rpower_neg_half_sq by exact Hs.
    field. lra. }
  (* the polynomial T_2 of the claim *)
  destruct (HT 2%nat) as (HT2 & _); [cbn; lia|].
  pose proof (chebyshev_2 Ic Lc (T 2%nat) 1 2 HIs HLcs HT2 0%nat 0%nat 1%nat
                (le_n 1) (le_S _ _ (le_n 1)) (le_n 2)) as HT2v.
  rewrite rsum_2, !HLcv, HIi in HT2v by lia. cbn [Nat.eqb identity_entry] in HT2v.
  (* both descriptions of the output entry *)
  specialize (Hoi 0%nat 0%nat 0%nat (le_n 1) (le_S _ _ (le_n 1)) (le_n 1)).
  specialize (Hoci 0%nat 0%nat 0%nat (le_n 1) (le_S _ _ (le_n 1)) (le_n 1)).
  rewrite Hoi in Hoci. unfold mixed in Hoci.
  change (AVWGCN.embed_dim example_gcn) with 2%nat in Hoci.
  change (AVWGCN.cheb_k example_gcn) with 3%nat in Hoci.
  rewrite !rsum_3, !rsum_1, !rsum_2 in Hoci.
  cbn [static_support item example_x example_E example_gcn squeeze
       AVWGCN.weights_pool AVWGCN.bias_pool constant shape unsqueezed_index
       Nat.eqb identity_entry] in Hoci.
  assert (Hout : item L' [0; 0; 1]%nat = item (T 2%nat) [0; 0; 1]%nat) by lra.
  rewrite HLv', HT2v in Hout.
  assert (Hgap : 2 * ((a + 1) / s * ((a + 0) / s) + (a + 0) / s * ((a + 1) / s)) - 0
                 - (a + a / s) / s = 2 * a * (a + 1) / (s * s))
    by (unfold s; field; lra).
  assert (Hpos : 0 < 2 * a * (a + 1) / (s * s))
    by (apply Rdiv_lt_0_compat; nra).
  lra.
Qed.

(** C8. [get_laplacian] with [normalize=False] raises (its [L] is unbound)
    whatever the graph and the identity, so it returns only when [normalize]
    is true; and for a batch of square matrices it then returns
    [D^(-1/2) (graph + I) D^(-1/2)]. *)
Theorem get_laplacian_defined_when_normalized :
  (forall graph I, AVWGCN.get_laplacian graph I false = Raise UnboundLocalError) /\
  (forall graph I normalize,
      returns (AVWGCN.get_laplacian graph I normalize) -> normalize = true) /\
  (forall graph I B N,
      shape graph = [B; N; N] -> shape I = [B; N; N] ->
      exists L,
        AVWGCN.get_laplacian graph I true = Ok L /\
        shape L = [B; N; N] /\
        forall b i j, (b < B)%nat -> (i < N)%nat -> (j < N)%nat ->
          item L [b; i; j] =
          normalized_entry (fun idx => item graph idx + item I idx) N b i j).
Proof.
  split; [exact get_laplacian_unnormalized|].
  split; [exact get_laplacian_returns|].
  exact get_laplacian_batched.
Qed.

Lemma get_laplacian_defined_when_normalized_witness :
  let graph := constant [1; 2; 2]%nat 1 in
  let I := mkarr [1; 2; 2]%nat identity_entry in
  AVWGCN.get_laplacian graph I false = Raise UnboundLocalError /\
  exists L,
    AVWGCN.get_laplacian graph I true = Ok L /\
    shape L = [1; 2; 2]%nat /\
    item L [0; 0; 1]%nat = Rpower 3 (-1 / 2) * 1 * Rpower 3 (-1 / 2).
Proof.
  intros graph I.
  destruct get_laplacian_defined_when_normalized as (Hraise & _ & Hret).
  split; [apply Hraise|].
  destruct (Hret graph I 1%nat 2%nat eq_refl eq_refl) as (L & HL & HLs & HLi).
  exists L. split; [exact HL|]. split; [exact HLs|].
  rewrite (HLi 0%nat 0%nat 1%nat) by lia.
  unfold normalized_entry. rewrite !rsum_2. cbn.
  f_equal; [f_equal|]; f_equal; lra.
Defined.

End AVWGCNFacts.

(** ** Facts about the recurrent cell *)

Module AGCRNCellFacts.

Import Torch Model AVWGCNFacts.

Open Scope R_scope.

Lemma cache_filled_well_formed (N : nat) (self self' : AVWGCN.t) (C O : nat) :
  cache_filled N self self' -> well_formed self C O -> well_formed self' C O.
Proof.
  intros [->|(c & _ & ->)] H; exact H.
Qed.

Lemma cache_filled_embed_dim (N : nat) (self self' : AVWGCN.t) :
  cache_filled N self self' -> AVWGCN.embed_dim self' = AVWGCN.embed_dim self.
Proof.
  intros [->|(c & _ & ->)]; reflexivity.
Qed.

Lemma cache_filled_ready (dyn : bool) (N : nat) (self self' : AVWGCN.t) :
  cache_filled N self self' -> module_ready dyn N self -> module_ready dyn N self'.
Proof.
  intros [->|(c & Hc & ->)] H; [exact H|].
  destruct dyn; cbn in *; [|exact H].
  destruct H as [_ HK]. split; [exact Hc | exact HK].
Qed.

(** [AVWGCN.forward] returns in both cases, with these shapes. *)
Lemma forward_returns (dyn : bool) (self : AVWGCN.t) (x E : ndarray) (B N C O : nat) :
  well_formed self C O -> module_ready dyn N self ->
  embeddings_ready dyn (AVWGCN.embed_dim self) E B N ->
  shape x = [B; N; C] ->
  exists self' out adj,
    AVWGCN.forward dyn self x E = Ok (self', (out, adj)) /\
    cache_filled N self self' /\
    shape out = [B; N; O] /\
    shape adj = adjacency_shape dyn B N C.
Proof.
  intros Hwf Hready HE Hx. destruct dyn; cbn in Hready, HE.
  - destruct Hready as [Hcache HK].
    destruct (forward_dynamic_spec self x E B N C O Hwf Hcache HK Hx HE)
      as (c & out & adj & filter & A & I & L & T & Hf & Hc & _ & _ & _ & _
          & _ & _ & _ & Hos & _ & Hadj & _).
    exists (AVWGCN.set_cached_identity self c), out, adj.
    split; [exact Hf|]. split; [right; now exists c|]. now split.
  - destruct Hready as [HK HN].
    destruct (forward_static_spec self x E B N C O Hwf HK HN Hx HE)
      as (out & adj & filter & A & L & L' & Hf & _ & _ & _ & _ & _ & _ & _ & Hos
          & _ & Hadj & _).
    exists self, out, adj.
    split; [exact Hf|]. split; [now left|]. now split.
Qed.

Section Cell.

Variable dyn : bool.
Variable self : AGCRNCell.t.
Variables x state E : ndarray.
Variables B N dim_in : nat.

Let H := AGCRNCell.hidden_dim self.

Hypothesis Hwf : cell_well_formed self dim_in.
Hypothesis Hready : cell_ready dyn N self.
Hypothesis HE : embeddings_ready dyn (AVWGCN.embed_dim (AGCRNCell.gate self)) E B N.
Hypothesis Hx : shape x = [B; N; dim_in].
Hypothesis Hstate : shape state = [B; N; H].

(** The cell, stage by stage. *)
Lemma cell_forward_spec :
  exists input_and_state gate' z_r adjmatrix candidate update' hc adj' h,
    concatenation dim_in H (item x) (item state) input_and_state B N /\
    AVWGCN.forward dyn (AGCRNCell.gate self) input_and_state E =
      Ok (gate', (z_r, adjmatrix)) /\
    cache_filled N (AGCRNCell.gate self) gate' /\
    shape z_r = [B; N; (2 * H)%nat] /\
    shape adjmatrix = adjacency_shape dyn B N (dim_in + H) /\
    concatenation dim_in H (item x)
      (fun idx => sigmoid (item z_r idx) * item state idx) candidate B N /\
    AVWGCN.forward dyn (AGCRNCell.update self) candidate E =
      Ok (update', (hc, adj')) /\
    cache_filled N (AGCRNCell.update self) update' /\
    shape hc = [B; N; H] /\
    AGCRNCell.forward dyn self x state E =
      Ok (AGCRNCell.mk (AGCRNCell.node_num self) H gate' update', (h, adjmatrix)) /\
    shape h = [B; N; H] /\
    forall b n j, (b < B)%nat -> (n < N)%nat -> (j < H)%nat ->
      item h [b; n; j] = gru_step H (item z_r) (item hc) (item state) b n j.
Proof.
  destruct Hwf as (Hgate & Hupdate & Hdim & HH). fold H in Hgate, Hupdate, HH.
  destruct Hready as (Hrg & Hru).
  unfold AGCRNCell.forward. fold H.
  destruct (cat_last_3 x state B N dim_in H Hx Hstate)
    as (xs & Hcat & Hxss & Hxsa & Hxsb).
  rewrite Hcat. cbn [bind].
  destruct (forward_returns dyn (AGCRNCell.gate self) xs E B N (dim_in + H) (2 * H)
              Hgate Hrg HE Hxss)
    as (gate' & z_r & adjmatrix & Hg & Hgc & Hzs & Hadj).
  rewrite Hg. cbn [bind].
  assert (Hzs' : shape (map1 sigmoid z_r) = [B; N; (2 * H)%nat]) by exact Hzs.
  destruct (split_last_halves (map1 sigmoid z_r) B N H Hzs' HH)
    as (z & r & Hsplit & Hz & Hr & Hzi & Hri).
  rewrite Hsplit. cbn [bind].
  destruct (mul_same z state) as (zs & Hmul & Hzss & Hzsi); [congruence|].
  rewrite Hmul. cbn [bind]. rewrite Hz in Hzss, Hzsi.
  destruct (cat_last_3 x zs B N dim_in H Hx Hzss)
    as (cand & Hcat' & Hcs & Hca & Hcb).
  rewrite Hcat'. cbn [bind].
  rewrite <- Hdim in HE.
  destruct (forward_returns dyn (AGCRNCell.update self) cand E B N (dim_in + H) H
              Hupdate Hru HE Hcs)
    as (update' & hc & adj' & Hu & Huc & Hhcs & _).
  rewrite Hu. cbn [bind].
  destruct (mul_same r state) as (rs & Hmul2 & Hrss & Hrsi); [congruence|].
  rewrite Hmul2. cbn [bind]. rewrite Hr in Hrss, Hrsi.
  destruct (mul_same (rsub 1 r) (map1 tanh hc)) as (rh & Hmul3 & Hrhs & Hrhi);
    [cbn [rsub map1 shape]; congruence|].
  rewrite Hmul3. cbn [bind]. cbn [rsub map1 shape] in Hrhs, Hrhi.
  rewrite Hr in Hrhs, Hrhi.
  destruct (add_same rs rh) as (h & Hadd & Hhs & Hhi); [congruence|].
  rewrite Hadd. cbn [bind]. rewrite Hrss in Hhs, Hhi.
  exists xs, gate', z_r, adjmatrix, cand, update', hc, adj', h.
  split; [split; [exact Hxss|]; split; [intros; now apply Hxsa | intros; apply Hxsb]|].
  split; [exact Hg|]. split; [exact Hgc|]. split; [exact Hzs|]. split; [exact Hadj|].
  split.
  { split; [exact Hcs|]. split; [intros; now apply Hca|].
    intros ib n k Hib Hn Hk. rewrite Hcb, Hzsi by (now apply in_bounds_3).
    now rewrite Hzi. }
  split; [exact Hu|]. split; [exact Huc|]. split; [exact Hhcs|].
  split; [reflexivity|]. split; [exact Hhs|].
  intros b n j Hb Hn Hj.
  rewrite Hhi, Hrsi, Hrhi by (now apply in_bounds_3).
  unfold gru_step. cbn [rsub map1 item]. rewrite Hri. cbn [map1 item]. reflexivity.
Qed.

End Cell.

(** C3. With the modules of the cell well formed and ready, for [x] of shape
    [(B, N, input_dim)] and a state of shape [(B, N, hidden_dim)], the cell
    runs the gate on [(x; state)], splits its sigmoid into [(z, r)], runs the
    update on [(x; z * state)], and returns [h = r * state + (1 - r) * tanh(hc)]
    of shape [(B, N, hidden_dim)] together with the adjacency the gate
    returned. *)
Theorem AGCRNCell_forward_gru (dyn : bool) (self : AGCRNCell.t) (x state E : ndarray)
    (B N dim_in : nat) :
  let H := AGCRNCell.hidden_dim self in
  cell_well_formed self dim_in -> cell_ready dyn N self ->
  embeddings_ready dyn (AVWGCN.embed_dim (AGCRNCell.gate self)) E B N ->
  shape x = [B; N; dim_in] -> shape state = [B; N; H] ->
  exists input_and_state gate' z_r adjmatrix candidate update' hc adj' h,
    concatenation dim_in H (item x) (item state) input_and_state B N /\
    AVWGCN.forward dyn (AGCRNCell.gate self) input_and_state E =
      Ok (gate', (z_r, adjmatrix)) /\
    shape z_r = [B; N; (2 * H)%nat] /\
    concatenation dim_in H (item x)
      (fun idx => sigmoid (item z_r idx) * item state idx) candidate B N /\
    AVWGCN.forward dyn (AGCRNCell.update self) candidate E =
      Ok (update', (hc, adj')) /\
    shape hc = [B; N; H] /\
    AGCRNCell.forward dyn self x state E =
      Ok (AGCRNCell.mk (AGCRNCell.node_num self) H gate' update', (h, adjmatrix)) /\
    shape h = [B; N; H] /\
    forall b n j, (b < B)%nat -> (n < N)%nat -> (j < H)%nat ->
      item h [b; n; j] = gru_step H (item z_r) (item hc) (item state) b n j.
Proof.
  intros H Hwf Hready HE Hx Hstate.
  destruct (cell_forward_spec dyn self x state E B N dim_in Hwf Hready HE Hx Hstate)
    as (xs & gate' & z_r & adjmatrix & cand & update' & hc & adj' & h & H1 & H2 & _
        & H3 & _ & H4 & H5 & _ & H6 & H7 & H8 & H9).
  exists xs, gate', z_r, adjmatrix, cand, update', hc, adj', h.
  repeat split; try assumption; try apply H1; try apply H4.
Qed.

Lemma AGCRNCell_forward_gru_witness :
  let x := constant [1; 2; 1]%nat 1 in
  let state := constant [1; 2; 1]%nat 0 in
  exists gate' update' h adjmatrix,
    AGCRNCell.forward true example_cell x state example_E_batch =
      Ok (AGCRNCell.mk 2 1 gate' update', (h, adjmatrix)) /\
    shape h = [1; 2; 1]%nat.
Proof.
  intros x state.
  assert (Hwf : cell_well_formed example_cell 1) by (repeat split; reflexivity).
  assert (Hready : cell_ready true 2 example_cell)
    by (repeat split; cbn; lia).
  destruct (AGCRNCell_forward_gru true example_cell x state example_E_batch 1 2 1
              Hwf Hready eq_refl eq_refl eq_refl)
    as (xs & gate' & z_r & adjmatrix & cand & update' & hc & adj' & h & _ & _ & _
        & _ & _ & _ & Hf & Hs & _).
  exists gate', update', h, adjmatrix. split; [exact Hf | exact Hs].
Defined.

End AGCRNCellFacts.

(** ** Facts about the stacked encoder *)

Module EncoderFacts.

Import Torch Model AVWGCNFacts AGCRNCellFacts.

Open Scope R_scope.

Lemma set_cell_same (cells : list AGCRNCell.t) (i : nat) (cell : AGCRNCell.t) :
  nth_error cells i = Some cell -> AVWDCRNN.set_cell cells i cell = cells.
Proof.
  revert i. induction cells as [|c cells IH]; intros [|i]; cbn; try discriminate.
  - now intros [= ->].
  - intros H. now rewrite IH.
Qed.

Lemma nth_error_set_cell (cells : list AGCRNCell.t) (i : nat) (c cell : AGCRNCell.t) :
  nth_error cells i = Some c ->
  nth_error (AVWDCRNN.set_cell cells i cell) i = Some cell.
Proof.
  revert i. induction cells as [|c0 cells IH]; intros [|i]; cbn; try discriminate.
  - reflexivity.
  - apply IH.
Qed.

Lemma set_cell_twice (cells : list AGCRNCell.t) (i : nat) (c c' : AGCRNCell.t) :
  AVWDCRNN.set_cell (AVWDCRNN.set_cell cells i c) i c' = AVWDCRNN.set_cell cells i c'.
Proof.
  revert i. induction cells as [|c0 cells IH]; intros [|i]; cbn; try reflexivity.
  now rewrite IH.
Qed.

Lemma set_cell_middle (pre rest : list AGCRNCell.t) (c c' : AGCRNCell.t) :
  AVWDCRNN.set_cell (pre ++ c :: rest) (length pre) c' = pre ++ c' :: rest.
Proof.
  induction pre as [|p pre IH]; cbn; [reflexivity|]. now rewrite IH.
Qed.

(** The loop over the timesteps is the scan of the cell. *)
Lemma time_loop_scan (dyn : bool) (i : nat) (cur E : ndarray) (ts : list nat) :
  forall cells cell state inner adjs,
    nth_error cells i = Some cell ->
    for_each ts (AVWDCRNN.time_step dyn i cur E) (cells, state, inner, adjs) =
    match scan_cell dyn cur E ts cell state with
    | Ok (cellf, final, hs, adjs') =>
        Ok (AVWDCRNN.set_cell cells i cellf, final, inner ++ hs, adjs ++ adjs')
    | Raise e => Raise e
    end.
Proof.
  induction ts as [|t ts IH]; intros cells cell state inner adjs Hnth.
  - cbn. now rewrite (set_cell_same _ _ _ Hnth), !app_nil_r.
  - cbn [for_each scan_cell]. unfold AVWDCRNN.time_step at 1.
    unfold AVWDCRNN.get_cell. rewrite Hnth. cbn [bind].
    destruct (select 1 t cur) as [x_t|e]; cbn [bind]; [|reflexivity].
    destruct (if dyn then select 1 t E else Ok E) as [e_t|e]; cbn [bind];
      [|reflexivity].
    destruct (AGCRNCell.forward dyn cell x_t state e_t) as [[cell' [h a]]|e];
      cbn [bind]; [|reflexivity].
    rewrite (IH _ cell') by now apply (nth_error_set_cell _ _ cell).
    destruct (scan_cell dyn cur E ts cell' h) as [[[[cellf final] hs] adjs']|e];
      cbn [bind]; [|reflexivity].
    now rewrite set_cell_twice, <- !app_assoc.
Qed.

(** The loop over the layers is the stacking of the scans. *)
Lemma layer_loop_stack (dyn : bool) (T : nat) (init_state E : ndarray)
    (rest : list AGCRNCell.t) :
  forall pre cur hidden adjs,
    for_each (seq (length pre) (length rest))
             (AVWDCRNN.layer_step dyn T init_state E)
             (pre ++ rest, cur, hidden, adjs) =
    match stack_layers dyn T init_state E (length pre) rest cur adjs with
    | Ok (rest', out, finals, adjs') => Ok (pre ++ rest', out, hidden ++ finals, adjs')
    | Raise e => Raise e
    end.
Proof.
  induction rest as [|cell rest IH]; intros pre cur hidden adjs.
  - cbn. now rewrite !app_nil_r.
  - cbn [length seq for_each stack_layers]. unfold AVWDCRNN.layer_step at 1.
    destruct (select 0 (length pre) init_state) as [state|e]; cbn [bind];
      [|reflexivity].
    rewrite (time_loop_scan dyn (length pre) cur E _ _ cell)
      by (rewrite nth_error_app2, Nat.sub_diag by lia; reflexivity).
    destruct (scan_cell dyn cur E (range T) cell state)
      as [[[[cellf final] hs] adjs']|e]; cbn [bind]; [|reflexivity].
    cbn [app]. destruct (stack hs 1) as [outputs|e]; cbn [bind]; [|reflexivity].
    rewrite set_cell_middle.
    replace (pre ++ cellf :: rest) with ((pre ++ [cellf]) ++ rest)
      by (now rewrite <- app_assoc).
    replace (S (length pre)) with (length (pre ++ [cellf]))
      by (rewrite length_app; cbn; lia).
    rewrite IH.
    destruct (stack_layers dyn T init_state E (length (pre ++ [cellf])) rest outputs
                           (Some adjs'))
      as [[[[rest' out] finals] adjs'']|e]; cbn [bind]; [|reflexivity].
    now rewrite <- !app_assoc.
Qed.

(** The cell returns, and stays well formed and ready. *)
Lemma cell_forward_returns (dyn : bool) (cell : AGCRNCell.t) (x state E : ndarray)
    (B N C H D : nat) :
  cell_well_formed cell C -> AGCRNCell.hidden_dim cell = H ->
  AVWGCN.embed_dim (AGCRNCell.gate cell) = D ->
  cell_ready dyn N cell -> embeddings_ready dyn D E B N ->
  shape x = [B; N; C] -> shape state = [B; N; H] ->
  exists cell' h a,
    AGCRNCell.forward dyn cell x state E = Ok (cell', (h, a)) /\
    shape h = [B; N; H] /\
    shape a = adjacency_shape dyn B N (C + H) /\
    cell_well_formed cell' C /\ AGCRNCell.hidden_dim cell' = H /\
    AVWGCN.embed_dim (AGCRNCell.gate cell') = D /\
    cell_ready dyn N cell'.
Proof.
  intros Hwf HH HD Hready HE Hx Hstate. subst H D.
  destruct (cell_forward_spec dyn cell x state E B N C Hwf Hready HE Hx Hstate)
    as (xs & gate' & z_r & a & cand & update' & hc & adj' & h & _ & _ & Hgc & _
        & Ha & _ & _ & Huc & _ & Hf & Hh & _).
  destruct Hwf as (Hg & Hu & Hdim & H1). destruct Hready as (Hrg & Hru).
  eexists. exists h, a. split; [exact Hf|]. split; [exact Hh|]. split; [exact Ha|].
  split; [|split; [reflexivity|]; split].
  - unfold cell_well_formed. cbn [AGCRNCell.gate AGCRNCell.update AGCRNCell.hidden_dim].
    split; [exact (cache_filled_well_formed N _ _ _ _ Hgc Hg)|].
    split; [exact (cache_filled_well_formed N _ _ _ _ Huc Hu)|].
    split; [|exact H1].
    now rewrite (cache_filled_embed_dim N _ _ Hgc), (cache_filled_embed_dim N _ _ Huc).
  - cbn [AGCRNCell.gate]. apply (cache_filled_embed_dim N _ _ Hgc).
  - split; cbn [AGCRNCell.gate AGCRNCell.update].
    + apply (cache_filled_ready dyn N _ _ Hgc Hrg).
    + apply (cache_filled_ready dyn N _ _ Huc Hru).
Qed.

Lemma step_embeddings (dyn : bool) (D : nat) (E : ndarray) (B T N t : nat) :
  sequence_embeddings_ready dyn D E B T N -> (t < T)%nat ->
  exists e_t, (if dyn then select 1 t E else Ok E) = Ok e_t /\
              embeddings_ready dyn D e_t B N.
Proof.
  intros HE Ht. destruct dyn; cbn in *.
  - destruct HE as (T' & HEs & HT).
    destruct (select_1 E t B T' N D HEs) as (e_t & He & Hes & _); [lia|].
    now exists e_t.
  - now exists E.
Qed.

(** The scan returns one state and one adjacency per timestep. *)
Lemma scan_returns (dyn : bool) (inputs E : ndarray) (B T N C H D : nat) (ts : list nat) :
  shape inputs = [B; T; N; C] -> sequence_embeddings_ready dyn D E B T N ->
  Forall (fun t => (t < T)%nat) ts ->
  forall cell state,
    cell_well_formed cell C -> AGCRNCell.hidden_dim cell = H ->
    AVWGCN.embed_dim (AGCRNCell.gate cell) = D -> cell_ready dyn N cell ->
    shape state = [B; N; H] ->
    exists cellf final hs adjs,
      scan_cell dyn inputs E ts cell state = Ok (cellf, final, hs, adjs) /\
      length hs = length ts /\ length adjs = length ts /\
      (forall h, In h hs -> shape h = [B; N; H]) /\
      (forall a, In a adjs -> shape a = adjacency_shape dyn B N (C + H)) /\
      final = last hs state /\ shape final = [B; N; H] /\
      cell_well_formed cellf C /\ AGCRNCell.hidden_dim cellf = H /\
      AVWGCN.embed_dim (AGCRNCell.gate cellf) = D /\ cell_ready dyn N cellf.
Proof.
  intros Hin HE Hts. induction Hts as [|t ts Ht _ IH];
    intros cell state Hwf HH HD Hready Hstate.
  - exists cell, state, [], []. cbn [scan_cell length last In].
    split; [reflexivity|]. split; [reflexivity|]. split; [reflexivity|].
    split; [intros ? []|]. split; [intros ? []|]. split; [reflexivity|].
    now repeat (split; [assumption|]).
  - cbn [scan_cell].
    destruct (select_1 inputs t B T N C Hin Ht) as (x_t & -> & Hxs & _). cbn [bind].
    destruct (step_embeddings dyn D E B T N t HE Ht) as (e_t & -> & Het). cbn [bind].
    destruct (cell_forward_returns dyn cell x_t state e_t B N C H D
                Hwf HH HD Hready Het Hxs Hstate)
      as (cell' & h & a & -> & Hhs & Has & Hwf' & HH' & HD' & Hready').
    cbn [bind].
    destruct (IH cell' h Hwf' HH' HD' Hready' Hhs)
      as (cellf & final & hs & adjs & -> & Hlh & Hla & Hhall & Haall & Hfin & Hfs
          & Hwff & HHf & HDf & Hrf).
    cbn [bind]. exists cellf, final, (h :: hs), (a :: adjs).
    split; [reflexivity|]. cbn [length].
    split; [now rewrite Hlh|]. split; [now rewrite Hla|].
    split; [intros h' [<-|Hh']; [exact Hhs | now apply Hhall]|].
    split; [intros a' [<-|Ha']; [exact Has | now apply Haall]|].
    split.
    { rewrite Hfin. destruct hs as [|h0 hs]; [reflexivity|].
      change (last (h :: h0 :: hs) state) with (last (h0 :: hs) state).
      clear. revert h0. induction hs as [|h1 hs IHhs]; intros h0; [reflexivity|].
      change (last (h0 :: h1 :: hs) h) with (last (h1 :: hs) h).
      change (last (h0 :: h1 :: hs) state) with (last (h1 :: hs) state).
      apply IHhs. }
    now repeat (split; [assumption|]).
Qed.

Lemma range_bounded (T : nat) : Forall (fun t => (t < T)%nat) (range T).
Proof. apply Forall_forall. intros t Ht. apply in_seq in Ht. lia. Qed.

(** The stacked layers return: the output sequence of the last layer, one
    final state per layer, and the adjacencies of the last layer. *)
Lemma stack_layers_returns (dyn : bool) (init_state E : ndarray) (L B T N H D : nat) :
  shape init_state = [L; B; N; H] -> sequence_embeddings_ready dyn D E B T N ->
  (1 <= T)%nat ->
  forall cells i inputs C adjs0,
    layers_well_formed H D C cells -> layers_ready dyn N cells ->
    (i + length cells <= L)%nat -> shape inputs = [B; T; N; C] ->
    exists cells' outputs finals adjs,
      stack_layers dyn T init_state E i cells inputs adjs0 =
        Ok (cells', outputs, finals, adjs) /\
      shape outputs = [B; T; N; match cells with [] => C | _ => H end] /\
      length finals = length cells /\
      (forall h, In h finals -> shape h = [B; N; H]) /\
      length cells' = length cells /\
      layers_well_formed H D C cells' /\ layers_ready dyn N cells' /\
      match cells with
      | [] => adjs = adjs0
      | _ => exists l, adjs = Some l /\ length l = T /\
                       forall a, In a l ->
                         shape a = adjacency_shape dyn B N (last_input_dim C H cells + H)
      end.
Proof.
  intros Hinit HE HT cells.
  induction cells as [|cell cells IH]; intros i inputs C adjs0 Hwf Hready Hi Hin.
  - exists [], inputs, [], adjs0. cbn [stack_layers length In].
    split; [reflexivity|]. split; [exact Hin|]. split; [reflexivity|].
    split; [intros ? []|]. split; [reflexivity|].
    split; [exact I|]. split; [constructor | reflexivity].
  - cbn [stack_layers]. cbn [length] in Hi.
    destruct Hwf as (HH & HD & Hwfc & Hwfr).
    apply Forall_cons_iff in Hready. destruct Hready as [Hrc Hrr].
    destruct (select_0 init_state i L B N H Hinit) as (state & -> & Hss & _); [lia|].
    cbn [bind].
    destruct (scan_returns dyn inputs E B T N C H D (range T) Hin HE (range_bounded T)
                cell state Hwfc HH HD Hrc Hss)
      as (cellf & final & hs & adjs & -> & Hlh & Hla & Hhall & Haall & _ & Hfs
          & Hwff & HHf & HDf & Hrf).
    cbn [bind]. unfold range in Hlh, Hla. rewrite length_seq in Hlh, Hla.
    assert (Hne : hs <> []) by (intros ->; cbn in Hlh; lia).
    destruct (stack_1 hs B N H Hne Hhall) as (outputs & -> & Hos & _).
    cbn [bind]. rewrite Hlh in Hos.
    destruct (IH (S i) outputs H (Some adjs) Hwfr Hrr) as
      (cells' & out & finals & adjs' & -> & Hout & Hlf & Hfall & Hlc & Hwf' & Hr' & Hadj);
      [lia | exact Hos |].
    cbn [bind]. exists (cellf :: cells'), out, (final :: finals), adjs'.
    split; [reflexivity|].
    split; [rewrite Hout; now destruct cells|].
    cbn [length]. split; [now rewrite Hlf|].
    split; [intros h [<-|Hh]; [exact Hfs | now apply Hfall]|].
    split; [now rewrite Hlc|].
    split; [cbn [layers_well_formed]; now repeat (split; [assumption|])|].
    split; [now constructor|].
    destruct cells as [|c2 cells].
    + exists adjs. rewrite Hadj. split; [reflexivity|]. split; [exact Hla | exact Haall].
    + destruct cells; exact Hadj.
Qed.

(** [__init__] of a module gives its parameters their shapes. *)
Lemma AVWGCN_init_well_formed {nn : TorchNN} (key : list nat) (C O K D h1 h2 : nat) :
  well_formed (AVWGCN.init key C O K D h1 h2) C O.
Proof.
  unfold well_formed, AVWGCN.init, new_linear. cbn.
  rewrite !new_parameter_shape. repeat split; reflexivity.
Qed.

Lemma AGCRNCell_init_well_formed {nn : TorchNN} (key : list nat)
    (N C H K D h1 h2 : nat) :
  (1 <= H)%nat ->
  cell_well_formed (AGCRNCell.init key N C H K D h1 h2) C /\
  AGCRNCell.hidden_dim (AGCRNCell.init key N C H K D h1 h2) = H /\
  AVWGCN.embed_dim (AGCRNCell.gate (AGCRNCell.init key N C H K D h1 h2)) = D /\
  forall (dyn : bool) (N' : nat),
    (if dyn then (2 <= K)%nat else K = 3%nat /\ (2 <= N')%nat) ->
    cell_ready dyn N' (AGCRNCell.init key N C H K D h1 h2).
Proof.
  intros HH. split; [|split; [reflexivity|]; split; [reflexivity|]].
  - unfold cell_well_formed. cbn [AGCRNCell.init AGCRNCell.gate AGCRNCell.update
                                  AGCRNCell.hidden_dim].
    split; [apply AVWGCN_init_well_formed|]. split; [apply AVWGCN_init_well_formed|].
    split; [reflexivity | exact HH].
  - intros dyn N' HK. unfold cell_ready, module_ready.
    destruct dyn; cbn; [now repeat split | now split].
Qed.

(** [__init__] of the encoder: it raises without layers, and otherwise builds
    [num_layers] well-formed cells. *)
Lemma AVWDCRNN_init_spec {nn : TorchNN} (key : list nat) (N C H K D h1 h2 L : nat) :
  (1 <= H)%nat ->
  match AVWDCRNN.init key N C H K D h1 h2 L with
  | Ok self =>
      (1 <= L)%nat /\ AVWDCRNN.node_num self = N /\ AVWDCRNN.input_dim self = C /\
      AVWDCRNN.num_layers self = L /\ encoder_well_formed H D self /\
      forall (dyn : bool) (N' : nat),
    (if dyn then (2 <= K)%nat else K = 3%nat /\ (2 <= N')%nat) ->
        layers_ready dyn N' (AVWDCRNN.dcrnn_cells self)
  | Raise e => L = 0%nat /\ e = AssertionError
  end.
Proof.
  intros HH. unfold AVWDCRNN.init, assert.
  destruct (Nat.leb_spec 1 L) as [HL|HL]; cbn [bind]; [|split; [lia | reflexivity]].
  set (first := AGCRNCell.init (0%nat :: key) N C H K D h1 h2).
  assert (Hloop : forall n cells,
            exists more,
              for_each (seq (length cells) n)
                       (AVWDCRNN.append_cell key N H K D h1 h2) cells
              = Ok (cells ++ more) /\
              length more = n /\ layers_well_formed H D H more /\
              forall (dyn : bool) (N' : nat),
    (if dyn then (2 <= K)%nat else K = 3%nat /\ (2 <= N')%nat) ->
                layers_ready dyn N' more).
  { induction n as [|n IHn]; intros cells.
    - exists []. cbn. rewrite app_nil_r. repeat split. intros; constructor.
    - cbn [seq for_each AVWDCRNN.append_cell].
      set (c := AGCRNCell.init (length cells :: key) N H H K D h1 h2).
      destruct (IHn (cells ++ [c])) as (more & Hm & Hlen & Hwf & Hr).
      rewrite length_app in Hm. cbn [length] in Hm.
      replace (length cells + 1)%nat with (S (length cells)) in Hm by lia.
      exists (c :: more). rewrite Hm, <- app_assoc. split; [reflexivity|].
      split; [cbn; lia|].
      destruct (AGCRNCell_init_well_formed (length cells :: key) N H H K D h1 h2 HH)
        as (Hc1 & Hc2 & Hc3 & Hc4).
      split; [cbn [layers_well_formed]; now repeat (split; [assumption|])|].
      intros dyn N' HK. constructor; [now apply Hc4 | now apply Hr]. }
  destruct (Hloop (L - 1)%nat [first]) as (more & Hm & Hlen & Hwf & Hr).
  cbn [length] in Hm. rewrite Hm. cbn [bind].
  destruct (AGCRNCell_init_well_formed (0%nat :: key) N C H K D h1 h2 HH)
    as (Hc1 & Hc2 & Hc3 & Hc4).
  split; [exact HL|]. split; [reflexivity|]. split; [reflexivity|].
  split; [reflexivity|]. split.
  - unfold encoder_well_formed. cbn [AVWDCRNN.dcrnn_cells AVWDCRNN.num_layers
                                     AVWDCRNN.input_dim app length].
    split; [lia|]. split; [exact HL|].
    cbn [layers_well_formed]. now repeat (split; [assumption|]).
  - intros dyn N' HK. cbn [AVWDCRNN.dcrnn_cells app].
    constructor; [now apply Hc4 | now apply Hr].
Qed.

Lemma dim_at_2 (a : ndarray) (d0 d1 d : nat) (s : list nat) :
  shape a = d0 :: d1 :: d :: s -> dim_at a 2 = Ok d.
Proof. intros H. unfold dim_at. now rewrite H. Qed.

Lemma dim_at_3 (a : ndarray) (d0 d1 d2 d : nat) (s : list nat) :
  shape a = d0 :: d1 :: d2 :: d :: s -> dim_at a 3 = Ok d.
Proof. intros H. unfold dim_at. now rewrite H. Qed.

(** The encoder, as the stacking of its layers. *)
Lemma encoder_forward_spec (dyn : bool) (self : AVWDCRNN.t)
    (x init_state E : ndarray) (B T N H D : nat) :
  encoder_well_formed H D self ->
  layers_ready dyn N (AVWDCRNN.dcrnn_cells self) ->
  AVWDCRNN.node_num self = N -> (1 <= T)%nat ->
  shape x = [B; T; N; AVWDCRNN.input_dim self] ->
  shape init_state = [AVWDCRNN.num_layers self; B; N; H] ->
  sequence_embeddings_ready dyn D E B T N ->
  exists cells' outputs output_hidden adjmatrices,
    stack_layers dyn T init_state E 0 (AVWDCRNN.dcrnn_cells self) x None =
      Ok (cells', outputs, output_hidden, Some adjmatrices) /\
    AVWDCRNN.forward dyn self x init_state E =
      Ok (AVWDCRNN.mk N (AVWDCRNN.input_dim self) (AVWDCRNN.num_layers self) cells',
          (outputs, output_hidden, adjmatrices)) /\
    shape outputs = [B; T; N; H] /\
    length output_hidden = AVWDCRNN.num_layers self /\
    (forall h, In h output_hidden -> shape h = [B; N; H]) /\
    length adjmatrices = T /\
    encoder_well_formed H D
      (AVWDCRNN.mk N (AVWDCRNN.input_dim self) (AVWDCRNN.num_layers self) cells') /\
    layers_ready dyn N cells' /\
    forall a, In a adjmatrices ->
      shape a =
      adjacency_shape dyn B N
        (last_input_dim (AVWDCRNN.input_dim self) H (AVWDCRNN.dcrnn_cells self) + H).
Proof.
  intros (Hlen & HL & Hwf) Hready HN HT Hx Hinit HE.
  destruct (stack_layers_returns dyn init_state E (AVWDCRNN.num_layers self) B T N H D
              Hinit HE HT (AVWDCRNN.dcrnn_cells self) 0 x (AVWDCRNN.input_dim self)
              None Hwf Hready)
    as (cells' & outputs & finals & adjs & Hstack & Hos & Hlf & Hfall & Hlc & Hwf'
        & Hr' & Hadj); [lia | exact Hx |].
  destruct (AVWDCRNN.dcrnn_cells self) as [|cell cells] eqn:Ecells;
    [cbn in Hlen; lia|].
  destruct Hadj as (l & -> & Hl & Hal).
  exists cells', outputs, finals, l. split; [exact Hstack|].
  split.
  { unfold AVWDCRNN.forward.
    rewrite (dim_at_2 x _ _ _ _ Hx). cbn [bind]. rewrite HN, Nat.eqb_refl.
    rewrite (dim_at_3 x _ _ _ _ _ Hx). cbn [bind]. unfold assert.
    rewrite Nat.eqb_refl. cbn [bind].
    rewrite (dim_at_1 x _ _ _ Hx). cbn [bind].
    unfold range. rewrite <- Hlen, Ecells.
    pose proof (layer_loop_stack dyn T init_state E (cell :: cells) [] x [] None) as Hl'.
    cbn [length app] in Hl'. cbn [length]. rewrite Hl', Hstack. reflexivity. }
  split; [exact Hos|]. split; [now rewrite Hlf, <- Hlen|].
  split; [exact Hfall|]. split; [exact Hl|].
  split; [|split; [exact Hr' | exact Hal]].
  unfold encoder_well_formed. cbn [AVWDCRNN.dcrnn_cells AVWDCRNN.num_layers
                                   AVWDCRNN.input_dim].
  split; [now rewrite Hlc, <- Hlen|]. split; [exact HL | exact Hwf'].
Qed.

(** C4. For a well-formed encoder with [num_layers >= 1] cells that are
    ready, an input [x] of shape [(B, T, node_num, input_dim)] with [T >= 1]
    and initial states of shape [(num_layers, B, N, H)], [forward] is the
    stacking of the layers: each layer applies its cell along the [T]
    timesteps and hands its full output sequence to the next. It returns the
    output sequence of the last layer, of shape [(B, T, N, H)], and the final
    state of each of the [num_layers] layers, each of shape [(B, N, H)]. *)
Theorem AVWDCRNN_forward_stacks_layers (dyn : bool) (self : AVWDCRNN.t)
    (x init_state E : ndarray) (B T N H D : nat) :
  encoder_well_formed H D self ->
  layers_ready dyn N (AVWDCRNN.dcrnn_cells self) ->
  AVWDCRNN.node_num self = N -> (1 <= T)%nat ->
  shape x = [B; T; N; AVWDCRNN.input_dim self] ->
  shape init_state = [AVWDCRNN.num_layers self; B; N; H] ->
  sequence_embeddings_ready dyn D E B T N ->
  exists cells' outputs output_hidden adjmatrices,
    stack_layers dyn T init_state E 0 (AVWDCRNN.dcrnn_cells self) x None =
      Ok (cells', outputs, output_hidden, Some adjmatrices) /\
    AVWDCRNN.forward dyn self x init_state E =
      Ok (AVWDCRNN.mk N (AVWDCRNN.input_dim self) (AVWDCRNN.num_layers self) cells',
          (outputs, output_hidden, adjmatrices)) /\
    shape outputs = [B; T; N; H] /\
    length output_hidden = AVWDCRNN.num_layers self /\
    (forall h, In h output_hidden -> shape h = [B; N; H]).
Proof.
  intros Hwf Hready HN HT Hx Hinit HE.
  destruct (encoder_forward_spec dyn self x init_state E B T N H D
              Hwf Hready HN HT Hx Hinit HE)
    as (cells' & outputs & hidden & adjs & H1 & H2 & H3 & H4 & H5 & _).
  exists cells', outputs, hidden, adjs. now repeat (split; [assumption|]).
Qed.

Lemma AVWDCRNN_forward_stacks_layers_witness :
  let x := constant [1; 2; 2; 1]%nat 1 in
  let init_state := zeros [2; 1; 2; 1]%nat in
  let E := constant [1; 2; 2; 2]%nat 1 in
  exists self self' outputs output_hidden adjmatrices,
    AVWDCRNN.init [] 2 1 1 2 2 1 1 2 = Ok self /\
    AVWDCRNN.forward true self x init_state E =
      Ok (self', (outputs, output_hidden, adjmatrices)) /\
    shape outputs = [1; 2; 2; 1]%nat /\
    length output_hidden = 2%nat.
Proof.
  intros x init_state E.
  pose proof (AVWDCRNN_init_spec [] 2 1 1 2 2 1 1 2 (le_n 1)) as Hinit.
  destruct (AVWDCRNN.init [] 2 1 1 2 2 1 1 2) as [self|e] eqn:Einit;
    [|destruct Hinit; discriminate].
  destruct Hinit as (_ & HN & HC & HL & Hwf & Hr).
  assert (Hx : shape x = [1; 2; 2; AVWDCRNN.input_dim self]%nat) by now rewrite HC.
  assert (Hi : shape init_state = [AVWDCRNN.num_layers self; 1; 2; 1]%nat)
    by now rewrite HL.
  destruct (AVWDCRNN_forward_stacks_layers true self x init_state E 1 2 2 1 2
              Hwf (Hr true 2%nat (le_n 2)) HN (le_S _ _ (le_n 1)) Hx Hi)
    as (cells' & outputs & hidden & adjs & _ & Hf & Hos & Hlen & _).
  { exists 2%nat. split; [reflexivity | lia]. }
  eexists. eexists. exists outputs, hidden, adjs.
  split; [reflexivity|]. split; [exact Hf|]. split; [exact Hos|]. now rewrite Hlen.
Defined.

End EncoderFacts.

(** ** Facts about the dynamic embedding *)

Module DynamicEmbeddingFacts.

Import Torch Model AVWGCNFacts EncoderFacts.

Open Scope R_scope.

Lemma div_mod_step (a C c : nat) :
  (c < C)%nat -> ((a * C + c) / C = a)%nat /\ ((a * C + c) mod C = c)%nat.
Proof.
  intros Hc. split.
  - symmetry. apply (Nat.div_unique _ _ _ c); lia.
  - symmetry. apply (Nat.mod_unique _ _ a); lia.
Qed.

Lemma ravel_3 (d1 d2 d3 i1 i2 i3 : nat) :
  ravel [d1; d2; d3] [i1; i2; i3] = ((i1 * d2 + i2) * d3 + i3)%nat.
Proof. reflexivity. Qed.

Lemma ravel_4 (d1 d2 d3 d4 i1 i2 i3 i4 : nat) :
  ravel [d1; d2; d3; d4] [i1; i2; i3; i4] = (((i1 * d2 + i2) * d3 + i3) * d4 + i4)%nat.
Proof. reflexivity. Qed.

Lemma unravel_4 (B N T C b n t c : nat) :
  (b < B)%nat -> (n < N)%nat -> (t < T)%nat -> (c < C)%nat ->
  unravel [B; N; T; C] (((b * N + n) * T + t) * C + c) = [b; n; t; c].
Proof.
  intros Hb Hn Ht Hc. unfold unravel. cbn [rev app unravel_rev].
  destruct (div_mod_step ((b * N + n) * T + t) C c Hc) as [-> ->].
  destruct (div_mod_step (b * N + n) T t Ht) as [-> ->].
  destruct (div_mod_step b N n Hn) as [-> ->].
  now rewrite (Nat.mod_small b B Hb).
Qed.

Lemma unravel_3 (M T C m t c : nat) :
  (m < M)%nat -> (t < T)%nat -> (c < C)%nat ->
  unravel [M; T; C] ((m * T + t) * C + c) = [m; t; c].
Proof.
  intros Hm Ht Hc. unfold unravel. cbn [rev app unravel_rev].
  destruct (div_mod_step (m * T + t) C c Hc) as [-> ->].
  destruct (div_mod_step m T t Ht) as [-> ->].
  now rewrite (Nat.mod_small m M Hm).
Qed.

(** [a.reshape(-1, T, C)] of a tensor of shape [(B, N, T, C)]. *)
Lemma reshape_merge (a : ndarray) (B N T C : nat) :
  shape a = [B; N; T; C] -> (1 <= T)%nat -> (1 <= C)%nat ->
  exists r, reshape [None; Some T; Some C] a = Ok r /\
    shape r = [(B * N)%nat; T; C] /\
    forall b n t c, (b < B)%nat -> (n < N)%nat -> (t < T)%nat -> (c < C)%nat ->
      item r [(b * N + n)%nat; t; c] = item a [b; n; t; c].
Proof.
  intros Ha HT HC. unfold reshape, infer_shape. rewrite Ha.
  cbn [filter length fold_right numel map].
  rewrite !Nat.mul_1_r.
  destruct (Nat.eqb_spec (T * C) 0) as [E|_]; [nia|].
  replace (B * (N * (T * C)))%nat with ((B * N) * (T * C))%nat by lia.
  rewrite Nat.Div0.mod_mul, Nat.eqb_refl, Nat.div_mul by nia.
  eexists. split; [reflexivity|]. split; [reflexivity|].
  intros b n t c Hb Hn Ht Hc. cbn [item]. rewrite ravel_3.
  now rewrite unravel_4.
Qed.

(** [a.reshape(B, N, -1, E)] of a tensor of shape [(B * N, T, E)]. *)
Lemma reshape_split (a : ndarray) (B N T E : nat) :
  shape a = [(B * N)%nat; T; E] -> (1 <= B)%nat -> (1 <= N)%nat -> (1 <= E)%nat ->
  exists r, reshape [Some B; Some N; None; Some E] a = Ok r /\
    shape r = [B; N; T; E] /\
    forall b n t e, (b < B)%nat -> (n < N)%nat -> (t < T)%nat -> (e < E)%nat ->
      item r [b; n; t; e] = item a [(b * N + n)%nat; t; e].
Proof.
  intros Ha HB HN HE. unfold reshape, infer_shape. rewrite Ha.
  cbn [filter length fold_right numel map].
  rewrite !Nat.mul_1_r.
  destruct (Nat.eqb_spec (B * (N * E)) 0) as [E0|_]; [nia|].
  replace (B * N * (T * E))%nat with (T * (B * (N * E)))%nat by lia.
  rewrite Nat.Div0.mod_mul, Nat.eqb_refl, Nat.div_mul by nia.
  eexists. split; [reflexivity|]. split; [reflexivity|].
  intros b n t e Hb Hn Ht He. cbn [item]. rewrite ravel_4.
  apply f_equal. apply unravel_3; [nia | assumption | assumption].
Qed.

Section Forward.

Context {nn : TorchNN}.

Variable self : DynamicEmbedding.t.
Variable x : ndarray.
Variables B T N C hidden heads : nat.

Let E := DynamicEmbedding.embed_dim self.

Hypothesis Hwf : embedding_well_formed self C hidden heads.
Hypothesis Hnodes : DynamicEmbedding.num_nodes self = N.
Hypothesis HB : (1 <= B)%nat.
Hypothesis HT : (1 <= T)%nat.
Hypothesis HN : (1 <= N)%nat.
Hypothesis HC : (1 <= C)%nat.
Hypothesis HE : (1 <= E)%nat.
Hypothesis Hhidden : (1 <= hidden)%nat.
Hypothesis Hlayers : (1 <= DynamicEmbedding.num_layers self)%nat.
Hypothesis Hx : shape x = [B; T; N; C].

(** The layers before the ReLU compute the features of the sequences. *)
Lemma features_spec (xs : ndarray) :
  shape xs = [(B * N)%nat; T; C] ->
  exists features,
    (if DynamicEmbedding.gru_layer self || DynamicEmbedding.lstm_layer self then
       m <- attr (DynamicEmbedding.sequential_model self) ;;
       '(out, _) <- snd m xs ;;
       l <- attr (DynamicEmbedding.fc self) ;;
       linear l out
     else
       l1 <- attr (DynamicEmbedding.fc1 self) ;;
       out <- linear l1 xs ;;
       l2 <- attr (DynamicEmbedding.fc2 self) ;;
       linear l2 out) = Ok features /\
    sequence_features self C hidden xs = Ok features /\
    shape features = [(B * N)%nat; T; E].
Proof.
  intros Hxs. destruct Hwf as [Hlayer _]. unfold sequence_features.
  destruct (DynamicEmbedding.gru_layer self).
  - destruct Hlayer as (Hm & l & Hl & Hlw & Hlb). rewrite Hm, Hl. cbn [orb attr bind snd].
    destruct (nn_GRU_shape C hidden (DynamicEmbedding.num_layers self) xs (B * N) T
                Hhidden Hlayers Hxs) as (o & hn & -> & Ho).
    cbn [bind].
    destruct (linear_3 l o (B * N) T hidden E Hlw Hlb Ho) as (f & -> & Hf & _).
    now exists f.
  - destruct (DynamicEmbedding.lstm_layer self).
    + destruct Hlayer as (Hm & l & Hl & Hlw & Hlb). rewrite Hm, Hl.
      cbn [orb attr bind snd].
      destruct (nn_LSTM_shape C hidden (DynamicEmbedding.num_layers self) xs (B * N) T
                  Hhidden Hlayers Hxs) as (o & hc & -> & Ho).
      cbn [bind].
      destruct (linear_3 l o (B * N) T hidden E Hlw Hlb Ho) as (f & -> & Hf & _).
      now exists f.
    + destruct Hlayer as (l1 & l2 & Hl1 & Hl2 & (Hw1 & Hb1) & (Hw2 & Hb2)).
      rewrite Hl1, Hl2. cbn [orb attr bind].
      destruct (linear_3 l1 xs (B * N) T C hidden Hw1 Hb1 Hxs) as (h & -> & Hh & _).
      cbn [bind].
      destruct (linear_3 l2 h (B * N) T hidden E Hw2 Hb2 Hh) as (f & -> & Hf & _).
      now exists f.
Qed.

(** [forward], stage by stage. *)
Lemma embedding_forward_spec :
  exists xs features out,
    node_sequences x xs B T N C /\
    sequence_features self C hidden xs = Ok features /\
    shape features = [(B * N)%nat; T; E] /\
    DynamicEmbedding.forward self x = Ok out /\
    shape out = [B; T; N; E] /\
    embedding_entries self heads features out B T N.
Proof.
  unfold DynamicEmbedding.forward.
  destruct (permute_0213 x B T N C Hx) as (xp & -> & Hxps & Hxpi). cbn [bind].
  rewrite (dim_at_2 xp _ _ _ _ Hxps), (dim_at_3 xp _ _ _ _ _ Hxps). cbn [bind].
  destruct (reshape_merge xp B N T C Hxps HT HC) as (xs & -> & Hxss & Hxsi).
  cbn [bind].
  destruct (features_spec xs Hxss) as (features & -> & Hfeat & Hfs). cbn [bind].
  assert (Hdiv : DynamicEmbedding.floordiv (B * N) (DynamicEmbedding.num_nodes self)
                 = Ok B).
  { unfold DynamicEmbedding.floordiv. rewrite Hnodes.
    destruct (Nat.eqb_spec N 0); [lia|]. now rewrite Nat.div_mul by lia. }
  exists xs, features.
  unfold embedding_entries. fold E.
  destruct (DynamicEmbedding.attention_layer self) eqn:Eattn; cbn [negb].
  - destruct Hwf as [_ Hattn]. rewrite Eattn in Hattn.
    destruct Hattn as (Hsa & Hheads & Hmod). fold E in Hsa, Hmod.
    assert (Hrs : shape (map1 relu features) = [(B * N)%nat; T; E]) by exact Hfs.
    destruct (permute_102 (map1 relu features) (B * N) T E Hrs)
      as (q & -> & Hqs & Hqi). cbn [bind].
    rewrite Hsa. cbn [attr bind].
    destruct (nn_MultiheadAttention_shape E heads q T (B * N) Hheads Hmod Hqs)
      as (attended & w & Hattended & Has).
    rewrite Hattended. cbn [bind].
    destruct (permute_102 attended T (B * N) E Has) as (a2 & -> & Ha2s & Ha2i).
    cbn [bind].
    rewrite (dim_at_0 xs _ _ Hxss). cbn [bind]. rewrite Hdiv. cbn [bind].
    rewrite Hnodes. fold E.
    destruct (reshape_split a2 B N T E Ha2s HB HN HE) as (r & -> & Hrs' & Hri).
    cbn [bind].
    destruct (permute_0213 r B N T E Hrs') as (out & -> & Hos & Hoi).
    exists out. split; [split; [exact Hxss|]|].
    { intros b n t c Hb Hn Ht Hc. now rewrite (Hxsi b n t c Hb Hn Ht Hc), Hxpi. }
    split; [exact Hfeat|]. split; [exact Hfs|]. split; [reflexivity|].
    split; [exact Hos|].
    exists q, attended, w. split; [exact Hqs|].
    split; [intros t m e; now rewrite Hqi|]. split; [exact Hattended|].
    intros b t n e Hb Ht Hn He. now rewrite Hoi, (Hri b n t e Hb Hn Ht He), Ha2i.
  - rewrite (dim_at_0 xs _ _ Hxss). cbn [bind]. rewrite Hdiv. cbn [bind].
    rewrite Hnodes. fold E.
    assert (Hrs : shape (map1 relu features) = [(B * N)%nat; T; E]) by exact Hfs.
    destruct (reshape_split (map1 relu features) B N T E Hrs HB HN HE)
      as (r & -> & Hrs' & Hri). cbn [bind].
    destruct (permute_0213 r B N T E Hrs') as (out & -> & Hos & Hoi).
    exists out. split; [split; [exact Hxss|]|].
    { intros b n t c Hb Hn Ht Hc. now rewrite (Hxsi b n t c Hb Hn Ht Hc), Hxpi. }
    split; [exact Hfeat|]. split; [exact Hfs|]. split; [reflexivity|].
    split; [exact Hos|].
    intros b t n e Hb Ht Hn He. now rewrite Hoi, (Hri b n t e Hb Hn Ht He).
Qed.

End Forward.

(** [__init__] builds the layers its flags ask for. *)
Lemma embedding_init_spec {nn : TorchNN} (key : list nat) (args : Args)
    (input_dim embed_dim hidden N : nat) (self : DynamicEmbedding.t) :
  DynamicEmbedding.init key args input_dim embed_dim hidden = Ok self ->
  num_nodes args = Some N ->
  embedding_well_formed self input_dim hidden (num_heads args) /\
  DynamicEmbedding.num_nodes self = N /\
  DynamicEmbedding.embed_dim self = embed_dim /\
  DynamicEmbedding.num_layers self = num_layers_node args /\
  DynamicEmbedding.gru_layer self = gru_layer args /\
  DynamicEmbedding.lstm_layer self = lstm_layer args /\
  DynamicEmbedding.attention_layer self = attention_layer args.
Proof.
  unfold DynamicEmbedding.init. intros Hinit HN. rewrite HN in Hinit.
  cbn [attr bind] in Hinit.
  assert (Hlin : forall k i o, linear_shape (new_linear k i o) i o).
  { intros k i o. unfold linear_shape, new_linear. cbn [weight bias].
    now rewrite !new_parameter_shape. }
  destruct (gru_layer args) eqn:Egru; [|destruct (lstm_layer args) eqn:Elstm];
    (destruct (attention_layer args) eqn:Eattn;
     [ unfold DynamicEmbedding.new_attention, assert in Hinit;
       destruct ((1 <=? num_heads args)%nat && (embed_dim mod num_heads args =? 0)%nat)
         eqn:Eheads; cbn [bind] in Hinit; [|discriminate];
       apply andb_true_iff in Eheads; destruct Eheads as [Hh1 Hh2];
       apply Nat.leb_le in Hh1; apply Nat.eqb_eq in Hh2
     | cbn [bind] in Hinit ];
     injection Hinit as <-;
     unfold embedding_well_formed;
     cbn [DynamicEmbedding.gru_layer DynamicEmbedding.lstm_layer
          DynamicEmbedding.attention_layer DynamicEmbedding.sequential_model
          DynamicEmbedding.fc DynamicEmbedding.fc1 DynamicEmbedding.fc2
          DynamicEmbedding.self_attn DynamicEmbedding.embed_dim
          DynamicEmbedding.num_layers DynamicEmbedding.num_nodes];
     rewrite ?Egru, ?Elstm, ?Eattn;
     repeat split; try reflexivity; try assumption;
     try (eexists; split; [reflexivity | apply Hlin]);
     try (eexists; eexists; split; [reflexivity|]; split; [reflexivity|];
          split; apply Hlin)).
Qed.

(** C5. For a module built by [__init__] and an input of shape
    [(B, T, N, input_dim)] with [N = num_nodes] and no empty dimension,
    [forward] returns embeddings of shape [(B, T, N, embed_dim)]: the
    sequence of each node goes through a GRU when [gru_layer] is set, else an
    LSTM when [lstm_layer] is set, else two linear layers, then a ReLU; and
    attention over the time dimension is applied exactly when
    [attention_layer] is set. *)
Theorem DynamicEmbedding_forward_embeds {nn : TorchNN} (key : list nat) (args : Args)
    (input_dim embed_dim hidden : nat) (self : DynamicEmbedding.t) (x : ndarray)
    (B T N : nat) :
  DynamicEmbedding.init key args input_dim embed_dim hidden = Ok self ->
  num_nodes args = Some N ->
  (1 <= B)%nat -> (1 <= T)%nat -> (1 <= N)%nat -> (1 <= input_dim)%nat ->
  (1 <= embed_dim)%nat -> (1 <= hidden)%nat -> (1 <= num_layers_node args)%nat ->
  shape x = [B; T; N; input_dim] ->
  DynamicEmbedding.gru_layer self = gru_layer args /\
  DynamicEmbedding.lstm_layer self = lstm_layer args /\
  DynamicEmbedding.attention_layer self = attention_layer args /\
  DynamicEmbedding.embed_dim self = embed_dim /\
  exists xs features out,
    node_sequences x xs B T N input_dim /\
    sequence_features self input_dim hidden xs = Ok features /\
    shape features = [(B * N)%nat; T; embed_dim] /\
    DynamicEmbedding.forward self x = Ok out /\
    shape out = [B; T; N; embed_dim] /\
    embedding_entries self (num_heads args) features out B T N.
Proof.
  intros Hinit Hnodes HB HT HN HC HE Hh Hl Hx.
  destruct (embedding_init_spec key args input_dim embed_dim hidden N self Hinit Hnodes)
    as (Hwf & Hn & He & Hnl & Hg & Hls & Ha).
  split; [exact Hg|]. split; [exact Hls|]. split; [exact Ha|]. split; [exact He|].
  rewrite <- He in HE. rewrite <- Hnl in Hl. rewrite <- He.
  exact (embedding_forward_spec self x B T N input_dim hidden (num_heads args)
           Hwf Hn HB HT HN HC HE Hh Hl Hx).
Qed.

Lemma DynamicEmbedding_forward_embeds_witness :
  let x := constant [1; 3; 2; 1]%nat 1 in
  exists self out,
    DynamicEmbedding.init [] example_args 1 2 1 = Ok self /\
    DynamicEmbedding.forward self x = Ok out /\
    shape out = [1; 3; 2; 2]%nat.
Proof.
  intros x. eexists.
  destruct (DynamicEmbedding_forward_embeds [] example_args 1 2 1 _ x 1 3 2
              eq_refl eq_refl) as (_ & _ & _ & _ & xs & features & out & _ & _ & _
                                   & Hf & Hs & _);
    try (cbn; lia); [reflexivity|].
  exists out. split; [reflexivity|]. split; [exact Hf | exact Hs].
Defined.

End DynamicEmbeddingFacts.

(** ** Facts about the whole model *)

Module ModelFacts.

Import Torch Model AVWGCNFacts AGCRNCellFacts EncoderFacts DynamicEmbeddingFacts.

Open Scope R_scope.

(** [torch.stack(ts, dim=0)] of tensors of one 3-dimensional shape. *)
Lemma stack_0 (ts : list ndarray) (B N M : nat) :
  ts <> [] -> (forall t, In t ts -> shape t = [B; N; M]) ->
  exists s, stack ts 0 = Ok s /\ shape s = [length ts; B; N; M].
Proof.
  intros Hne Hall. unfold stack. destruct ts as [|t0 ts']; [contradiction|].
  assert (Hforall : forallb (fun t => list_eqb (shape t) (shape t0)) (t0 :: ts') = true).
  { apply forallb_forall. intros t Ht. apply list_eqb_eq.
    rewrite (Hall t Ht), (Hall t0); [reflexivity | now left]. }
  rewrite Hforall. unfold ndim. rewrite (Hall t0) by now left.
  cbn [length Nat.leb insert_at].
  eexists. split; reflexivity.
Qed.

(** The loop of [init_hidden] collects one zero state per cell. *)
Lemma init_hidden_loop (batch_size : nat) (rest : list AGCRNCell.t) :
  forall pre states,
    for_each (seq (length pre) (length rest))
             (AVWDCRNN.append_hidden (pre ++ rest) batch_size) states =
    Ok (states ++ map (fun c => AGCRNCell.init_hidden_state c batch_size) rest).
Proof.
  induction rest as [|c rest IH]; intros pre states.
  - cbn. now rewrite app_nil_r.
  - cbn [length seq for_each]. unfold AVWDCRNN.append_hidden at 1, AVWDCRNN.get_cell.
    rewrite nth_error_app2, Nat.sub_diag by lia. cbn [nth_error bind].
    replace (pre ++ c :: rest) with ((pre ++ [c]) ++ rest) by (now rewrite <- app_assoc).
    replace (S (length pre)) with (length (pre ++ [c]))
      by (rewrite length_app; cbn; lia).
    rewrite IH. cbn [map]. now rewrite <- app_assoc.
Qed.

Lemma init_hidden_spec (enc : AVWDCRNN.t) (B N H D : nat) :
  encoder_well_formed H D enc ->
  Forall (fun c => AGCRNCell.node_num c = N) (AVWDCRNN.dcrnn_cells enc) ->
  exists init_state,
    AVWDCRNN.init_hidden enc B = Ok init_state /\
    shape init_state = [AVWDCRNN.num_layers enc; B; N; H].
Proof.
  intros (Hlen & HL & Hwf) HN. unfold AVWDCRNN.init_hidden, range.
  rewrite <- Hlen.
  pose proof (init_hidden_loop B (AVWDCRNN.dcrnn_cells enc) [] []) as Hloop.
  cbn [length app] in Hloop. rewrite Hloop. cbn [bind app].
  set (states := map (fun c => AGCRNCell.init_hidden_state c B) (AVWDCRNN.dcrnn_cells enc)).
  assert (Hall : forall t, In t states -> shape t = [B; N; H]).
  { intros t Ht. apply in_map_iff in Ht. destruct Ht as (c & <- & Hc).
    unfold AGCRNCell.init_hidden_state. cbn [zeros shape].
    rewrite Forall_forall in HN. rewrite (HN c Hc).
    assert (Hh : forall C cells, layers_well_formed H D C cells -> In c cells ->
                   AGCRNCell.hidden_dim c = H).
    { intros C cells. revert C. induction cells as [|c0 cells IHc]; intros C Hw [];
        destruct Hw as (Hh0 & _ & _ & Hrest); [now subst | now apply (IHc H)]. }
    now rewrite (Hh _ _ Hwf Hc). }
  assert (Hne : states <> []).
  { intros E. apply (f_equal (@length ndarray)) in E. unfold states in E.
    rewrite length_map in E. cbn in E. lia. }
  destruct (stack_0 states B N H Hne Hall) as (s & Hs & Hss).
  exists s. split; [exact Hs|]. rewrite Hss. unfold states. now rewrite length_map.
Qed.

(** [output[:, -1:, :, :]] *)
Lemma last_along_1_spec (a : ndarray) (B T N H : nat) :
  shape a = [B; T; N; H] -> (1 <= T)%nat ->
  exists r, last_along_1 a = Ok r /\ shape r = [B; 1; N; H]%nat /\
    forall b n h, item r [b; 0; n; h]%nat = item a [b; (T - 1)%nat; n; h].
Proof.
  intros Ha HT. unfold last_along_1. rewrite Ha. cbn [replace_at].
  replace (T - (T - 1))%nat with 1%nat by lia.
  eexists. split; [reflexivity|]. split; [reflexivity|].
  intros b n h. cbn [item replace_at nth]. now rewrite Nat.add_0_r.
Qed.

(** The head on one timestep. *)
Lemma conv2d_spec (c : Conv2d) (x : ndarray) (B N H O : nat) :
  shape (conv_weight c) = [O; 1; 1; H]%nat -> shape (conv_bias c) = [O] ->
  shape x = [B; 1; N; H]%nat ->
  exists y, conv2d c x = Ok y /\ shape y = [B; O; N; 1]%nat /\
    forall b o n,
      item y [b; o; n; 0]%nat =
      rsum H (fun h => item x [b; 0; n; h]%nat * item (conv_weight c) [o; 0; 0; h]%nat)
      + item (conv_bias c) [o].
Proof.
  intros Hw Hb Hx. unfold conv2d. rewrite Hw, Hx, Hb. cbn [list_eqb].
  rewrite Nat.leb_refl, Nat.eqb_refl. cbn [andb].
  replace (H - H + 1)%nat with 1%nat by lia.
  eexists. split; [reflexivity|]. split; [reflexivity|].
  intros b o n. cbn [item]. reflexivity.
Qed.

Lemma squeeze_last_spec (a : ndarray) (B O N : nat) :
  shape a = [B; O; N; 1]%nat ->
  shape (squeeze_last a) = [B; O; N] /\
  forall b o n, item (squeeze_last a) [b; o; n] = item a [b; o; n; 0]%nat.
Proof.
  intros Ha. unfold squeeze_last. rewrite Ha. cbn. split; reflexivity.
Qed.

(** [a.reshape(-1, L, O, N)] of a tensor of shape [(B, L * O, N)]. *)
Lemma reshape_heads (a : ndarray) (B L O N : nat) :
  shape a = [B; (L * O)%nat; N] -> (1 <= L)%nat -> (1 <= O)%nat -> (1 <= N)%nat ->
  exists r, reshape [None; Some L; Some O; Some N] a = Ok r /\
    shape r = [B; L; O; N] /\
    forall b l o n, (b < B)%nat -> (l < L)%nat -> (o < O)%nat -> (n < N)%nat ->
      item r [b; l; o; n] = item a [b; (l * O + o)%nat; n].
Proof.
  intros Ha HL HO HN. unfold reshape, infer_shape. rewrite Ha.
  cbn [filter length fold_right numel map].
  rewrite !Nat.mul_1_r.
  destruct (Nat.eqb_spec (L * (O * N)) 0) as [E0|_]; [nia|].
  replace (B * (L * O * N))%nat with (B * (L * (O * N)))%nat by lia.
  rewrite Nat.Div0.mod_mul, Nat.eqb_refl, Nat.div_mul by nia.
  eexists. split; [reflexivity|]. split; [reflexivity|].
  intros b l o n Hb Hl Ho Hn. cbn [item]. rewrite ravel_4.
  apply f_equal.
  replace (((b * L + l) * O + o) * N + n)%nat
    with ((b * (L * O) + (l * O + o)) * N + n)%nat by lia.
  apply unravel_3; [assumption | nia | assumption].
Qed.

Section Forward.

Context {nn : TorchNN}.
Variables (dyn : bool) (self : LSTM_DSTGCRN.t) (source : ndarray) (B T heads : nat).

Let N := LSTM_DSTGCRN.num_nodes self.
Let C := LSTM_DSTGCRN.input_dim self.
Let H := LSTM_DSTGCRN.hidden_dim self.
Let D := LSTM_DSTGCRN.embed_dim self.
Let O := LSTM_DSTGCRN.output_dim self.
Let La := LSTM_DSTGCRN.lookahead self.
Let enc := LSTM_DSTGCRN.encoder self.

Hypothesis Hwf : model_well_formed dyn self.
Hypothesis Havail : embeddings_available dyn self B T heads.
Hypothesis HT : (1 <= T)%nat.
Hypothesis Hsource : shape source = [B; T; N; C].

(** The embeddings handed to the encoder fit the sequence. *)
Lemma node_embeddings_spec :
  exists E, node_embeddings_of dyn self source = Ok E /\
            sequence_embeddings_ready dyn D E B T N.
Proof.
  destruct Hwf as (_ & _ & _ & _ & _ & _ & _ & HN & _).
  unfold node_embeddings_of. unfold embeddings_available in Havail.
  fold N D in Havail. fold N in HN.
  destruct (LSTM_DSTGCRN.TNE self).
  - destruct Havail as (E & -> & HE). now exists E.
  - destruct dyn.
    + destruct Havail as (d & -> & Hd & Hn & He & HC & HD & Hh & Hl & HB).
      cbn [attr bind]. rewrite <- He in HD.
      destruct (embedding_forward_spec d source B T N C
                  (LSTM_DSTGCRN.hidden_dim_node self) heads
                  Hd Hn HB HT HN HC HD Hh Hl Hsource)
        as (xs & features & out & _ & _ & _ & Hout & Hs & _).
      exists out. split; [exact Hout|]. exists T. rewrite Hs, He. split; [reflexivity | lia].
    + destruct Havail as (E & -> & HE). now exists E.
Qed.

(** [forward], stage by stage. *)
Lemma model_forward_spec :
  exists E init_state cells' outputs output_hidden adjmatrices output adj,
    node_embeddings_of dyn self source = Ok E /\
    AVWDCRNN.init_hidden enc B = Ok init_state /\
    stack_layers dyn T init_state E 0 (AVWDCRNN.dcrnn_cells enc) source None =
      Ok (cells', outputs, output_hidden, Some adjmatrices) /\
    LSTM_DSTGCRN.forward dyn self source =
      Ok (LSTM_DSTGCRN.set_encoder self
            (AVWDCRNN.mk N (AVWDCRNN.input_dim enc) (AVWDCRNN.num_layers enc) cells'),
          (output, adj)) /\
    shape output = [B; La; N; O] /\
    (forall b l n o, (b < B)%nat -> (l < La)%nat -> (n < N)%nat -> (o < O)%nat ->
       item output [b; l; n; o] =
       prediction_entry H O T (item outputs)
         (item (conv_weight (LSTM_DSTGCRN.end_conv self)))
         (item (conv_bias (LSTM_DSTGCRN.end_conv self))) b l n o) /\
    length adjmatrices = T /\
    stack adjmatrices 1 = Ok adj /\
    shape adj =
      stacked_adjacency_shape dyn B T N
        (last_input_dim C H (AVWDCRNN.dcrnn_cells enc) + H).
Proof.
  destruct node_embeddings_spec as (E & HE & HEready).
  destruct Hwf as (Henc & Hready & Hnodes & HencN & HencC & Hw & Hb & HN & HLa & HO).
  fold N H D enc C O La in Henc, Hready, Hnodes, HencN, HencC, Hw, Hb, HN, HLa, HO.
  destruct (init_hidden_spec enc B N H D Henc Hnodes) as (init_state & Hinit & Hinits).
  rewrite <- HencC in Hsource.
  destruct (encoder_forward_spec dyn enc source init_state E B T N H D
              Henc Hready HencN HT Hsource Hinits HEready)
    as (cells' & outputs & hidden & adjs & Hstack & Hfwd & Hos & _ & _ & Hadjs & _ & _
        & Hadjshape).
  destruct (last_along_1_spec outputs B T N H Hos HT) as (last & Hlast & Hlasts & Hlasti).
  destruct (conv2d_spec (LSTM_DSTGCRN.end_conv self) last B N H (La * O) Hw Hb Hlasts)
    as (y & Hy & Hys & Hyi).
  destruct (squeeze_last_spec y B (La * O) N Hys) as (Hsq & Hsqi).
  destruct (reshape_heads (squeeze_last y) B La O N Hsq HLa HO HN)
    as (r & Hr & Hrs & Hri).
  destruct (permute_0132 r B La O N Hrs) as (output & Hout & Houts & Houti).
  assert (Hne : adjs <> []).
  { intros ->. cbn in Hadjs. lia. }
  assert (Hstacked : exists adj, stack adjs 1 = Ok adj /\
            shape adj = stacked_adjacency_shape dyn B T N
                          (last_input_dim C H (AVWDCRNN.dcrnn_cells enc) + H)).
  { rewrite HencC in Hadjshape. unfold adjacency_shape in Hadjshape.
    unfold stacked_adjacency_shape. destruct dyn.
    - destruct (stack_1 adjs B N N Hne Hadjshape) as (adj & Hadj & Hs & _).
      exists adj. now rewrite Hs, Hadjs.
    - destruct (stack_1 adjs B 3 _ Hne Hadjshape) as (adj & Hadj & Hs & _).
      exists adj. now rewrite Hs, Hadjs. }
  destruct Hstacked as (adj & Hadj & Hadjs').
  exists E, init_state, cells', outputs, hidden, adjs, output, adj.
  split; [exact HE|]. split; [exact Hinit|]. split; [exact Hstack|].
  split.
  { unfold LSTM_DSTGCRN.forward. fold (node_embeddings_of dyn self source).
    rewrite HE. cbn [bind].
    rewrite (dim_at_0 source _ _ Hsource). cbn [bind].
    fold enc. rewrite Hinit. cbn [bind]. rewrite Hfwd. cbn [bind].
    rewrite Hlast. cbn [bind]. rewrite Hy. cbn [bind].
    fold La O N. rewrite Hr. cbn [bind]. rewrite Hout. cbn [bind].
    rewrite Hadj. reflexivity. }
  split; [exact Houts|].
  split.
  { intros b l n o Hb' Hl Hn Ho. unfold prediction_entry.
    rewrite Houti, (Hri b l o n Hb' Hl Ho Hn), Hsqi, Hyi.
    f_equal. apply rsum_ext. intros h _. now rewrite Hlasti. }
  split; [exact Hadjs|]. split; [exact Hadj | exact Hadjs'].
Qed.

End Forward.

(** Every cell [AVWDCRNN.__init__] builds is for [N] nodes. *)
Lemma AVWDCRNN_init_nodes {nn : TorchNN} (key : list nat) (N C H K D h1 h2 L : nat)
    (enc : AVWDCRNN.t) :
  AVWDCRNN.init key N C H K D h1 h2 L = Ok enc ->
  Forall (fun c => AGCRNCell.node_num c = N) (AVWDCRNN.dcrnn_cells enc).
Proof.
  unfold AVWDCRNN.init, assert.
  destruct (1 <=? L)%nat; cbn [bind]; [|discriminate].
  assert (Hloop : forall l cells,
            Forall (fun c => AGCRNCell.node_num c = N) cells ->
            exists cells',
              for_each l (AVWDCRNN.append_cell key N H K D h1 h2) cells = Ok cells' /\
              Forall (fun c => AGCRNCell.node_num c = N) cells').
  { induction l as [|i l IH]; intros cells Hcells.
    - exists cells. now split.
    - cbn [for_each AVWDCRNN.append_cell bind]. apply IH.
      apply Forall_app. split; [exact Hcells|]. now constructor. }
  destruct (Hloop (seq 1 (L - 1))
              [AGCRNCell.init (0%nat :: key) N C H K D h1 h2]) as (cells' & -> & Hall).
  { now constructor. }
  cbn [bind]. now intros [= <-].
Qed.

(** [__init__] builds a well-formed model. *)
Lemma model_init_spec {nn : TorchNN} (args : Args) (self : LSTM_DSTGCRN.t) (dyn : bool)
    (N : nat) :
  LSTM_DSTGCRN.init args = Ok (self, dyn) ->
  N = match num_nodes args with Some n => n | None => 1%nat end ->
  (1 <= rnn_units args)%nat -> (1 <= N)%nat ->
  (1 <= lookahead args)%nat -> (1 <= output_dim args)%nat ->
  (if dynamic_embed args then (2 <= cheb_k args)%nat
   else cheb_k args = 3%nat /\ (2 <= N)%nat) ->
  dyn = dynamic_embed args /\
  LSTM_DSTGCRN.num_nodes self = N /\
  LSTM_DSTGCRN.input_dim self = input_dim args /\
  LSTM_DSTGCRN.lookahead self = lookahead args /\
  LSTM_DSTGCRN.output_dim self = output_dim args /\
  LSTM_DSTGCRN.num_layers self = num_layers args /\
  model_well_formed dyn self.
Proof.
  intros Hinit -> HH HN HLa HO HK. unfold LSTM_DSTGCRN.init in Hinit.
  set (N := match num_nodes args with Some n => n | None => 1%nat end) in *.
  cbn [num_nodes num_layers_node gru_layer lstm_layer attention_layer num_heads
       input_dim rnn_units hidden_dim_node output_dim lookahead lookback num_layers
       embed_dim TNE batch_size dynamic_embed cheb_k hyperGNN_dim1 hyperGNN_dim2]
    in Hinit.
  match type of Hinit with
  | bind ?m _ = _ => destruct m as [[ne de]|e] eqn:Eemb; [|discriminate]
  end.
  cbn [bind] in Hinit.
  pose proof (AVWDCRNN_init_spec [2%nat] N (input_dim args) (rnn_units args)
                (cheb_k args) (embed_dim args) (hyperGNN_dim1 args)
                (hyperGNN_dim2 args) (num_layers args) HH) as Hspec.
  pose proof (AVWDCRNN_init_nodes [2%nat] N (input_dim args) (rnn_units args)
                (cheb_k args) (embed_dim args) (hyperGNN_dim1 args)
                (hyperGNN_dim2 args) (num_layers args)) as Hnodes.
  destruct (AVWDCRNN.init [2%nat] N (input_dim args) (rnn_units args) (cheb_k args)
              (embed_dim args) (hyperGNN_dim1 args) (hyperGNN_dim2 args)
              (num_layers args)) as [enc|e]; [|discriminate].
  cbn [bind] in Hinit. injection Hinit as <- <-.
  destruct Hspec as (_ & HencN & HencC & _ & Hwf & Hready).
  split; [reflexivity|]. split; [reflexivity|]. split; [reflexivity|].
  split; [reflexivity|]. split; [reflexivity|]. split; [reflexivity|].
  unfold model_well_formed.
  cbn [LSTM_DSTGCRN.num_nodes LSTM_DSTGCRN.hidden_dim LSTM_DSTGCRN.encoder
       LSTM_DSTGCRN.lookahead LSTM_DSTGCRN.output_dim LSTM_DSTGCRN.embed_dim
       LSTM_DSTGCRN.input_dim LSTM_DSTGCRN.end_conv conv_weight conv_bias].
  rewrite !new_parameter_shape.
  split; [exact Hwf|]. split; [now apply Hready|]. split; [now apply Hnodes|].
  now repeat (split; [assumption || reflexivity|]).
Qed.

(** Without [TNE] and with [dynamic_embed] set, [__init__] builds the
    generator of the embeddings. *)
Lemma model_init_dynamic {nn : TorchNN} (args : Args) (self : LSTM_DSTGCRN.t)
    (B T : nat) :
  LSTM_DSTGCRN.init args = Ok (self, true) ->
  TNE args = false -> dynamic_embed args = true ->
  (1 <= input_dim args)%nat -> (1 <= embed_dim args)%nat ->
  (1 <= hidden_dim_node args)%nat -> (1 <= num_layers_node args)%nat ->
  (1 <= B)%nat ->
  embeddings_available true self B T (num_heads args).
Proof.
  intros Hinit HTNE Hdyn HC HD Hh Hl HB. unfold LSTM_DSTGCRN.init in Hinit.
  set (N := match num_nodes args with Some n => n | None => 1%nat end) in *.
  cbn [num_nodes num_layers_node gru_layer lstm_layer attention_layer num_heads
       input_dim rnn_units hidden_dim_node output_dim lookahead lookback num_layers
       embed_dim TNE batch_size dynamic_embed cheb_k hyperGNN_dim1 hyperGNN_dim2]
    in Hinit.
  rewrite HTNE, Hdyn in Hinit.
  match type of Hinit with
  | context [DynamicEmbedding.init ?k ?a ?i ?e ?h] =>
      pose proof (embedding_init_spec k a i e h N) as Hspec;
      destruct (DynamicEmbedding.init k a i e h) as [d|err]; [|discriminate]
  end.
  cbn [bind] in Hinit.
  destruct (AVWDCRNN.init [2%nat] N (input_dim args) (rnn_units args) (cheb_k args)
              (embed_dim args) (hyperGNN_dim1 args) (hyperGNN_dim2 args)
              (num_layers args)) as [enc|e]; [|discriminate].
  cbn [bind] in Hinit. injection Hinit as <-.
  destruct (Hspec d eq_refl eq_refl) as (Hwf & Hn & He & Hnl & _).
  cbn [num_heads num_layers_node] in Hwf, Hnl.
  unfold embeddings_available.
  cbn [LSTM_DSTGCRN.TNE LSTM_DSTGCRN.dynamic_embedding LSTM_DSTGCRN.num_nodes
       LSTM_DSTGCRN.embed_dim LSTM_DSTGCRN.input_dim LSTM_DSTGCRN.hidden_dim_node].
  exists d. rewrite Hnl.
  now repeat (split; [assumption || reflexivity|]).
Qed.

(** C2, as amended. For a well-formed model whose node embeddings (learned, or generated
    from the source) are available, and a source of shape
    [(B, T, num_nodes, input_dim)] with [T >= 1], [forward] hands the
    embeddings and the source to the stacked encoder, started from zero
    states; the head [end_conv] is applied to the hidden state of the last
    timestep of the encoder's output and gives a prediction of shape
    [(B, lookahead, N, output_dim)]. The second value stacks the [T] second
    values of the steps of the last encoder layer only, one per timestep:
    adjacencies, of shape [(B, T, N, N)], in the dynamic case. *)
Theorem LSTM_DSTGCRN_forward_predicts {nn : TorchNN} (dyn : bool)
    (self : LSTM_DSTGCRN.t) (source : ndarray) (B T heads : nat) :
  model_well_formed dyn self ->
  embeddings_available dyn self B T heads ->
  (1 <= T)%nat ->
  shape source = [B; T; LSTM_DSTGCRN.num_nodes self; LSTM_DSTGCRN.input_dim self] ->
  let N := LSTM_DSTGCRN.num_nodes self in
  let H := LSTM_DSTGCRN.hidden_dim self in
  let enc := LSTM_DSTGCRN.encoder self in
  exists E init_state cells' outputs output_hidden adjmatrices output adj,
    node_embeddings_of dyn self source = Ok E /\
    AVWDCRNN.init_hidden enc B = Ok init_state /\
    stack_layers dyn T init_state E 0 (AVWDCRNN.dcrnn_cells enc) source None =
      Ok (cells', outputs, output_hidden, Some adjmatrices) /\
    LSTM_DSTGCRN.forward dyn self source =
      Ok (LSTM_DSTGCRN.set_encoder self
            (AVWDCRNN.mk N (AVWDCRNN.input_dim enc) (AVWDCRNN.num_layers enc) cells'),
          (output, adj)) /\
    shape output = [B; LSTM_DSTGCRN.lookahead self; N; LSTM_DSTGCRN.output_dim self] /\
    (forall b l n o,
       (b < B)%nat -> (l < LSTM_DSTGCRN.lookahead self)%nat -> (n < N)%nat ->
       (o < LSTM_DSTGCRN.output_dim self)%nat ->
       item output [b; l; n; o] =
       prediction_entry H (LSTM_DSTGCRN.output_dim self) T (item outputs)
         (item (conv_weight (LSTM_DSTGCRN.end_conv self)))
         (item (conv_bias (LSTM_DSTGCRN.end_conv self))) b l n o) /\
    length adjmatrices = T /\
    stack adjmatrices 1 = Ok adj /\
    shape adj =
      stacked_adjacency_shape dyn B T N
        (last_input_dim (LSTM_DSTGCRN.input_dim self) H (AVWDCRNN.dcrnn_cells enc) + H).
Proof.
  intros Hwf Havail HT Hsource N H enc.
  exact (model_forward_spec dyn self source B T heads Hwf Havail HT Hsource).
Qed.

Lemma LSTM_DSTGCRN_forward_predicts_witness :
  let source := constant [1; 3; 2; 1]%nat 1 in
  exists self self' output adj,
    LSTM_DSTGCRN.init example_args = Ok (self, true) /\
    LSTM_DSTGCRN.forward true self source = Ok (self', (output, adj)) /\
    shape output = [1; 3; 2; 1]%nat /\
    shape adj = [1; 3; 2; 2]%nat.
Proof.
  intros source.
  destruct (LSTM_DSTGCRN.init example_args) as [[self dyn]|e] eqn:Einit;
    [|discriminate].
  assert (Hdyn : dyn = true) by (now injection Einit as _ <-). subst dyn.
  destruct (model_init_spec example_args self true 2 Einit eq_refl)
    as (_ & HN & HC & HLa & HO & _ & Hwf); try (cbn; lia).
  pose proof (model_init_dynamic example_args self 1 3 Einit eq_refl eq_refl
                (le_n 1) (le_S _ _ (le_n 1)) (le_n 1) (le_n 1) (le_n 1)) as Havail.
  assert (Hsource : shape source =
                    [1; 3; LSTM_DSTGCRN.num_nodes self; LSTM_DSTGCRN.input_dim self]%nat)
    by now rewrite HN, HC.
  destruct (LSTM_DSTGCRN_forward_predicts true self source 1 3 _ Hwf Havail
              (le_S _ _ (le_S _ _ (le_n 1))) Hsource)
    as (E & init_state & cells' & outputs & hidden & adjs & output & adj & _ & _ & _
        & Hf & Hos & _ & _ & _ & Hadj).
  rewrite HN, HLa, HO in Hos. rewrite HN in Hadj.
  exists self. eexists. exists output, adj.
  split; [reflexivity|]. split; [exact Hf|]. split; [exact Hos | exact Hadj].
Defined.

(** C2 fails for the adjacencies of the other layers: the model of
    [example_args] has two encoder layers; on a source of three timesteps
    [forward] returns three matrices, those of the last layer, not one for
    each of the six pairs of a layer and a timestep. *)
Lemma forward_adjacency_of_last_layer_only :
  let source := constant [1; 3; 2; 1]%nat 1 in
  exists self self' output adj,
    LSTM_DSTGCRN.init example_args = Ok (self, true) /\
    LSTM_DSTGCRN.num_layers self = 2%nat /\
    LSTM_DSTGCRN.forward true self source = Ok (self', (output, adj)) /\
    shape adj = [1; 3; 2; 2]%nat /\
    ~ adjacency_per_layer_and_timestep (LSTM_DSTGCRN.num_layers self) 3 1 2 adj.
Proof.
  intros source.
  destruct (LSTM_DSTGCRN.init example_args) as [[self dyn]|e] eqn:Einit;
    [|discriminate].
  assert (Hdyn : dyn = true) by (now injection Einit as _ <-). subst dyn.
  destruct (model_init_spec example_args self true 2 Einit eq_refl)
    as (_ & HN & HC & HLa & HO & HL & Hwf); try (cbn; lia).
  cbn in HL.
  pose proof (model_init_dynamic example_args self 1 3 Einit eq_refl eq_refl
                (le_n 1) (le_S _ _ (le_n 1)) (le_n 1) (le_n 1) (le_n 1)) as Havail.
  assert (Hsource : shape source =
                    [1; 3; LSTM_DSTGCRN.num_nodes self; LSTM_DSTGCRN.input_dim self]%nat)
    by now rewrite HN, HC.
  destruct (model_forward_spec true self source 1 3 _ Hwf Havail
              (le_S _ _ (le_S _ _ (le_n 1))) Hsource)
    as (E & init_state & cells' & outputs & hidden & adjs & output & adj & _ & _ & _
        & Hf & _ & _ & _ & _ & Hadj).
  rewrite HN in Hadj. cbn [stacked_adjacency_shape] in Hadj.
  exists self. eexists. exists output, adj.
  split; [reflexivity|]. split; [exact HL|]. split; [exact Hf|].
  split; [exact Hadj|].
  unfold adjacency_per_layer_and_timestep. rewrite Hadj, HL. cbn. discriminate.
Qed.

End ModelFacts.

(** ** More facts about the column encoders *)

Module ColumnFacts.

Import Normalization OneHotFacts.

Open Scope R_scope.

(** Either every one of the first [n] columns has a width of the dtype, or
    one of them has not. *)
Lemma columns_fit_dec (data : int_matrix) (n : nat) :
  (forall i, (i < n)%nat -> column_fits data i) \/
  (exists i, (i < n)%nat /\ ~ column_fits data i).
Proof.
  induction n as [|n [IH|(i & Hi & Hno)]].
  - left. intros i Hi. lia.
  - destruct (Z_le_gt_dec (max_of data n - min_of data n + 1) (dtype_max (elem_dtype data)))
      as [Hfit|Hno].
    + left. intros i Hi. destruct (Nat.eq_dec i n) as [->|Hne]; [exact Hfit | apply IH; lia].
    + right. exists n. split; [lia|]. unfold column_fits. lia.
  - right. exists i. split; [lia | exact Hno].
Qed.

(** The loop stops with an error at the first column whose width is no value
    of the dtype. *)
Lemma one_hot_loop_overflow (data : int_matrix) (n : nat) :
  (1 <= nrows data)%nat -> in_dtype data -> (n <= ncols data)%nat ->
  (exists i, (i < n)%nat /\ ~ column_fits data i) ->
  for_each (range n) (one_hot_column data) None = Raise ValueError \/
  for_each (range n) (one_hot_column data) None = Raise IndexError.
Proof.
  intros Hrows Hin. induction n as [|n IH]; intros Hn (i & Hi & Hno); [lia|].
  unfold range in *. rewrite seq_S, for_each_app. cbn [plus].
  destruct (columns_fit_dec data n) as [Hfit|Hbad].
  - assert (i = n) as -> by (destruct (Nat.eq_dec i n); [assumption|];
                             exfalso; apply Hno, Hfit; lia).
    assert (Hcol : forall j, (j < nrows data)%nat ->
              (dtype_min (elem_dtype data) <= entry data j n
               <= dtype_max (elem_dtype data))%Z)
      by (intros j Hj; apply Hin; lia).
    destruct n as [|n].
    + cbn [seq for_each].
      destruct (one_hot_column_overflow data Hrows None 0 Hcol Hno) as [-> | ->];
        [now left | now right].
    + destruct (one_hot_loop data Hrows (S n)) as (e & He & _); [lia | exact Hfit |].
      unfold range in He. rewrite He. cbn [for_each].
      destruct (one_hot_column_overflow data Hrows (Some e) (S n) Hcol Hno) as [-> | ->];
        [now left | now right].
  - destruct (IH ltac:(lia) Hbad) as [-> | ->]; [now left | now right].
Qed.

(** X1. [one_hot_by_column] on an array whose entries are values of its
    dtype: without a column [encoded] is never bound, and without a row the
    maximum of the first column raises; otherwise it returns exactly when
    the width [max_i - min_i + 1] of every column is a value of the dtype,
    and a column that is too wide makes it raise ValueError (negative
    dimension) or IndexError (empty block). *)
Theorem one_hot_by_column_returns_exactly (data : int_matrix) :
  in_dtype data ->
  match ncols data, nrows data with
  | O, _ => one_hot_by_column data = Raise UnboundLocalError
  | S _, O => one_hot_by_column data = Raise ValueError
  | S _, S _ =>
      (returns (one_hot_by_column data) <->
       forall i, (i < ncols data)%nat -> column_fits data i) /\
      ((exists i, (i < ncols data)%nat /\ ~ column_fits data i) ->
       one_hot_by_column data = Raise ValueError \/
       one_hot_by_column data = Raise IndexError)
  end.
Proof.
  intros Hin.
  destruct (ncols data) as [|cols] eqn:Hcols.
  { unfold one_hot_by_column. rewrite Hcols. reflexivity. }
  destruct (nrows data) as [|rows] eqn:Hrows.
  { unfold one_hot_by_column. rewrite Hcols. unfold range. cbn [seq for_each].
    unfold one_hot_column. rewrite Hrows. reflexivity. }
  assert (Hr : (1 <= nrows data)%nat) by lia.
  assert (Hbad : (exists i, (i < S cols)%nat /\ ~ column_fits data i) ->
                 one_hot_by_column data = Raise ValueError \/
                 one_hot_by_column data = Raise IndexError).
  { intros Hex. unfold one_hot_by_column. rewrite Hcols.
    destruct (one_hot_loop_overflow data (S cols) Hr Hin ltac:(lia) Hex) as [-> | ->];
      [now left | now right]. }
  split; [split|exact Hbad].
  - intros [enc Henc].
    destruct (columns_fit_dec data (S cols)) as [Hfit|Hex]; [exact Hfit|].
    destruct (Hbad Hex) as [He | He]; rewrite He in Henc; discriminate.
  - intros Hfit.
    destruct (one_hot_loop data Hr (S cols)) as (enc & Hloop & _); [lia | exact Hfit |].
    exists enc. unfold one_hot_by_column. rewrite Hcols, Hloop. reflexivity.
Qed.

Lemma example_int64_matrix_in_dtype : in_dtype example_int64_matrix.
Proof.
  intros j i Hj Hi. cbn in Hj, Hi.
  destruct j as [|[|j]]; [| |lia]; vm_compute; split; discriminate.
Qed.

Lemma one_hot_by_column_returns_exactly_witness :
  in_dtype example_int64_matrix /\
  ~ column_fits example_int64_matrix 0 /\
  ~ returns (one_hot_by_column example_int64_matrix) /\
  one_hot_by_column example_int64_matrix = Raise IndexError.
Proof.
  assert (Hno : ~ column_fits example_int64_matrix 0)
    by (vm_compute; intros H; apply H; reflexivity).
  pose proof (one_hot_by_column_returns_exactly example_int64_matrix
                example_int64_matrix_in_dtype) as [Hiff Hraise].
  split; [exact example_int64_matrix_in_dtype|]. split; [exact Hno|]. split.
  - intros Hret. apply Hno. apply (proj1 Hiff Hret). cbn. lia.
  - destruct Hraise as [He | He]; [exists 0%nat; split; [cbn; lia | exact Hno] | | exact He].
    exfalso. revert He. vm_compute. discriminate.
Defined.

(** X2. When the width of every column is a value of the dtype, then in the
    block of every input column every row of the encoding holds exactly one
    1, and its offset in the block gives the input value back:
    [data[j, i] = min_i + offset]. *)
Theorem one_hot_by_column_decodes (data : int_matrix) :
  (1 <= nrows data)%nat -> (1 <= ncols data)%nat ->
  (forall i, (i < ncols data)%nat -> column_fits data i) ->
  exists encoded,
    one_hot_by_column data = Ok encoded /\
    forall j i, (j < nrows data)%nat -> (i < ncols data)%nat ->
      exists k, (k < width_of data i)%nat /\
        entry data j i = (min_of data i + Z.of_nat k)%Z /\
        forall k', (k' < width_of data i)%nat ->
          item encoded [j; (block_offset (width_of data) i + k')%nat] =
          if (k' =? k)%nat then 1 else 0.
Proof.
  intros Hrows Hcols Hfit.
  destruct (one_hot_loop data Hrows (ncols data) Hcols Hfit)
    as (e & Hloop & Hshape & Hitems).
  exists e. split; [unfold one_hot_by_column; now rewrite Hloop|].
  intros j i Hj Hi.
  destruct (min_of_spec data Hrows i) as [_ Hmin].
  destruct (max_of_spec data Hrows i) as [_ Hmax].
  specialize (Hmin j Hj). specialize (Hmax j Hj). cbn beta in Hmin, Hmax.
  exists (Z.to_nat (entry data j i - min_of data i)).
  split; [unfold width_of, block_width; lia|]. split; [lia|].
  intros k' Hk'. rewrite (Hitems j i k' Hj Hi Hk').
  destruct (Z.eqb_spec (Z.of_nat k') (entry data j i - min_of data i));
    destruct (Nat.eqb_spec k' (Z.to_nat (entry data j i - min_of data i)));
    try reflexivity; lia.
Qed.

Lemma one_hot_by_column_decodes_witness :
  exists encoded k,
    one_hot_by_column example_matrix = Ok encoded /\
    (k < width_of example_matrix 0)%nat /\
    entry example_matrix 1 0 = (min_of example_matrix 0 + Z.of_nat k)%Z /\
    item encoded [1; (block_offset (width_of example_matrix) 0 + k)]%nat = 1.
Proof.
  destruct (one_hot_by_column_decodes example_matrix) as (e & He & Hdec);
    [cbn; lia | cbn; lia | exact example_matrix_fits |].
  destruct (Hdec 1%nat 0%nat) as (k & Hk & Hv & Hone); [cbn; lia | cbn; lia |].
  exists e, k. split; [exact He|]. split; [exact Hk|]. split; [exact Hv|].
  rewrite (Hone k Hk). now rewrite Nat.eqb_refl.
Defined.

Lemma fold_left_Rmax_spec (l : list R) (a : R) :
  let m := fold_left Rmax l a in
  (m = a \/ In m l) /\ a <= m /\ forall x, In x l -> x <= m.
Proof.
  revert a. induction l as [|y l IH]; intros a; simpl.
  - split; [now left|]. split; [lra|]. intros x [].
  - destruct (IH (Rmax a y)) as (Hin & Hle & Hall).
    pose proof (Rmax_l a y) as Hl. pose proof (Rmax_r a y) as Hr.
    split; [|split].
    + destruct Hin as [Hin|Hin]; [|now right; right].
      rewrite Hin. unfold Rmax. destruct (Rle_dec a y); [right; now left | now left].
    + lra.
    + intros x [<-|Hx]; [lra | now apply Hall].
Qed.

Lemma fold_left_Rmin_spec (l : list R) (a : R) :
  let m := fold_left Rmin l a in
  (m = a \/ In m l) /\ m <= a /\ forall x, In x l -> m <= x.
Proof.
  revert a. induction l as [|y l IH]; intros a; simpl.
  - split; [now left|]. split; [lra|]. intros x [].
  - destruct (IH (Rmin a y)) as (Hin & Hle & Hall).
    pose proof (Rmin_l a y) as Hl. pose proof (Rmin_r a y) as Hr.
    split; [|split].
    + destruct Hin as [Hin|Hin]; [|now right; right].
      rewrite Hin. unfold Rmin. destruct (Rle_dec a y); [now left | right; now left].
    + lra.
    + intros x [<-|Hx]; [lra | now apply Hall].
Qed.

Lemma real_column_max_spec (len : nat) (column : nat -> R) :
  (1 <= len)%nat ->
  exists m, real_column_max len column = Ok m /\ is_largest len column m.
Proof.
  destruct len as [|n]; [lia|]. intros _. cbn [real_column_max].
  eexists. split; [reflexivity|].
  destruct (fold_left_Rmax_spec (map column (seq 1 n)) (column 0%nat))
    as (Hin & Hle & Hall).
  split.
  - destruct Hin as [Hin|Hin].
    + exists 0%nat. split; [lia | now rewrite Hin].
    + apply in_map_iff in Hin. destruct Hin as (j & Hj & Hjin).
      apply in_seq in Hjin. exists j. split; [lia | exact Hj].
  - intros j Hj. destruct j as [|j]; [exact Hle|].
    apply Hall. apply in_map. apply in_seq. lia.
Qed.

Lemma real_column_min_spec (len : nat) (column : nat -> R) :
  (1 <= len)%nat ->
  exists m, real_column_min len column = Ok m /\ is_smallest len column m.
Proof.
  destruct len as [|n]; [lia|]. intros _. cbn [real_column_min].
  eexists. split; [reflexivity|].
  destruct (fold_left_Rmin_spec (map column (seq 1 n)) (column 0%nat))
    as (Hin & Hle & Hall).
  split.
  - destruct Hin as [Hin|Hin].
    + exists 0%nat. split; [lia | now rewrite Hin].
    + apply in_map_iff in Hin. destruct Hin as (j & Hj & Hjin).
      apply in_seq in Hjin. exists j. split; [lia | exact Hj].
  - intros j Hj. destruct j as [|j]; [exact Hle|].
    apply Hall. apply in_map. apply in_seq. lia.
Qed.

Section Normalizing.

Variable data : real_matrix.

Hypothesis rows_nonempty : (1 <= rrows data)%nat.

Lemma real_min_of_spec (i : nat) :
  is_smallest (rrows data) (fun j => rentry data j i) (real_min_of data i).
Proof.
  unfold real_min_of.
  destruct (real_column_min_spec (rrows data) (fun j => rentry data j i) rows_nonempty)
    as (m & -> & Hm).
  exact Hm.
Qed.

Lemma real_max_of_spec (i : nat) :
  is_largest (rrows data) (fun j => rentry data j i) (real_max_of data i).
Proof.
  unfold real_max_of.
  destruct (real_column_max_spec (rrows data) (fun j => rentry data j i) rows_nonempty)
    as (m & -> & Hm).
  exact Hm.
Qed.

(** After the first [n >= 1] columns, [_normalized] holds them rescaled, side
    by side. *)
Lemma minmax_loop (n : nat) :
  (1 <= n)%nat ->
  exists e,
    for_each (range n) (minmax_column data) None = Ok (Some e) /\
    shape e = [rrows data; n] /\
    forall j i, (j < rrows data)%nat -> (i < n)%nat ->
      item e [j; i] =
      (rentry data j i - real_min_of data i) / (real_max_of data i - real_min_of data i).
Proof.
  assert (Hcol : forall normalized i,
            minmax_column data normalized i =
            let column :=
              as_column (rrows data)
                (fun j => (rentry data j i - real_min_of data i) /
                          (real_max_of data i - real_min_of data i)) in
            if (i =? 0)%nat then Ok (Some column)
            else match normalized with
                 | Some e => r <- hstack e column ;; Ok (Some r)
                 | None => Raise UnboundLocalError
                 end).
  { intros normalized i. unfold minmax_column, real_min_of, real_max_of.
    destruct (real_column_max_spec (rrows data) (fun j => rentry data j i) rows_nonempty)
      as (mx & -> & _).
    destruct (real_column_min_spec (rrows data) (fun j => rentry data j i) rows_nonempty)
      as (mn & -> & _).
    reflexivity. }
  induction n as [|n IH]; [lia|]. intros _.
  unfold range in *. rewrite seq_S, for_each_app. cbn [plus].
  destruct n as [|n].
  - cbn [seq for_each]. rewrite Hcol. cbn [Nat.eqb].
    eexists. split; [reflexivity|]. split; [reflexivity|].
    intros j i Hj Hi. assert (i = 0%nat) as -> by lia. reflexivity.
  - destruct IH as (e & -> & Hshape & Hitems); [lia|].
    cbn [for_each]. rewrite Hcol. cbn [Nat.eqb].
    unfold hstack. rewrite Hshape. cbn [as_column shape].
    rewrite Nat.eqb_refl. cbn [bind].
    eexists. split; [reflexivity|]. cbn [shape item].
    split; [now rewrite Nat.add_1_r|].
    intros j i Hj Hi.
    destruct (Nat.ltb_spec i (S n)) as [Hlt|Hge]; [now apply Hitems|].
    assert (i = S n) as -> by lia. reflexivity.
Qed.

End Normalizing.

(** X3. [minmax_by_column] returns exactly on arrays with a row and a column:
    without a column [_normalized] is never bound, and without a row the
    maximum of the first column raises. *)
Theorem minmax_by_column_empty_input (data : real_matrix) :
  match rcols data, rrows data with
  | O, _ => minmax_by_column data = Raise UnboundLocalError
  | S _, O => minmax_by_column data = Raise ValueError
  | S _, S _ => returns (minmax_by_column data)
  end.
Proof.
  destruct data as [rows cols e]. cbn [rcols rrows].
  destruct cols as [|cols]; [reflexivity|].
  destruct rows as [|rows]; [reflexivity|].
  assert (Hrows : (1 <= rrows (mkrmat (S rows) (S cols) e))%nat) by (cbn; lia).
  destruct (minmax_loop (mkrmat (S rows) (S cols) e) Hrows (S cols)) as (enc & Hloop & _);
    [lia|].
  exists enc. unfold minmax_by_column. cbn [rcols]. rewrite Hloop. reflexivity.
Qed.

(** X4. For a 2D array with at least one row and one column, [minmax_by_column]
    returns an array of the same shape. In a column [i] that is not constant
    its entry [(j, i)] is [(data[j, i] - min_i) / (max_i - min_i)], [min_i]
    and [max_i] being the minimum and maximum of the column: the entries lie
    in [[0, 1]], the rows holding the minimum get 0 and those holding the
    maximum get 1. *)
Theorem minmax_by_column_normalizes (data : real_matrix) :
  (1 <= rrows data)%nat -> (1 <= rcols data)%nat ->
  exists (min max : nat -> R) (normalized : ndarray),
    (forall i, (i < rcols data)%nat ->
       is_smallest (rrows data) (fun j => rentry data j i) (min i) /\
       is_largest (rrows data) (fun j => rentry data j i) (max i)) /\
    minmax_by_column data = Ok normalized /\
    shape normalized = [rrows data; rcols data] /\
    forall j i, (j < rrows data)%nat -> (i < rcols data)%nat -> min i < max i ->
      item normalized [j; i] = (rentry data j i - min i) / (max i - min i) /\
      0 <= item normalized [j; i] <= 1 /\
      (rentry data j i = min i -> item normalized [j; i] = 0) /\
      (rentry data j i = max i -> item normalized [j; i] = 1).
Proof.
  intros Hrows Hcols.
  destruct (minmax_loop data Hrows (rcols data) Hcols) as (e & Hloop & Hshape & Hitems).
  exists (real_min_of data), (real_max_of data), e.
  split; [intros i _; split; [now apply real_min_of_spec | now apply real_max_of_spec]|].
  split; [unfold minmax_by_column; now rewrite Hloop|].
  split; [exact Hshape|].
  intros j i Hj Hi Hlt. rewrite (Hitems j i Hj Hi). split; [reflexivity|].
  destruct (real_min_of_spec data Hrows i) as [_ Hmin].
  destruct (real_max_of_spec data Hrows i) as [_ Hmax].
  specialize (Hmin j Hj). specialize (Hmax j Hj). cbn beta in Hmin, Hmax.
  set (mn := real_min_of data i) in *. set (mx := real_max_of data i) in *.
  assert (Hpos : 0 < mx - mn) by lra.
  split; [split|split].
  - apply Rmult_le_pos; [lra|]. left. now apply Rinv_0_lt_compat.
  - apply (Rmult_le_reg_r (mx - mn)); [exact Hpos|].
    unfold Rdiv. rewrite Rmult_assoc, Rinv_l by lra. lra.
  - intros ->. unfold Rdiv. rewrite Rminus_diag. apply Rmult_0_l.
  - intros ->. unfold Rdiv. apply Rinv_r. lra.
Qed.

Lemma minmax_by_column_normalizes_witness :
  exists normalized,
    minmax_by_column example_real_matrix = Ok normalized /\
    shape normalized = [2; 2]%nat /\
    0 <= item normalized [0; 0]%nat <= 1.
Proof.
  destruct (minmax_by_column_normalizes example_real_matrix)
    as (mn & mx & e & Hmm & He & Hs & Hentries); [cbn; lia | cbn; lia |].
  exists e. split; [exact He|]. split; [exact Hs|].
  destruct (Hmm 0%nat) as [[_ Hmin] [_ Hmax]]; [cbn; lia|].
  specialize (Hmin 0%nat). specialize (Hmax 1%nat). cbn in Hmin, Hmax.
  destruct (Hentries 0%nat 0%nat) as (_ & Hunit & _);
    [cbn; lia | cbn; lia | | exact Hunit].
  assert (mn 0%nat <= 1) by (apply Hmin; lia).
  assert (3 <= mx 0%nat) by (apply Hmax; lia).
  lra.
Defined.

End ColumnFacts.

(** ** More facts about the scalers *)

Module ScalerFacts.

Import Normalization NormalizationFacts.

Open Scope R_scope.

Section Scalers.

Context {interop : Interop}.

(** X5. A [ColumnMinMaxScaler] built from numpy arrays [min] and [max] of one
    shape undoes itself on every array of that shape, in both directions,
    also where [max = min]: the divisor is 1 there. *)
Theorem ColumnMinMaxScaler_round_trips (x min max : ndarray) :
  shape x <> [] -> shape min = shape x -> shape max = shape x ->
  exists self,
    ColumnMinMaxScaler.init (NpArray min) (NpArray max) = Ok self /\
    undoes ColumnMinMaxScaler.transform ColumnMinMaxScaler.inverse_transform self x /\
    redoes ColumnMinMaxScaler.transform ColumnMinMaxScaler.inverse_transform self x.
Proof.
  intros Hne Hmin Hmax.
  assert (Hne' : shape max <> []) by congruence.
  assert (Hmm : shape min = shape max) by congruence.
  unfold ColumnMinMaxScaler.init.
  rewrite binop_np_np by assumption.
  cbn [bind ColumnMinMaxScaler.set_zeros_to_one].
  eexists. split; [reflexivity|].
  split.
  - unfold undoes, ColumnMinMaxScaler.transform.
    cbn [ColumnMinMaxScaler.shape_of bind ColumnMinMaxScaler.min
         ColumnMinMaxScaler.min_max].
    rewrite binop_np_np by assumption. cbn [bind].
    rewrite binop_np_np by (cbn [shape set_where_eq]; assumption).
    eexists _, _, _. split; [reflexivity|].
    unfold ColumnMinMaxScaler.inverse_transform.
    cbn [ColumnMinMaxScaler.min ColumnMinMaxScaler.min_max
         MinMax01Scaler.torch_data_numpy_min bind].
    rewrite binop_np_np by (cbn [shape set_where_eq]; assumption). cbn [bind].
    rewrite binop_np_np by (cbn [shape]; assumption).
    split; [reflexivity|]. split; [reflexivity|].
    cbn [shape item set_where_eq]. intros idx Hidx.
    rewrite Hmax, !(bindex_in_bounds _ _ Hidx).
    destruct Req_dec_T; field; lra.
  - unfold redoes, ColumnMinMaxScaler.inverse_transform.
    cbn [ColumnMinMaxScaler.min ColumnMinMaxScaler.min_max
         MinMax01Scaler.torch_data_numpy_min bind].
    rewrite binop_np_np by (cbn [shape set_where_eq]; assumption). cbn [bind].
    rewrite binop_np_np by (cbn [shape]; assumption).
    eexists _, _, _. split; [reflexivity|].
    unfold ColumnMinMaxScaler.transform.
    cbn [ColumnMinMaxScaler.shape_of bind ColumnMinMaxScaler.min
         ColumnMinMaxScaler.min_max].
    rewrite binop_np_np by (cbn [shape]; assumption). cbn [bind].
    rewrite binop_np_np by (cbn [shape set_where_eq]; assumption).
    split; [reflexivity|]. split; [reflexivity|].
    cbn [shape item set_where_eq]. intros idx Hidx.
    rewrite Hmax, !(bindex_in_bounds _ _ Hidx).
    destruct Req_dec_T; field; lra.
Qed.

(** X6. The scalers undo themselves the other way round as well: [transform]
    after [inverse_transform] gives the array back, for numpy arrays of one
    shape, with [std] nonzero and [max] different from [min] everywhere. *)
Theorem transform_undoes_inverse_transform (y mean std min max : ndarray) :
  shape y <> [] ->
  shape mean = shape y -> shape std = shape y ->
  shape min = shape y -> shape max = shape y ->
  (forall idx, in_bounds idx (shape y) -> item std idx <> 0) ->
  (forall idx, in_bounds idx (shape y) -> item max idx <> item min idx) ->
  redoes StandardScaler.transform StandardScaler.inverse_transform
         (StandardScaler.init (NpArray mean) (NpArray std)) y /\
  redoes MinMax01Scaler.transform MinMax01Scaler.inverse_transform
         (MinMax01Scaler.init (NpArray min) (NpArray max)) y /\
  redoes MinMax11Scaler.transform MinMax11Scaler.inverse_transform
         (MinMax11Scaler.init (NpArray min) (NpArray max)) y.
Proof.
  intros Hne Hmean Hstd Hmin Hmax Hs Hd.
  assert (Hne' : shape max <> []) by congruence.
  assert (Hmm : shape min = shape max) by congruence.
  split; [|split].
  - unfold redoes, StandardScaler.init, StandardScaler.inverse_transform.
    cbn [StandardScaler.mean StandardScaler.std].
    destruct (last_dim_same y mean) as (k & -> & ->); [assumption..|].
    rewrite Nat.eqb_refl. cbn [negb]. unfold StandardScaler.rescale.
    cbn [StandardScaler.mean StandardScaler.std].
    rewrite binop_np_np by assumption. cbn [bind].
    rewrite binop_np_np by (cbn [shape]; assumption).
    eexists _, _, _. split; [reflexivity|].
    unfold StandardScaler.transform. cbn [StandardScaler.mean StandardScaler.std].
    rewrite binop_np_np by (cbn [shape]; assumption). cbn [bind].
    rewrite binop_np_np by (cbn [shape]; assumption).
    split; [reflexivity|]. split; [reflexivity|].
    cbn [shape item]. intros idx Hidx.
    rewrite !(bindex_in_bounds _ _ Hidx).
    specialize (Hs idx Hidx). field. exact Hs.
  - unfold redoes, MinMax01Scaler.init, MinMax01Scaler.inverse_transform.
    cbn [MinMax01Scaler.min MinMax01Scaler.max MinMax01Scaler.torch_data_numpy_min bind].
    rewrite binop_np_np by assumption. cbn [bind].
    rewrite binop_np_np by (cbn [shape]; congruence). cbn [bind].
    rewrite binop_np_np by (cbn [shape]; congruence).
    eexists _, _, _. split; [reflexivity|].
    unfold MinMax01Scaler.transform.
    cbn [MinMax01Scaler.min MinMax01Scaler.max np_sum_eq0 bind].
    rewrite (binop_np_np Rminus max min) by assumption.
    rewrite binop_np_np by (cbn [shape]; congruence). cbn [bind].
    rewrite binop_np_np by (cbn [shape]; congruence).
    split; [destruct (0 <? count_eq 0 max)%nat; reflexivity|].
    split; [reflexivity|].
    cbn [shape item]. intros idx Hidx.
    rewrite Hmax, !(bindex_in_bounds _ _ Hidx).
    specialize (Hd idx Hidx). field. lra.
  - unfold redoes, MinMax11Scaler.init, MinMax11Scaler.inverse_transform.
    cbn [MinMax11Scaler.min MinMax11Scaler.max MinMax01Scaler.torch_data_numpy_min bind].
    rewrite !binop_np_float by (cbn [shape]; assumption). cbn [bind shape item].
    rewrite !binop_np_float by (cbn [shape]; assumption). cbn [bind shape item].
    rewrite binop_np_np by assumption. cbn [bind].
    rewrite binop_np_np by (cbn [shape]; congruence). cbn [bind].
    rewrite binop_np_np by (cbn [shape]; congruence).
    eexists _, _, _. split; [reflexivity|].
    unfold MinMax11Scaler.transform.
    cbn [MinMax11Scaler.min MinMax11Scaler.max bind].
    rewrite (binop_np_np Rminus max min) by assumption.
    rewrite binop_np_np by (cbn [shape]; congruence). cbn [bind].
    rewrite binop_np_np by (cbn [shape]; congruence). cbn [bind].
    rewrite !binop_np_float by (cbn [shape]; assumption). cbn [bind shape item].
    rewrite !binop_np_float by (cbn [shape]; assumption).
    split; [reflexivity|]. split; [reflexivity|].
    cbn [shape item]. intros idx Hidx.
    rewrite Hmax, !(bindex_in_bounds _ _ Hidx).
    specialize (Hd idx Hidx). field. lra.
Qed.

(** X7. With [min < max] everywhere, [MinMax01Scaler.transform] maps exactly the
    entries within [[min, max]] into [[0, 1]], [MinMax11Scaler.transform] maps
    them into [[-1, 1]], and the second is twice the first minus one. *)
Theorem MinMax_transform_range (x min max : ndarray) :
  shape x <> [] -> shape min = shape x -> shape max = shape x ->
  (forall idx, in_bounds idx (shape x) -> item min idx < item max idx) ->
  exists y01 y11,
    MinMax01Scaler.transform (MinMax01Scaler.init (NpArray min) (NpArray max)) (NpArray x)
    = Ok (NpArray y01) /\
    MinMax11Scaler.transform (MinMax11Scaler.init (NpArray min) (NpArray max)) (NpArray x)
    = Ok (NpArray y11) /\
    shape y01 = shape x /\ shape y11 = shape x /\
    forall idx, in_bounds idx (shape x) ->
      (item min idx <= item x idx <= item max idx <-> 0 <= item y01 idx <= 1) /\
      (item min idx <= item x idx <= item max idx <-> -1 <= item y11 idx <= 1) /\
      item y11 idx = 2 * item y01 idx - 1.
Proof.
  intros Hne Hmin Hmax Hlt.
  assert (Hne' : shape max <> []) by congruence.
  assert (Hmm : shape min = shape max) by congruence.
  unfold MinMax01Scaler.init, MinMax11Scaler.init, MinMax01Scaler.transform,
    MinMax11Scaler.transform.
  cbn [MinMax01Scaler.min MinMax01Scaler.max MinMax11Scaler.min MinMax11Scaler.max
       np_sum_eq0 bind].
  rewrite (binop_np_np Rminus x min) by assumption.
  rewrite (binop_np_np Rminus max min) by assumption. cbn [bind].
  rewrite binop_np_np by (cbn [shape]; congruence). cbn [bind].
  rewrite !binop_np_float by (cbn [shape]; assumption). cbn [bind shape item].
  rewrite !binop_np_float by (cbn [shape]; assumption).
  eexists _, _.
  split; [destruct (0 <? count_eq 0 max)%nat; reflexivity|].
  split; [reflexivity|]. split; [reflexivity|]. split; [reflexivity|].
  cbn [shape item]. intros idx Hidx.
  rewrite Hmax, !(bindex_in_bounds _ _ Hidx).
  specialize (Hlt idx Hidx).
  set (a := item min idx) in *. set (b := item max idx) in *. set (v := item x idx).
  assert (Hpos : 0 < b - a) by lra.
  assert (Hq : (v - a) / (b - a) * (b - a) = v - a) by (field; lra).
  assert (H0 : 0 <= (v - a) / (b - a) <-> a <= v).
  { split; intros H.
    - assert (0 <= (v - a) / (b - a) * (b - a)) by (apply Rmult_le_pos; lra). lra.
    - apply Rmult_le_pos; [lra|]. left. now apply Rinv_0_lt_compat. }
  assert (H1 : (v - a) / (b - a) <= 1 <-> v <= b).
  { split; intros H.
    - assert ((v - a) / (b - a) * (b - a) <= 1 * (b - a))
        by (apply Rmult_le_compat_r; lra). lra.
    - apply (Rmult_le_reg_r (b - a)); [exact Hpos|]. lra. }
  split; [|split]; [| |ring].
  - split; [intros [Ha Hb]; split; [now apply H0 | now apply H1]|].
    intros [Ha Hb]. split; [now apply H0 | now apply H1].
  - split.
    + intros [Ha Hb]. apply H0 in Ha. apply H1 in Hb. lra.
    + intros [Ha Hb]. split; [apply H0 | apply H1]; lra.
Qed.

(** X8. With numbers for statistics, as [data.mean()] and [data.std()] give
    them, the scalers undo themselves on numpy arrays of any shape of rank at
    least 1, provided [std] is not 0 and [max] differs from [min]. *)
Theorem scalar_statistics_round_trip (x : ndarray) (mean std min max : R) :
  shape x <> [] -> std <> 0 -> max <> min ->
  undoes StandardScaler.transform StandardScaler.inverse_transform
         (StandardScaler.init (PyFloat mean) (PyFloat std)) x /\
  undoes MinMax01Scaler.transform MinMax01Scaler.inverse_transform
         (MinMax01Scaler.init (PyFloat min) (PyFloat max)) x /\
  undoes MinMax11Scaler.transform MinMax11Scaler.inverse_transform
         (MinMax11Scaler.init (PyFloat min) (PyFloat max)) x.
Proof.
  intros Hne Hstd Hd.
  split; [|split].
  - unfold undoes, StandardScaler.init, StandardScaler.transform.
    cbn [StandardScaler.mean StandardScaler.std].
    rewrite binop_np_float by assumption. cbn [bind].
    rewrite binop_np_float by (cbn [shape]; assumption).
    eexists _, _, _. split; [reflexivity|].
    unfold StandardScaler.inverse_transform, StandardScaler.rescale.
    cbn [StandardScaler.mean StandardScaler.std].
    rewrite binop_np_float by (cbn [shape]; assumption). cbn [bind].
    rewrite binop_np_float by (cbn [shape]; assumption).
    split; [reflexivity|]. split; [reflexivity|].
    cbn [shape item]. intros idx Hidx.
    rewrite !(bindex_in_bounds _ _ Hidx). field. exact Hstd.
  - assert (Hw : binop Rminus (PyFloat max) (PyFloat min) = Ok (PyFloat (max - min)))
      by reflexivity.
    unfold undoes, MinMax01Scaler.init, MinMax01Scaler.transform.
    cbn [MinMax01Scaler.min MinMax01Scaler.max np_sum_eq0 bind].
    rewrite Hw, binop_np_float by assumption. cbn [bind].
    rewrite binop_np_float by (cbn [shape]; assumption).
    eexists _, _, _.
    split; [destruct (0 <? (if Req_dec_T max 0 then 1 else 0))%nat; reflexivity|].
    unfold MinMax01Scaler.inverse_transform.
    cbn [MinMax01Scaler.min MinMax01Scaler.max MinMax01Scaler.torch_data_numpy_min
         bind].
    rewrite Hw. cbn [bind].
    rewrite binop_np_float by (cbn [shape]; assumption). cbn [bind].
    rewrite binop_np_float by (cbn [shape]; assumption).
    split; [reflexivity|]. split; [reflexivity|].
    cbn [shape item]. intros idx Hidx.
    rewrite !(bindex_in_bounds _ _ Hidx). field. lra.
  - assert (Hw : binop Rminus (PyFloat max) (PyFloat min) = Ok (PyFloat (max - min)))
      by reflexivity.
    unfold undoes, MinMax11Scaler.init, MinMax11Scaler.transform.
    cbn [MinMax11Scaler.min MinMax11Scaler.max bind].
    rewrite Hw, binop_np_float by assumption. cbn [bind].
    rewrite binop_np_float by (cbn [shape]; assumption). cbn [bind].
    rewrite binop_np_float by (cbn [shape]; assumption). cbn [bind].
    rewrite binop_np_float by (cbn [shape]; assumption).
    eexists _, _, _. split; [reflexivity|].
    unfold MinMax11Scaler.inverse_transform.
    cbn [MinMax11Scaler.min MinMax11Scaler.max MinMax01Scaler.torch_data_numpy_min bind].
    rewrite binop_np_float by (cbn [shape]; assumption). cbn [bind].
    rewrite binop_np_float by (cbn [shape]; assumption). cbn [bind].
    rewrite Hw. cbn [bind].
    rewrite binop_np_float by (cbn [shape]; assumption). cbn [bind].
    rewrite binop_np_float by (cbn [shape]; assumption).
    split; [reflexivity|]. split; [reflexivity|].
    cbn [shape item]. intros idx Hidx.
    rewrite !(bindex_in_bounds _ _ Hidx). field. lra.
Qed.

Lemma broadcast_shapes_last_mismatch (a b : list nat) (x y : nat) :
  bdim x y = None -> broadcast_shapes (a ++ [x]) (b ++ [y]) = None.
Proof.
  intros H. unfold broadcast_shapes. rewrite !rev_app_distr. cbn [rev app broadcast_rev].
  now rewrite H.
Qed.

Lemma binop_np_mismatch (f : R -> R -> R) (a b : ndarray) :
  broadcast_shapes (shape a) (shape b) = None ->
  binop f (NpArray a) (NpArray b) = Raise ValueError.
Proof. intros H. unfold binop, broadcast2. now rewrite H. Qed.

(** X9. Once [StandardScaler.inverse_transform] has run on numpy data whose last
    dimension [k] is smaller than the one of the statistics, [W], the
    statistics are cut down to [k] for good: with [2 <= k < W], data of the
    original width [W] no longer broadcasts against them, and both
    [inverse_transform] and [transform] raise [ValueError] on it. *)
Theorem StandardScaler_shrinking_is_permanent (mean std d1 d2 : ndarray)
    (s s1 s2 : list nat) (W k : nat) :
  shape mean = s ++ [W] -> shape std = s ++ [W] ->
  shape d1 = s1 ++ [k] -> shape d2 = s2 ++ [W] ->
  (2 <= k)%nat -> (k < W)%nat ->
  let self := StandardScaler.init (NpArray mean) (NpArray std) in
  let self' := fst (StandardScaler.inverse_transform self (NpArray d1)) in
  self' = StandardScaler.mk (NpArray (shrunk k mean)) (NpArray (shrunk k std)) /\
  StandardScaler.inverse_transform self' (NpArray d2) = (self', Raise ValueError) /\
  StandardScaler.transform self' (NpArray d2) = Raise ValueError.
Proof.
  intros Hmean Hstd Hd1 Hd2 Hk HW self self'.
  assert (Hself' : self' =
            StandardScaler.mk (NpArray (shrunk k mean)) (NpArray (shrunk k std))).
  { subst self' self. unfold StandardScaler.init, StandardScaler.inverse_transform.
    cbn [StandardScaler.mean StandardScaler.std].
    rewrite (last_dim_app d1 s1 k Hd1), (last_dim_app mean s W Hmean).
    destruct (Nat.eqb_spec k W) as [Heq|_]; [lia|]. cbn [negb].
    rewrite (slice_last_app mean s k W Hmean). unfold slice_value.
    rewrite (slice_last_app std s k W Hstd). cbn [bind fst].
    rewrite (shrunk_app mean s k W Hmean), (shrunk_app std s k W Hstd).
    now rewrite Nat.min_l by lia. }
  rewrite Hself'. clear Hself' self'.
  rewrite (shrunk_app mean s k W Hmean), (shrunk_app std s k W Hstd).
  assert (Hb : bdim W k = None).
  { unfold bdim. destruct (Nat.eqb_spec W k); [lia|].
    destruct (Nat.eqb_spec W 1); [lia|]. destruct (Nat.eqb_spec k 1); [lia|].
    reflexivity. }
  split; [reflexivity|]. split.
  - unfold StandardScaler.inverse_transform.
    cbn [StandardScaler.mean StandardScaler.std].
    rewrite (last_dim_app d2 s2 W Hd2).
    rewrite (last_dim_app (mkarr (s ++ [k]) (item mean)) s k eq_refl).
    destruct (Nat.eqb_spec W k) as [Heq|_]; [lia|]. cbn [negb].
    rewrite (slice_last_app (mkarr (s ++ [k]) (item mean)) s W k eq_refl).
    unfold slice_value.
    rewrite (slice_last_app (mkarr (s ++ [k]) (item std)) s W k eq_refl).
    cbn [bind item]. rewrite Nat.min_r by lia.
    unfold StandardScaler.rescale. cbn [StandardScaler.mean StandardScaler.std].
    rewrite binop_np_mismatch; [reflexivity|]. cbn [shape].
    rewrite Hd2. exact (broadcast_shapes_last_mismatch s2 s W k Hb).
  - unfold StandardScaler.transform. cbn [StandardScaler.mean StandardScaler.std].
    rewrite binop_np_mismatch; [reflexivity|]. cbn [shape].
    rewrite Hd2. exact (broadcast_shapes_last_mismatch s2 s W k Hb).
Qed.

(** X10. The min-max scalers turn their statistics into float32 tensors on the
    device of the data the first time [inverse_transform] is given a torch
    tensor while [min] is a numpy array, and never change them otherwise:
    not on numpy data, and not on any later call. When [max] is not a numpy
    array the conversion raises [TypeError] with [min] already replaced. *)
Theorem minmax_scalers_convert_once (mn mx d : ndarray) (dev : device) (dt : dtype)
    (r : R) (later : value) :
  let data := TorchTensor dev dt d in
  let mn' := TorchTensor dev Float32 (map1 round_float32 mn) in
  let mx' := TorchTensor dev Float32 (map1 round_float32 mx) in
  (fst (MinMax01Scaler.inverse_transform (MinMax01Scaler.mk (NpArray mn) (NpArray mx)) data)
   = MinMax01Scaler.mk mn' mx' /\
   fst (MinMax01Scaler.inverse_transform (MinMax01Scaler.mk mn' mx') later)
   = MinMax01Scaler.mk mn' mx' /\
   fst (MinMax01Scaler.inverse_transform (MinMax01Scaler.mk (NpArray mn) (NpArray mx))
          (NpArray d))
   = MinMax01Scaler.mk (NpArray mn) (NpArray mx) /\
   MinMax01Scaler.inverse_transform (MinMax01Scaler.mk (NpArray mn) (PyFloat r)) data
   = (MinMax01Scaler.mk mn' (PyFloat r), Raise TypeError)) /\
  (fst (MinMax11Scaler.inverse_transform (MinMax11Scaler.mk (NpArray mn) (NpArray mx)) data)
   = MinMax11Scaler.mk mn' mx' /\
   fst (MinMax11Scaler.inverse_transform (MinMax11Scaler.mk mn' mx') later)
   = MinMax11Scaler.mk mn' mx' /\
   fst (MinMax11Scaler.inverse_transform (MinMax11Scaler.mk (NpArray mn) (NpArray mx))
          (NpArray d))
   = MinMax11Scaler.mk (NpArray mn) (NpArray mx)) /\
  (fst (ColumnMinMaxScaler.inverse_transform
          (ColumnMinMaxScaler.mk (NpArray mn) (NpArray mx)) data)
   = ColumnMinMaxScaler.mk mn' mx' /\
   fst (ColumnMinMaxScaler.inverse_transform (ColumnMinMaxScaler.mk mn' mx') later)
   = ColumnMinMaxScaler.mk mn' mx' /\
   fst (ColumnMinMaxScaler.inverse_transform
          (ColumnMinMaxScaler.mk (NpArray mn) (NpArray mx)) (NpArray d))
   = ColumnMinMaxScaler.mk (NpArray mn) (NpArray mx)).
Proof.
  intros data mn' mx'.
  repeat split; try reflexivity; destruct later; reflexivity.
Qed.

End Scalers.

#[local] Existing Instance example_interop.

Lemma ColumnMinMaxScaler_round_trips_witness :
  let x := mkarr [2%nat] (fun idx => match idx with [O] => 3 | _ => 7 end) in
  let min := mkarr [2%nat] (fun idx => match idx with [O] => 1 | _ => 4 end) in
  let max := mkarr [2%nat] (fun idx => match idx with [O] => 5 | _ => 4 end) in
  exists self,
    ColumnMinMaxScaler.init (interop := example_interop) (NpArray min) (NpArray max)
    = Ok self /\
    undoes (ColumnMinMaxScaler.transform (interop := example_interop))
           (ColumnMinMaxScaler.inverse_transform (interop := example_interop)) self x /\
    redoes (ColumnMinMaxScaler.transform (interop := example_interop))
           (ColumnMinMaxScaler.inverse_transform (interop := example_interop)) self x.
Proof.
  intros x min max.
  apply (@ColumnMinMaxScaler_round_trips example_interop x min max);
    [discriminate | reflexivity | reflexivity].
Defined.

Lemma transform_undoes_inverse_transform_witness :
  let y := mkarr [2%nat] (fun idx => match idx with [O] => 3 | _ => 7 end) in
  let mean := mkarr [2%nat] (fun _ => 1) in
  let std := mkarr [2%nat] (fun _ => 2) in
  let min := mkarr [2%nat] (fun _ => 0) in
  let max := mkarr [2%nat] (fun _ => 10) in
  redoes (StandardScaler.transform (interop := example_interop))
         (StandardScaler.inverse_transform (interop := example_interop))
         (StandardScaler.init (NpArray mean) (NpArray std)) y /\
  redoes (MinMax01Scaler.transform (interop := example_interop))
         (MinMax01Scaler.inverse_transform (interop := example_interop))
         (MinMax01Scaler.init (NpArray min) (NpArray max)) y /\
  redoes (MinMax11Scaler.transform (interop := example_interop))
         (MinMax11Scaler.inverse_transform (interop := example_interop))
         (MinMax11Scaler.init (NpArray min) (NpArray max)) y.
Proof.
  intros y mean std min max.
  apply (@transform_undoes_inverse_transform example_interop y mean std min max);
    try reflexivity; try discriminate; intros idx _; cbn; lra.
Defined.

Lemma MinMax_transform_range_witness :
  let x := mkarr [2%nat] (fun idx => match idx with [O] => 3 | _ => 7 end) in
  let min := mkarr [2%nat] (fun _ => 0) in
  let max := mkarr [2%nat] (fun _ => 10) in
  exists y01 y11,
    MinMax01Scaler.transform (interop := example_interop)
      (MinMax01Scaler.init (NpArray min) (NpArray max)) (NpArray x) = Ok (NpArray y01) /\
    MinMax11Scaler.transform (interop := example_interop)
      (MinMax11Scaler.init (NpArray min) (NpArray max)) (NpArray x) = Ok (NpArray y11) /\
    0 <= item y01 [0%nat] <= 1 /\ -1 <= item y11 [0%nat] <= 1.
Proof.
  intros x min max.
  destruct (@MinMax_transform_range example_interop x min max)
    as (y01 & y11 & H01 & H11 & _ & _ & Hr);
    [discriminate | reflexivity | reflexivity | intros idx _; cbn; lra |].
  exists y01, y11. split; [exact H01|]. split; [exact H11|].
  destruct (Hr [0%nat]) as (Ha & Hb & _); [repeat constructor|].
  split; [apply Ha | apply Hb]; cbn; lra.
Defined.

Lemma scalar_statistics_round_trip_witness :
  let x := mkarr [2; 2]%nat (fun idx => match idx with [O; _] => 3 | _ => 7 end) in
  undoes (StandardScaler.transform (interop := example_interop))
         (StandardScaler.inverse_transform (interop := example_interop))
         (StandardScaler.init (PyFloat 1) (PyFloat 2)) x /\
  undoes (MinMax01Scaler.transform (interop := example_interop))
         (MinMax01Scaler.inverse_transform (interop := example_interop))
         (MinMax01Scaler.init (PyFloat 0) (PyFloat 10)) x /\
  undoes (MinMax11Scaler.transform (interop := example_interop))
         (MinMax11Scaler.inverse_transform (interop := example_interop))
         (MinMax11Scaler.init (PyFloat 0) (PyFloat 10)) x.
Proof.
  intros x.
  apply (@scalar_statistics_round_trip example_interop x 1 2 0 10);
    [discriminate | lra | lra].
Defined.

Lemma StandardScaler_shrinking_is_permanent_witness :
  let mean := mkarr [2; 3]%nat (fun _ => 1) in
  let std := mkarr [2; 3]%nat (fun _ => 2) in
  let d1 := mkarr [2; 2]%nat (fun _ => 5) in
  let d2 := mkarr [2; 3]%nat (fun _ => 5) in
  let self := StandardScaler.init (NpArray mean) (NpArray std) in
  let self' :=
    fst (StandardScaler.inverse_transform (interop := example_interop) self (NpArray d1)) in
  StandardScaler.inverse_transform (interop := example_interop) self' (NpArray d2)
  = (self', Raise ValueError) /\
  StandardScaler.transform (interop := example_interop) self' (NpArray d2)
  = Raise ValueError.
Proof.
  intros mean std d1 d2 self self'.
  destruct (@StandardScaler_shrinking_is_permanent example_interop mean std d1 d2
              [2%nat] [2%nat] [2%nat] 3 2 eq_refl eq_refl eq_refl eq_refl
              (le_n 2) (le_n 3)) as (_ & Hinv & Htr).
  split; [exact Hinv | exact Htr].
Defined.

End ScalerFacts.

(** ** More facts about the graph convolution *)

Module GraphFacts.

Import Torch Model TorchFacts AVWGCNFacts.

Open Scope R_scope.

Lemma rsum_nonneg (n : nat) (f : nat -> R) :
  (forall k, (k < n)%nat -> 0 <= f k) -> 0 <= rsum n f.
Proof.
  induction n as [|n IH]; intros H; [rewrite rsum_0; lra|].
  rewrite rsum_S. assert (0 <= rsum n f) by (apply IH; intros; apply H; lia).
  assert (0 <= f n) by (apply H; lia). lra.
Qed.

Lemma rsum_ge_term (n j : nat) (f : nat -> R) :
  (forall k, (k < n)%nat -> 0 <= f k) -> (j < n)%nat -> f j <= rsum n f.
Proof.
  induction n as [|n IH]; intros H Hj; [lia|].
  rewrite rsum_S. assert (0 <= f n) by (apply H; lia).
  destruct (Nat.eq_dec j n) as [->|Hne].
  - assert (0 <= rsum n f) by (apply rsum_nonneg; intros; apply H; lia). lra.
  - assert (f j <= rsum n f) by (apply IH; [intros; apply H; lia | lia]). lra.
Qed.

(** [D^(-1/2) G D^(-1/2)] of a symmetric batch [G] with non-negative entries
    and a diagonal of at least 1. *)
Lemma normalized_entry_bounds (G : list nat -> R) (N b i j : nat) :
  (i < N)%nat -> (j < N)%nat ->
  (forall r c, (r < N)%nat -> (c < N)%nat -> 0 <= G [b; r; c]) ->
  (forall r c, (r < N)%nat -> (c < N)%nat -> G [b; r; c] = G [b; c; r]) ->
  (forall r, (r < N)%nat -> 1 <= G [b; r; r]) ->
  normalized_entry G N b i j = normalized_entry G N b j i /\
  0 <= normalized_entry G N b i j <= 1 /\
  0 < normalized_entry G N b i i.
Proof.
  intros Hi Hj Hpos Hsym Hdiag. unfold normalized_entry.
  set (ri := rsum N (fun k => G [b; i; k])).
  set (rj := rsum N (fun k => G [b; j; k])).
  assert (Hrow : forall r c, (r < N)%nat -> (c < N)%nat ->
                   G [b; r; c] <= rsum N (fun k => G [b; r; k])).
  { intros r c Hr Hc.
    apply (rsum_ge_term N c (fun k => G [b; r; k])); [|exact Hc].
    intros k Hk. now apply Hpos. }
  assert (Hri : 1 <= ri).
  { pose proof (Hrow i i Hi Hi). pose proof (Hdiag i Hi). unfold ri. lra. }
  assert (Hrj : 1 <= rj).
  { pose proof (Hrow j j Hj Hj). pose proof (Hdiag j Hj). unfold rj. lra. }
  assert (Hgi : G [b; i; j] <= ri) by now apply Hrow.
  assert (Hgj : G [b; i; j] <= rj) by (rewrite (Hsym i j Hi Hj); now apply Hrow).
  pose proof (Hpos i j Hi Hj) as Hg.
  set (g := G [b; i; j]) in *.
  set (pi := Rpower ri (-1 / 2)). set (pj := Rpower rj (-1 / 2)).
  assert (Hpi : 0 < pi) by apply exp_pos.
  assert (Hpj : 0 < pj) by apply exp_pos.
  assert (Hpi2 : pi * pi = / ri) by (apply Rpower_neg_half_sq; lra).
  assert (Hpj2 : pj * pj = / rj) by (apply Rpower_neg_half_sq; lra).
  split; [rewrite <- (Hsym i j Hi Hj); fold g; ring|].
  split.
  - assert (H0 : 0 <= pi * g * pj).
    { apply Rmult_le_pos; [apply Rmult_le_pos|]; lra. }
    split; [exact H0|].
    assert (Hsq : (pi * g * pj) * (pi * g * pj) <= 1).
    { replace ((pi * g * pj) * (pi * g * pj)) with ((pi * pi) * (g * g) * (pj * pj))
        by ring.
      rewrite Hpi2, Hpj2.
      assert (Hgg : g * g <= ri * rj) by (apply Rmult_le_compat; lra).
      assert (Hinv : 0 < / ri * / rj).
      { apply Rmult_lt_0_compat; apply Rinv_0_lt_compat; lra. }
      replace (/ ri * (g * g) * / rj) with ((/ ri * / rj) * (g * g)) by ring.
      replace 1 with ((/ ri * / rj) * (ri * rj)) by (field; lra).
      apply Rmult_le_compat_l; lra. }
    destruct (Rle_dec (pi * g * pj) 1) as [Hle|Hgt]; [exact Hle|].
    exfalso. apply Rnot_le_lt in Hgt.
    assert (1 * 1 < (pi * g * pj) * (pi * g * pj))
      by (apply Rmult_le_0_lt_compat; lra).
    lra.
  - fold ri. fold pi. pose proof (Hdiag i Hi).
    apply Rmult_lt_0_compat; [apply Rmult_lt_0_compat|]; lra.
Qed.

(** X11. In the dynamic case the adjacency [forward] returns, the normalized
    [relu(nodevec . nodevec^T) + I], is symmetric, has its entries in
    [[0, 1]] and a positive diagonal. The row sums it divides by are at
    least 1. *)
Theorem dynamic_adjacency_normalized (self : AVWGCN.t) (x E : ndarray) (B N C O : nat) :
  well_formed self C O -> cache_ok N self -> (2 <= AVWGCN.cheb_k self)%nat ->
  shape x = [B; N; C] -> shape E = [B; N; AVWGCN.embed_dim self] ->
  exists self' out adj,
    AVWGCN.forward true self x E = Ok (self', (out, adj)) /\
    shape adj = [B; N; N] /\
    forall b i j, (b < B)%nat -> (i < N)%nat -> (j < N)%nat ->
      item adj [b; i; j] = item adj [b; j; i] /\
      0 <= item adj [b; i; j] <= 1 /\
      0 < item adj [b; i; i].
Proof.
  intros Hwf Hcache HK Hx HE.
  destruct (forward_dynamic_spec self x E B N C O Hwf Hcache HK Hx HE)
    as (c & out & adj & filter & A & I & L & T & Hf & _ & _ & HAs & HAi & HIs & HIi
        & HL & _ & _ & _ & Hadjs & Hadji).
  destruct (get_laplacian_batched A I B N HAs HIs) as (L' & HL' & _ & HLi).
  rewrite HL in HL'. injection HL' as <-.
  exists (AVWGCN.set_cached_identity self c), out, adj.
  split; [exact Hf|]. split; [exact Hadjs|].
  intros b i j Hb Hi Hj.
  rewrite !Hadji, (HLi b i j Hb Hi Hj), (HLi b j i Hb Hj Hi), (HLi b i i Hb Hi Hi).
  assert (HA0 : forall r c, (r < N)%nat -> (c < N)%nat -> 0 <= item A [b; r; c]).
  { intros r c0 Hr Hc. rewrite (HAi b r c0 Hb Hr Hc). unfold adjacency_entry, relu.
    apply Rmax_l. }
  assert (HAsym : forall r c, (r < N)%nat -> (c < N)%nat ->
                    item A [b; r; c] = item A [b; c; r]).
  { intros r c0 Hr Hc. rewrite (HAi b r c0 Hb Hr Hc), (HAi b c0 r Hb Hc Hr).
    unfold adjacency_entry. f_equal. apply rsum_ext. intros d _. ring. }
  apply (normalized_entry_bounds (fun idx => item A idx + item I idx) N b i j Hi Hj).
  - intros r c0 Hr Hc. rewrite (HIi b r c0 Hr Hc). pose proof (HA0 r c0 Hr Hc).
    destruct (r =? c0)%nat; lra.
  - intros r c0 Hr Hc. rewrite (HIi b r c0 Hr Hc), (HIi b c0 r Hc Hr).
    rewrite (HAsym r c0 Hr Hc), (Nat.eqb_sym c0 r). reflexivity.
  - intros r Hr. rewrite (HIi b r r Hr Hr), Nat.eqb_refl. pose proof (HA0 r r Hr Hr). lra.
Qed.

Lemma dynamic_adjacency_normalized_witness :
  exists self' out adj,
    AVWGCN.forward true example_gcn example_x example_E_batch = Ok (self', (out, adj)) /\
    shape adj = [1; 2; 2]%nat /\
    0 <= item adj [0; 0; 1]%nat <= 1.
Proof.
  assert (Hwf : well_formed example_gcn 1 1) by (repeat split; reflexivity).
  destruct (dynamic_adjacency_normalized example_gcn example_x example_E_batch 1 2 1 1
              Hwf I (le_S _ _ (le_n 2)) eq_refl eq_refl)
    as (self' & out & adj & Hf & Hs & Hb).
  exists self', out, adj. split; [exact Hf|]. split; [exact Hs|].
  destruct (Hb 0%nat 0%nat 1%nat) as (_ & H01 & _); [lia | lia | lia |].
  exact H01.
Defined.

(** Peeling the steps of a computation that returned. *)
Ltac peel H :=
  repeat match type of H with
         | bind ?m _ = Ok _ =>
             let v := fresh "v" in
             let E := fresh "E" in
             destruct m as [v|] eqn:E; cbn [bind] in H; [|discriminate H]
         end.

(** X12. In the dynamic case [forward] fills the cache only when it is empty, with
    the identity of the size the node embeddings have then; a cache that is
    filled is never replaced, whatever the size of the later inputs. *)
Theorem forward_dynamic_cache (self self' : AVWGCN.t) (x E : ndarray)
    (r : ndarray * ndarray) :
  AVWGCN.forward true self x E = Ok (self', r) ->
  match AVWGCN.cached_identity self with
  | Some c => self' = self
  | None =>
      exists B N s c,
        shape E = B :: N :: s /\
        unsqueeze 0 (eye N) = Ok c /\
        self' = AVWGCN.set_cached_identity self c
  end.
Proof.
  unfold AVWGCN.forward, AVWGCN.forward_dynamic. intros H.
  destruct (dim_at E 0) as [B|] eqn:EB; cbn [bind] in H; [|discriminate H].
  destruct (dim_at E 1) as [N|] eqn:EN; cbn [bind] in H; [|discriminate H].
  destruct (AVWGCN.cached_identity self) as [c|] eqn:Ecache.
  - cbn [bind] in H. peel H. injection H as <- _.
    destruct self. cbn in Ecache. subst. reflexivity.
  - destruct (unsqueeze 0 (eye N)) as [c|] eqn:Ec; cbn [bind] in H; [|discriminate H].
    peel H. injection H as <- _.
    unfold dim_at in EB, EN.
    destruct (shape E) as [|B' [|N' s]]; cbn in EB, EN; try discriminate.
    injection EB as ->. injection EN as ->.
    exists B, N, s, c. repeat split. exact Ec.
Qed.

Lemma forward_dynamic_cache_witness :
  exists self' r c,
    AVWGCN.forward true example_gcn example_x example_E_batch = Ok (self', r) /\
    unsqueeze 0 (eye 2) = Ok c /\
    self' = AVWGCN.set_cached_identity example_gcn c.
Proof.
  assert (Hwf : well_formed example_gcn 1 1) by (repeat split; reflexivity).
  destruct (forward_dynamic_spec example_gcn example_x example_E_batch 1 2 1 1
              Hwf I (le_S _ _ (le_n 2)) eq_refl eq_refl)
    as (c0 & out & adj & _ & _ & _ & _ & _ & Hf & _).
  pose proof (forward_dynamic_cache example_gcn _ example_x example_E_batch _ Hf) as Hc.
  cbn [example_gcn AVWGCN.cached_identity] in Hc.
  destruct Hc as (B & N & s & c & Hs & Hc & Hself).
  injection Hs as <- <- <-.
  exists (AVWGCN.set_cached_identity example_gcn c0), (out, adj), c.
  split; [exact Hf|]. split; [exact Hc | exact Hself].
Defined.

(** X13. The cache is not checked against the size of the inputs: a module whose
    cache holds the identity of size [N0] raises on inputs with another
    number of nodes [N], when neither is 1. *)
Theorem forward_dynamic_stale_cache (self : AVWGCN.t) (x E c : ndarray)
    (B N N0 C O : nat) :
  well_formed self C O ->
  AVWGCN.cached_identity self = Some c -> shape c = [1; N0; N0]%nat ->
  N0 <> N -> N0 <> 1%nat -> N <> 1%nat ->
  shape x = [B; N; C] -> shape E = [B; N; AVWGCN.embed_dim self] ->
  AVWGCN.forward true self x E = Raise RuntimeError.
Proof.
  intros Hwf Hcache Hc HN0 H01 HN1 Hx HE.
  unfold AVWGCN.forward, AVWGCN.forward_dynamic.
  rewrite (dim_at_0 E B _ HE), (dim_at_1 E B N _ HE). cbn [bind].
  rewrite Hcache. cbn [bind].
  destruct (repeat_batch c B N0 Hc) as (I & -> & HIs & _). cbn [bind].
  destruct (fc_shape self x B N C O Hwf Hx) as (filter & Hfc & Hfs).
  change (AVWGCN.fc (AVWGCN.set_cached_identity self c) x) with (AVWGCN.fc self x).
  rewrite Hfc. cbn [bind].
  destruct (mul_same E filter) as (p & -> & Hps & _); [congruence|]. cbn [bind].
  rewrite HE in Hps.
  destruct (similarity_spec (map1 tanh p) B N (AVWGCN.embed_dim self) Hps)
    as (A & -> & HAs & _).
  cbn [bind].
  unfold AVWGCN.get_laplacian, add, broadcast2. rewrite HAs, HIs.
  unfold broadcast_shapes. cbn [rev app broadcast_rev].
  assert (Hb : bdim N N0 = None).
  { unfold bdim. destruct (Nat.eqb_spec N N0); [congruence|].
    destruct (Nat.eqb_spec N 1); [contradiction|].
    destruct (Nat.eqb_spec N0 1); [contradiction|]. reflexivity. }
  rewrite Hb. reflexivity.
Qed.

Lemma forward_dynamic_stale_cache_witness :
  AVWGCN.forward true example_stale_gcn example_x example_E_batch = Raise RuntimeError.
Proof.
  assert (Hwf : well_formed example_stale_gcn 1 1) by (repeat split; reflexivity).
  apply (forward_dynamic_stale_cache example_stale_gcn example_x example_E_batch _
           1 2 3 1 1 Hwf eq_refl eq_refl); try reflexivity; lia.
Defined.

(** X14. In the static case the second value [forward] returns is not an
    adjacency: it is the slice at node 1 of what the three supports make of
    the input, of shape [(B, 3, C)]; its first row is the input of node 1.
    The module itself is left as it is. *)
Theorem static_second_value_is_node_slice (self : AVWGCN.t) (x E : ndarray)
    (B N C O : nat) :
  well_formed self C O -> AVWGCN.cheb_k self = 3%nat -> (2 <= N)%nat ->
  shape x = [B; N; C] -> shape (squeeze E) = [N; AVWGCN.embed_dim self] ->
  exists out adj L L',
    AVWGCN.forward false self x E = Ok (self, (out, adj)) /\
    shape adj = [B; 3%nat; C] /\
    (forall b k c, (b < B)%nat -> (k < 3)%nat -> (c < C)%nat ->
       item adj [b; k; c] =
       rsum N (fun m => static_support L L' k [b; 1%nat; m] * item x [b; m; c])) /\
    forall b c, (b < B)%nat -> (c < C)%nat -> item adj [b; 0%nat; c] = item x [b; 1%nat; c].
Proof.
  intros Hwf HK HN Hx HE.
  destruct (forward_static_spec self x E B N C O Hwf HK HN Hx HE)
    as (out & adj & filter & A & L & L' & Hf & _ & _ & _ & _ & _ & _ & _ & _ & _
        & Hadjs & Hadji).
  exists out, adj, L, L'. split; [exact Hf|]. split; [exact Hadjs|].
  split; [exact Hadji|].
  intros b c Hb Hc. rewrite (Hadji b 0%nat c Hb ltac:(lia) Hc).
  cbn [static_support].
  rewrite (rsum_single N 1) by
    (first [lia | intros m Hm Hm1; cbn [identity_entry];
                  destruct (Nat.eqb_spec 1 m); [congruence | ring]]).
  cbn [identity_entry Nat.eqb]. ring.
Qed.

Lemma static_second_value_is_node_slice_witness :
  exists out adj,
    AVWGCN.forward false example_gcn example_x example_E = Ok (example_gcn, (out, adj)) /\
    shape adj = [1; 3; 1]%nat /\
    item adj [0; 0; 0]%nat = 1.
Proof.
  assert (Hwf : well_formed example_gcn 1 1) by (repeat split; reflexivity).
  destruct (static_second_value_is_node_slice example_gcn example_x example_E 1 2 1 1
              Hwf eq_refl (le_n 2) eq_refl eq_refl)
    as (out & adj & L & L' & Hf & Hs & _ & H0).
  exists out, adj. split; [exact Hf|]. split; [exact Hs|].
  rewrite (H0 0%nat 0%nat) by lia. reflexivity.
Defined.

End GraphFacts.

(** ** Facts about the hidden states *)

Module StateFacts.

Import Torch Model TorchFacts AVWGCNFacts AGCRNCellFacts EncoderFacts ModelFacts.

Open Scope R_scope.

Lemma sigmoid_bounds (x : R) : 0 < sigmoid x < 1.
Proof.
  unfold sigmoid. pose proof (exp_pos (- x)) as He.
  set (e := exp (- x)) in *.
  assert (Hs : 0 < 1 / (1 + e)).
  { unfold Rdiv. rewrite Rmult_1_l. apply Rinv_0_lt_compat. lra. }
  assert (Heq : 1 / (1 + e) * (1 + e) = 1) by (field; lra).
  assert (Hse : 0 < 1 / (1 + e) * e) by (apply Rmult_lt_0_compat; lra).
  split; [exact Hs | lra].
Qed.

Lemma tanh_bounds (x : R) : -1 < tanh x < 1.
Proof.
  unfold tanh, sinh, cosh.
  pose proof (exp_pos x) as Ha. pose proof (exp_pos (- x)) as Hb.
  set (a := exp x) in *. set (b := exp (- x)) in *.
  set (s := (a - b) / 2). set (c := (a + b) / 2).
  assert (Hc : 0 < c) by (unfold c; lra).
  assert (Heq : s / c * c = s) by (field; lra).
  split; apply (Rmult_lt_reg_r c); try exact Hc; rewrite Heq; unfold s, c; lra.
Qed.

(** The new state is a mixture of the old one and of a value in [(-1, 1)]. *)
Lemma gru_step_bounds (H : nat) (z_r hc state : list nat -> R) (b n j : nat) :
  -1 <= state [b; n; j] <= 1 -> -1 <= gru_step H z_r hc state b n j <= 1.
Proof.
  intros Hs. unfold gru_step.
  pose proof (sigmoid_bounds (z_r [b; n; (H + j)%nat])) as Hr.
  pose proof (tanh_bounds (hc [b; n; j])) as Ht.
  set (r := sigmoid (z_r [b; n; (H + j)%nat])) in *.
  set (t := tanh (hc [b; n; j])) in *. set (v := state [b; n; j]) in *.
  assert (r * v <= r * 1) by (apply Rmult_le_compat_l; lra).
  assert (r * -1 <= r * v) by (apply Rmult_le_compat_l; lra).
  assert ((1 - r) * t <= (1 - r) * 1) by (apply Rmult_le_compat_l; lra).
  assert ((1 - r) * -1 <= (1 - r) * t) by (apply Rmult_le_compat_l; lra).
  lra.
Qed.

Lemma cell_forward_within_unit (dyn : bool) (cell : AGCRNCell.t) (x state E : ndarray)
    (B N C H D : nat) :
  cell_well_formed cell C -> AGCRNCell.hidden_dim cell = H ->
  AVWGCN.embed_dim (AGCRNCell.gate cell) = D ->
  cell_ready dyn N cell -> embeddings_ready dyn D E B N ->
  shape x = [B; N; C] -> shape state = [B; N; H] ->
  within_unit B N H state ->
  forall cell' h a,
    AGCRNCell.forward dyn cell x state E = Ok (cell', (h, a)) ->
    within_unit B N H h.
Proof.
  intros Hwf HH HD Hready HE Hx Hstate Hunit cell' h a Hf. subst H D.
  destruct (cell_forward_spec dyn cell x state E B N C Hwf Hready HE Hx Hstate)
    as (xs & gate' & z_r & a0 & cand & update' & hc & adj' & h0 & _ & _ & _ & _
        & _ & _ & _ & _ & _ & Hf0 & _ & Hhi).
  rewrite Hf0 in Hf. injection Hf as _ <- _.
  intros b n j Hb Hn Hj. rewrite (Hhi b n j Hb Hn Hj).
  apply gru_step_bounds. now apply Hunit.
Qed.

(** X15. The cell keeps the state within [[-1, 1]]: from a state with all entries
    in that interval it returns a state with all entries in it. *)
Theorem AGCRNCell_forward_bounded (dyn : bool) (self : AGCRNCell.t)
    (x state E : ndarray) (B N dim_in : nat) :
  let H := AGCRNCell.hidden_dim self in
  cell_well_formed self dim_in -> cell_ready dyn N self ->
  embeddings_ready dyn (AVWGCN.embed_dim (AGCRNCell.gate self)) E B N ->
  shape x = [B; N; dim_in] -> shape state = [B; N; H] ->
  within_unit B N H state ->
  exists self' h adjmatrix,
    AGCRNCell.forward dyn self x state E = Ok (self', (h, adjmatrix)) /\
    shape h = [B; N; H] /\
    within_unit B N H h.
Proof.
  intros H Hwf Hready HE Hx Hstate Hunit.
  destruct (cell_forward_returns dyn self x state E B N dim_in H _ Hwf eq_refl eq_refl
              Hready HE Hx Hstate)
    as (cell' & h & a & Hf & Hhs & _).
  exists cell', h, a. split; [exact Hf|]. split; [exact Hhs|].
  exact (cell_forward_within_unit dyn self x state E B N dim_in H _ Hwf eq_refl eq_refl
           Hready HE Hx Hstate Hunit cell' h a Hf).
Qed.

Lemma AGCRNCell_forward_bounded_witness :
  let x := constant [1; 2; 1]%nat 1 in
  let state := constant [1; 2; 1]%nat 0 in
  exists self' h adjmatrix,
    AGCRNCell.forward true example_cell x state example_E_batch =
      Ok (self', (h, adjmatrix)) /\
    within_unit 1 2 1 h.
Proof.
  intros x state.
  assert (Hwf : cell_well_formed example_cell 1) by (repeat split; reflexivity).
  assert (Hready : cell_ready true 2 example_cell) by (repeat split; cbn; lia).
  assert (Hunit : within_unit 1 2 1 state) by (intros b n j _ _ _; cbn; lra).
  destruct (AGCRNCell_forward_bounded true example_cell x state example_E_batch 1 2 1
              Hwf Hready eq_refl eq_refl eq_refl Hunit)
    as (self' & h & a & Hf & _ & Hb).
  exists self', h, a. split; [exact Hf | exact Hb].
Defined.

(** Every state of a scan that starts within [[-1, 1]] stays there. *)
Lemma scan_within_unit (dyn : bool) (inputs E : ndarray) (B T N C H D : nat)
    (ts : list nat) :
  shape inputs = [B; T; N; C] -> sequence_embeddings_ready dyn D E B T N ->
  Forall (fun t => (t < T)%nat) ts ->
  forall cell state,
    cell_well_formed cell C -> AGCRNCell.hidden_dim cell = H ->
    AVWGCN.embed_dim (AGCRNCell.gate cell) = D -> cell_ready dyn N cell ->
    shape state = [B; N; H] -> within_unit B N H state ->
    forall cellf final hs adjs,
      scan_cell dyn inputs E ts cell state = Ok (cellf, final, hs, adjs) ->
      forall h, In h hs -> within_unit B N H h.
Proof.
  intros Hin HE Hts. induction Hts as [|t ts Ht _ IH];
    intros cell state Hwf HH HD Hready Hstate Hunit cellf final hs adjs Heq.
  - cbn [scan_cell] in Heq. injection Heq as _ _ <- _. intros h [].
  - cbn [scan_cell] in Heq.
    destruct (select_1 inputs t B T N C Hin Ht) as (x_t & Hsel & Hxs & _).
    rewrite Hsel in Heq. cbn [bind] in Heq.
    destruct (step_embeddings dyn D E B T N t HE Ht) as (e_t & He & Het).
    rewrite He in Heq. cbn [bind] in Heq.
    destruct (cell_forward_returns dyn cell x_t state e_t B N C H D
                Hwf HH HD Hready Het Hxs Hstate)
      as (cell' & h & a & Hf & Hhs & _ & Hwf' & HH' & HD' & Hready').
    pose proof (cell_forward_within_unit dyn cell x_t state e_t B N C H D
                  Hwf HH HD Hready Het Hxs Hstate Hunit cell' h a Hf) as Hh.
    rewrite Hf in Heq. cbn [bind] in Heq.
    destruct (scan_cell dyn inputs E ts cell' h) as [[[[cf fin] hs'] adjs']|e] eqn:Escan;
      cbn [bind] in Heq; [|discriminate Heq].
    injection Heq as _ _ <- _.
    intros h0 [<-|Hin0]; [exact Hh|].
    exact (IH cell' h Hwf' HH' HD' Hready' Hhs Hh cf fin hs' adjs' Escan h0 Hin0).
Qed.

Lemma last_In {A : Type} (l : list A) (d : A) : l <> [] -> In (last l d) l.
Proof.
  induction l as [|a l IH]; [contradiction|]. intros _.
  destruct l as [|b l]; [now left|].
  right. apply IH. discriminate.
Qed.

Lemma nth_pred_last {A : Type} (l : list A) (d d' : A) :
  l <> [] -> nth (length l - 1) l d = last l d'.
Proof.
  induction l as [|a l IH]; [contradiction|]. intros _.
  destruct l as [|b l]; [reflexivity|].
  cbn [length]. replace (S (S (length l)) - 1)%nat with (S (length (b :: l) - 1))
    by (cbn [length]; lia).
  cbn [nth]. change (last (a :: b :: l) d') with (last (b :: l) d').
  apply IH. discriminate.
Qed.

Section Stacked.

Variables (dyn : bool) (init_state E : ndarray) (L B T N H D : nat).

Hypothesis Hinit : shape init_state = [L; B; N; H].
Hypothesis HE : sequence_embeddings_ready dyn D E B T N.
Hypothesis HT : (1 <= T)%nat.

(** The states of the stacked layers stay within [[-1, 1]]. *)
Lemma stack_layers_within_unit :
  (forall l b n j, (l < L)%nat -> (b < B)%nat -> (n < N)%nat -> (j < H)%nat ->
     -1 <= item init_state [l; b; n; j] <= 1) ->
  forall cells i inputs C adjs0,
    layers_well_formed H D C cells -> layers_ready dyn N cells ->
    (i + length cells <= L)%nat -> shape inputs = [B; T; N; C] ->
    forall cells' outputs finals adjs,
      stack_layers dyn T init_state E i cells inputs adjs0 =
        Ok (cells', outputs, finals, adjs) ->
      (cells <> [] ->
       forall b t n j, (b < B)%nat -> (t < T)%nat -> (n < N)%nat -> (j < H)%nat ->
         -1 <= item outputs [b; t; n; j] <= 1) /\
      (forall h, In h finals -> within_unit B N H h).
Proof.
  intros Hunit cells.
  induction cells as [|cell cells IH];
    intros i inputs C adjs0 Hwf Hready Hi Hin cells' outputs finals adjs Heq.
  - cbn [stack_layers] in Heq. injection Heq as _ _ <- _.
    split; [intros Hne; now contradiction Hne | intros h []].
  - cbn [stack_layers] in Heq. cbn [length] in Hi.
    destruct Hwf as (HH & HD & Hwfc & Hwfr).
    apply Forall_cons_iff in Hready. destruct Hready as [Hrc Hrr].
    destruct (select_0 init_state i L B N H Hinit) as (state & Hsel & Hss & Hsi); [lia|].
    rewrite Hsel in Heq. cbn [bind] in Heq.
    assert (Hstate : within_unit B N H state).
    { intros b n j Hb Hn Hj. rewrite Hsi. apply Hunit; [lia | assumption..]. }
    destruct (scan_returns dyn inputs E B T N C H D (range T) Hin HE (range_bounded T)
                cell state Hwfc HH HD Hrc Hss)
      as (cellf & final & hs & adjs1 & Hscan & Hlh & _ & Hhall & _ & Hfin & _).
    pose proof (scan_within_unit dyn inputs E B T N C H D (range T) Hin HE
                  (range_bounded T) cell state Hwfc HH HD Hrc Hss Hstate
                  cellf final hs adjs1 Hscan) as Hhs.
    rewrite Hscan in Heq. cbn [bind] in Heq.
    unfold range in Hlh. rewrite length_seq in Hlh.
    assert (Hne : hs <> []) by (intros ->; cbn in Hlh; lia).
    destruct (stack_1 hs B N H Hne Hhall) as (outputs1 & Hstack & Hos & Hoi).
    rewrite Hstack in Heq. cbn [bind] in Heq. rewrite Hlh in Hos.
    destruct (stack_layers dyn T init_state E (S i) cells outputs1 (Some adjs1))
      as [[[[cells1 out1] finals1] adjs2]|e] eqn:Erest; cbn [bind] in Heq;
      [|discriminate Heq].
    injection Heq as _ <- <- _.
    destruct (IH (S i) outputs1 H (Some adjs1) Hwfr Hrr ltac:(lia) Hos
                 cells1 out1 finals1 adjs2 Erest) as (Hout & Hfinals).
    split.
    + intros _ b t n j Hb Ht Hn Hj.
      destruct cells as [|c2 cells].
      * cbn [stack_layers] in Erest. injection Erest as _ <- _ _.
        rewrite (Hoi b t n j state).
        apply Hhs; [|assumption..]. apply nth_In. lia.
      * apply Hout; [discriminate | assumption..].
    + intros h [<-|Hh]; [|now apply Hfinals].
      rewrite Hfin. apply Hhs. now apply last_In.
Qed.

(** The final state of the last layer is the last timestep of the output
    sequence. *)
Lemma stack_layers_last_state :
  forall cells i inputs C adjs0,
    layers_well_formed H D C cells -> layers_ready dyn N cells ->
    (i + length cells <= L)%nat -> shape inputs = [B; T; N; C] ->
    cells <> [] ->
    forall cells' outputs finals adjs,
      stack_layers dyn T init_state E i cells inputs adjs0 =
        Ok (cells', outputs, finals, adjs) ->
      forall d b n j,
        item (last finals d) [b; n; j] = item outputs [b; (T - 1)%nat; n; j].
Proof.
  intros cells.
  induction cells as [|cell cells IH];
    intros i inputs C adjs0 Hwf Hready Hi Hin Hcells cells' outputs finals adjs Heq;
    [contradiction|].
  cbn [stack_layers] in Heq. cbn [length] in Hi.
  destruct Hwf as (HH & HD & Hwfc & Hwfr).
  apply Forall_cons_iff in Hready. destruct Hready as [Hrc Hrr].
  destruct (select_0 init_state i L B N H Hinit) as (state & Hsel & Hss & _); [lia|].
  rewrite Hsel in Heq. cbn [bind] in Heq.
  destruct (scan_returns dyn inputs E B T N C H D (range T) Hin HE (range_bounded T)
              cell state Hwfc HH HD Hrc Hss)
    as (cellf & final & hs & adjs1 & Hscan & Hlh & _ & Hhall & _ & Hfin & _).
  rewrite Hscan in Heq. cbn [bind] in Heq.
  unfold range in Hlh. rewrite length_seq in Hlh.
  assert (Hne : hs <> []) by (intros ->; cbn in Hlh; lia).
  destruct (stack_1 hs B N H Hne Hhall) as (outputs1 & Hstack & Hos & Hoi).
  rewrite Hstack in Heq. cbn [bind] in Heq. rewrite Hlh in Hos.
  destruct (stack_layers_returns dyn init_state E L B T N H D Hinit HE HT
              cells (S i) outputs1 H (Some adjs1) Hwfr Hrr ltac:(lia) Hos)
    as (cells1 & out1 & finals1 & adjs2 & Erest & _ & Hlf & _).
  rewrite Erest in Heq. cbn [bind] in Heq.
  injection Heq as _ <- <- _.
  intros d b n j. destruct cells as [|c2 cells].
  - cbn [stack_layers] in Erest. injection Erest as _ <- <- _.
    cbn [last]. rewrite (Hoi b (T - 1)%nat n j state), Hfin, <- Hlh.
    now rewrite (nth_pred_last hs (hd state hs) state Hne).
  - destruct finals1 as [|f1 finals1]; [cbn in Hlf; lia|].
    change (last (final :: f1 :: finals1) d) with (last (f1 :: finals1) d).
    apply (IH (S i) outputs1 H (Some adjs1) Hwfr Hrr ltac:(lia) Hos ltac:(discriminate)
              cells1 out1 (f1 :: finals1) adjs2 Erest).
Qed.

End Stacked.

(** X16. The encoder keeps the states within [[-1, 1]]: run from initial states
    with all entries in that interval, as [init_hidden] gives them, every
    entry of the output sequence and of the final state of every layer lies
    in it. *)
Theorem AVWDCRNN_forward_bounded (dyn : bool) (self : AVWDCRNN.t)
    (x init_state E : ndarray) (B T N H D : nat) :
  encoder_well_formed H D self ->
  layers_ready dyn N (AVWDCRNN.dcrnn_cells self) ->
  AVWDCRNN.node_num self = N -> (1 <= T)%nat ->
  shape x = [B; T; N; AVWDCRNN.input_dim self] ->
  shape init_state = [AVWDCRNN.num_layers self; B; N; H] ->
  sequence_embeddings_ready dyn D E B T N ->
  (forall l b n j, (l < AVWDCRNN.num_layers self)%nat -> (b < B)%nat -> (n < N)%nat ->
     (j < H)%nat -> -1 <= item init_state [l; b; n; j] <= 1) ->
  exists self' outputs output_hidden adjmatrices,
    AVWDCRNN.forward dyn self x init_state E =
      Ok (self', (outputs, output_hidden, adjmatrices)) /\
    (forall b t n j, (b < B)%nat -> (t < T)%nat -> (n < N)%nat -> (j < H)%nat ->
       -1 <= item outputs [b; t; n; j] <= 1) /\
    (forall h, In h output_hidden -> within_unit B N H h).
Proof.
  intros Hwf Hready HN HT Hx Hinit HE Hunit.
  destruct (encoder_forward_spec dyn self x init_state E B T N H D
              Hwf Hready HN HT Hx Hinit HE)
    as (cells' & outputs & hidden & adjs & Hstack & Hfwd & _).
  destruct Hwf as (Hlen & HL & Hwfl).
  destruct (stack_layers_within_unit dyn init_state E (AVWDCRNN.num_layers self)
              B T N H D Hinit HE HT Hunit (AVWDCRNN.dcrnn_cells self) 0 x
              (AVWDCRNN.input_dim self) None Hwfl Hready ltac:(lia) Hx
              cells' outputs hidden (Some adjs) Hstack) as (Hout & Hfin).
  eexists. exists outputs, hidden, adjs. split; [exact Hfwd|].
  split; [|exact Hfin]. apply Hout. intros Hnil. rewrite Hnil in Hlen. cbn in Hlen. lia.
Qed.

(** X17. The last of the final states the encoder returns is the last timestep of
    the output sequence it returns. *)
Theorem AVWDCRNN_forward_last_state (dyn : bool) (self : AVWDCRNN.t)
    (x init_state E : ndarray) (B T N H D : nat) :
  encoder_well_formed H D self ->
  layers_ready dyn N (AVWDCRNN.dcrnn_cells self) ->
  AVWDCRNN.node_num self = N -> (1 <= T)%nat ->
  shape x = [B; T; N; AVWDCRNN.input_dim self] ->
  shape init_state = [AVWDCRNN.num_layers self; B; N; H] ->
  sequence_embeddings_ready dyn D E B T N ->
  exists self' outputs output_hidden adjmatrices,
    AVWDCRNN.forward dyn self x init_state E =
      Ok (self', (outputs, output_hidden, adjmatrices)) /\
    length output_hidden = AVWDCRNN.num_layers self /\
    forall d b n j,
      item (last output_hidden d) [b; n; j] = item outputs [b; (T - 1)%nat; n; j].
Proof.
  intros Hwf Hready HN HT Hx Hinit HE.
  destruct (encoder_forward_spec dyn self x init_state E B T N H D
              Hwf Hready HN HT Hx Hinit HE)
    as (cells' & outputs & hidden & adjs & Hstack & Hfwd & _ & Hlh & _).
  destruct Hwf as (Hlen & HL & Hwfl).
  eexists. exists outputs, hidden, adjs. split; [exact Hfwd|]. split; [exact Hlh|].
  apply (stack_layers_last_state dyn init_state E (AVWDCRNN.num_layers self)
           B T N H D Hinit HE HT (AVWDCRNN.dcrnn_cells self) 0 x
           (AVWDCRNN.input_dim self) None Hwfl Hready ltac:(lia) Hx)
    with (cells' := cells') (adjs := Some adjs); [|exact Hstack].
  intros Hnil. rewrite Hnil in Hlen. cbn in Hlen. lia.
Qed.

Lemma AVWDCRNN_forward_bounded_witness :
  let x := constant [1; 2; 2; 1]%nat 1 in
  let init_state := zeros [2; 1; 2; 1]%nat in
  let E := constant [1; 2; 2; 2]%nat 1 in
  exists self self' outputs output_hidden adjmatrices,
    AVWDCRNN.init [] 2 1 1 2 2 1 1 2 = Ok self /\
    AVWDCRNN.forward true self x init_state E =
      Ok (self', (outputs, output_hidden, adjmatrices)) /\
    -1 <= item outputs [0; 1; 0; 0]%nat <= 1.
Proof.
  intros x init_state E.
  pose proof (AVWDCRNN_init_spec [] 2 1 1 2 2 1 1 2 (le_n 1)) as Hinit.
  destruct (AVWDCRNN.init [] 2 1 1 2 2 1 1 2) as [self|e] eqn:Einit;
    [|destruct Hinit; discriminate].
  destruct Hinit as (_ & HN & HC & HL & Hwf & Hr).
  assert (Hx : shape x = [1; 2; 2; AVWDCRNN.input_dim self]%nat) by now rewrite HC.
  assert (Hi : shape init_state = [AVWDCRNN.num_layers self; 1; 2; 1]%nat)
    by now rewrite HL.
  assert (HE : sequence_embeddings_ready true 2 E 1 2 2)
    by (exists 2%nat; split; [reflexivity | lia]).
  assert (Hunit : forall l b n j,
            (l < AVWDCRNN.num_layers self)%nat -> (b < 1)%nat -> (n < 2)%nat ->
            (j < 1)%nat -> -1 <= item init_state [l; b; n; j] <= 1)
    by (intros; cbn; lra).
  destruct (AVWDCRNN_forward_bounded true self x init_state E 1 2 2 1 2
              Hwf (Hr true 2%nat (le_n 2)) HN (le_S _ _ (le_n 1)) Hx Hi HE Hunit)
    as (self' & outputs & hidden & adjs & Hf & Hout & _).
  exists self, self', outputs, hidden, adjs.
  split; [reflexivity|]. split; [exact Hf|]. apply Hout; lia.
Defined.

Lemma AVWDCRNN_forward_last_state_witness :
  let x := constant [1; 2; 2; 1]%nat 1 in
  let init_state := zeros [2; 1; 2; 1]%nat in
  let E := constant [1; 2; 2; 2]%nat 1 in
  exists self self' outputs output_hidden adjmatrices,
    AVWDCRNN.init [] 2 1 1 2 2 1 1 2 = Ok self /\
    AVWDCRNN.forward true self x init_state E =
      Ok (self', (outputs, output_hidden, adjmatrices)) /\
    item (last output_hidden x) [0; 1; 0]%nat = item outputs [0; 1; 1; 0]%nat.
Proof.
  intros x init_state E.
  pose proof (AVWDCRNN_init_spec [] 2 1 1 2 2 1 1 2 (le_n 1)) as Hinit.
  destruct (AVWDCRNN.init [] 2 1 1 2 2 1 1 2) as [self|e] eqn:Einit;
    [|destruct Hinit; discriminate].
  destruct Hinit as (_ & HN & HC & HL & Hwf & Hr).
  assert (Hx : shape x = [1; 2; 2; AVWDCRNN.input_dim self]%nat) by now rewrite HC.
  assert (Hi : shape init_state = [AVWDCRNN.num_layers self; 1; 2; 1]%nat)
    by now rewrite HL.
  assert (HE : sequence_embeddings_ready true 2 E 1 2 2)
    by (exists 2%nat; split; [reflexivity | lia]).
  destruct (AVWDCRNN_forward_last_state true self x init_state E 1 2 2 1 2
              Hwf (Hr true 2%nat (le_n 2)) HN (le_S _ _ (le_n 1)) Hx Hi HE)
    as (self' & outputs & hidden & adjs & Hf & _ & Hlast).
  exists self, self', outputs, hidden, adjs.
  split; [reflexivity|]. split; [exact Hf|]. exact (Hlast x 0%nat 1%nat 0%nat).
Defined.

(** [init_hidden] stacks one zero state per cell. *)
Lemma init_hidden_zero_states (enc : AVWDCRNN.t) (B N H D : nat) :
  encoder_well_formed H D enc ->
  Forall (fun c => AGCRNCell.node_num c = N) (AVWDCRNN.dcrnn_cells enc) ->
  exists init_state,
    AVWDCRNN.init_hidden enc B = Ok init_state /\
    shape init_state = [AVWDCRNN.num_layers enc; B; N; H] /\
    forall idx, item init_state idx = 0.
Proof.
  intros Hwf HN.
  destruct (init_hidden_spec enc B N H D Hwf HN) as (s & Hs & Hshape).
  exists s. split; [exact Hs|]. split; [exact Hshape|].
  unfold AVWDCRNN.init_hidden, range in Hs.
  destruct Hwf as (Hlen & _ & _). rewrite <- Hlen in Hs.
  pose proof (init_hidden_loop B (AVWDCRNN.dcrnn_cells enc) [] []) as Hloop.
  cbn [length app] in Hloop. rewrite Hloop in Hs. cbn [bind app] in Hs.
  set (states := map (fun c => AGCRNCell.init_hidden_state c B)
                     (AVWDCRNN.dcrnn_cells enc)) in *.
  assert (Hz : forall t, In t states -> forall i, item t i = 0).
  { intros t Ht i. apply in_map_iff in Ht. destruct Ht as (c & <- & _). reflexivity. }
  unfold stack in Hs. destruct states as [|t0 states'] eqn:Est; [discriminate Hs|].
  destruct (forallb _ _); [|discriminate Hs].
  destruct (0 <=? ndim t0)%nat; [|discriminate Hs].
  injection Hs as <-. intros idx. cbn [item].
  change (item (nth (nth 0 idx 0%nat) (t0 :: states') t0) (remove_at 0 idx) = 0).
  destruct (nth_in_or_default (nth 0 idx 0%nat) (t0 :: states') t0) as [Hin | ->].
  - now apply Hz.
  - apply Hz. now left.
Qed.

(** X18. For an encoder built by [__init__] with at least one hidden unit,
    [init_hidden] returns the all-zero tensor of shape
    [(num_layers, batch_size, node_num, dim_out)]. *)
Theorem AVWDCRNN_init_hidden_zeros {nn : TorchNN} (key : list nat)
    (N C H K D h1 h2 L B : nat) (self : AVWDCRNN.t) :
  AVWDCRNN.init key N C H K D h1 h2 L = Ok self -> (1 <= H)%nat ->
  exists init_state,
    AVWDCRNN.init_hidden self B = Ok init_state /\
    shape init_state = [L; B; N; H] /\
    forall idx, item init_state idx = 0.
Proof.
  intros Hinit HH.
  pose proof (AVWDCRNN_init_spec key N C H K D h1 h2 L HH) as Hspec.
  pose proof (AVWDCRNN_init_nodes key N C H K D h1 h2 L self Hinit) as Hnodes.
  rewrite Hinit in Hspec. destruct Hspec as (_ & _ & _ & HL & Hwf & _).
  destruct (init_hidden_zero_states self B N H D Hwf Hnodes) as (s & Hs & Hshape & Hz).
  exists s. split; [exact Hs|]. split; [now rewrite Hshape, HL | exact Hz].
Qed.

Lemma AVWDCRNN_init_hidden_zeros_witness :
  exists self init_state,
    AVWDCRNN.init [] 2 1 1 2 2 1 1 2 = Ok self /\
    AVWDCRNN.init_hidden self 3 = Ok init_state /\
    shape init_state = [2; 3; 2; 1]%nat /\
    item init_state [1; 2; 0; 0]%nat = 0.
Proof.
  destruct (AVWDCRNN.init [] 2 1 1 2 2 1 1 2) as [self|e] eqn:Einit; [|discriminate].
  destruct (AVWDCRNN_init_hidden_zeros [] 2 1 1 2 2 1 1 2 3 self Einit (le_n 1))
    as (s & Hs & Hshape & Hz).
  exists self, s. split; [reflexivity|]. split; [exact Hs|].
  split; [exact Hshape | apply Hz].
Defined.

Lemma rsum_abs_le (n : nat) (f g : nat -> R) :
  (forall k, (k < n)%nat -> Rabs (f k) <= g k) -> Rabs (rsum n f) <= rsum n g.
Proof.
  induction n as [|n IH]; intros H.
  - rewrite !rsum_0, Rabs_R0. lra.
  - rewrite !rsum_S.
    pose proof (Rabs_triang (rsum n f) (f n)) as Ht.
    assert (Rabs (rsum n f) <= rsum n g) by (apply IH; intros; apply H; lia).
    assert (Rabs (f n) <= g n) by (apply H; lia).
    lra.
Qed.

(** X20. The hidden states the head reads lie in [[-1, 1]], so every entry of the
    prediction is bounded by the head's weights: its absolute value is at
    most the sum of the absolute values of the weights of its output
    channel, plus that of its bias. *)
Theorem LSTM_DSTGCRN_prediction_bounded {nn : TorchNN} (dyn : bool)
    (self : LSTM_DSTGCRN.t) (source : ndarray) (B T heads : nat) :
  model_well_formed dyn self ->
  embeddings_available dyn self B T heads ->
  (1 <= T)%nat ->
  shape source = [B; T; LSTM_DSTGCRN.num_nodes self; LSTM_DSTGCRN.input_dim self] ->
  exists self' output adj,
    LSTM_DSTGCRN.forward dyn self source = Ok (self', (output, adj)) /\
    forall b l n o,
      (b < B)%nat -> (l < LSTM_DSTGCRN.lookahead self)%nat ->
      (n < LSTM_DSTGCRN.num_nodes self)%nat -> (o < LSTM_DSTGCRN.output_dim self)%nat ->
      let c := (l * LSTM_DSTGCRN.output_dim self + o)%nat in
      Rabs (item output [b; l; n; o]) <=
      rsum (LSTM_DSTGCRN.hidden_dim self)
           (fun h => Rabs (item (conv_weight (LSTM_DSTGCRN.end_conv self))
                                [c; 0; 0; h]%nat))
      + Rabs (item (conv_bias (LSTM_DSTGCRN.end_conv self)) [c]).
Proof.
  intros Hwf Havail HT Hsource.
  destruct (model_forward_spec dyn self source B T heads Hwf Havail HT Hsource)
    as (E & init_state & cells' & outputs & hidden & adjs & output & adj & HE & Hinit
        & Hstack & Hfwd & _ & Hpred & _).
  destruct (node_embeddings_spec dyn self source B T heads Hwf Havail HT Hsource)
    as (E' & HE' & HEready).
  rewrite HE in HE'. injection HE' as <-.
  destruct Hwf as (Henc & Hready & Hnodes & HencN & HencC & _).
  destruct (init_hidden_zero_states _ B _ _ _ Henc Hnodes)
    as (init' & Hinit' & Hinits & Hzero).
  rewrite Hinit in Hinit'. injection Hinit' as <-.
  pose proof Henc as (Hlen & HL & Hwfl).
  rewrite <- HencC in Hsource.
  destruct (stack_layers_within_unit dyn init_state E _ B T _ _ _ Hinits HEready HT
              ltac:(intros; rewrite Hzero; lra)
              _ 0%nat source _ None Hwfl Hready ltac:(lia) Hsource
              cells' outputs hidden (Some adjs) Hstack) as (Hout & _).
  eexists. exists output, adj. split; [exact Hfwd|].
  intros b l n o Hb Hl Hn Ho c. rewrite (Hpred b l n o Hb Hl Hn Ho).
  unfold prediction_entry. fold c.
  match goal with
  | |- Rabs (?s + ?t) <= _ => pose proof (Rabs_triang s t) as Htri
  end.
  match type of Htri with
  | _ <= Rabs (rsum ?H ?f) + _ =>
      assert (Hsum : Rabs (rsum H f) <=
                rsum H (fun h => Rabs (item (conv_weight (LSTM_DSTGCRN.end_conv self))
                                            [c; 0; 0; h]%nat)))
  end.
  { apply rsum_abs_le. intros h Hh. rewrite Rabs_mult.
    assert (Hu : -1 <= item outputs [b; (T - 1)%nat; n; h] <= 1).
    { apply Hout; try assumption; [|lia].
      intros Hnil. rewrite Hnil in Hlen. cbn in Hlen. lia. }
    assert (Ha : Rabs (item outputs [b; (T - 1)%nat; n; h]) <= 1)
      by (apply Rabs_le; exact Hu).
    pose proof (Rabs_pos (item (conv_weight (LSTM_DSTGCRN.end_conv self))
                               [c; 0; 0; h]%nat)) as Hw.
    replace (Rabs (item (conv_weight (LSTM_DSTGCRN.end_conv self)) [c; 0; 0; h]%nat))
      with (1 * Rabs (item (conv_weight (LSTM_DSTGCRN.end_conv self))
                           [c; 0; 0; h]%nat)) at 2 by ring.
    apply Rmult_le_compat_r; assumption. }
  lra.
Qed.

Lemma LSTM_DSTGCRN_prediction_bounded_witness :
  let source := constant [1; 3; 2; 1]%nat 1 in
  exists self self' output adj,
    LSTM_DSTGCRN.init example_args = Ok (self, true) /\
    LSTM_DSTGCRN.forward true self source = Ok (self', (output, adj)) /\
    Rabs (item output [0; 2; 1; 0]%nat) <=
    rsum (LSTM_DSTGCRN.hidden_dim self)
         (fun h => Rabs (item (conv_weight (LSTM_DSTGCRN.end_conv self))
                              [(2 * LSTM_DSTGCRN.output_dim self + 0)%nat; 0; 0; h]%nat))
    + Rabs (item (conv_bias (LSTM_DSTGCRN.end_conv self))
                 [(2 * LSTM_DSTGCRN.output_dim self + 0)%nat]).
Proof.
  intros source.
  destruct (LSTM_DSTGCRN.init example_args) as [[self dyn]|e] eqn:Einit;
    [|discriminate].
  assert (Hdyn : dyn = true) by (now injection Einit as _ <-). subst dyn.
  destruct (model_init_spec example_args self true 2 Einit eq_refl)
    as (_ & HN & HC & HLa & HO & _ & Hwf); try (cbn; lia).
  pose proof (model_init_dynamic example_args self 1 3 Einit eq_refl eq_refl
                (le_n 1) (le_S _ _ (le_n 1)) (le_n 1) (le_n 1) (le_n 1)) as Havail.
  assert (Hsource : shape source =
                    [1; 3; LSTM_DSTGCRN.num_nodes self; LSTM_DSTGCRN.input_dim self]%nat)
    by now rewrite HN, HC.
  destruct (LSTM_DSTGCRN_prediction_bounded true self source 1 3 _ Hwf Havail
              (le_S _ _ (le_S _ _ (le_n 1))) Hsource)
    as (self' & output & adj & Hf & Hb).
  exists self, self', output, adj. split; [reflexivity|]. split; [exact Hf|].
  apply (Hb 0%nat 2%nat 1%nat 0%nat); rewrite ?HLa, ?HN, ?HO; cbn; lia.
Defined.

(** X19. The encoder [forward] leaves behind runs again: the identities its cells
    cached do not depend on the batch size or on the number of timesteps, so
    later inputs with the same number of nodes are accepted whatever these
    are. *)
Theorem AVWDCRNN_forward_repeatable (dyn : bool) (self : AVWDCRNN.t)
    (x init_state E : ndarray) (B T N H D : nat) :
  encoder_well_formed H D self ->
  layers_ready dyn N (AVWDCRNN.dcrnn_cells self) ->
  AVWDCRNN.node_num self = N -> (1 <= T)%nat ->
  shape x = [B; T; N; AVWDCRNN.input_dim self] ->
  shape init_state = [AVWDCRNN.num_layers self; B; N; H] ->
  sequence_embeddings_ready dyn D E B T N ->
  exists self' r,
    AVWDCRNN.forward dyn self x init_state E = Ok (self', r) /\
    forall x2 init2 E2 B2 T2,
      (1 <= T2)%nat ->
      shape x2 = [B2; T2; N; AVWDCRNN.input_dim self] ->
      shape init2 = [AVWDCRNN.num_layers self; B2; N; H] ->
      sequence_embeddings_ready dyn D E2 B2 T2 N ->
      returns (AVWDCRNN.forward dyn self' x2 init2 E2).
Proof.
  intros Hwf Hready HN HT Hx Hinit HE.
  destruct (encoder_forward_spec dyn self x init_state E B T N H D
              Hwf Hready HN HT Hx Hinit HE)
    as (cells' & outputs & hidden & adjs & _ & Hfwd & _ & _ & _ & _ & Hwf' & Hready' & _).
  eexists. eexists. split; [exact Hfwd|].
  intros x2 init2 E2 B2 T2 HT2 Hx2 Hinit2 HE2.
  destruct (encoder_forward_spec dyn _ x2 init2 E2 B2 T2 N H D
              Hwf' Hready' eq_refl HT2 Hx2 Hinit2 HE2)
    as (cells2 & outputs2 & hidden2 & adjs2 & _ & Hfwd2 & _).
  eexists. exact Hfwd2.
Qed.

Lemma AVWDCRNN_forward_repeatable_witness :
  let x := constant [1; 2; 2; 1]%nat 1 in
  let init_state := zeros [2; 1; 2; 1]%nat in
  let E := constant [1; 2; 2; 2]%nat 1 in
  exists self self' r,
    AVWDCRNN.init [] 2 1 1 2 2 1 1 2 = Ok self /\
    AVWDCRNN.forward true self x init_state E = Ok (self', r) /\
    returns (AVWDCRNN.forward true self' (constant [3; 1; 2; 1]%nat 1)
               (zeros [2; 3; 2; 1]%nat) (constant [3; 1; 2; 2]%nat 1)).
Proof.
  intros x init_state E.
  pose proof (AVWDCRNN_init_spec [] 2 1 1 2 2 1 1 2 (le_n 1)) as Hinit.
  destruct (AVWDCRNN.init [] 2 1 1 2 2 1 1 2) as [self|e] eqn:Einit;
    [|destruct Hinit; discriminate].
  destruct Hinit as (_ & HN & HC & HL & Hwf & Hr).
  assert (Hx : shape x = [1; 2; 2; AVWDCRNN.input_dim self]%nat) by now rewrite HC.
  assert (Hi : shape init_state = [AVWDCRNN.num_layers self; 1; 2; 1]%nat)
    by now rewrite HL.
  assert (HE : sequence_embeddings_ready true 2 E 1 2 2)
    by (exists 2%nat; split; [reflexivity | lia]).
  destruct (AVWDCRNN_forward_repeatable true self x init_state E 1 2 2 1 2
              Hwf (Hr true 2%nat (le_n 2)) HN (le_S _ _ (le_n 1)) Hx Hi HE)
    as (self' & r & Hf & Hagain).
  exists self, self', r. split; [reflexivity|]. split; [exact Hf|].
  apply (Hagain _ _ _ 3%nat 1%nat (le_n 1)).
  - now rewrite HC.
  - now rewrite HL.
  - exists 1%nat. split; [reflexivity | lia].
Defined.

End StateFacts.

(** ** Facts about construction and the checks on the inputs *)

Module EdgeFacts.

Import Torch Model TorchFacts AVWGCNFacts AGCRNCellFacts EncoderFacts
  DynamicEmbeddingFacts ModelFacts.

Open Scope R_scope.

(** X21. [AVWDCRNN.__init__] raises [AssertionError] exactly when [num_layers] is
    0. Otherwise the encoder holds [num_layers] cells for [node_num] nodes
    with [dim_out] hidden units, the first taking [dim_in] input channels and
    each of the others [dim_out]. *)
Theorem AVWDCRNN_init_layers {nn : TorchNN} (key : list nat) (N C H K D h1 h2 L : nat) :
  match AVWDCRNN.init key N C H K D h1 h2 L with
  | Ok self =>
      (1 <= L)%nat /\ AVWDCRNN.node_num self = N /\ AVWDCRNN.input_dim self = C /\
      AVWDCRNN.num_layers self = L /\ length (AVWDCRNN.dcrnn_cells self) = L /\
      forall i cell, nth_error (AVWDCRNN.dcrnn_cells self) i = Some cell ->
        let dim_in := if (i =? 0)%nat then C else H in
        AGCRNCell.node_num cell = N /\ AGCRNCell.hidden_dim cell = H /\
        shape (AVWGCN.weights_pool (AGCRNCell.gate cell)) =
          [D; K; (dim_in + H)%nat; (2 * H)%nat] /\
        shape (AVWGCN.weights_pool (AGCRNCell.update cell)) =
          [D; K; (dim_in + H)%nat; H]
  | Raise e => L = 0%nat /\ e = AssertionError
  end.
Proof.
  unfold AVWDCRNN.init, assert.
  destruct (Nat.leb_spec 1 L) as [HL|HL]; cbn [bind]; [|split; [lia | reflexivity]].
  set (P := fun dim_in cell =>
              AGCRNCell.node_num cell = N /\ AGCRNCell.hidden_dim cell = H /\
              shape (AVWGCN.weights_pool (AGCRNCell.gate cell)) =
                [D; K; (dim_in + H)%nat; (2 * H)%nat] /\
              shape (AVWGCN.weights_pool (AGCRNCell.update cell)) =
                [D; K; (dim_in + H)%nat; H]).
  assert (Hcell : forall k dim_in, P dim_in (AGCRNCell.init k N dim_in H K D h1 h2)).
  { intros k dim_in. unfold P, AGCRNCell.init, AVWGCN.init.
    cbn [AGCRNCell.node_num AGCRNCell.hidden_dim AGCRNCell.gate AGCRNCell.update
         AVWGCN.weights_pool].
    now rewrite !new_parameter_shape. }
  assert (Hloop : forall l cells,
            exists more,
              for_each l (AVWDCRNN.append_cell key N H K D h1 h2) cells =
                Ok (cells ++ more) /\
              length more = length l /\ Forall (P H) more).
  { induction l as [|i l IH]; intros cells.
    - exists []. rewrite app_nil_r. now repeat split.
    - cbn [for_each AVWDCRNN.append_cell].
      destruct (IH (cells ++ [AGCRNCell.init (i :: key) N H H K D h1 h2]))
        as (more & Hm & Hlen & Hall).
      exists (AGCRNCell.init (i :: key) N H H K D h1 h2 :: more).
      rewrite Hm, <- app_assoc. split; [reflexivity|].
      split; [cbn [length]; now rewrite Hlen|]. constructor; [apply Hcell | exact Hall]. }
  destruct (Hloop (seq 1 (L - 1)) [AGCRNCell.init (0%nat :: key) N C H K D h1 h2])
    as (more & -> & Hlen & Hall).
  cbn [bind AVWDCRNN.node_num AVWDCRNN.input_dim AVWDCRNN.num_layers
       AVWDCRNN.dcrnn_cells app length].
  rewrite length_seq in Hlen.
  split; [exact HL|]. split; [reflexivity|]. split; [reflexivity|].
  split; [reflexivity|]. split; [lia|].
  intros i cell Hnth. destruct i as [|i]; cbn [nth_error Nat.eqb] in *.
  - injection Hnth as <-. apply Hcell.
  - rewrite Forall_forall in Hall. apply Hall. now apply (nth_error_In _ i).
Qed.

(** X22. [AVWDCRNN.forward] asserts the node and channel dimensions of its input
    against the encoder's before any cell runs. *)
Theorem AVWDCRNN_forward_checks_input (dyn : bool) (self : AVWDCRNN.t)
    (x init_state E : ndarray) (B T N C : nat) :
  shape x = [B; T; N; C] ->
  N <> AVWDCRNN.node_num self \/ C <> AVWDCRNN.input_dim self ->
  AVWDCRNN.forward dyn self x init_state E = Raise AssertionError.
Proof.
  intros Hx Hne. unfold AVWDCRNN.forward.
  rewrite (dim_at_2 x _ _ _ _ Hx). cbn [bind].
  destruct (Nat.eqb_spec N (AVWDCRNN.node_num self)) as [HN|HN]; [|reflexivity].
  rewrite (dim_at_3 x _ _ _ _ _ Hx). cbn [bind]. unfold assert.
  destruct (Nat.eqb_spec C (AVWDCRNN.input_dim self)) as [HC|HC]; [|reflexivity].
  destruct Hne; contradiction.
Qed.

Lemma AVWDCRNN_forward_checks_input_witness :
  AVWDCRNN.forward true (AVWDCRNN.mk 2 1 1 [example_cell])
    (constant [1; 2; 3; 1]%nat 1) (zeros [1; 1; 2; 1]%nat) (constant [1; 2; 2; 2]%nat 1)
  = Raise AssertionError.
Proof.
  apply (AVWDCRNN_forward_checks_input true (AVWDCRNN.mk 2 1 1 [example_cell])
           (constant [1; 2; 3; 1]%nat 1) _ _ 1 2 3 1 eq_refl).
  left. cbn. lia.
Defined.

(** X23. On a sequence without timesteps the encoder raises: the first layer has
    no state to stack. *)
Theorem AVWDCRNN_forward_empty_sequence (dyn : bool) (self : AVWDCRNN.t)
    (x init_state E : ndarray) (B L : nat) (s : list nat) :
  shape x = [B; 0%nat; AVWDCRNN.node_num self; AVWDCRNN.input_dim self] ->
  (1 <= AVWDCRNN.num_layers self)%nat ->
  shape init_state = L :: s -> (1 <= L)%nat ->
  AVWDCRNN.forward dyn self x init_state E = Raise RuntimeError.
Proof.
  intros Hx Hlayers Hinit HL. unfold AVWDCRNN.forward.
  rewrite (dim_at_2 x _ _ _ _ Hx). cbn [bind]. rewrite Nat.eqb_refl.
  rewrite (dim_at_3 x _ _ _ _ _ Hx). cbn [bind]. unfold assert.
  rewrite Nat.eqb_refl. cbn [bind].
  rewrite (dim_at_1 x _ _ _ Hx). cbn [bind].
  destruct (AVWDCRNN.num_layers self) as [|n]; [lia|].
  unfold range. cbn [seq for_each]. unfold AVWDCRNN.layer_step at 1.
  unfold select, ndim. rewrite Hinit. cbn [length nth Nat.ltb Nat.leb].
  destruct L as [|L']; [lia|]. cbn [Nat.leb bind for_each stack]. reflexivity.
Qed.

Lemma AVWDCRNN_forward_empty_sequence_witness :
  AVWDCRNN.forward true (AVWDCRNN.mk 2 1 1 [example_cell])
    (constant [1; 0; 2; 1]%nat 1) (zeros [1; 1; 2; 1]%nat) (constant [1; 0; 2; 2]%nat 1)
  = Raise RuntimeError.
Proof.
  apply (AVWDCRNN_forward_empty_sequence true (AVWDCRNN.mk 2 1 1 [example_cell])
           (constant [1; 0; 2; 1]%nat 1) (zeros [1; 1; 2; 1]%nat) _ 1 1 [1; 2; 1]%nat
           eq_refl);
    [cbn; lia | reflexivity | lia].
Defined.

(** X24. [dynamic_embed] is a global that every [LSTM_DSTGCRN.__init__]
    overwrites, while a model built without [TNE] only has the attribute of
    the setting it was built with: [forward] raises [AttributeError] whenever
    the global holds the other value. *)
Theorem forward_under_other_flag {nn : TorchNN} (args : Args) (self : LSTM_DSTGCRN.t)
    (dyn : bool) (source : ndarray) :
  LSTM_DSTGCRN.init args = Ok (self, dyn) -> TNE args = false ->
  dyn = dynamic_embed args /\
  LSTM_DSTGCRN.forward (negb dyn) self source = Raise AttributeError.
Proof.
  intros Hinit HTNE. unfold LSTM_DSTGCRN.init in Hinit.
  cbn [num_nodes num_layers_node gru_layer lstm_layer attention_layer num_heads
       input_dim rnn_units hidden_dim_node output_dim lookahead lookback num_layers
       embed_dim TNE batch_size dynamic_embed cheb_k hyperGNN_dim1 hyperGNN_dim2]
    in Hinit.
  rewrite HTNE in Hinit.
  destruct (dynamic_embed args) eqn:Edyn.
  - match type of Hinit with
    | context [DynamicEmbedding.init ?k ?a ?i ?e ?h] =>
        destruct (DynamicEmbedding.init k a i e h) as [d|err]; [|discriminate]
    end.
    cbn [bind] in Hinit.
    match type of Hinit with
    | bind ?m _ = _ => destruct m as [enc|err]; [|discriminate]
    end.
    cbn [bind] in Hinit. injection Hinit as <- <-.
    split; reflexivity.
  - cbn [bind] in Hinit.
    match type of Hinit with
    | bind ?m _ = _ => destruct m as [enc|err]; [|discriminate]
    end.
    cbn [bind] in Hinit. injection Hinit as <- <-.
    split; reflexivity.
Qed.

Lemma forward_under_other_flag_witness :
  exists self,
    LSTM_DSTGCRN.init example_args = Ok (self, true) /\
    LSTM_DSTGCRN.forward false self (constant [1; 3; 2; 1]%nat 1) = Raise AttributeError.
Proof.
  destruct (LSTM_DSTGCRN.init example_args) as [[self dyn]|e] eqn:Einit;
    [|discriminate].
  assert (Hdyn : dyn = true) by (now injection Einit as _ <-). subst dyn.
  exists self. split; [reflexivity|].
  exact (proj2 (forward_under_other_flag example_args self true _ Einit eq_refl)).
Defined.

(** X25. Without [args.num_nodes], [DynamicEmbedding.__init__] raises
    [AttributeError], while [LSTM_DSTGCRN.__init__] sets it to 1 first: the
    model it returns, its encoder and its embedding generator are all built
    for one node. *)
Theorem init_without_num_nodes {nn : TorchNN} (args : Args) :
  num_nodes args = None ->
  (forall key i e h, DynamicEmbedding.init key args i e h = Raise AttributeError) /\
  (forall self dyn,
     LSTM_DSTGCRN.init args = Ok (self, dyn) ->
     LSTM_DSTGCRN.num_nodes self = 1%nat /\
     AVWDCRNN.node_num (LSTM_DSTGCRN.encoder self) = 1%nat /\
     match LSTM_DSTGCRN.dynamic_embedding self with
     | Some d => DynamicEmbedding.num_nodes d = 1%nat
     | None => True
     end).
Proof.
  intros Hnone. split.
  - intros key i e h. unfold DynamicEmbedding.init. now rewrite Hnone.
  - intros self dyn Hinit. unfold LSTM_DSTGCRN.init in Hinit. rewrite Hnone in Hinit.
    cbn [num_nodes num_layers_node gru_layer lstm_layer attention_layer num_heads
         input_dim rnn_units hidden_dim_node output_dim lookahead lookback num_layers
         embed_dim TNE batch_size dynamic_embed cheb_k hyperGNN_dim1 hyperGNN_dim2]
      in Hinit.
    match type of Hinit with
    | bind ?m _ = _ => destruct m as [[ne de]|err] eqn:Eemb; [|discriminate]
    end.
    cbn [bind] in Hinit.
    match type of Hinit with
    | bind ?m _ = _ => destruct m as [enc|err] eqn:Eenc; [|discriminate]
    end.
    cbn [bind] in Hinit. injection Hinit as <- _.
    cbn [LSTM_DSTGCRN.num_nodes LSTM_DSTGCRN.encoder LSTM_DSTGCRN.dynamic_embedding].
    split; [reflexivity|]. split.
    + unfold AVWDCRNN.init in Eenc.
      destruct (assert (1 <=? num_layers args)%nat); cbn [bind] in Eenc; [|discriminate].
      match type of Eenc with
      | bind ?m _ = _ => destruct m as [cells|err]; [|discriminate]
      end.
      cbn [bind] in Eenc. now injection Eenc as <-.
    + destruct (TNE args); [now injection Eemb as _ <-|].
      destruct (dynamic_embed args); [|now injection Eemb as _ <-].
      match type of Eemb with
      | context [DynamicEmbedding.init ?k ?a ?i ?e ?h] =>
          pose proof (embedding_init_spec k a i e h 1) as Hspec;
          destruct (DynamicEmbedding.init k a i e h) as [d|err]; [|discriminate]
      end.
      cbn [bind] in Eemb. injection Eemb as _ <-.
      now destruct (Hspec d eq_refl eq_refl) as (_ & Hn & _).
Qed.

Lemma init_without_num_nodes_witness :
  let args := mkArgs None 1 true false false 1 1 1 1 1 3 2 2 2 false 1 true 2 1 1 in
  DynamicEmbedding.init [] args 1 2 1 = Raise AttributeError /\
  exists self, LSTM_DSTGCRN.init args = Ok (self, true) /\
               LSTM_DSTGCRN.num_nodes self = 1%nat.
Proof.
  intros args.
  destruct (init_without_num_nodes args eq_refl) as [Hd Hm].
  split; [apply Hd|].
  destruct (LSTM_DSTGCRN.init args) as [[self dyn]|e] eqn:Einit; [|discriminate].
  assert (Hdyn : dyn = true) by (now injection Einit as _ <-). subst dyn.
  exists self. split; [reflexivity|]. now destruct (Hm self true eq_refl).
Defined.

(** X30. A model built with [TNE] and [dynamic_embed] holds learned embeddings of
    shape [(batch_size, lookback, N, embed_dim)]: [forward] accepts the
    sources of batch size [batch_size] with [1 <= T <= lookback] timesteps,
    reading the embeddings of the first [T] steps, and returns a prediction
    of shape [(batch_size, lookahead, N, output_dim)] with [T] adjacencies of
    the last layer. *)
Theorem forward_with_learned_embeddings {nn : TorchNN} (args : Args)
    (self : LSTM_DSTGCRN.t) (source : ndarray) (N T : nat) :
  LSTM_DSTGCRN.init args = Ok (self, true) ->
  TNE args = true -> dynamic_embed args = true ->
  N = match num_nodes args with Some n => n | None => 1%nat end ->
  (1 <= rnn_units args)%nat -> (1 <= N)%nat ->
  (1 <= lookahead args)%nat -> (1 <= output_dim args)%nat ->
  (2 <= cheb_k args)%nat ->
  (1 <= T)%nat -> (T <= lookback args)%nat ->
  shape source = [batch_size args; T; N; input_dim args] ->
  exists E self' output adj,
    LSTM_DSTGCRN.node_embeddings self = Some E /\
    shape E = [batch_size args; lookback args; N; embed_dim args] /\
    LSTM_DSTGCRN.forward true self source = Ok (self', (output, adj)) /\
    shape output = [batch_size args; lookahead args; N; output_dim args] /\
    shape adj = [batch_size args; T; N; N].
Proof.
  intros Hinit HTNE Hdyn HN HH HN1 HLa HO HK HT HTl Hsource.
  assert (HK' : if dynamic_embed args then (2 <= cheb_k args)%nat
                else cheb_k args = 3%nat /\ (2 <= N)%nat) by now rewrite Hdyn.
  destruct (model_init_spec args self true N Hinit HN HH HN1 HLa HO HK')
    as (_ & HsN & HsC & HsLa & HsO & _ & Hwf).
  assert (Hemb : exists E,
             LSTM_DSTGCRN.node_embeddings self = Some E /\
             LSTM_DSTGCRN.TNE self = true /\
             LSTM_DSTGCRN.embed_dim self = embed_dim args /\
             shape E = [batch_size args; lookback args; N; embed_dim args]).
  { unfold LSTM_DSTGCRN.init in Hinit.
    cbn [num_nodes num_layers_node gru_layer lstm_layer attention_layer num_heads
         input_dim rnn_units hidden_dim_node output_dim lookahead lookback num_layers
         embed_dim TNE batch_size dynamic_embed cheb_k hyperGNN_dim1 hyperGNN_dim2]
      in Hinit.
    rewrite HTNE in Hinit. cbn [bind] in Hinit.
    match type of Hinit with
    | bind ?m _ = _ => destruct m as [enc|err]; [|discriminate]
    end.
    cbn [bind] in Hinit. injection Hinit as <-.
    eexists. split; [reflexivity|]. split; [reflexivity|]. split; [reflexivity|].
    now rewrite new_parameter_shape, <- HN. }
  destruct Hemb as (E & HE & HsTNE & HsD & HEs).
  assert (Havail : embeddings_available true self (batch_size args) T 0).
  { unfold embeddings_available. rewrite HsTNE. exists E. split; [exact HE|].
    exists (lookback args). rewrite HsN, HsD. split; [exact HEs | exact HTl]. }
  rewrite <- HsN, <- HsC in Hsource.
  destruct (model_forward_spec true self source (batch_size args) T 0 Hwf Havail HT
              Hsource)
    as (E' & init_state & cells' & outputs & hidden & adjs & output & adj & _ & _ & _
        & Hfwd & Hos & _ & _ & _ & Hadj).
  exists E. eexists. exists output, adj.
  split; [exact HE|]. split; [exact HEs|]. split; [exact Hfwd|].
  split; [now rewrite Hos, HsLa, HsN, HsO|].
  rewrite Hadj. cbn [stacked_adjacency_shape]. now rewrite HsN.
Qed.

Lemma forward_with_learned_embeddings_witness :
  let args := mkArgs (Some 2%nat) 1 true false false 1 1 1 1 1 3 4 2 2 true 1 true 2 1 1 in
  let source := constant [1; 3; 2; 1]%nat 1 in
  exists self self' output adj,
    LSTM_DSTGCRN.init args = Ok (self, true) /\
    LSTM_DSTGCRN.forward true self source = Ok (self', (output, adj)) /\
    shape output = [1; 3; 2; 1]%nat /\
    shape adj = [1; 3; 2; 2]%nat.
Proof.
  intros args source.
  destruct (LSTM_DSTGCRN.init args) as [[self dyn]|e] eqn:Einit; [|discriminate].
  assert (Hdyn : dyn = true) by (now injection Einit as _ <-). subst dyn.
  destruct (forward_with_learned_embeddings args self source 2 3 Einit eq_refl eq_refl
              eq_refl)
    as (E & self' & output & adj & _ & _ & Hf & Hos & Hadj);
    try (cbn; lia); [reflexivity|].
  exists self, self', output, adj.
  split; [reflexivity|]. split; [exact Hf|]. split; [exact Hos | exact Hadj].
Defined.

End EdgeFacts.

(** ** More facts about the dynamic embedding *)

Module EmbeddingFacts.

Import Torch Model TorchFacts AVWGCNFacts EncoderFacts DynamicEmbeddingFacts.

Open Scope R_scope.

(** X26. Without a sequence layer and without attention, [forward] applies [fc1]
    and [fc2] one after the other with no activation in between: the
    embedding of node [n] at time [t] is the ReLU of an affine function of
    the features of that node at that time, and of nothing else. *)
Theorem DynamicEmbedding_mlp_is_affine {nn : TorchNN} (self : DynamicEmbedding.t)
    (x : ndarray) (B T N C hidden heads : nat) :
  embedding_well_formed self C hidden heads ->
  DynamicEmbedding.gru_layer self = false ->
  DynamicEmbedding.lstm_layer self = false ->
  DynamicEmbedding.attention_layer self = false ->
  DynamicEmbedding.num_nodes self = N ->
  (1 <= B)%nat -> (1 <= T)%nat -> (1 <= N)%nat -> (1 <= C)%nat ->
  (1 <= DynamicEmbedding.embed_dim self)%nat ->
  shape x = [B; T; N; C] ->
  exists l1 l2 out,
    DynamicEmbedding.fc1 self = Some l1 /\
    DynamicEmbedding.fc2 self = Some l2 /\
    DynamicEmbedding.forward self x = Ok out /\
    shape out = [B; T; N; DynamicEmbedding.embed_dim self] /\
    forall b t n e,
      (b < B)%nat -> (t < T)%nat -> (n < N)%nat ->
      (e < DynamicEmbedding.embed_dim self)%nat ->
      item out [b; t; n; e] =
      relu (rsum hidden (fun h =>
              (rsum C (fun c => item x [b; t; n; c] * item (weight l1) [h; c])
               + item (bias l1) [h]) * item (weight l2) [e; h])
            + item (bias l2) [e]).
Proof.
  intros Hwf Hgru Hlstm Hattn Hnodes HB HT HN HC HE Hx.
  destruct Hwf as [Hlayer _]. rewrite Hgru, Hlstm in Hlayer.
  destruct Hlayer as (l1 & l2 & Hl1 & Hl2 & (Hw1 & Hb1) & (Hw2 & Hb2)).
  unfold DynamicEmbedding.forward.
  destruct (permute_0213 x B T N C Hx) as (xp & -> & Hxps & Hxpi). cbn [bind].
  rewrite (dim_at_2 xp _ _ _ _ Hxps), (dim_at_3 xp _ _ _ _ _ Hxps). cbn [bind].
  destruct (reshape_merge xp B N T C Hxps HT HC) as (xs & -> & Hxss & Hxsi).
  cbn [bind]. rewrite Hgru, Hlstm, Hattn, Hl1, Hl2. cbn [orb negb attr bind].
  destruct (linear_3 l1 xs (B * N) T C hidden Hw1 Hb1 Hxss) as (h & -> & Hhs & Hhi).
  cbn [bind].
  destruct (linear_3 l2 h (B * N) T hidden _ Hw2 Hb2 Hhs) as (f & -> & Hfs & Hfi).
  cbn [bind].
  rewrite (dim_at_0 xs _ _ Hxss). cbn [bind].
  unfold DynamicEmbedding.floordiv. rewrite Hnodes.
  destruct (Nat.eqb_spec N 0) as [HN0|_]; [lia|]. rewrite Nat.div_mul by lia.
  cbn [bind].
  assert (Hrs : shape (map1 relu f) =
                [(B * N)%nat; T; DynamicEmbedding.embed_dim self]) by exact Hfs.
  destruct (reshape_split (map1 relu f) B N T _ Hrs HB HN HE) as (r & -> & Hrs' & Hri).
  cbn [bind].
  destruct (permute_0213 r B N T _ Hrs') as (out & -> & Hos & Hoi).
  exists l1, l2, out. split; [reflexivity|]. split; [reflexivity|].
  split; [reflexivity|]. split; [exact Hos|].
  intros b t n e Hb Ht Hn He.
  rewrite Hoi, (Hri b n t e Hb Hn Ht He). cbn [map1 item]. rewrite Hfi.
  f_equal. f_equal. apply rsum_ext. intros k _. rewrite Hhi. f_equal. f_equal.
  apply rsum_ext. intros c Hc. now rewrite (Hxsi b n t c Hb Hn Ht Hc), Hxpi.
Qed.

Lemma DynamicEmbedding_mlp_is_affine_witness :
  let args := mkArgs (Some 2%nat) 1 false false false 1 1 1 1 1 3 2 2 2 false 1 true 2 1 1 in
  let x := constant [1; 3; 2; 1]%nat 1 in
  exists self out,
    DynamicEmbedding.init [] args 1 2 1 = Ok self /\
    DynamicEmbedding.forward self x = Ok out /\
    shape out = [1; 3; 2; 2]%nat.
Proof.
  intros args x.
  destruct (DynamicEmbedding.init [] args 1 2 1) as [self|e] eqn:Einit; [|discriminate].
  destruct (embedding_init_spec [] args 1 2 1 2 self Einit eq_refl)
    as (Hwf & Hn & He & _ & Hg & Hl & Ha).
  destruct (DynamicEmbedding_mlp_is_affine self x 1 3 2 1 1 1 Hwf Hg Hl Ha Hn)
    as (l1 & l2 & out & _ & _ & Hf & Hs & _);
    try lia; [reflexivity|].
  exists self, out. split; [reflexivity|]. split; [exact Hf|]. now rewrite Hs, He.
Defined.

End EmbeddingFacts.

(** ** Facts about [get_weights] and [set_weights] *)

Module WeightFacts.

Import Torch Model.

Section Weights.

Context {interop : Normalization.Interop}.

Lemma cast_same (t : Normalization.dtype) (a : ndarray) : cast t t a = a.
Proof. now destruct t. Qed.

Lemma set_data_same (p : parameter) :
  set_data p (cast (param_dtype p) (param_dtype p) (param_data p)) = p.
Proof. rewrite cast_same. now destruct p. Qed.

(** [get_weights] lists the trainable parameters, in order. *)
Lemma get_weights_filter (params : list parameter) :
  LSTM_DSTGCRN.get_weights params =
  (map (fun p => mknp (param_dtype p) (param_data p)) (filter requires_grad params),
   map param_name (filter requires_grad params)).
Proof.
  unfold LSTM_DSTGCRN.get_weights.
  assert (G : forall ws ns,
            fold_left (fun '(weights, names) param =>
                         if requires_grad param
                         then (weights ++ [mknp (param_dtype param) (param_data param)],
                               names ++ [param_name param])
                         else (weights, names))
                      params (ws, ns) =
            (ws ++ map (fun p => mknp (param_dtype p) (param_data p))
                       (filter requires_grad params),
             ns ++ map param_name (filter requires_grad params))).
  { induction params as [|p params IH]; intros ws ns; cbn [fold_left filter map].
    - now rewrite !app_nil_r.
    - destruct (requires_grad p); rewrite IH; cbn [map]; [|reflexivity].
      now rewrite <- !app_assoc. }
  exact (G [] []).
Qed.

Lemma filter_all (params : list parameter) :
  Forall (fun p => requires_grad p = true) params -> filter requires_grad params = params.
Proof.
  induction 1 as [|p params Hp _ IH]; cbn [filter]; [reflexivity|].
  now rewrite Hp, IH.
Qed.

(** X27. When every parameter is trainable, [get_weights] returns one weight and
    one name per parameter, in order, and [set_weights] of these weights
    leaves every parameter as it is. *)
Theorem set_weights_get_weights (params : list parameter) :
  Forall (fun p => requires_grad p = true) params ->
  let weights := fst (LSTM_DSTGCRN.get_weights params) in
  let names := snd (LSTM_DSTGCRN.get_weights params) in
  length weights = length params /\
  names = map param_name params /\
  LSTM_DSTGCRN.set_weights params weights = params.
Proof.
  intros Hall. rewrite get_weights_filter, (filter_all params Hall). cbn [fst snd].
  split; [apply length_map|]. split; [reflexivity|].
  clear Hall. induction params as [|p params IH]; cbn [map LSTM_DSTGCRN.set_weights];
    [reflexivity|].
  cbn [np_dtype np_data]. now rewrite set_data_same, IH.
Qed.

(** X28. [set_weights] checks neither the number nor the shapes of the weights:
    it never raises, assigns the i-th weight, cast to the parameter's dtype,
    to the i-th parameter while there are both, leaves the parameters beyond
    the last weight as they are and ignores the weights beyond the last
    parameter. Names, dtypes and devices never change. *)
Theorem set_weights_assigns_prefix (params : list parameter) (weights : list np_array) :
  let params' := LSTM_DSTGCRN.set_weights params weights in
  length params' = length params /\
  map param_name params' = map param_name params /\
  map param_dtype params' = map param_dtype params /\
  map param_device params' = map param_device params /\
  (forall i p w,
     nth_error params i = Some p -> nth_error weights i = Some w ->
     nth_error params' i =
     Some (set_data p (cast (np_dtype w) (param_dtype p) (np_data w)))) /\
  (forall i, (length weights <= i)%nat -> nth_error params' i = nth_error params i).
Proof.
  cbn zeta. revert weights.
  induction params as [|p params IH]; intros weights.
  - cbn. repeat split; try reflexivity. intros i p w H. destruct i; discriminate.
  - destruct weights as [|w weights].
    + cbn [LSTM_DSTGCRN.set_weights]. repeat split; try reflexivity.
      intros i p0 w0 _ H. destruct i; discriminate.
    + cbn [LSTM_DSTGCRN.set_weights length map].
      destruct (IH weights) as (Hlen & Hn & Hd & Hv & Hset & Hrest).
      rewrite Hlen, Hn, Hd, Hv. cbn [set_data param_name param_dtype param_device].
      repeat split; try reflexivity.
      * intros i p0 w0 Hp Hw. destruct i as [|i]; cbn [nth_error] in *.
        -- now injection Hp as <-; injection Hw as <-.
        -- now apply Hset.
      * intros i Hi. destruct i as [|i]; [lia|]. cbn [nth_error]. apply Hrest. lia.
Qed.

(** X29. [get_weights] skips the parameters that are not trainable and
    [set_weights] does not: after such a parameter the two are out of step.
    When the first parameter is frozen and the second trainable,
    [set_weights] of what [get_weights] returned overwrites the frozen one
    with the weights of the second. *)
Theorem set_weights_after_frozen (p0 p1 : parameter) (rest : list parameter) :
  requires_grad p0 = false -> requires_grad p1 = true ->
  let params := p0 :: p1 :: rest in
  nth_error (LSTM_DSTGCRN.set_weights params (fst (LSTM_DSTGCRN.get_weights params))) 0 =
  Some (set_data p0 (cast (param_dtype p1) (param_dtype p0) (param_data p1))).
Proof.
  intros H0 H1 params. subst params. rewrite get_weights_filter.
  cbn [filter]. rewrite H0, H1. reflexivity.
Qed.

End Weights.

#[local] Existing Instance Normalization.example_interop.

Lemma set_weights_get_weights_witness :
  let p := mkparam "end_conv.bias" (zeros [3%nat]) true Normalization.Float32
                   Normalization.CPU in
  LSTM_DSTGCRN.set_weights (interop := Normalization.example_interop) [p]
    (fst (LSTM_DSTGCRN.get_weights [p])) = [p].
Proof.
  intros p.
  destruct (@set_weights_get_weights Normalization.example_interop [p]) as (_ & _ & H);
    [repeat constructor | exact H].
Defined.

Lemma set_weights_after_frozen_witness :
  let p0 := mkparam "end_conv.weight" (zeros [3; 1; 1; 1]%nat) false Normalization.Float32
                    Normalization.CPU in
  let p1 := mkparam "end_conv.bias" (constant [3%nat] 1) true Normalization.Float32
                    Normalization.CPU in
  nth_error (LSTM_DSTGCRN.set_weights (interop := Normalization.example_interop) [p0; p1]
               (fst (LSTM_DSTGCRN.get_weights [p0; p1]))) 0 =
  Some (set_data p0 (constant [3%nat] 1)).
Proof.
  intros p0 p1.
  exact (@set_weights_after_frozen Normalization.example_interop p0 p1 [] eq_refl eq_refl).
Defined.

End WeightFacts.
